(** * Dynamic navigation mesh of dviglo: a shallow embedding

    The development follows [source/dviglo/navigation/dynamic_navigation_mesh.cpp].
    Machine integers are carried by [Z] with their wrap-around written out,
    byte buffers are [list byte], pointers that may be null are [option]s and
    every member function becomes a function over an explicit state.  The
    Detour tile cache and the Recast pipeline are not part of the sources; the
    code reaches them through an interface ([Detour]) and a record of external
    collaborators ([Env]). *)

From Stdlib Require Import ZArith List Bool Lia Arith Permutation.
From Stdlib Require Import Strings.Byte.
Import ListNotations.

Local Open Scope Z_scope.

Set Implicit Arguments.

(** ** Machine integers *)

Module Machine.

(** [int] and [unsigned] are 32 bits wide, [size_t] is 64 bits wide. *)
Definition INT_MAX : Z := 2 ^ 31 - 1.
Definition INT_MIN : Z := - 2 ^ 31.
Definition UINT_MOD : Z := 2 ^ 32.
Definition SIZE_MOD : Z := 2 ^ 64.

Definition is_int (z : Z) : Prop := INT_MIN <= z <= INT_MAX.
Definition is_unsigned (z : Z) : Prop := 0 <= z < UINT_MOD.
Definition is_size_t (z : Z) : Prop := 0 <= z < SIZE_MOD.

(** Conversion of any integer value to [unsigned]. *)
Definition to_unsigned (z : Z) : Z := z mod UINT_MOD.

(** Conversion of any integer value to [size_t]. *)
Definition to_size_t (z : Z) : Z := z mod SIZE_MOD.

(** Conversion of any integer value to [int] (modular, as C++20 has it). *)
Definition to_int (z : Z) : Z :=
  let u := z mod UINT_MOD in
  if u <? 2 ^ 31 then u else u - UINT_MOD.

End Machine.

(** ** The linear allocator

    [struct LinearAllocator : dtTileCacheAlloc].  The buffer is the block
    handed out by [dtAlloc]; only its base address matters here, [None] being
    the null pointer. *)

Module LinearAllocator.
Import Machine.

Record t := mk {
  buffer : option Z;
  capacity : Z;
  top : Z;
  high : Z
}.

(** [resize(cap)]: [mem] is what [dtAlloc(cap, DT_ALLOC_PERM)] returned. *)
Definition resize (cap : Z) (mem : option Z) (a : t) : t :=
  {| buffer := mem; capacity := cap; top := top a; high := high a |}.

(** [LinearAllocator(cap)]: all members zero, then [resize(cap)]. *)
Definition create (cap : Z) (mem : option Z) : t :=
  resize cap mem {| buffer := None; capacity := 0; top := 0; high := 0 |}.

(** [reset()] *)
Definition reset (a : t) : t :=
  {| buffer := buffer a; capacity := capacity a;
     top := 0; high := Z.max (high a) (top a) |}.

(** [alloc(size)].  In [top + size > capacity] the two [int]s are converted
    to [size_t] and the sum is taken modulo [2^64]; [top += size] converts
    the (modular) sum back to [int].  The result is the returned pointer. *)
Definition alloc (size : Z) (a : t) : option Z * t :=
  match buffer a with
  | None => (None, a)
  | Some base =>
      let sum := to_size_t (to_size_t (top a) + size) in
      if sum >? to_size_t (capacity a) then (None, a)
      else (Some (base + top a),
            {| buffer := buffer a; capacity := capacity a;
               top := to_int sum; high := high a |})
  end.

(** [free(ptr)] has an empty body. *)
Definition free (ptr : option Z) (a : t) : t := a.

(** The members hold values of their C++ types. *)
Definition well_typed (a : t) : Prop :=
  is_int (capacity a) /\ is_int (top a) /\ is_int (high a).

(** The invariant of the claim. *)
Definition inv (a : t) : Prop := 0 <= top a <= capacity a.

(** The allocator of the mesh, [LinearAllocator(32000)], after a first
    allocation of 100 bytes. *)
Definition allocator_32k : t :=
  snd (alloc 100 (create 32000 (Some 4096))).

End LinearAllocator.

(** ** Results of operations that may wait or dereference a null pointer *)

(** [Ret a]: the call returned; [Spin]: a [while] loop was still running when
    the fuel ran out; [Fault]: the call has no defined behaviour (a null
    pointer was dereferenced, a shift count was out of range). *)
Inductive outcome (A : Type) : Type :=
| Ret (a : A)
| Spin
| Fault.

Arguments Ret {A} a.
Arguments Spin {A}.
Arguments Fault {A}.

Definition bind {A B : Type} (m : outcome A) (k : A -> outcome B) : outcome B :=
  match m with
  | Ret a => k a
  | Spin => Spin
  | Fault => Fault
  end.

Notation "x <- m ;; k" := (bind m (fun x => k))
  (at level 61, m at next level, right associativity).
Notation "' p <- m ;; k" := (bind m (fun p => k))
  (at level 61, p pattern, m at next level, right associativity).

(** Monadic [for] loop over a list, threading the state. *)
Fixpoint for_each {A S : Type} (body : A -> S -> outcome S) (l : list A) (s : S)
  : outcome S :=
  match l with
  | [] => Ret s
  | a :: r => s' <- body a s ;; for_each body r s'
  end.

(** The values of [for (int i = a; i <= b; ++i)]. *)
Definition int_range (a b : Z) : list Z :=
  map (fun i => a + Z.of_nat i) (seq 0 (Z.to_nat (b - a + 1))).

(** ** Byte buffers: [Serializer] and [Deserializer] *)

Module Bytes.
Import Machine.

Definition byte_of_Z (z : Z) : byte :=
  match Byte.of_N (Z.to_N (z mod 256)) with
  | Some b => b
  | None => Byte.x00
  end.

Definition Z_of_byte (b : byte) : Z := Z.of_N (Byte.to_N b).

(** The [n] low bytes of [v], least significant first. *)
Fixpoint encode_le (n : nat) (v : Z) : list byte :=
  match n with
  | O => []
  | S k => byte_of_Z v :: encode_le k (v / 256)
  end.

Fixpoint decode_le (bs : list byte) : Z :=
  match bs with
  | [] => 0
  | b :: r => Z_of_byte b + 256 * decode_le r
  end.

(** The unsigned value of the [len] bytes at offset [off]; bytes past the
    end of the buffer read as zero. *)
Definition field_at (off len : nat) (bs : list byte) : Z :=
  decode_le (firstn len (skipn off bs)).

(** [Serializer::WriteI32] appends four bytes to the destination. *)
Definition WriteI32 (v : Z) : list byte := encode_le 4 v.

(** [Deserializer::Read(dest, size)] on a [MemoryBuffer]: the bytes read and
    the rest of the buffer.  A [MemoryBuffer] is modelled by the bytes from
    its position to its end. *)
Definition Read (size : nat) (source : list byte) : list byte * list byte :=
  (firstn size source, skipn size source).

(** [Read(dest, size)] into a fresh allocation of [size] bytes: what the
    source cannot provide keeps the content of the allocation, taken as
    zero. *)
Definition Read_into (size : nat) (source : list byte) : list byte * list byte :=
  (firstn size source ++ repeat Byte.x00 (size - length source), skipn size source).

(** [Deserializer::ReadI32] *)
Definition ReadI32 (source : list byte) : Z * list byte :=
  (to_int (decode_le (firstn 4 source)), skipn 4 source).

(** [Deserializer::IsEof] *)
Definition IsEof (source : list byte) : bool :=
  match source with [] => true | _ => false end.

End Bytes.

(** ** Geometry

    A [float] is kept as its 32-bit pattern; the arithmetic on floats is
    done by the collaborators of [Env]. *)

Definition float : Type := Z.

Record Vector3 := { v_x : float; v_y : float; v_z : float }.

Record BoundingBox := { min_ : Vector3; max_ : Vector3 }.

Record IntVector2 := { iv_x : Z; iv_y : Z }.

Definition Matrix3x4 : Type := list float.

Definition Vector3_ZERO : Vector3 := {| v_x := 0; v_y := 0; v_z := 0 |}.

Definition IntVector2_eqb (a b : IntVector2) : bool :=
  (iv_x a =? iv_x b) && (iv_y a =? iv_y b).

Definition encode_Vector3 (v : Vector3) : list byte :=
  Bytes.encode_le 4 (v_x v) ++ Bytes.encode_le 4 (v_y v) ++ Bytes.encode_le 4 (v_z v).

Definition decode_Vector3 (off : nat) (bs : list byte) : Vector3 :=
  {| v_x := Bytes.field_at off 4 bs;
     v_y := Bytes.field_at (off + 4) 4 bs;
     v_z := Bytes.field_at (off + 8) 4 bs |}.

(** [Serializer::WriteBoundingBox] / [Deserializer::ReadBoundingBox] *)
Definition WriteBoundingBox (b : BoundingBox) : list byte :=
  encode_Vector3 (min_ b) ++ encode_Vector3 (max_ b).

Definition ReadBoundingBox (source : list byte) : BoundingBox * list byte :=
  ({| min_ := decode_Vector3 0 source; max_ := decode_Vector3 12 source |},
   skipn 24 source).

(** ** Detour data *)

(** [dtNavMeshParams] *)
Module NavMeshParams.
Record t := {
  orig : Vector3;
  tileWidth : float;
  tileHeight : float;
  maxTiles : Z;
  maxPolys : Z
}.

Definition size : nat := 28.

Definition encode (p : t) : list byte :=
  encode_Vector3 (orig p) ++ Bytes.encode_le 4 (tileWidth p)
  ++ Bytes.encode_le 4 (tileHeight p)
  ++ Bytes.WriteI32 (maxTiles p) ++ Bytes.WriteI32 (maxPolys p).

Definition decode (bs : list byte) : t :=
  {| orig := decode_Vector3 0 bs;
     tileWidth := Bytes.field_at 12 4 bs;
     tileHeight := Bytes.field_at 16 4 bs;
     maxTiles := Machine.to_int (Bytes.field_at 20 4 bs);
     maxPolys := Machine.to_int (Bytes.field_at 24 4 bs) |}.
End NavMeshParams.

(** [dtTileCacheParams] *)
Module TileCacheParams.
Record t := {
  orig : Vector3;
  cs : float;
  ch : float;
  width : Z;
  height : Z;
  walkableHeight : float;
  walkableRadius : float;
  walkableClimb : float;
  maxSimplificationError : float;
  maxTiles : Z;
  maxObstacles : Z
}.

Definition size : nat := 52.

Definition encode (p : t) : list byte :=
  encode_Vector3 (orig p) ++ Bytes.encode_le 4 (cs p) ++ Bytes.encode_le 4 (ch p)
  ++ Bytes.WriteI32 (width p) ++ Bytes.WriteI32 (height p)
  ++ Bytes.encode_le 4 (walkableHeight p) ++ Bytes.encode_le 4 (walkableRadius p)
  ++ Bytes.encode_le 4 (walkableClimb p)
  ++ Bytes.encode_le 4 (maxSimplificationError p)
  ++ Bytes.WriteI32 (maxTiles p) ++ Bytes.WriteI32 (maxObstacles p).

Definition decode (bs : list byte) : t :=
  {| orig := decode_Vector3 0 bs;
     cs := Bytes.field_at 12 4 bs;
     ch := Bytes.field_at 16 4 bs;
     width := Machine.to_int (Bytes.field_at 20 4 bs);
     height := Machine.to_int (Bytes.field_at 24 4 bs);
     walkableHeight := Bytes.field_at 28 4 bs;
     walkableRadius := Bytes.field_at 32 4 bs;
     walkableClimb := Bytes.field_at 36 4 bs;
     maxSimplificationError := Bytes.field_at 40 4 bs;
     maxTiles := Machine.to_int (Bytes.field_at 44 4 bs);
     maxObstacles := Machine.to_int (Bytes.field_at 48 4 bs) |}.
End TileCacheParams.

(** [dtTileCacheLayerHeader]: the header every compressed layer blob starts
    with.  The fields are the ones [BuildTile] fills in; the layout (five
    [int]s, two float triples, two [unsigned short]s, six [unsigned char]s,
    padded to 56 bytes) is Detour's. *)
Module LayerHeader.
Record t := {
  magic : Z;
  version : Z;
  tx : Z;
  ty : Z;
  tlayer : Z;
  bmin : Vector3;
  bmax : Vector3;
  hmin : Z;
  hmax : Z;
  width : Z;
  height : Z;
  minx : Z;
  maxx : Z;
  miny : Z;
  maxy : Z
}.

(** [sizeof(dtTileCacheLayerHeader)] *)
Definition size : nat := 56.

Definition encode (h : t) : list byte :=
  Bytes.WriteI32 (magic h) ++ Bytes.WriteI32 (version h)
  ++ Bytes.WriteI32 (tx h) ++ Bytes.WriteI32 (ty h) ++ Bytes.WriteI32 (tlayer h)
  ++ encode_Vector3 (bmin h) ++ encode_Vector3 (bmax h)
  ++ Bytes.encode_le 2 (hmin h) ++ Bytes.encode_le 2 (hmax h)
  ++ Bytes.encode_le 1 (width h) ++ Bytes.encode_le 1 (height h)
  ++ Bytes.encode_le 1 (minx h) ++ Bytes.encode_le 1 (maxx h)
  ++ Bytes.encode_le 1 (miny h) ++ Bytes.encode_le 1 (maxy h)
  ++ [Byte.x00; Byte.x00].

Definition decode (bs : list byte) : t :=
  {| magic := Machine.to_int (Bytes.field_at 0 4 bs);
     version := Machine.to_int (Bytes.field_at 4 4 bs);
     tx := Machine.to_int (Bytes.field_at 8 4 bs);
     ty := Machine.to_int (Bytes.field_at 12 4 bs);
     tlayer := Machine.to_int (Bytes.field_at 16 4 bs);
     bmin := decode_Vector3 20 bs;
     bmax := decode_Vector3 32 bs;
     hmin := Bytes.field_at 44 2 bs;
     hmax := Bytes.field_at 46 2 bs;
     width := Bytes.field_at 48 1 bs;
     height := Bytes.field_at 49 1 bs;
     minx := Bytes.field_at 50 1 bs;
     maxx := Bytes.field_at 51 1 bs;
     miny := Bytes.field_at 52 1 bs;
     maxy := Bytes.field_at 53 1 bs |}.

(** [DT_TILECACHE_MAGIC] is ['D'<<24 | 'T'<<16 | 'L'<<8 | 'R'],
    [DT_TILECACHE_VERSION] is 1. *)
Definition DT_TILECACHE_MAGIC : Z := 1146375250.
Definition DT_TILECACHE_VERSION : Z := 1.
End LayerHeader.

(** [dtStatus], seen through [dtStatusFailed]. *)
Inductive dtStatus : Type := DT_SUCCESS | DT_FAILURE.

Definition dtStatusFailed (s : dtStatus) : bool :=
  match s with DT_SUCCESS => false | DT_FAILURE => true end.

(** References handed out by Detour.  A navmesh tile reference ([dtTileRef])
    and a compressed tile reference ([dtCompressedTileRef]) index different
    tables; the model keeps them apart by a constructor each, and [NullRef]
    is the reference 0. *)
Inductive dtRef : Type :=
| NullRef
| TileRef (r : Z)
| CompressedTileRef (r : Z).

(** What [WriteTiles] reads of a [dtCompressedTile]: the bytes its [header]
    pointer designates ([None] when null), [data] and [dataSize]. *)
Record dtCompressedTile := {
  tile_header : option (list byte);
  tile_data : list byte;
  tile_dataSize : Z
}.

(** [dtObstacleRef] *)
Definition dtObstacleRef : Type := Z.

(** The members of [dtNavMesh] and [dtTileCache] the mesh calls.  A navmesh
    pointer that may be null is an [option NM]. *)
Class Detour (NM TC : Type) : Type := {
  (** [dtNavMesh::init] on a freshly allocated navmesh (success case) *)
  navMesh_init : NavMeshParams.t -> NM;
  navMesh_getParams : NM -> NavMeshParams.t;
  navMesh_getTileRefAt : NM -> Z -> Z -> Z -> dtRef;
  (** [dtTileCache::init] on a freshly allocated cache (success case) *)
  tileCache_init : TileCacheParams.t -> TC;
  tileCache_getParams : TC -> TileCacheParams.t;
  (** [addTile(data, dataSize, flags, &ref)] *)
  addTile : list byte -> Z -> TC -> dtStatus * dtRef * TC;
  (** [removeTile(ref, &data, nullptr)] *)
  removeTile : dtRef -> TC -> dtStatus * option (list byte) * TC;
  (** [getTilesAt(tx, ty, tiles, maxTiles)]: the references stored *)
  getTilesAt : Z -> Z -> Z -> TC -> list dtRef;
  getTileByRef : dtRef -> TC -> option dtCompressedTile;
  buildNavMeshTilesAt : Z -> Z -> TC -> option NM -> TC * option NM;
  buildNavMeshTile : dtRef -> TC -> option NM -> TC * option NM;
  (** [update(dt, navmesh)] *)
  update : float -> TC -> option NM -> TC * option NM;
  isObstacleQueueFull : TC -> bool;
  (** [addObstacle(pos, radius, height, &ref)] *)
  addObstacle : Vector3 -> float -> float -> TC -> dtStatus * dtObstacleRef * TC;
  removeObstacle : dtObstacleRef -> TC -> dtStatus * TC
}.

(** ** The scene around the mesh *)

Record Node := {
  node_id : Z;
  worldPosition : Vector3;
  worldTransform : Matrix3x4;
  (** [GetWorldScale().Equals(Vector3::ONE)] *)
  worldScaleIsOne : bool
}.

(** An [Obstacle] component: [GetNode()], the handle [obstacleId_],
    [GetRadius()], [GetHeight()] and [IsEnabledEffective()]. *)
Record Obstacle := {
  obstacle_node : option Node;
  obstacleId_ : dtObstacleRef;
  obstacle_radius : float;
  obstacle_height : float;
  obstacle_enabled : bool
}.

Definition set_obstacleId (o : Obstacle) (id : dtObstacleRef) : Obstacle :=
  {| obstacle_node := obstacle_node o; obstacleId_ := id;
     obstacle_radius := obstacle_radius o; obstacle_height := obstacle_height o;
     obstacle_enabled := obstacle_enabled o |}.

(** [NavigationGeometryInfo]: only the bounding box is read here. *)
Record NavigationGeometryInfo := {
  geometry_id : Z;
  geometry_boundingBox_ : BoundingBox
}.

Record NavAreaStub := { bounds_ : BoundingBox; areaID_ : Z }.

(** The part of [DynamicNavBuildData] that [BuildTile] tests. *)
Record NavBuildData := {
  vertices_ : list Vector3;
  indices_ : list Z;
  navAreas_ : list NavAreaStub
}.

(** [rcHeightfieldLayer] *)
Record rcHeightfieldLayer := {
  layer_bmin : Vector3;
  layer_bmax : Vector3;
  layer_width : Z;
  layer_height : Z;
  layer_minx : Z;
  layer_maxx : Z;
  layer_miny : Z;
  layer_maxy : Z;
  layer_hmin : Z;
  layer_hmax : Z;
  heights : list byte;
  areas : list byte;
  cons : list byte
}.

(** An [OffMeshConnection] component: [IsEnabledEffective()], the world
    position of its node, the world position of [GetEndPoint()] ([None]
    without an end point), [GetRadius()], [GetMask()], [GetAreaID()] and
    [IsBidirectional()]. *)
Record OffMeshConnection := {
  connection_enabled : bool;
  connection_position : Vector3;
  connection_endPoint : option Vector3;
  connection_radius : float;
  connection_mask : Z;
  connection_areaID : Z;
  connection_bidirectional : bool
}.

(** The events sent to the notification sink, with their parameters. *)
Inductive Event : Type :=
| E_NAVIGATION_MESH_REBUILT (P_NODE : option Node)
| E_NAVIGATION_TILE_ADDED (P_NODE : option Node) (P_TILE : IntVector2)
| E_NAVIGATION_AREA_REBUILT (P_NODE : option Node) (P_BOUNDSMIN P_BOUNDSMAX : Vector3)
| E_NAVIGATION_OBSTACLE_ADDED (P_NODE : Node) (P_OBSTACLE : Obstacle)
    (P_POSITION : Vector3) (P_RADIUS P_HEIGHT : float)
| E_NAVIGATION_OBSTACLE_REMOVED (P_NODE : Node) (P_OBSTACLE : Obstacle)
    (P_POSITION : Vector3) (P_RADIUS P_HEIGHT : float).

(** The attributes of the mesh that the build reads. *)
Record Settings := {
  tileSize_ : Z;
  cellSize_ : float;
  cellHeight_ : float;
  agentHeight_ : float;
  agentRadius_ : float;
  agentMaxClimb_ : float;
  edgeMaxError_ : float;
  padding_ : Vector3;
  maxObstacles_ : Z;
  maxLayers_ : Z
}.

(** The collaborators outside this file: allocation and initialisation
    results, float arithmetic of the math library, the geometry collector of
    [NavigationMesh], the Recast pipeline and LZ4. *)
Record Env := {
  (** [dtAllocNavMesh()] returned a non-null pointer *)
  dtAllocNavMesh_ok : bool;
  (** [navMesh_->init(&params)] did not fail *)
  navMesh_init_ok : NavMeshParams.t -> bool;
  dtAllocTileCache_ok : bool;
  tileCache_init_ok : TileCacheParams.t -> bool;
  (** [dtAlloc(size, DT_ALLOC_PERM)] returned a non-null pointer *)
  dtAlloc_ok : Z -> bool;
  (** [box.Transformed(m.Inverse())] *)
  Transformed_Inverse : BoundingBox -> Matrix3x4 -> BoundingBox;
  (** [(float)tileSize_ * cellSize_] *)
  tileEdgeLength : Z -> float -> float;
  rcCalcGridSize : Vector3 -> Vector3 -> float -> Z * Z;
  (** [boundingBox_.Merge(box)] *)
  Merge : BoundingBox -> BoundingBox -> BoundingBox;
  (** [min_ -= padding_; max_ += padding_] *)
  Padded : BoundingBox -> Vector3 -> BoundingBox;
  (** [m.Inverse()] and [m * v] *)
  Inverse : Matrix3x4 -> Matrix3x4;
  transform : Matrix3x4 -> Vector3 -> Vector3;
  (** [node->GetComponents<OffMeshConnection>(connections, true)] *)
  GetComponents_OffMeshConnection : Node -> list OffMeshConnection;
  (** [collect_geometries(geometryList)] *)
  collect_geometries : list NavigationGeometryInfo;
  (** [GetTileBoundingBox(IntVector2(x, z))] of [NavigationMesh] *)
  GetTileBoundingBox : BoundingBox -> Settings -> Z -> Z -> BoundingBox;
  (** the tile box grown by [cfg.borderSize * cfg.cs] on its x and z sides *)
  expandedBox : Settings -> BoundingBox -> BoundingBox;
  (** [GetTileGeometry(&build, geometryList, expandedBox)] *)
  GetTileGeometry : list NavigationGeometryInfo -> BoundingBox -> NavBuildData;
  (** the Recast calls of [BuildTile], from [rcAllocHeightfield] to
      [rcBuildHeightfieldLayers]: [None] when one of them fails, the layers
      of [build.heightFieldLayers_] otherwise *)
  rcBuildHeightfieldLayers :
    Settings -> BoundingBox -> NavBuildData -> option (list rcHeightfieldLayer);
  LZ4_compress_default : list byte -> list byte
}.

(** Modelled from the spec: [NextPowerOfTwo] of the math library is missing;
    the spec has it round its argument up to the next power of two.  The
    result is an [unsigned]. *)
Definition NextPowerOfTwo (value : Z) : Z :=
  Machine.to_unsigned (2 ^ Z.log2_up value).

(** Modelled from the spec: [LogBaseTwo] of the math library is missing;
    the spec uses it as [log2] of a power of two. *)
Definition LogBaseTwo (value : Z) : Z := Z.log2 value.

(** [v << n] on [unsigned]: undefined for [n >= 32]. *)
Definition shl_unsigned (v n : Z) : outcome Z :=
  if n <? 32 then Ret (Machine.to_unsigned (v * 2 ^ n)) else Fault.

(** The float constants passed to [update]. *)
Definition float_0 : float := 0.
Definition float_1 : float := 1065353216.

Definition TILECACHE_MAXLAYERS : Z := 255.
Definition DEFAULT_MAX_OBSTACLES : Z := 1024.
Definition DEFAULT_MAX_LAYERS : Z := 16.

(** Modelled from the spec: [dtBuildTileCacheLayer] of Detour is missing;
    the spec has it serialize header, heights, areas and connectivity into
    one blob through the tile compressor.  [TileCompressor::compress] hands
    the buffer to LZ4 and always answers [DT_SUCCESS], so only the allocation
    of the blob can fail. *)
Definition dtBuildTileCacheLayer (env : Env) (hdr : LayerHeader.t)
    (hs ars cns : list byte) : option (list byte) :=
  let buffer := hs ++ ars ++ cns in
  if dtAlloc_ok env (Z.of_nat (LayerHeader.size + length buffer))
  then Some (LayerHeader.encode hdr ++ LZ4_compress_default env buffer)
  else None.

(** ** The mesh *)

(** The members of [DynamicNavigationMesh] (with those of its base class)
    that the operations below read or write, the scene reached through
    [GetScene()] and the notification sink. *)
Record DynamicNavigationMesh (NM TC : Type) := {
  node_ : option Node;
  (** [GetScene()]: the obstacles of the scene, [None] without a scene *)
  scene_ : option (list Obstacle);
  navMesh_ : option NM;
  tileCache_ : option TC;
  boundingBox_ : BoundingBox;
  numTilesX_ : Z;
  numTilesZ_ : Z;
  settings : Settings;
  tileQueue_ : list IntVector2;
  (** events sent so far, oldest first *)
  events : list Event
}.

Arguments Build_DynamicNavigationMesh {NM TC}.

Section Mesh.
Context {NM TC : Type} {D : Detour NM TC}.

Definition Mesh : Type := DynamicNavigationMesh NM TC.

Definition set_navMesh (st : Mesh) (nm : option NM) : Mesh :=
  Build_DynamicNavigationMesh (node_ st) (scene_ st) nm (tileCache_ st)
    (boundingBox_ st) (numTilesX_ st) (numTilesZ_ st) (settings st)
    (tileQueue_ st) (events st).

Definition set_tileCache (st : Mesh) (tc : option TC) : Mesh :=
  Build_DynamicNavigationMesh (node_ st) (scene_ st) (navMesh_ st) tc
    (boundingBox_ st) (numTilesX_ st) (numTilesZ_ st) (settings st)
    (tileQueue_ st) (events st).

Definition set_boundingBox (st : Mesh) (b : BoundingBox) : Mesh :=
  Build_DynamicNavigationMesh (node_ st) (scene_ st) (navMesh_ st) (tileCache_ st)
    b (numTilesX_ st) (numTilesZ_ st) (settings st) (tileQueue_ st) (events st).

Definition set_numTiles (st : Mesh) (nx nz : Z) : Mesh :=
  Build_DynamicNavigationMesh (node_ st) (scene_ st) (navMesh_ st) (tileCache_ st)
    (boundingBox_ st) nx nz (settings st) (tileQueue_ st) (events st).

Definition set_tileQueue (st : Mesh) (q : list IntVector2) : Mesh :=
  Build_DynamicNavigationMesh (node_ st) (scene_ st) (navMesh_ st) (tileCache_ st)
    (boundingBox_ st) (numTilesX_ st) (numTilesZ_ st) (settings st) q (events st).

Definition set_scene (st : Mesh) (s : option (list Obstacle)) : Mesh :=
  Build_DynamicNavigationMesh (node_ st) s (navMesh_ st) (tileCache_ st)
    (boundingBox_ st) (numTilesX_ st) (numTilesZ_ st) (settings st)
    (tileQueue_ st) (events st).

(** [SendEvent] *)
Definition SendEvent (st : Mesh) (e : Event) : Mesh :=
  Build_DynamicNavigationMesh (node_ st) (scene_ st) (navMesh_ st) (tileCache_ st)
    (boundingBox_ st) (numTilesX_ st) (numTilesZ_ st) (settings st)
    (tileQueue_ st) (events st ++ [e]).

(** The cache and the navmesh after a call that went through both. *)
Definition set_detour (st : Mesh) (p : TC * option NM) : Mesh :=
  set_navMesh (set_tileCache st (Some (fst p))) (snd p).

Definition BoundingBox_cleared : BoundingBox :=
  {| min_ := Vector3_ZERO; max_ := Vector3_ZERO |}.

(** [ReleaseTileCache] *)
Definition ReleaseTileCache (st : Mesh) : Mesh := set_tileCache st None.

(** Modelled from the spec: [NavigationMesh::release_navigation_mesh] of the
    base class is missing; it releases the navmesh, and its callers describe
    it as "release existing navigation data and zero the bounding box". *)
Definition NavigationMesh_release_navigation_mesh (st : Mesh) : Mesh :=
  set_boundingBox (set_numTiles (set_navMesh st None) 0 0) BoundingBox_cleared.

(** [DynamicNavigationMesh::release_navigation_mesh] *)
Definition release_navigation_mesh (st : Mesh) : Mesh :=
  ReleaseTileCache (NavigationMesh_release_navigation_mesh st).

(** [while (tileCache_->isObstacleQueueFull()) tileCache_->update(1, navMesh_);] *)
Fixpoint wait_for_queue (fuel : nat) (tc : TC) (nm : option NM)
  : outcome (TC * option NM) :=
  if isObstacleQueueFull tc then
    match fuel with
    | O => Spin
    | S k => let '(tc', nm') := update float_1 tc nm in wait_for_queue k tc' nm'
    end
  else Ret (tc, nm).

(** [AddObstacle(obstacle, silent)]: the mesh and the obstacle afterwards. *)
Definition AddObstacle (fuel : nat) (obstacle : Obstacle) (silent : bool)
    (st : Mesh) : outcome (Mesh * Obstacle) :=
  match tileCache_ st with
  | None => Ret (st, obstacle)
  | Some tc =>
      match obstacle_node obstacle with
      | None => Fault
      | Some n =>
          let pos := worldPosition n in
          '(tc1, nm1) <- wait_for_queue fuel tc (navMesh_ st) ;;
          let '(status, refHolder, tc2) :=
            addObstacle pos (obstacle_radius obstacle) (obstacle_height obstacle) tc1 in
          let st1 := set_detour st (tc2, nm1) in
          if dtStatusFailed status then Ret (st1, obstacle)
          else
            let obstacle' := set_obstacleId obstacle refHolder in
            if silent then Ret (st1, obstacle')
            else Ret (SendEvent st1
                        (E_NAVIGATION_OBSTACLE_ADDED n obstacle' (worldPosition n)
                           (obstacle_radius obstacle) (obstacle_height obstacle)),
                      obstacle')
      end
  end.

(** [RemoveObstacle(obstacle, silent)] *)
Definition RemoveObstacle (fuel : nat) (obstacle : Obstacle) (silent : bool)
    (st : Mesh) : outcome (Mesh * Obstacle) :=
  match tileCache_ st with
  | None => Ret (st, obstacle)
  | Some tc =>
      if obstacleId_ obstacle >? 0 then
        '(tc1, nm1) <- wait_for_queue fuel tc (navMesh_ st) ;;
        let '(status, tc2) := removeObstacle (obstacleId_ obstacle) tc1 in
        let st1 := set_detour st (tc2, nm1) in
        if dtStatusFailed status then Ret (st1, obstacle)
        else
          let obstacle' := set_obstacleId obstacle 0 in
          match silent, obstacle_node obstacle with
          | false, Some n =>
              Ret (SendEvent st1
                     (E_NAVIGATION_OBSTACLE_REMOVED n obstacle' (worldPosition n)
                        (obstacle_radius obstacle) (obstacle_height obstacle)),
                   obstacle')
          | _, _ => Ret (st1, obstacle')
          end
      else Ret (st, obstacle)
  end.

(** [ObstacleChanged(obstacle)] *)
Definition ObstacleChanged (fuel : nat) (obstacle : Obstacle) (st : Mesh)
  : outcome (Mesh * Obstacle) :=
  match tileCache_ st with
  | None => Ret (st, obstacle)
  | Some _ =>
      '(st1, obstacle1) <- RemoveObstacle fuel obstacle true st ;;
      AddObstacle fuel obstacle1 true st1
  end.

(** What the spec says of [ObstacleChanged]: a silent removal followed by an
    addition with the normal, non-silent notification. *)
Definition ObstacleChanged_spec (fuel : nat) (obstacle : Obstacle) (st : Mesh)
  : outcome (Mesh * Obstacle) :=
  '(st1, obstacle1) <- RemoveObstacle fuel obstacle true st ;;
  AddObstacle fuel obstacle1 false st1.

(** The events in the sink after a call, when the call returned. *)
Definition events_sent (r : outcome (Mesh * Obstacle)) : option (list Event) :=
  match r with
  | Ret (st, _) => Some (events st)
  | _ => None
  end.

(** The loop over the obstacles of the scene that ends [Allocate] and
    [Build]: every effectively enabled obstacle is added, non-silently. *)
Fixpoint add_scene_obstacles (fuel : nat) (obstacles : list Obstacle) (st : Mesh)
  : outcome (Mesh * list Obstacle) :=
  match obstacles with
  | [] => Ret (st, [])
  | obs :: rest =>
      '(st1, obs1) <- (if obstacle_enabled obs then AddObstacle fuel obs false st
                       else Ret (st, obs)) ;;
      '(st2, rest2) <- add_scene_obstacles fuel rest st1 ;;
      Ret (st2, obs1 :: rest2)
  end.

Definition scan_for_obstacles (fuel : nat) (st : Mesh) : outcome Mesh :=
  match scene_ st with
  | None => Fault
  | Some obstacles =>
      '(st1, obstacles1) <- add_scene_obstacles fuel obstacles st ;;
      Ret (set_scene st1 (Some obstacles1))
  end.

End Mesh.

Section Building.
Context {NM TC : Type} {D : Detour NM TC}.
Variable env : Env.

Local Abbreviation Mesh := (DynamicNavigationMesh NM TC).

(** [struct DynamicNavigationMesh::TileCacheData] *)
Record TileCacheData := { data : list byte; dataSize : Z }.

(** [numTilesX_] and [numTilesZ_] from the bounding box: the grid size of
    Recast, divided by the tile size and rounded up. *)
Definition count_tiles (st : Mesh) : Z * Z :=
  let '(gridW, gridH) :=
    rcCalcGridSize env (min_ (boundingBox_ st)) (max_ (boundingBox_ st))
      (cellSize_ (settings st)) in
  let tileSize := tileSize_ (settings st) in
  (Z.quot (gridW + tileSize - 1) tileSize, Z.quot (gridH + tileSize - 1) tileSize).

(** "22 bits available to identify both tile & polygon within tile":
    [tileBits = LogBaseTwo(maxTiles)], the shift count [22 - tileBits]
    (an [unsigned]) and [maxPolys = 1u << (22 - tileBits)]. *)
Definition tileBits_of (maxTiles : Z) : Z := LogBaseTwo maxTiles.

Definition polyBits_of (maxTiles : Z) : Z :=
  Machine.to_unsigned (22 - tileBits_of maxTiles).

Definition maxPolys_of (maxTiles : Z) : outcome Z :=
  shl_unsigned 1 (polyBits_of maxTiles).

(** The [dtNavMeshParams] both [Allocate] and [Build] fill in. *)
Definition navMesh_params (st : Mesh) (maxTiles maxPolys : Z) : NavMeshParams.t :=
  let tileEdge := tileEdgeLength env (tileSize_ (settings st)) (cellSize_ (settings st)) in
  {| NavMeshParams.orig := min_ (boundingBox_ st);
     NavMeshParams.tileWidth := tileEdge;
     NavMeshParams.tileHeight := tileEdge;
     NavMeshParams.maxTiles := Machine.to_int maxTiles;
     NavMeshParams.maxPolys := Machine.to_int maxPolys |}.

(** The [dtTileCacheParams] both fill in, [maxTiles] apart. *)
Definition tileCache_params (st : Mesh) (maxTiles : Z) : TileCacheParams.t :=
  let s := settings st in
  {| TileCacheParams.orig := min_ (boundingBox_ st);
     TileCacheParams.cs := cellSize_ s;
     TileCacheParams.ch := cellHeight_ s;
     TileCacheParams.width := tileSize_ s;
     TileCacheParams.height := tileSize_ s;
     TileCacheParams.walkableHeight := agentHeight_ s;
     TileCacheParams.walkableRadius := agentRadius_ s;
     TileCacheParams.walkableClimb := agentMaxClimb_ s;
     TileCacheParams.maxSimplificationError := edgeMaxError_ s;
     TileCacheParams.maxTiles := Machine.to_int maxTiles;
     TileCacheParams.maxObstacles := maxObstacles_ s |}.

(** Allocation and initialisation of the navmesh and of the tile cache, as
    [Allocate] and [Build] both write it: [false] with the state left behind
    by the failing step, or [true] with both objects in place. *)
Definition allocate_detour (st : Mesh) (params : NavMeshParams.t)
    (tileCacheParams : TileCacheParams.t) : bool * Mesh :=
  if negb (dtAllocNavMesh_ok env) then (false, st)
  else if negb (navMesh_init_ok env params) then (false, release_navigation_mesh st)
  else
    let st1 := set_navMesh st (Some (navMesh_init params)) in
    if negb (dtAllocTileCache_ok env) then (false, release_navigation_mesh st1)
    else if negb (tileCache_init_ok env tileCacheParams)
    then (false, release_navigation_mesh st1)
    else (true, set_tileCache st1 (Some (tileCache_init tileCacheParams))).

(** The four ways in which allocation fails. *)
Definition allocation_fails (params : NavMeshParams.t)
    (tileCacheParams : TileCacheParams.t) : Prop :=
  dtAllocNavMesh_ok env = false \/ navMesh_init_ok env params = false \/
  dtAllocTileCache_ok env = false \/ tileCache_init_ok env tileCacheParams = false.

(** The first half of [Allocate], up to the two parameter structs: the state
    with bounding box and tile counts set, and the structs. *)
Definition Allocate_params (node : Node) (boundingBox : BoundingBox) (maxTiles : Z)
    (st : Mesh) : outcome (Mesh * NavMeshParams.t * TileCacheParams.t) :=
  let st1 := set_boundingBox st
               (Transformed_Inverse env boundingBox (worldTransform node)) in
  let maxTiles := NextPowerOfTwo maxTiles in
  let '(nx, nz) := count_tiles st1 in
  let st2 := set_numTiles st1 nx nz in
  maxPolys <- maxPolys_of maxTiles ;;
  Ret (st2, navMesh_params st2 maxTiles maxPolys,
       tileCache_params st2 (Machine.to_unsigned (maxTiles * maxLayers_ (settings st2)))).

(** [Allocate(boundingBox, maxTiles)] *)
Definition Allocate (fuel : nat) (boundingBox : BoundingBox) (maxTiles : Z)
    (st : Mesh) : outcome (bool * Mesh) :=
  let st0 := release_navigation_mesh st in
  match node_ st0 with
  | None => Ret (false, st0)
  | Some node =>
      '(st2, params, tileCacheParams) <- Allocate_params node boundingBox maxTiles st0 ;;
      let '(ok, st3) := allocate_detour st2 params tileCacheParams in
      if ok then
        st4 <- scan_for_obstacles fuel st3 ;;
        Ret (true, SendEvent st4 (E_NAVIGATION_MESH_REBUILT (node_ st4)))
      else Ret (false, st3)
  end.

(** The header of layer [i] of tile [(x, z)], as [BuildTile] fills it in. *)
Definition layer_header (x z i : Z) (layer : rcHeightfieldLayer) : LayerHeader.t :=
  {| LayerHeader.magic := LayerHeader.DT_TILECACHE_MAGIC;
     LayerHeader.version := LayerHeader.DT_TILECACHE_VERSION;
     LayerHeader.tx := x;
     LayerHeader.ty := z;
     LayerHeader.tlayer := i;
     LayerHeader.bmin := layer_bmin layer;
     LayerHeader.bmax := layer_bmax layer;
     LayerHeader.hmin := layer_hmin layer mod 65536;
     LayerHeader.hmax := layer_hmax layer mod 65536;
     LayerHeader.width := layer_width layer mod 256;
     LayerHeader.height := layer_height layer mod 256;
     LayerHeader.minx := layer_minx layer mod 256;
     LayerHeader.maxx := layer_maxx layer mod 256;
     LayerHeader.miny := layer_miny layer mod 256;
     LayerHeader.maxy := layer_maxy layer mod 256 |}.

(** The loop over [build.heightFieldLayers_->layers]: the blobs written to
    [tiles], or [None] when [dtBuildTileCacheLayer] fails on a layer. *)
Fixpoint build_layers (x z i : Z) (layers : list rcHeightfieldLayer)
  : option (list TileCacheData) :=
  match layers with
  | [] => Some []
  | layer :: rest =>
      match dtBuildTileCacheLayer env (layer_header x z i layer)
              (heights layer) (areas layer) (cons layer) with
      | None => None
      | Some blob =>
          match build_layers x z (i + 1) rest with
          | None => None
          | Some tiles =>
              Some ({| data := blob; dataSize := Z.of_nat (length blob) |} :: tiles)
          end
      end
  end.

(** Recast never finds more layers than the array of [BuildTile] holds. *)
Definition layers_fit : Prop :=
  forall s b d layers,
    rcBuildHeightfieldLayers env s b d = Some layers ->
    Z.of_nat (length layers) <= TILECACHE_MAXLAYERS.

(** The expanded box of tile [(x, z)] holds no geometry: [GetTileGeometry]
    collects no vertex or no index. *)
Definition tile_is_void (geometryList : list NavigationGeometryInfo) (x z : Z)
    (st : Mesh) : Prop :=
  let tileBoundingBox := GetTileBoundingBox env (boundingBox_ st) (settings st) x z in
  let build :=
    GetTileGeometry env geometryList (expandedBox env (settings st) tileBoundingBox) in
  vertices_ build = [] \/ indices_ build = [].

(** [BuildTile(geometryList, x, z, tiles)]: the first [retCt] entries of
    [tiles] (their number is the result) and the mesh afterwards. *)
Definition BuildTile (geometryList : list NavigationGeometryInfo) (x z : Z)
    (st : Mesh) : outcome (list TileCacheData * Mesh) :=
  match tileCache_ st, navMesh_ st with
  | Some tc, Some nm =>
      let '(_, _, tc1) := removeTile (navMesh_getTileRefAt nm x z 0) tc in
      let st1 := set_tileCache st (Some tc1) in
      let tileBoundingBox := GetTileBoundingBox env (boundingBox_ st) (settings st) x z in
      let expanded := expandedBox env (settings st) tileBoundingBox in
      let build := GetTileGeometry env geometryList expanded in
      match vertices_ build, indices_ build with
      | [], _ | _, [] => Ret ([], st1)
      | _, _ =>
          match rcBuildHeightfieldLayers env (settings st) expanded build with
          | None => Ret ([], st1)
          | Some layers =>
              if TILECACHE_MAXLAYERS <? Z.of_nat (length layers) then Fault
              else
                match build_layers x z 0 layers with
                | None => Ret ([], st1)
                | Some tiles =>
                    Ret (tiles,
                         SendEvent st1
                           (E_NAVIGATION_AREA_REBUILT (node_ st)
                              (min_ tileBoundingBox) (max_ tileBoundingBox)))
                end
          end
      end
  | _, _ => Fault
  end.

(** The tile coordinates of two nested loops, [z] outside and [x] inside. *)
Definition tile_coordinates (from to : IntVector2) : list (Z * Z) :=
  flat_map (fun z => map (fun x => (x, z)) (int_range (iv_x from) (iv_x to)))
           (int_range (iv_y from) (iv_y to)).

(** The inner loop of [Build()]: every blob goes to [addTile]; a blob that
    is refused is freed. *)
Fixpoint add_built_tiles (tiles : list TileCacheData) (tc : TC) : TC :=
  match tiles with
  | [] => tc
  | t :: rest =>
      let '(_, _, tc1) := addTile (data t) (dataSize t) tc in
      add_built_tiles rest tc1
  end.

(** One round of the tile loop of [Build()]. *)
Definition Build_tile_at (geometryList : list NavigationGeometryInfo)
    (xz : Z * Z) (st : Mesh) : outcome Mesh :=
  '(tiles, st1) <- BuildTile geometryList (fst xz) (snd xz) st ;;
  match tileCache_ st1 with
  | None => Fault
  | Some tc =>
      let tc1 := add_built_tiles tiles tc in
      Ret (set_detour st1 (buildNavMeshTilesAt (fst xz) (snd xz) tc1 (navMesh_ st1)))
  end.

(** The first half of [Build()] once geometry was found, up to the two
    parameter structs: the state with bounding box and tile counts set, and
    the structs. *)
Definition Build_params (geometryList : list NavigationGeometryInfo) (st : Mesh)
  : outcome (Mesh * NavMeshParams.t * TileCacheParams.t) :=
  let merged :=
    fold_left (fun b g => Merge env b (geometry_boundingBox_ g))
              geometryList (boundingBox_ st) in
  let st1 := set_boundingBox st (Padded env merged (padding_ (settings st))) in
  let '(nx, nz) := count_tiles st1 in
  let st2 := set_numTiles st1 nx nz in
  let maxLayers := maxLayers_ (settings st2) in
  let numTiles := Machine.to_unsigned (Machine.to_int (nx * nz)) in
  let maxTiles := Machine.to_unsigned (NextPowerOfTwo numTiles * maxLayers) in
  maxPolys <- maxPolys_of maxTiles ;;
  Ret (st2, navMesh_params st2 maxTiles maxPolys,
       tileCache_params st2 (Machine.to_unsigned (numTiles * maxLayers))).

(** The second half of [Build()], once navmesh and tile cache are in place:
    every tile is built, the cache is updated once, the rebuild is notified
    and the obstacles of the scene are added. *)
Definition Build_all_tiles (fuel : nat) (geometryList : list NavigationGeometryInfo)
    (st : Mesh) : outcome (bool * Mesh) :=
  st4 <- for_each (Build_tile_at geometryList)
           (tile_coordinates {| iv_x := 0; iv_y := 0 |}
              {| iv_x := numTilesX_ st - 1; iv_y := numTilesZ_ st - 1 |}) st ;;
  match tileCache_ st4 with
  | None => Fault
  | Some tc =>
      let st5 := set_detour st4 (update float_0 tc (navMesh_ st4)) in
      let st6 := SendEvent st5 (E_NAVIGATION_MESH_REBUILT (node_ st5)) in
      st7 <- scan_for_obstacles fuel st6 ;;
      Ret (true, st7)
  end.

(** [Build()] *)
Definition Build (fuel : nat) (st : Mesh) : outcome (bool * Mesh) :=
  let st0 := release_navigation_mesh st in
  match node_ st0 with
  | None => Ret (false, st0)
  | Some node =>
      let geometryList := collect_geometries env in
      match geometryList with
      | [] => Ret (true, st0)
      | _ =>
          '(st2, params, tileCacheParams) <- Build_params geometryList st0 ;;
          let '(ok, st3) := allocate_detour st2 params tileCacheParams in
          if ok then Build_all_tiles fuel geometryList st3
          else Ret (false, st3)
      end
  end.

(** The removal of the blobs [getTilesAt] found, in [build_tiles]. *)
Fixpoint remove_existing (existing : list dtRef) (tc : TC) : TC :=
  match existing with
  | [] => tc
  | r :: rest => let '(_, _, tc1) := removeTile r tc in remove_existing rest tc1
  end.

(** The inner loop of [build_tiles]: a blob that [addTile] accepts is turned
    into a navmesh tile at once and counted. *)
Fixpoint add_rebuilt_tiles (tiles : list TileCacheData) (p : TC * option NM)
    (numTiles : Z) : TC * option NM * Z :=
  match tiles with
  | [] => (p, numTiles)
  | t :: rest =>
      let '(status, tileRef, tc1) := addTile (data t) (dataSize t) (fst p) in
      if dtStatusFailed status then add_rebuilt_tiles rest (tc1, snd p) numTiles
      else add_rebuilt_tiles rest (buildNavMeshTile tileRef tc1 (snd p)) (numTiles + 1)
  end.

(** One round of the loop of [build_tiles]. *)
Definition build_tiles_at (geometryList : list NavigationGeometryInfo)
    (xz : Z * Z) (s : Mesh * Z) : outcome (Mesh * Z) :=
  let '(st, numTiles) := s in
  match tileCache_ st with
  | None => Fault
  | Some tc =>
      let existing :=
        getTilesAt (fst xz) (snd xz) (Machine.to_int (maxLayers_ (settings st))) tc in
      let st1 := set_tileCache st (Some (remove_existing existing tc)) in
      '(tiles, st2) <- BuildTile geometryList (fst xz) (snd xz) st1 ;;
      match tileCache_ st2 with
      | None => Fault
      | Some tc2 =>
          let '(p, numTiles') := add_rebuilt_tiles tiles (tc2, navMesh_ st2) numTiles in
          Ret (set_detour st2 p, numTiles')
      end
  end.

(** [build_tiles(geometryList, from, to)] *)
Definition build_tiles (geometryList : list NavigationGeometryInfo)
    (from to : IntVector2) (st : Mesh) : outcome (Z * Mesh) :=
  '(st1, numTiles) <- for_each (build_tiles_at geometryList)
                        (tile_coordinates from to) (st, 0) ;;
  Ret (numTiles, st1).

(** [Build(from, to)] *)
Definition Build_range (from to : IntVector2) (st : Mesh) : outcome (bool * Mesh) :=
  match node_ st with
  | None => Ret (false, st)
  | Some node =>
      match navMesh_ st with
      | None => Ret (false, st)
      | Some _ =>
          '(_, st1) <- build_tiles (collect_geometries env) from to st ;;
          Ret (true, st1)
      end
  end.

End Building.

Section Serialization.
Context {NM TC : Type} {D : Detour NM TC}.
Variable env : Env.

Local Abbreviation Mesh := (DynamicNavigationMesh NM TC).

(** The record [WriteTiles] emits for one reference: nothing for a
    "void-space" tile, else header, [dataSize] and the blob. *)
Definition write_tile (tc : TC) (ref : dtRef) : list byte :=
  match getTileByRef ref tc with
  | None => []
  | Some tile =>
      match tile_header tile with
      | None => []
      | Some hdr =>
          if tile_dataSize tile =? 0 then []
          else firstn LayerHeader.size hdr
               ++ Bytes.WriteI32 (tile_dataSize tile)
               ++ firstn (Z.to_nat (Machine.to_unsigned (tile_dataSize tile)))
                         (tile_data tile)
      end
  end.

(** The body of [WriteTiles(dest, x, z)] on the cache [tileCache_] points
    to: the bytes appended to [dest]. *)
Definition write_tiles_at (maxLayers : Z) (tc : TC) (x z : Z) : list byte :=
  flat_map (write_tile tc) (getTilesAt x z (Machine.to_int maxLayers) tc).

(** [WriteTiles(dest, x, z)] *)
Definition WriteTiles (x z : Z) (st : Mesh) : outcome (list byte) :=
  match tileCache_ st with
  | None => Fault
  | Some tc => Ret (write_tiles_at (maxLayers_ (settings st)) tc x z)
  end.

(** [GetTileData(tile)] *)
Definition GetTileData (tile : IntVector2) (st : Mesh) : outcome (list byte) :=
  WriteTiles (iv_x tile) (iv_y tile) st.

(** [GetNavigationDataAttr()] *)
Definition GetNavigationDataAttr (st : Mesh) : list byte :=
  match navMesh_ st, tileCache_ st with
  | Some nm, Some tc =>
      WriteBoundingBox (boundingBox_ st)
      ++ Bytes.WriteI32 (numTilesX_ st)
      ++ Bytes.WriteI32 (numTilesZ_ st)
      ++ NavMeshParams.encode (navMesh_getParams nm)
      ++ TileCacheParams.encode (tileCache_getParams tc)
      ++ flat_map (fun xz => write_tiles_at (maxLayers_ (settings st)) tc (fst xz) (snd xz))
           (tile_coordinates {| iv_x := 0; iv_y := 0 |}
              {| iv_x := numTilesX_ st - 1; iv_y := numTilesZ_ st - 1 |})
  | _, _ => []
  end.

(** [tileQueue_.Push(tileIdx)] unless the queue ends with [tileIdx]. *)
Definition queue_tile (queue : list IntVector2) (tileIdx : IntVector2)
  : list IntVector2 :=
  match rev queue with
  | [] => queue ++ [tileIdx]
  | back :: _ =>
      if IntVector2_eqb back tileIdx then queue else queue ++ [tileIdx]
  end.

(** The [while (!source.IsEof())] loop of [ReadTiles]: [false] when the
    loop left through a [return false].  Every round consumes at least one
    byte, so a fuel of the length of the source is never used up. *)
Fixpoint read_tiles (fuel : nat) (source : list byte) (tc : TC)
    (queue : list IntVector2) : bool * TC * list IntVector2 :=
  if Bytes.IsEof source then (true, tc, queue)
  else
    match fuel with
    | O => (true, tc, queue)
    | S k =>
        let '(hdr, source1) := Bytes.Read LayerHeader.size source in
        let header := LayerHeader.decode hdr in
        let '(size, source2) := Bytes.ReadI32 source1 in
        if negb (dtAlloc_ok env size) then (false, tc, queue)
        else
          let '(blob, source3) :=
            Bytes.Read_into (Z.to_nat (Machine.to_unsigned size)) source2 in
          let '(status, _, tc1) := addTile blob size tc in
          if dtStatusFailed status then (false, tc1, queue)
          else
            let tileIdx := {| iv_x := LayerHeader.tx header;
                              iv_y := LayerHeader.ty header |} in
            read_tiles k source3 tc1 (queue_tile queue tileIdx)
    end.

(** [buildNavMeshTilesAt] for every queued coordinate. *)
Fixpoint build_queued (queue : list IntVector2) (p : TC * option NM)
  : TC * option NM :=
  match queue with
  | [] => p
  | t :: rest =>
      build_queued rest (buildNavMeshTilesAt (iv_x t) (iv_y t) (fst p) (snd p))
  end.

(** [ReadTiles(source, silent)] *)
Definition ReadTiles (source : list byte) (silent : bool) (st : Mesh)
  : outcome (bool * Mesh) :=
  match tileCache_ st with
  | None => Fault
  | Some tc =>
      let '(ok, tc1, queue) := read_tiles (length source) source tc [] in
      let st1 := set_tileQueue (set_tileCache st (Some tc1)) queue in
      if ok then
        let p := build_queued queue (tc1, navMesh_ st1) in
        let st2 := set_detour st1 (update float_0 (fst p) (snd p)) in
        let st3 :=
          if silent then st2
          else fold_left
                 (fun s t => SendEvent s (E_NAVIGATION_TILE_ADDED (node_ s) t))
                 queue st2 in
        Ret (true, st3)
      else Ret (false, st1)
  end.

(** [AddTile(tileData)] *)
Definition AddTile (tileData : list byte) (st : Mesh) : outcome (bool * Mesh) :=
  ReadTiles tileData false st.

(** [SetNavigationDataAttr(value)] once [value] is known not to be empty:
    [st0] is the mesh after [release_navigation_mesh]. *)
Definition read_navigation_data (value : list byte) (st0 : Mesh) : outcome Mesh :=
  let '(box, buffer1) := ReadBoundingBox value in
  let '(nx, buffer2) := Bytes.ReadI32 buffer1 in
  let '(nz, buffer3) := Bytes.ReadI32 buffer2 in
  let st1 := set_numTiles (set_boundingBox st0 box) nx nz in
  let '(raw, buffer4) := Bytes.Read NavMeshParams.size buffer3 in
  let params := NavMeshParams.decode raw in
  if negb (dtAllocNavMesh_ok env) then Ret st1
  else if negb (navMesh_init_ok env params) then Ret (release_navigation_mesh st1)
  else
    let st2 := set_navMesh st1 (Some (navMesh_init params)) in
    let '(tcRaw, buffer5) := Bytes.Read TileCacheParams.size buffer4 in
    let tcParams := TileCacheParams.decode tcRaw in
    if negb (dtAllocTileCache_ok env) then Ret (release_navigation_mesh st2)
    else if negb (tileCache_init_ok env tcParams)
    then Ret (release_navigation_mesh st2)
    else
      let st3 := set_tileCache st2 (Some (tileCache_init tcParams)) in
      '(_, st4) <- ReadTiles buffer5 true st3 ;;
      Ret st4.

(** [SetNavigationDataAttr(value)] *)
Definition SetNavigationDataAttr (value : list byte) (st : Mesh) : outcome Mesh :=
  let st0 := release_navigation_mesh st in
  match value with
  | [] => Ret st0
  | _ => read_navigation_data value st0
  end.

End Serialization.

(** ** A tile cache and a navmesh

    Detour itself is not part of the sources.  The instance below is the
    tile cache as the spec describes it: a store of compressed layer blobs
    found by tile coordinate, a bounded queue of obstacle requests that
    [update] drains, and a navmesh whose tiles are derived from the blobs. *)

Module ListDetour.

(** Modelled from the spec: a compressed layer blob held by the tile cache of
    Detour, which is missing; its header is read from its first bytes. *)
Record CachedTile := {
  ct_ref : Z;
  ct_data : list byte;
  ct_dataSize : Z
}.

Definition ct_header (t : CachedTile) : LayerHeader.t :=
  LayerHeader.decode (ct_data t).

(** Modelled from the spec: an entry of the "internal obstacle-request
    queue" of the tile cache of Detour, which is missing. *)
Inductive ObstacleRequest : Type :=
| REQUEST_ADD (ref : dtObstacleRef)
| REQUEST_REMOVE (ref : dtObstacleRef).

(** Modelled from the spec: an obstacle registered with the tile cache of
    Detour, which is missing. *)
Record CachedObstacle := {
  co_ref : dtObstacleRef;
  co_pos : Vector3;
  co_radius : float;
  co_height : float
}.

(** Modelled from the spec: the compressed tile cache, "a mapping from tile
    coordinate to a list of compressed layer blobs", sized by its
    parameters, with its "internal obstacle-request queue".  [tc_tiles] has
    the newest blob first. *)
Record TileCache := {
  tc_params : TileCacheParams.t;
  tc_tiles : list CachedTile;
  tc_nextTile : Z;
  tc_obstacles : list CachedObstacle;
  tc_nextObstacle : Z;
  tc_reqs : list ObstacleRequest
}.

(** Modelled from the spec: the persistent navmesh, "per-tile polygon data
    keyed by (tileX, tileZ, layer)"; only the keys are kept. *)
Record NavMesh := {
  nm_params : NavMeshParams.t;
  nm_tiles : list (Z * Z * Z)
}.

(** Modelled from the spec: the capacity of the request queue of the tile
    cache of Detour, which is missing; the spec only says the queue can be
    full. *)
Definition MAX_REQUESTS : Z := 64.

Definition at_xz (x z : Z) (t : CachedTile) : bool :=
  (LayerHeader.tx (ct_header t) =? x) && (LayerHeader.ty (ct_header t) =? z).

Definition at_xzl (x z l : Z) (t : CachedTile) : bool :=
  at_xz x z t && (LayerHeader.tlayer (ct_header t) =? l).

Definition has_ref (r : Z) (t : CachedTile) : bool := ct_ref t =? r.

Definition with_tiles (tc : TileCache) (tiles : list CachedTile) (next : Z)
  : TileCache :=
  {| tc_params := tc_params tc; tc_tiles := tiles; tc_nextTile := next;
     tc_obstacles := tc_obstacles tc; tc_nextObstacle := tc_nextObstacle tc;
     tc_reqs := tc_reqs tc |}.

(** Modelled from the spec: [dtTileCache::init] of Detour is missing; a new
    cache holds no blob, no obstacle and no request. *)
Definition init (p : TileCacheParams.t) : TileCache :=
  {| tc_params := p; tc_tiles := []; tc_nextTile := 1;
     tc_obstacles := []; tc_nextObstacle := 1; tc_reqs := [] |}.

(** Modelled from the spec: [addTile] stores a blob under the coordinates
    of its header.  It refuses a blob shorter than a header, a wrong magic or
    version, an occupied (tx, ty, layer) and a full cache. *)
Definition addTile (blob : list byte) (size : Z) (tc : TileCache)
  : dtStatus * dtRef * TileCache :=
  let h := LayerHeader.decode blob in
  if (length blob <? LayerHeader.size)%nat then (DT_FAILURE, NullRef, tc)
  else if negb (LayerHeader.magic h =? LayerHeader.DT_TILECACHE_MAGIC)
  then (DT_FAILURE, NullRef, tc)
  else if negb (LayerHeader.version h =? LayerHeader.DT_TILECACHE_VERSION)
  then (DT_FAILURE, NullRef, tc)
  else if existsb (at_xzl (LayerHeader.tx h) (LayerHeader.ty h) (LayerHeader.tlayer h))
                  (tc_tiles tc)
  then (DT_FAILURE, NullRef, tc)
  else if TileCacheParams.maxTiles (tc_params tc) <=? Z.of_nat (length (tc_tiles tc))
  then (DT_FAILURE, NullRef, tc)
  else (DT_SUCCESS, CompressedTileRef (tc_nextTile tc),
        with_tiles tc
          ({| ct_ref := tc_nextTile tc; ct_data := blob; ct_dataSize := size |}
             :: tc_tiles tc)
          (tc_nextTile tc + 1)).

(** Modelled from the spec: [removeTile] takes the blob a compressed tile
    reference designates out of the cache and hands its data back; any other
    reference is refused (§4.2 step 1: removing by a navmesh tile reference
    "does not yet touch the compressed cache"). *)
Definition removeTile (ref : dtRef) (tc : TileCache)
  : dtStatus * option (list byte) * TileCache :=
  match ref with
  | CompressedTileRef r =>
      match find (has_ref r) (tc_tiles tc) with
      | Some t =>
          (DT_SUCCESS, Some (ct_data t),
           with_tiles tc (filter (fun t' => negb (has_ref r t')) (tc_tiles tc))
                      (tc_nextTile tc))
      | None => (DT_FAILURE, None, tc)
      end
  | _ => (DT_FAILURE, None, tc)
  end.

(** Modelled from the spec: [getTilesAt] lists the blobs of one tile
    coordinate, at most [maxTiles] of them. *)
Definition getTilesAt (x z maxTiles : Z) (tc : TileCache) : list dtRef :=
  firstn (Z.to_nat maxTiles)
    (map (fun t => CompressedTileRef (ct_ref t)) (filter (at_xz x z) (tc_tiles tc))).

(** Modelled from the spec: [getTileByRef] of Detour is missing; it finds
    the blob a compressed tile reference designates. *)
Definition getTileByRef (ref : dtRef) (tc : TileCache) : option dtCompressedTile :=
  match ref with
  | CompressedTileRef r =>
      match find (has_ref r) (tc_tiles tc) with
      | Some t =>
          Some {| tile_header := Some (firstn LayerHeader.size (ct_data t));
                  tile_data := ct_data t;
                  tile_dataSize := ct_dataSize t |}
      | None => None
      end
  | _ => None
  end.

(** The keys of the blobs at a tile coordinate. *)
Definition keys_at (x z : Z) (tc : TileCache) : list (Z * Z * Z) :=
  map (fun t => (x, z, LayerHeader.tlayer (ct_header t)))
      (filter (at_xz x z) (tc_tiles tc)).

(** Modelled from the spec: the navmesh tiles of a coordinate are "derived
    from" the blobs there and replace the ones built before. *)
Definition buildNavMeshTilesAt (x z : Z) (tc : TileCache) (nm : option NavMesh)
  : TileCache * option NavMesh :=
  (tc,
   option_map
     (fun m =>
        {| nm_params := nm_params m;
           nm_tiles := keys_at x z tc
                       ++ filter (fun k => negb ((fst (fst k) =? x) && (snd (fst k) =? z)))
                                 (nm_tiles m) |})
     nm).

(** Modelled from the spec: [buildNavMeshTile] of Detour is missing; it
    derives the navmesh tile of one blob. *)
Definition buildNavMeshTile (ref : dtRef) (tc : TileCache) (nm : option NavMesh)
  : TileCache * option NavMesh :=
  match ref with
  | CompressedTileRef r =>
      match find (has_ref r) (tc_tiles tc) with
      | Some t =>
          let k := (LayerHeader.tx (ct_header t), LayerHeader.ty (ct_header t),
                    LayerHeader.tlayer (ct_header t)) in
          (tc, option_map
                 (fun m => {| nm_params := nm_params m; nm_tiles := k :: nm_tiles m |})
                 nm)
      | None => (tc, nm)
      end
  | _ => (tc, nm)
  end.

Definition key_eqb (a b : Z * Z * Z) : bool :=
  (fst (fst a) =? fst (fst b)) && (snd (fst a) =? snd (fst b)) && (snd a =? snd b).

Fixpoint index_of (k : Z * Z * Z) (l : list (Z * Z * Z)) (i : Z) : option Z :=
  match l with
  | [] => None
  | k' :: r => if key_eqb k k' then Some i else index_of k r (i + 1)
  end.

(** Modelled from the spec: [dtNavMesh::getTileRefAt] of Detour is missing;
    it answers 0 when the navmesh has no such tile, and a navmesh tile
    reference otherwise. *)
Definition getTileRefAt (m : NavMesh) (x z l : Z) : dtRef :=
  match index_of (x, z, l) (nm_tiles m) 1 with
  | Some i => TileRef i
  | None => NullRef
  end.

(** Modelled from the spec: [isObstacleQueueFull] of Detour is missing. *)
Definition isObstacleQueueFull (tc : TileCache) : bool :=
  MAX_REQUESTS <=? Z.of_nat (length (tc_reqs tc)).

(** Modelled from the spec: [addObstacle] registers position, radius and
    height, queues the request and answers "an opaque cache-assigned
    reference handle (zero means not registered)". *)
Definition addObstacle (pos : Vector3) (radius height : float) (tc : TileCache)
  : dtStatus * dtObstacleRef * TileCache :=
  if isObstacleQueueFull tc then (DT_FAILURE, 0, tc)
  else if TileCacheParams.maxObstacles (tc_params tc)
          <=? Z.of_nat (length (tc_obstacles tc))
  then (DT_FAILURE, 0, tc)
  else
    (DT_SUCCESS, tc_nextObstacle tc,
     {| tc_params := tc_params tc; tc_tiles := tc_tiles tc;
        tc_nextTile := tc_nextTile tc;
        tc_obstacles :=
          {| co_ref := tc_nextObstacle tc; co_pos := pos;
             co_radius := radius; co_height := height |} :: tc_obstacles tc;
        tc_nextObstacle := tc_nextObstacle tc + 1;
        tc_reqs := tc_reqs tc ++ [REQUEST_ADD (tc_nextObstacle tc)] |}).

(** Modelled from the spec: [removeObstacle] queues the removal. *)
Definition removeObstacle (ref : dtObstacleRef) (tc : TileCache)
  : dtStatus * TileCache :=
  if ref =? 0 then (DT_SUCCESS, tc)
  else if isObstacleQueueFull tc then (DT_FAILURE, tc)
  else
    (DT_SUCCESS,
     {| tc_params := tc_params tc; tc_tiles := tc_tiles tc;
        tc_nextTile := tc_nextTile tc;
        tc_obstacles := tc_obstacles tc;
        tc_nextObstacle := tc_nextObstacle tc;
        tc_reqs := tc_reqs tc ++ [REQUEST_REMOVE ref] |}).

Definition removal_requested (reqs : list ObstacleRequest) (o : CachedObstacle)
  : bool :=
  existsb (fun r => match r with
                    | REQUEST_REMOVE ref => ref =? co_ref o
                    | REQUEST_ADD _ => false
                    end) reqs.

(** Modelled from the spec: [update] is "the only place where queued
    obstacle add/remove requests ... are actually drained". *)
Definition update (dt : float) (tc : TileCache) (nm : option NavMesh)
  : TileCache * option NavMesh :=
  ({| tc_params := tc_params tc; tc_tiles := tc_tiles tc;
      tc_nextTile := tc_nextTile tc;
      tc_obstacles :=
        filter (fun o => negb (removal_requested (tc_reqs tc) o)) (tc_obstacles tc);
      tc_nextObstacle := tc_nextObstacle tc;
      tc_reqs := [] |},
   nm).

(** The compressed layer blobs of a tile coordinate, newest first. *)
Definition blobs_at (x z : Z) (tc : TileCache) : list (list byte) :=
  map ct_data (filter (at_xz x z) (tc_tiles tc)).

(** References are handed out once: the blobs of the cache have distinct
    references, all below the next one. *)
Definition references_fresh (tc : TileCache) : Prop :=
  NoDup (map ct_ref (tc_tiles tc)) /\
  forall t, In t (tc_tiles tc) -> ct_ref t < tc_nextTile tc.

#[global] Instance detour : Detour NavMesh TileCache := {
  navMesh_init := fun p => {| nm_params := p; nm_tiles := [] |};
  navMesh_getParams := nm_params;
  navMesh_getTileRefAt := getTileRefAt;
  tileCache_init := init;
  tileCache_getParams := tc_params;
  addTile := addTile;
  removeTile := removeTile;
  getTilesAt := getTilesAt;
  getTileByRef := getTileByRef;
  buildNavMeshTilesAt := buildNavMeshTilesAt;
  buildNavMeshTile := buildNavMeshTile;
  update := update;
  isObstacleQueueFull := isObstacleQueueFull;
  addObstacle := addObstacle;
  removeObstacle := removeObstacle
}.

(** A list of numbers without repetition, decided. *)
Fixpoint distinctb (l : list Z) : bool :=
  match l with
  | [] => true
  | a :: r => negb (existsb (Z.eqb a) r) && distinctb r
  end.

(** [references_fresh], decided. *)
Definition references_freshb (tc : TileCache) : bool :=
  distinctb (map ct_ref (tc_tiles tc))
  && forallb (fun t => ct_ref t <? tc_nextTile tc) (tc_tiles tc).

(** The cache of a mesh that has one. *)
Definition cache_of (st : DynamicNavigationMesh NavMesh TileCache) : TileCache :=
  match tileCache_ st with
  | Some tc => tc
  | None =>
      init (TileCacheParams.decode [])
  end.

(** The blobs the mesh holds for a tile coordinate. *)
Definition cached_at (x z : Z) (st : DynamicNavigationMesh NavMesh TileCache)
  : list CachedTile :=
  match tileCache_ st with
  | Some tc => filter (at_xz x z) (tc_tiles tc)
  | None => []
  end.

(** What the loop of [build_tiles] keeps true of mesh and counter: cache and
    navmesh are there, references are fresh, and the blobs cached for
    [(x, z)] are [kept]. *)
Definition rebuild_invariant (x z : Z) (kept : list CachedTile)
    (s : DynamicNavigationMesh NavMesh TileCache * Z) : Prop :=
  exists tc nm,
    tileCache_ (fst s) = Some tc /\ navMesh_ (fst s) = Some nm /\
    references_fresh tc /\
    filter (at_xz x z) (tc_tiles tc) = kept.

(** [st'] holds the same blobs as [st], for the same grid: what the calls
    that only deal with obstacles, navmesh tiles and events preserve. *)
Definition same_tiles (st st' : DynamicNavigationMesh NavMesh TileCache) : Prop :=
  option_map tc_tiles (tileCache_ st') = option_map tc_tiles (tileCache_ st) /\
  settings st' = settings st /\ boundingBox_ st' = boundingBox_ st /\
  numTilesX_ st' = numTilesX_ st /\ numTilesZ_ st' = numTilesZ_ st.

End ListDetour.

Section Snapshots.
Import ListDetour.

(** The key of a blob: the tile coordinates and the layer of its header. *)
Definition blob_key (blob : list byte) : Z * Z * Z :=
  let h := LayerHeader.decode blob in
  (LayerHeader.tx h, LayerHeader.ty h, LayerHeader.tlayer h).

(** The record [WriteTiles] writes for a blob: header, size, blob. *)
Definition tile_record (t : CachedTile) : list byte :=
  firstn LayerHeader.size (ct_data t) ++ Bytes.WriteI32 (ct_dataSize t) ++ ct_data t.

(** A blob as [addTile] accepts it from [BuildTile]: it starts with a header
    that has the magic and the version of Detour, and its size (an [int]) is
    its length. *)
Definition blob_well_formed (t : CachedTile) : Prop :=
  (LayerHeader.size <= length (ct_data t))%nat /\
  ct_dataSize t = Z.of_nat (length (ct_data t)) /\
  ct_dataSize t <= Machine.INT_MAX /\
  LayerHeader.magic (ct_header t) = LayerHeader.DT_TILECACHE_MAGIC /\
  LayerHeader.version (ct_header t) = LayerHeader.DT_TILECACHE_VERSION.

(** The state of a mesh whose snapshot can be taken without loss: navmesh
    and cache are there, the references of the cache are fresh, its blobs are
    well formed, no two of them have the same key, they fit the capacity the
    cache was created with, every blob lies inside the grid, and no tile
    coordinate holds more than [maxLayers_] blobs. *)
Definition snapshot_ready (st : DynamicNavigationMesh NavMesh TileCache)
    (tc : TileCache) : Prop :=
  tileCache_ st = Some tc /\ navMesh_ st <> None /\
  references_fresh tc /\
  (forall t, In t (tc_tiles tc) -> blob_well_formed t) /\
  NoDup (map (fun t => blob_key (ct_data t)) (tc_tiles tc)) /\
  Z.of_nat (length (tc_tiles tc)) <= TileCacheParams.maxTiles (tc_params tc) /\
  Machine.is_int (TileCacheParams.maxTiles (tc_params tc)) /\
  (forall t, In t (tc_tiles tc) ->
     0 <= LayerHeader.tx (ct_header t) < numTilesX_ st /\
     0 <= LayerHeader.ty (ct_header t) < numTilesZ_ st) /\
  (forall x z,
     (length (filter (at_xz x z) (tc_tiles tc))
      <= Z.to_nat (Machine.to_int (maxLayers_ (settings st))))%nat).

(** [blob_well_formed], decided. *)
Definition blob_well_formedb (t : CachedTile) : bool :=
  (LayerHeader.size <=? length (ct_data t))%nat
  && (ct_dataSize t =? Z.of_nat (length (ct_data t)))
  && (ct_dataSize t <=? Machine.INT_MAX)
  && (LayerHeader.magic (ct_header t) =? LayerHeader.DT_TILECACHE_MAGIC)
  && (LayerHeader.version (ct_header t) =? LayerHeader.DT_TILECACHE_VERSION).

(** A list of keys without repetition, decided. *)
Fixpoint distinct_keysb (l : list (Z * Z * Z)) : bool :=
  match l with
  | [] => true
  | a :: r => negb (existsb (key_eqb a) r) && distinct_keysb r
  end.

(** [snapshot_ready], decided. *)
Definition snapshot_readyb (st : DynamicNavigationMesh NavMesh TileCache) : bool :=
  match tileCache_ st, navMesh_ st with
  | Some tc, Some _ =>
      let tiles := tc_tiles tc in
      references_freshb tc
      && forallb blob_well_formedb tiles
      && distinct_keysb (map (fun t => blob_key (ct_data t)) tiles)
      && (Z.of_nat (length tiles) <=? TileCacheParams.maxTiles (tc_params tc))
      && (Machine.INT_MIN <=? TileCacheParams.maxTiles (tc_params tc))
      && (TileCacheParams.maxTiles (tc_params tc) <=? Machine.INT_MAX)
      && forallb (fun t =>
                    (0 <=? LayerHeader.tx (ct_header t))
                    && (LayerHeader.tx (ct_header t) <? numTilesX_ st)
                    && (0 <=? LayerHeader.ty (ct_header t))
                    && (LayerHeader.ty (ct_header t) <? numTilesZ_ st)) tiles
      && forallb (fun t =>
                    (length (filter (at_xz (LayerHeader.tx (ct_header t))
                                           (LayerHeader.ty (ct_header t))) tiles)
                     <=? Z.to_nat (Machine.to_int (maxLayers_ (settings st))))%nat) tiles
  | _, _ => false
  end.

(** No allocation and no initialisation fails. *)
Definition never_fails (env : Env) : Prop :=
  dtAllocNavMesh_ok env = true /\ dtAllocTileCache_ok env = true /\
  (forall p, navMesh_init_ok env p = true) /\
  (forall p, tileCache_init_ok env p = true) /\
  (forall n, dtAlloc_ok env n = true).

End Snapshots.

Section ListBuilding.
Variable env : Env.

(** What the tile loop of [Build()] keeps true of the mesh [st] once cache
    and navmesh are in place in [st0]: both are still there, box and
    settings are those of [st0], and every cached blob lies at a coordinate
    that is not void. *)
Definition build_invariant (geometryList : list NavigationGeometryInfo)
    (st0 st : DynamicNavigationMesh ListDetour.NavMesh ListDetour.TileCache) : Prop :=
  exists tc nm,
    tileCache_ st = Some tc /\ navMesh_ st = Some nm /\
    settings st = settings st0 /\ boundingBox_ st = boundingBox_ st0 /\
    numTilesX_ st = numTilesX_ st0 /\ numTilesZ_ st = numTilesZ_ st0 /\
    forall t, In t (ListDetour.tc_tiles tc) ->
      ~ tile_is_void env geometryList
          (LayerHeader.tx (ListDetour.ct_header t))
          (LayerHeader.ty (ListDetour.ct_header t)) st0.

End ListBuilding.

(** ** The mesh-process callback *)

Section MeshProcessing.
Context {NM TC : Type}.
Variable env : Env.

Local Abbreviation Mesh := (DynamicNavigationMesh NM TC).

(** The members of [dtNavMeshCreateParams] that [process] reads or writes;
    an array is the list of its elements. *)
Record dtNavMeshCreateParams := {
  polyCount : Z;
  params_bmin : Vector3;
  params_bmax : Vector3;
  offMeshConCount : Z;
  offMeshConVerts : list Vector3;
  offMeshConRad : list float;
  offMeshConFlags : list Z;
  offMeshConAreas : list Z;
  offMeshConDir : list Z
}.

(** [struct MeshProcess], its [owner_] apart. *)
Record MeshProcess := {
  offMeshVertices_ : list Vector3;
  offMeshRadii_ : list float;
  offMeshFlags_ : list Z;
  offMeshAreas_ : list Z;
  offMeshDir_ : list Z
}.

(** Modelled from the spec: the Recast and Detour constants are missing;
    "polygon areas that are walkable get a uniform walkable-area flag".
    [RC_NULL_AREA] is 0, [RC_WALKABLE_AREA] is 63, [DT_OFFMESH_CON_BIDIR]
    is 1. *)
Definition RC_NULL_AREA : Z := 0.
Definition RC_WALKABLE_AREA : Z := 63.
Definition DT_OFFMESH_CON_BIDIR : Z := 1.

(** [ClearConnectionData] *)
Definition ClearConnectionData (mp : MeshProcess) : MeshProcess :=
  {| offMeshVertices_ := []; offMeshRadii_ := []; offMeshFlags_ := [];
     offMeshAreas_ := []; offMeshDir_ := [] |}.

(** The test of the loop of [CollectOffMeshConnections]: a connection that
    fails it is erased from the vector. *)
Definition connection_kept (connection : OffMeshConnection) : bool :=
  connection_enabled connection &&
  match connection_endPoint connection with Some _ => true | None => false end.

(** [CollectOffMeshConnections(bounds)] *)
Definition CollectOffMeshConnections (bounds : BoundingBox) (st : Mesh)
  : outcome (list OffMeshConnection) :=
  match node_ st with
  | None => Fault
  | Some node => Ret (filter connection_kept (GetComponents_OffMeshConnection env node))
  end.

(** The first loop of [process]: [polyFlags[i] = RC_WALKABLE_AREA] where
    [polyAreas[i] != RC_NULL_AREA], for the first [n] polygons. *)
Fixpoint update_polyFlags (n : nat) (polyAreas polyFlags : list Z) : list Z :=
  match n, polyAreas, polyFlags with
  | S k, a :: polyAreas', f :: polyFlags' =>
      (if a =? RC_NULL_AREA then f else RC_WALKABLE_AREA)
        :: update_polyFlags k polyAreas' polyFlags'
  | _, _, _ => polyFlags
  end.

(** The two end points of a connection in the space of the mesh. *)
Definition local_endPoints (inverse : Matrix3x4) (connection : OffMeshConnection)
  : list Vector3 :=
  [transform env inverse (connection_position connection);
   transform env inverse
     (match connection_endPoint connection with
      | Some endPoint => endPoint
      | None => connection_position connection
      end)].

(** The loop of [process] that pushes one connection after the other. *)
Fixpoint push_connections (inverse : Matrix3x4) (connections : list OffMeshConnection)
    (mp : MeshProcess) : outcome MeshProcess :=
  match connections with
  | [] => Ret mp
  | connection :: rest =>
      match connection_endPoint connection with
      | None => Fault
      | Some endPoint =>
          let start := transform env inverse (connection_position connection) in
          let end_ := transform env inverse endPoint in
          push_connections inverse rest
            {| offMeshVertices_ := offMeshVertices_ mp ++ [start; end_];
               offMeshRadii_ := offMeshRadii_ mp ++ [connection_radius connection];
               offMeshFlags_ := offMeshFlags_ mp ++ [connection_mask connection mod 65536];
               offMeshAreas_ := offMeshAreas_ mp ++ [connection_areaID connection mod 256];
               offMeshDir_ :=
                 offMeshDir_ mp
                 ++ [if connection_bidirectional connection
                     then DT_OFFMESH_CON_BIDIR else 0] |}
      end
  end.

(** [MeshProcess::process(params, polyAreas, polyFlags)] with [owner_]
    pointing to [st]. *)
Definition process (params : dtNavMeshCreateParams) (polyAreas polyFlags : list Z)
    (st : Mesh) (mp : MeshProcess)
  : outcome (dtNavMeshCreateParams * list Z * MeshProcess) :=
  let polyFlags' := update_polyFlags (Z.to_nat (polyCount params)) polyAreas polyFlags in
  let bounds := {| min_ := params_bmin params; max_ := params_bmin params |} in
  offMeshConnections <- CollectOffMeshConnections bounds st ;;
  match offMeshConnections with
  | [] => Ret (params, polyFlags', mp)
  | _ =>
      mp1 <- (if (length offMeshConnections =? length (offMeshRadii_ mp))%nat
              then Ret mp
              else
                match node_ st with
                | None => Fault
                | Some node =>
                    push_connections (Inverse env (worldTransform node))
                      offMeshConnections (ClearConnectionData mp)
                end) ;;
      Ret ({| polyCount := polyCount params;
              params_bmin := params_bmin params;
              params_bmax := params_bmax params;
              offMeshConCount := Z.of_nat (length (offMeshRadii_ mp1));
              offMeshConVerts := offMeshVertices_ mp1;
              offMeshConRad := offMeshRadii_ mp1;
              offMeshConFlags := offMeshFlags_ mp1;
              offMeshConAreas := offMeshAreas_ mp1;
              offMeshConDir := offMeshDir_ mp1 |},
           polyFlags', mp1)
  end.

(** Comparison of two floats through their bit patterns (NaN apart): the
    sign bit decides first, then the magnitude. *)
Definition float_leb (a b : float) : bool :=
  let sa := 2 ^ 31 <=? a in
  let sb := 2 ^ 31 <=? b in
  match sa, sb with
  | true, false => true
  | false, true => (a =? 0) && (b =? 2 ^ 31)
  | false, false => a <=? b
  | true, true => b <=? a
  end.

(** [a] and [b] overlap: on no axis does one end before the other starts. *)
Definition boxes_overlap (a b : BoundingBox) : bool :=
  float_leb (v_x (min_ a)) (v_x (max_ b)) && float_leb (v_x (min_ b)) (v_x (max_ a)) &&
  float_leb (v_y (min_ a)) (v_y (max_ b)) && float_leb (v_y (min_ b)) (v_y (max_ a)) &&
  float_leb (v_z (min_ a)) (v_z (max_ b)) && float_leb (v_z (min_ b)) (v_z (max_ a)).

Definition float_min (a b : float) : float := if float_leb a b then a else b.
Definition float_max (a b : float) : float := if float_leb a b then b else a.

(** The bounds of a connection: the box spanned by its two end points. *)
Definition connection_bounds (c : OffMeshConnection) : BoundingBox :=
  let p := connection_position c in
  let q := match connection_endPoint c with Some e => e | None => p end in
  {| min_ := {| v_x := float_min (v_x p) (v_x q); v_y := float_min (v_y p) (v_y q);
                v_z := float_min (v_z p) (v_z q) |};
     max_ := {| v_x := float_max (v_x p) (v_x q); v_y := float_max (v_y p) (v_y q);
                v_z := float_max (v_z p) (v_z q) |} |}.

(** What the spec says [process] collects: "connections overlapping the
    layer's bounds". *)
Definition CollectOffMeshConnections_spec (layer : BoundingBox) (st : Mesh)
  : outcome (list OffMeshConnection) :=
  match node_ st with
  | None => Fault
  | Some node =>
      Ret (filter (fun c => connection_kept c && boxes_overlap (connection_bounds c) layer)
                  (GetComponents_OffMeshConnection env node))
  end.

End MeshProcessing.

(** ** Maintenance of a built mesh *)

Section Maintenance.
Context {NM TC : Type} {D : Detour NM TC}.
Variable env : Env.

Local Abbreviation Mesh := (DynamicNavigationMesh NM TC).

Definition set_maxLayers (s : Settings) (maxLayers : Z) : Settings :=
  {| tileSize_ := tileSize_ s; cellSize_ := cellSize_ s; cellHeight_ := cellHeight_ s;
     agentHeight_ := agentHeight_ s; agentRadius_ := agentRadius_ s;
     agentMaxClimb_ := agentMaxClimb_ s; edgeMaxError_ := edgeMaxError_ s;
     padding_ := padding_ s; maxObstacles_ := maxObstacles_ s;
     maxLayers_ := maxLayers |}.

Definition set_settings (st : Mesh) (s : Settings) : Mesh :=
  Build_DynamicNavigationMesh (node_ st) (scene_ st) (navMesh_ st) (tileCache_ st)
    (boundingBox_ st) (numTilesX_ st) (numTilesZ_ st) s (tileQueue_ st) (events st).

(** [SetMaxLayers(maxLayers)]: [Max(3U, Min(maxLayers, TILECACHE_MAXLAYERS))]
    on [unsigned] values, [Max] and [Min] being the larger and the smaller of
    their two arguments. *)
Definition SetMaxLayers (maxLayers : Z) (st : Mesh) : Mesh :=
  set_settings st
    (set_maxLayers (settings st) (Z.max 3 (Z.min maxLayers TILECACHE_MAXLAYERS))).

(** Modelled from the spec: [Clamp] of the math library is missing; the
    spec has the tile rectangle of a partial rebuild "clamped to the grid".
    A value below [lo] becomes [lo], else a value above [hi] becomes [hi]. *)
Definition Clamp (value lo hi : Z) : Z :=
  if value <? lo then lo else if value >? hi then hi else value.

(** [(int)((a - b) / tileEdgeLength)], the float arithmetic of
    [Build(boundingBox)]. *)
Variable tile_offset : float -> float -> float -> Z.

(** The tile rectangle [Build(boundingBox)] rebuilds: the corners of the
    box in the space of the mesh, in tile units, clamped. *)
Definition clamped_rectangle (localSpaceBox : BoundingBox) (st : Mesh)
  : IntVector2 * IntVector2 :=
  let edge := tileEdgeLength env (tileSize_ (settings st)) (cellSize_ (settings st)) in
  let origin := min_ (boundingBox_ st) in
  let sx := Clamp (tile_offset (v_x (min_ localSpaceBox)) (v_x origin) edge)
                  0 (numTilesX_ st - 1) in
  let sz := Clamp (tile_offset (v_z (min_ localSpaceBox)) (v_z origin) edge)
                  0 (numTilesZ_ st - 1) in
  let ex := Clamp (tile_offset (v_x (max_ localSpaceBox)) (v_x origin) edge)
                  0 (numTilesX_ st - 1) in
  let ez := Clamp (tile_offset (v_z (max_ localSpaceBox)) (v_z origin) edge)
                  0 (numTilesZ_ st - 1) in
  ({| iv_x := sx; iv_y := sz |}, {| iv_x := ex; iv_y := ez |}).

(** [Build(boundingBox)] *)
Definition Build_box (boundingBox : BoundingBox) (st : Mesh) : outcome (bool * Mesh) :=
  match node_ st with
  | None => Ret (false, st)
  | Some node =>
      match navMesh_ st with
      | None => Ret (false, st)
      | Some _ =>
          let localSpaceBox :=
            Transformed_Inverse env boundingBox (worldTransform node) in
          let geometryList := collect_geometries env in
          let '(from, to) := clamped_rectangle localSpaceBox st in
          '(_, st1) <- build_tiles env geometryList from to st ;;
          Ret (true, st1)
      end
  end.

(** [NavigationMesh::RemoveTile(tile)] of the base class, which is missing:
    what it does to the mesh. *)
Variable NavigationMesh_RemoveTile : IntVector2 -> Mesh -> Mesh.

(** [RemoveTile(tile)] *)
Definition RemoveTile (tile : IntVector2) (st : Mesh) : outcome Mesh :=
  match navMesh_ st with
  | None => Ret st
  | Some _ =>
      match tileCache_ st with
      | None => Fault
      | Some tc =>
          let existing :=
            getTilesAt (iv_x tile) (iv_y tile)
                       (Machine.to_int (maxLayers_ (settings st))) tc in
          Ret (NavigationMesh_RemoveTile tile
                 (set_tileCache st (Some (remove_existing existing tc))))
      end
  end.

End Maintenance.

(** The kinds of events. *)
Definition is_obstacle_added (e : Event) : bool :=
  match e with E_NAVIGATION_OBSTACLE_ADDED _ _ _ _ _ => true | _ => false end.

Definition is_area_rebuilt (e : Event) : bool :=
  match e with E_NAVIGATION_AREA_REBUILT _ _ _ => true | _ => false end.

(** The event the scan of the scene has sent for an obstacle, read off the
    obstacle as the scan left it: "obstacle added" with node, obstacle,
    position, radius and height when the obstacle is effectively enabled,
    nothing otherwise. *)
Definition obstacle_added_event (o : Obstacle) : list Event :=
  if obstacle_enabled o then
    match obstacle_node o with
    | Some n =>
        [E_NAVIGATION_OBSTACLE_ADDED n o (worldPosition n)
           (obstacle_radius o) (obstacle_height o)]
    | None => []
    end
  else [].

(** What building tile [xz] of the mesh [st] sends: nothing when the tile
    holds no geometry, when Recast fails or when a layer cannot be
    serialized; one "area rebuilt" event with the bounds of the tile when
    every layer was serialized. *)
Definition area_rebuilt_by {NM TC : Type} (env : Env)
    (geometryList : list NavigationGeometryInfo) (st : DynamicNavigationMesh NM TC)
    (xz : Z * Z) (sent : list Event) : Prop :=
  let tileBoundingBox :=
    GetTileBoundingBox env (boundingBox_ st) (settings st) (fst xz) (snd xz) in
  let expanded := expandedBox env (settings st) tileBoundingBox in
  let build := GetTileGeometry env geometryList expanded in
  (sent = [] /\
   (tile_is_void env geometryList (fst xz) (snd xz) st \/
    rcBuildHeightfieldLayers env (settings st) expanded build = None \/
    exists layers,
      rcBuildHeightfieldLayers env (settings st) expanded build = Some layers /\
      build_layers env (fst xz) (snd xz) 0 layers = None)) \/
  (sent = [E_NAVIGATION_AREA_REBUILT (node_ st)
             (min_ tileBoundingBox) (max_ tileBoundingBox)] /\
   ~ tile_is_void env geometryList (fst xz) (snd xz) st /\
   exists layers tiles,
     rcBuildHeightfieldLayers env (settings st) expanded build = Some layers /\
     build_layers env (fst xz) (snd xz) 0 layers = Some tiles).

(** Two obstacles that differ in their handle at most. *)
Definition same_but_handle (o o' : Obstacle) : Prop :=
  obstacle_node o' = obstacle_node o /\ obstacle_radius o' = obstacle_radius o /\
  obstacle_height o' = obstacle_height o /\ obstacle_enabled o' = obstacle_enabled o.

(** No two neighbours in the queue are the same tile. *)
Fixpoint no_adjacent_repeat (queue : list IntVector2) : Prop :=
  match queue with
  | a :: rest =>
      match rest with
      | b :: _ => IntVector2_eqb a b = false
      | [] => True
      end /\ no_adjacent_repeat rest
  | [] => True
  end.

(** ** Concrete scenes

    A node at the origin, default attributes, collaborators that never fail
    and a scene whose geometry covers a grid of 2 x 1 tiles; tile (0, 0)
    holds one walkable layer, tile (1, 0) is void. *)

Module Examples.
Import ListDetour.

Definition mesh_node : Node :=
  {| node_id := 1; worldPosition := Vector3_ZERO; worldTransform := [];
     worldScaleIsOne := true |}.

Definition obstacle_node_7 : Node :=
  {| node_id := 7;
     worldPosition := {| v_x := 1065353216; v_y := 0; v_z := 1065353216 |};
     worldTransform := []; worldScaleIsOne := true |}.

(** cell size 0.3, cell height 0.2, agent 2.0 x 0.6, climb 0.9, error 1.3 *)
Definition default_settings (maxLayers : Z) : Settings :=
  {| tileSize_ := 64; cellSize_ := 1050253722; cellHeight_ := 1045220557;
     agentHeight_ := 1073741824; agentRadius_ := 1058642330;
     agentMaxClimb_ := 1063675494; edgeMaxError_ := 1067869798;
     padding_ := {| v_x := 1065353216; v_y := 1065353216; v_z := 1065353216 |};
     maxObstacles_ := DEFAULT_MAX_OBSTACLES; maxLayers_ := maxLayers |}.

Definition ground : NavigationGeometryInfo :=
  {| geometry_id := 1;
     geometry_boundingBox_ :=
       {| min_ := Vector3_ZERO;
          max_ := {| v_x := 1092616192; v_y := 0; v_z := 1092616192 |} |} |}.

Definition flat_layer : rcHeightfieldLayer :=
  {| layer_bmin := Vector3_ZERO; layer_bmax := Vector3_ZERO;
     layer_width := 64; layer_height := 64;
     layer_minx := 0; layer_maxx := 63; layer_miny := 0; layer_maxy := 63;
     layer_hmin := 0; layer_hmax := 1;
     heights := [Byte.x01; Byte.x01]; areas := [Byte.x3f; Byte.x3f];
     cons := [Byte.x00; Byte.x00] |}.

(** The box of tile [(x, z)] carries the tile coordinates in its minimum. *)
Definition tile_box (x z : Z) : BoundingBox :=
  {| min_ := {| v_x := x; v_y := 0; v_z := z |};
     max_ := {| v_x := x + 1; v_y := 0; v_z := z + 1 |} |}.

(** The collaborators of the scene: [allocOk] is the answer of
    [dtAllocNavMesh], every other allocation succeeds; [layersAt00] is the
    number of layers Recast finds in tile (0, 0), the only tile with
    geometry; [connections] are the off-mesh connections under the node. *)
Definition scene_env (allocOk : bool) (layersAt00 : nat)
    (geometry : list NavigationGeometryInfo) (connections : list OffMeshConnection)
  : Env :=
  {| dtAllocNavMesh_ok := allocOk;
     navMesh_init_ok := fun _ => true;
     dtAllocTileCache_ok := true;
     tileCache_init_ok := fun _ => true;
     dtAlloc_ok := fun _ => true;
     Transformed_Inverse := fun b _ => b;
     tileEdgeLength := fun _ _ => 1100585370;
     rcCalcGridSize := fun _ _ _ => (128, 64);
     Merge := fun a b => b;
     Padded := fun b _ => b;
     Inverse := fun m => m;
     transform := fun _ v => v;
     GetComponents_OffMeshConnection := fun _ => connections;
     collect_geometries := geometry;
     GetTileBoundingBox := fun _ _ x z => tile_box x z;
     expandedBox := fun _ b => b;
     GetTileGeometry := fun _ b =>
       if (v_x (min_ b) =? 0) && (v_z (min_ b) =? 0)
       then {| vertices_ := [Vector3_ZERO; Vector3_ZERO; Vector3_ZERO];
               indices_ := [0; 1; 2]; navAreas_ := [] |}
       else {| vertices_ := []; indices_ := []; navAreas_ := [] |};
     rcBuildHeightfieldLayers := fun _ _ _ => Some (repeat flat_layer layersAt00);
     LZ4_compress_default := fun b => b |}.

(** The same collaborators, [dtAllocNavMesh] returning a null pointer. *)
Definition out_of_memory_env : Env := scene_env false 1 [ground] [].

(** A ladder between the points (100, 0, 100) and (100, 8, 100), and a
    disabled connection. *)
Definition ladder : OffMeshConnection :=
  {| connection_enabled := true;
     connection_position := {| v_x := 1120403456; v_y := 0; v_z := 1120403456 |};
     connection_endPoint :=
       Some {| v_x := 1120403456; v_y := 1090519040; v_z := 1120403456 |};
     connection_radius := 1065353216; connection_mask := 1;
     connection_areaID := 63; connection_bidirectional := true |}.

Definition closed_door : OffMeshConnection :=
  {| connection_enabled := false;
     connection_position := Vector3_ZERO;
     connection_endPoint := Some Vector3_ZERO;
     connection_radius := 1065353216; connection_mask := 1;
     connection_areaID := 63; connection_bidirectional := false |}.

(** The creation parameters of a layer between (0, 0, 0) and (19.2, 2, 19.2)
    with three polygons. *)
Definition layer_params : dtNavMeshCreateParams :=
  {| polyCount := 3;
     params_bmin := Vector3_ZERO;
     params_bmax := {| v_x := 1100585370; v_y := 1073741824; v_z := 1100585370 |};
     offMeshConCount := 0; offMeshConVerts := []; offMeshConRad := [];
     offMeshConFlags := []; offMeshConAreas := []; offMeshConDir := [] |}.

Definition new_MeshProcess : MeshProcess :=
  {| offMeshVertices_ := []; offMeshRadii_ := []; offMeshFlags_ := [];
     offMeshAreas_ := []; offMeshDir_ := [] |}.

(** A mesh component that was never built. *)
Definition fresh_mesh (node : option Node) (maxLayers : Z)
  : DynamicNavigationMesh NavMesh TileCache :=
  {| node_ := node; scene_ := Some []; navMesh_ := None; tileCache_ := None;
     boundingBox_ := BoundingBox_cleared; numTilesX_ := 0; numTilesZ_ := 0;
     settings := default_settings maxLayers; tileQueue_ := []; events := [] |}.

Definition mesh_of (r : outcome (bool * DynamicNavigationMesh NavMesh TileCache))
  : DynamicNavigationMesh NavMesh TileCache :=
  match r with
  | Ret (_, st) => st
  | _ => fresh_mesh None 0
  end.

(** The mesh after [Allocate] with room for 16 tiles. *)
Definition allocated_mesh : DynamicNavigationMesh NavMesh TileCache :=
  mesh_of (Allocate (scene_env true 1 [ground] []) 1 (geometry_boundingBox_ ground) 16
             (fresh_mesh (Some mesh_node) 16)).

(** An obstacle that is not registered yet, and the mesh and the obstacle
    after [AddObstacle]. *)
Definition barrel (node : option Node) : Obstacle :=
  {| obstacle_node := node; obstacleId_ := 0;
     obstacle_radius := 1065353216; obstacle_height := 1073741824;
     obstacle_enabled := true |}.

Definition with_barrel : DynamicNavigationMesh NavMesh TileCache * Obstacle :=
  match AddObstacle 1 (barrel (Some obstacle_node_7)) false allocated_mesh with
  | Ret p => p
  | _ => (allocated_mesh, barrel None)
  end.

(** The registered obstacle after its node was destroyed. *)
Definition orphan_barrel : Obstacle :=
  {| obstacle_node := None; obstacleId_ := obstacleId_ (snd with_barrel);
     obstacle_radius := 1065353216; obstacle_height := 1073741824;
     obstacle_enabled := true |}.

(** The mesh after a full build over the 2 x 1 grid with [layers] layers in
    tile (0, 0) and at most [maxLayers] layers per tile, and its cache. *)
Definition built_mesh (layers : nat) (maxLayers : Z)
  : DynamicNavigationMesh NavMesh TileCache :=
  mesh_of (Build (scene_env true layers [ground] []) 1
             (fresh_mesh (Some mesh_node) maxLayers)).

End Examples.

(** ** More scenes

    The ladder after it was moved, the state the mesh-process callback is
    left in by the ladder, and meshes for streaming single tiles. *)

Module Scenarios.
Import ListDetour Examples.

Definition moved_ladder : OffMeshConnection :=
  {| connection_enabled := true;
     connection_position := Vector3_ZERO;
     connection_endPoint := Some {| v_x := 0; v_y := 1090519040; v_z := 0 |};
     connection_radius := 1073741824; connection_mask := 2;
     connection_areaID := 63; connection_bidirectional := false |}.

(** The callback after it has published the ladder. *)
Definition ladder_process : MeshProcess :=
  match process (NM := NavMesh) (TC := TileCache)
          (scene_env true 1 [ground] [ladder]) layer_params [63; 0; 63] [0; 0; 0]
          allocated_mesh new_MeshProcess with
  | Ret (_, _, mp) => mp
  | _ => new_MeshProcess
  end.

(** The records [GetTileData] writes for tile (0, 0) of a mesh built with
    two layers there, and an allocated mesh after [AddTile] of these
    records. *)
Definition two_layer_env : Env := scene_env true 2 [ground] [].

Definition tile_00_data : list byte :=
  match GetTileData {| iv_x := 0; iv_y := 0 |} (built_mesh 2 16) with
  | Ret bytes => bytes
  | _ => []
  end.

Definition streamed_mesh : DynamicNavigationMesh NavMesh TileCache :=
  mesh_of (AddTile two_layer_env tile_00_data allocated_mesh).

(** A scene with one barrel that is enabled and one that is not, around a
    mesh that was never built. *)
Definition sleeping_barrel : Obstacle :=
  {| obstacle_node := Some obstacle_node_7; obstacleId_ := 0;
     obstacle_radius := 1065353216; obstacle_height := 1073741824;
     obstacle_enabled := false |}.

Definition mesh_with_barrels : DynamicNavigationMesh NavMesh TileCache :=
  {| node_ := Some mesh_node;
     scene_ := Some [barrel (Some obstacle_node_7); sleeping_barrel];
     navMesh_ := None; tileCache_ := None;
     boundingBox_ := BoundingBox_cleared; numTilesX_ := 0; numTilesZ_ := 0;
     settings := default_settings 16; tileQueue_ := []; events := [] |}.

(** Modelled from the spec: [NavigationMesh::RemoveTile] of the base class
    is missing; after it the tile is "Empty", the navmesh has no tile at the
    coordinate any more. *)
Definition forget_navmesh_tile (tile : IntVector2)
    (st : DynamicNavigationMesh NavMesh TileCache)
  : DynamicNavigationMesh NavMesh TileCache :=
  set_navMesh st
    (option_map
       (fun m =>
          {| nm_params := nm_params m;
             nm_tiles :=
               filter (fun k => negb ((fst (fst k) =? iv_x tile)
                                      && (snd (fst k) =? iv_y tile)))
                      (nm_tiles m) |})
       (navMesh_ st)).

(** The scene after its geometry was taken away: the collaborators of
    [scene_env], five layers per tile as Recast goes, but no geometry is
    collected and no tile box holds a vertex. *)
Definition emptied_env : Env :=
  let e := scene_env true 5 [] [] in
  {| dtAllocNavMesh_ok := dtAllocNavMesh_ok e;
     navMesh_init_ok := navMesh_init_ok e;
     dtAllocTileCache_ok := dtAllocTileCache_ok e;
     tileCache_init_ok := tileCache_init_ok e;
     dtAlloc_ok := dtAlloc_ok e;
     Transformed_Inverse := Transformed_Inverse e;
     tileEdgeLength := tileEdgeLength e;
     rcCalcGridSize := rcCalcGridSize e;
     Merge := Merge e;
     Padded := Padded e;
     Inverse := Inverse e;
     transform := transform e;
     GetComponents_OffMeshConnection := GetComponents_OffMeshConnection e;
     collect_geometries := [];
     GetTileBoundingBox := GetTileBoundingBox e;
     expandedBox := expandedBox e;
     GetTileGeometry := fun _ _ => {| vertices_ := []; indices_ := []; navAreas_ := [] |};
     rcBuildHeightfieldLayers := rcBuildHeightfieldLayers e;
     LZ4_compress_default := LZ4_compress_default e |}.

End Scenarios.

(** * Properties *)

Section MachineFacts.
Import Machine.

Lemma to_int_small z : is_int z -> to_int z = z.
Proof.
  unfold is_int, to_int, INT_MIN, INT_MAX, UINT_MOD. intros H.
  destruct (Z_lt_le_dec z 0) as [Hn | Hp].
  - replace (z mod 2 ^ 32) with (z + 2 ^ 32).
    + destruct (Z.ltb_spec (z + 2 ^ 32) (2 ^ 31)); lia.
    + apply Z.mod_unique with (q := -1); lia.
  - rewrite Z.mod_small by lia.
    destruct (Z.ltb_spec z (2 ^ 31)); lia.
Qed.

Lemma to_size_t_small z : is_size_t z -> to_size_t z = z.
Proof. unfold is_size_t, to_size_t. intros H. now apply Z.mod_small. Qed.

Lemma to_unsigned_small z : is_unsigned z -> to_unsigned z = z.
Proof. unfold is_unsigned, to_unsigned. intros H. now apply Z.mod_small. Qed.

End MachineFacts.

(** ** Byte buffers *)

Section ByteFacts.
Import Machine Bytes.

Lemma Z_of_byte_of_Z z : Z_of_byte (byte_of_Z z) = z mod 256.
Proof.
  unfold Z_of_byte, byte_of_Z.
  assert (Hr : 0 <= z mod 256 < 256) by (apply Z.mod_pos_bound; lia).
  destruct (Byte.of_N (Z.to_N (z mod 256))) as [b |] eqn:E.
  - apply Byte.to_of_N in E. rewrite E. apply Z2N.id. lia.
  - apply Byte.of_N_None_iff in E. lia.
Qed.

Lemma length_encode_le n v : length (encode_le n v) = n.
Proof. revert v. induction n as [| n IH]; intros v; cbn; [| rewrite IH]; reflexivity. Qed.

Lemma decode_encode_le n v :
  decode_le (encode_le n v) = v mod 2 ^ (8 * Z.of_nat n).
Proof.
  revert v. induction n as [| n IH]; intros v.
  - cbn. now rewrite Z.mod_1_r.
  - cbn [encode_le decode_le]. rewrite Z_of_byte_of_Z, IH.
    replace (8 * Z.of_nat (S n)) with (8 + 8 * Z.of_nat n) by lia.
    rewrite Z.pow_add_r by lia. change (2 ^ 8) with 256.
    rewrite Z.rem_mul_r; [reflexivity | lia |].
    apply Z.pow_pos_nonneg; lia.
Qed.

Lemma firstn_app_exact {A} (a b : list A) n :
  length a = n -> firstn n (a ++ b) = a.
Proof.
  intros <-. rewrite firstn_app, Nat.sub_diag, firstn_all. cbn. apply app_nil_r.
Qed.

Lemma skipn_app_exact {A} (a b : list A) n :
  length a = n -> skipn n (a ++ b) = b.
Proof.
  intros <-. rewrite skipn_app, Nat.sub_diag, skipn_all. reflexivity.
Qed.

Lemma field_at_skip (a : list byte) off len l :
  field_at (length a + off) len (a ++ l) = field_at off len l.
Proof.
  unfold field_at. f_equal. f_equal.
  rewrite Nat.add_comm, <- skipn_skipn. now rewrite skipn_app_exact.
Qed.

Lemma field_at_here n v l :
  field_at 0 n (encode_le n v ++ l) = v mod 2 ^ (8 * Z.of_nat n).
Proof.
  unfold field_at. cbn [skipn].
  rewrite firstn_app_exact by apply length_encode_le. apply decode_encode_le.
Qed.

Lemma to_int_mod v : to_int (v mod UINT_MOD) = to_int v.
Proof. unfold to_int. now rewrite Z.mod_mod by (unfold UINT_MOD; lia). Qed.

(** An [int] written by [WriteI32] is read back by [ReadI32]. *)
Lemma ReadI32_WriteI32 v l : is_int v -> ReadI32 (WriteI32 v ++ l) = (v, l).
Proof.
  intros Hv. unfold ReadI32, WriteI32.
  rewrite firstn_app_exact, skipn_app_exact by apply length_encode_le.
  rewrite decode_encode_le. change (2 ^ (8 * Z.of_nat 4)) with UINT_MOD.
  now rewrite to_int_mod, to_int_small.
Qed.

Lemma int_field_here v l : is_int v -> to_int (field_at 0 4 (WriteI32 v ++ l)) = v.
Proof.
  intros Hv. unfold WriteI32. rewrite field_at_here.
  change (2 ^ (8 * Z.of_nat 4)) with UINT_MOD.
  now rewrite to_int_mod, to_int_small.
Qed.

End ByteFacts.

(** ** The linear allocator *)

Section LinearAllocatorFacts.
Import Machine LinearAllocator.

Lemma alloc_no_buffer size a :
  buffer a = None -> alloc size a = (None, a).
Proof. unfold alloc. now intros ->. Qed.

(** Without wrap-around the guard of [alloc] is the comparison of the
    mathematical sum with the capacity. *)
Lemma alloc_guard_exact size a :
  well_typed a -> inv a -> 0 <= size -> top a + size < SIZE_MOD ->
  to_size_t (to_size_t (top a) + size) = top a + size /\
  to_size_t (capacity a) = capacity a.
Proof.
  unfold well_typed, inv, is_int, INT_MIN, INT_MAX.
  intros (Hc & Ht & _) Hi Hs Hw.
  assert (Htop : to_size_t (top a) = top a)
    by (apply to_size_t_small; unfold is_size_t, SIZE_MOD in *; lia).
  rewrite Htop. split; apply to_size_t_small; unfold is_size_t, SIZE_MOD in *; lia.
Qed.

Lemma alloc_some_iff size a :
  well_typed a -> inv a -> 0 <= size -> top a + size < SIZE_MOD ->
  (fst (alloc size a) <> None <->
   buffer a <> None /\ top a + size <= capacity a).
Proof.
  intros Hw Hi Hs Hn.
  destruct (alloc_guard_exact Hw Hi Hs Hn) as [E1 E2].
  unfold alloc. destruct (buffer a) as [base |]; cbn.
  - rewrite E1, E2.
    destruct (Z.gtb_spec (top a + size) (capacity a)); cbn; split.
    + intros H'; now contradiction H'.
    + intros [_ H']; lia.
    + intros _; split; [discriminate | lia].
    + discriminate.
  - split; [intros H'; now contradiction H' | intros [H' _]; now contradiction H'].
Qed.

Lemma alloc_advances size a :
  well_typed a -> inv a -> 0 <= size -> top a + size < SIZE_MOD ->
  fst (alloc size a) <> None ->
  top (snd (alloc size a)) = top a + size /\
  fst (alloc size a) = option_map (fun base => base + top a) (buffer a).
Proof.
  intros Hw Hi Hs Hn.
  destruct (alloc_guard_exact Hw Hi Hs Hn) as [E1 E2].
  unfold alloc. destruct (buffer a) as [base |]; cbn.
  - rewrite E1, E2.
    destruct (Z.gtb_spec (top a + size) (capacity a)); cbn.
    + intros H'; now contradiction H'.
    + intros _. split; [| reflexivity].
      apply to_int_small. destruct Hw as (Hc & _). unfold inv in Hi.
      unfold is_int, INT_MIN, INT_MAX in *. lia.
  - intros H'; now contradiction H'.
Qed.

Lemma alloc_fail_unchanged size a :
  fst (alloc size a) = None -> snd (alloc size a) = a.
Proof.
  unfold alloc. destruct (buffer a); cbn; [| reflexivity].
  destruct (_ >? _); cbn; [reflexivity | discriminate].
Qed.

Lemma alloc_keeps_inv size a :
  well_typed a -> inv a -> 0 <= size -> top a + size < SIZE_MOD ->
  inv (snd (alloc size a)) /\ well_typed (snd (alloc size a)).
Proof.
  intros Hw Hi Hs Hn.
  destruct (fst (alloc size a)) eqn:E.
  - assert (Hsome : fst (alloc size a) <> None) by (rewrite E; discriminate).
    destruct (alloc_advances Hw Hi Hs Hn Hsome) as [Ht _].
    apply (alloc_some_iff Hw Hi Hs Hn) in Hsome. destruct Hsome as [_ Hle].
    assert (Hc : capacity (snd (alloc size a)) = capacity a /\
                 high (snd (alloc size a)) = high a).
    { unfold alloc. destruct (buffer a); [destruct (_ >? _) |]; cbn; auto. }
    destruct Hc as [Hc Hh].
    unfold inv, well_typed in *. rewrite Ht, Hc, Hh.
    unfold is_int, INT_MIN, INT_MAX in *. lia.
  - rewrite (alloc_fail_unchanged _ _ E). auto.
Qed.

(** The guard of [alloc] lets nothing through that would leave [top]
    outside the buffer, whatever the size asked for: the sum it compares with
    the capacity is the value [top] takes. *)
Lemma alloc_inv_any_size size a :
  well_typed a -> inv a ->
  inv (snd (alloc size a)) /\ well_typed (snd (alloc size a)).
Proof.
  intros Hw Hi. unfold alloc.
  destruct (buffer a) as [base |]; [| now split].
  set (sum := to_size_t (to_size_t (top a) + size)).
  assert (Hsum : 0 <= sum)
    by (unfold sum, to_size_t, SIZE_MOD; apply Z.mod_pos_bound; lia).
  assert (Hcap : to_size_t (capacity a) = capacity a).
  { apply to_size_t_small. destruct Hw as (Hc & _).
    unfold inv, is_size_t, is_int, INT_MIN, INT_MAX, SIZE_MOD in *. lia. }
  rewrite Hcap.
  destruct (Z.gtb_spec sum (capacity a)) as [Hgt | Hle]; cbn [snd]; [now split |].
  assert (Hint : to_int sum = sum).
  { apply to_int_small. destruct Hw as (Hc & _).
    unfold is_int, INT_MIN, INT_MAX in *. lia. }
  destruct Hw as (Hc & Ht & Hh).
  unfold inv, well_typed. cbn [top capacity high]. rewrite Hint.
  unfold is_int, INT_MIN, INT_MAX in *. repeat split; lia.
Qed.

(** C9 (as amended): the constructor establishes [0 <= top <= capacity] and
    [alloc], [reset] and [free] keep it, [alloc] for every size whatever;
    for every request whose [top + size] does not overflow [size_t], [alloc]
    answers a non-null pointer exactly when the buffer exists and
    [top + size <= capacity], then advances [top] by exactly [size]; a
    refused [alloc] changes nothing; [reset] puts [top] back to 0 and records
    the high-water mark; [free] changes nothing. *)
Theorem LinearAllocator_invariant size ptr a :
  well_typed a -> inv a -> is_size_t size ->
  inv (snd (alloc size a)) /\ well_typed (snd (alloc size a)) /\
  inv (reset a) /\ inv (free ptr a) /\
  (forall cap mem, 0 <= cap -> inv (create cap mem)) /\
  (top a + size < SIZE_MOD ->
   (fst (alloc size a) <> None <->
      buffer a <> None /\ top a + size <= capacity a) /\
   (fst (alloc size a) <> None -> top (snd (alloc size a)) = top a + size)) /\
  (fst (alloc size a) = None -> snd (alloc size a) = a) /\
  top (reset a) = 0 /\
  high (reset a) = Z.max (high a) (top a) /\
  capacity (reset a) = capacity a /\ buffer (reset a) = buffer a /\
  free ptr a = a.
Proof.
  intros Hw Hi [Hs _].
  destruct (alloc_inv_any_size size Hw Hi) as [Hinv Hwt].
  split; [exact Hinv |]. split; [exact Hwt |].
  split; [unfold inv, reset in *; cbn; lia |].
  split; [exact Hi |].
  split; [intros cap mem Hcap; unfold inv, create, resize; cbn; lia |].
  split.
  { intros Hn. split; [now apply alloc_some_iff |].
    intros H. now apply alloc_advances. }
  split; [apply alloc_fail_unchanged |].
  unfold reset, free; cbn. repeat split.
Qed.

Lemma LinearAllocator_invariant_witness :
  inv (snd (alloc 500 allocator_32k)) /\
  inv (snd (alloc (SIZE_MOD - 1) allocator_32k)) /\
  (fst (alloc 500 allocator_32k) <> None <->
     buffer allocator_32k <> None /\
     top allocator_32k + 500 <= capacity allocator_32k) /\
  top (snd (alloc 500 allocator_32k)) = 600.
Proof.
  assert (Hw : well_typed allocator_32k)
    by (vm_compute; intuition discriminate).
  assert (Hi : inv allocator_32k) by (vm_compute; intuition discriminate).
  assert (Hs : is_size_t 500) by (vm_compute; intuition discriminate).
  assert (Hbig : is_size_t (SIZE_MOD - 1)) by (vm_compute; intuition discriminate).
  assert (Hn : top allocator_32k + 500 < SIZE_MOD) by (vm_compute; reflexivity).
  destruct (@LinearAllocator_invariant 500 None _ Hw Hi Hs)
    as (Hinv & _ & _ & _ & _ & Hexact & _).
  destruct (@LinearAllocator_invariant (SIZE_MOD - 1) None _ Hw Hi Hbig)
    as (Hinv' & _).
  split; [exact Hinv |]. split; [exact Hinv' |].
  split; [exact (proj1 (Hexact Hn)) | reflexivity].
Defined.

(** C9 as stated fails on a request close to [SIZE_MAX]: the sum in the
    guard of [alloc] wraps, so that a non-null pointer comes back although
    [top + size] exceeds the capacity, and [top] does not advance by [size];
    it moves back, staying inside the buffer. *)
Lemma LinearAllocator_alloc_wraps :
  let a := allocator_32k in
  let size := SIZE_MOD - 1 in
  is_size_t size /\ well_typed a /\ inv a /\
  ~ (fst (alloc size a) <> None <->
       buffer a <> None /\ top a + size <= capacity a) /\
  fst (alloc size a) = Some (4096 + 100) /\
  top (snd (alloc size a)) = 99 /\
  top (snd (alloc size a)) <> top a + size.
Proof.
  cbv zeta.
  assert (E : alloc (SIZE_MOD - 1) allocator_32k
              = (Some 4196, LinearAllocator.mk (Some 4096) 32000 99 0))
    by (vm_compute; reflexivity).
  rewrite E; cbn [fst snd top].
  split; [vm_compute; intuition discriminate |].
  split; [vm_compute; intuition discriminate |].
  split; [vm_compute; intuition discriminate |].
  split; [| split; [reflexivity | split; [reflexivity | vm_compute; discriminate]]].
  intros [H _].
  assert (Hs : Some 4196 <> None) by discriminate.
  destruct (H Hs) as [_ Hle]. vm_compute in Hle. now apply Hle.
Qed.

End LinearAllocatorFacts.

(** ** Obstacles *)

Section ObstacleFacts.
Context {NM TC : Type} {D : Detour NM TC}.

Local Abbreviation Mesh := (DynamicNavigationMesh NM TC).

Lemma events_set_detour (st : Mesh) p : events (set_detour st p) = events st.
Proof. reflexivity. Qed.

Lemma tileCache_set_detour (st : Mesh) p : tileCache_ (set_detour st p) = Some (fst p).
Proof. reflexivity. Qed.

Lemma AddObstacle_no_cache fuel o silent (st : Mesh) :
  tileCache_ st = None -> AddObstacle fuel o silent st = Ret (st, o).
Proof. unfold AddObstacle. now intros ->. Qed.

Lemma RemoveObstacle_no_cache fuel o silent (st : Mesh) :
  tileCache_ st = None -> RemoveObstacle fuel o silent st = Ret (st, o).
Proof. unfold RemoveObstacle. now intros ->. Qed.

Lemma RemoveObstacle_zero_handle fuel o silent (st : Mesh) :
  obstacleId_ o <= 0 -> RemoveObstacle fuel o silent st = Ret (st, o).
Proof.
  unfold RemoveObstacle. intros H.
  destruct (tileCache_ st); [| reflexivity].
  destruct (Z.gtb_spec (obstacleId_ o) 0); [lia | reflexivity].
Qed.

Lemma RemoveObstacle_silent_events fuel o (st : Mesh) :
  match RemoveObstacle fuel o true st with
  | Ret (st', _) => events st' = events st
  | _ => True
  end.
Proof.
  unfold RemoveObstacle.
  destruct (tileCache_ st) as [tc |]; [| reflexivity].
  destruct (obstacleId_ o >? 0); [| reflexivity].
  destruct (wait_for_queue fuel tc (navMesh_ st)) as [[tc1 nm1] | |]; cbn; trivial.
  destruct (removeObstacle (obstacleId_ o) tc1) as [status tc2].
  destruct (dtStatusFailed status); reflexivity.
Qed.

Lemma AddObstacle_silent_events fuel o (st : Mesh) :
  match AddObstacle fuel o true st with
  | Ret (st', _) => events st' = events st
  | _ => True
  end.
Proof.
  unfold AddObstacle.
  destruct (tileCache_ st) as [tc |]; [| reflexivity].
  destruct (obstacle_node o) as [n |]; [| trivial].
  destruct (wait_for_queue fuel tc (navMesh_ st)) as [[tc1 nm1] | |]; cbn; trivial.
  destruct (addObstacle _ _ _ tc1) as [[status ref] tc2].
  destruct (dtStatusFailed status); reflexivity.
Qed.

(** C10: without a tile cache [AddObstacle], [RemoveObstacle] and
    [ObstacleChanged] return at once and leave the obstacle (its handle
    included), the whole mesh state and the notification sink as they
    were. *)
Theorem obstacle_calls_without_tile_cache fuel o silent (st : Mesh) :
  tileCache_ st = None ->
  AddObstacle fuel o silent st = Ret (st, o) /\
  RemoveObstacle fuel o silent st = Ret (st, o) /\
  ObstacleChanged fuel o st = Ret (st, o).
Proof.
  intros H. split; [now apply AddObstacle_no_cache |].
  split; [now apply RemoveObstacle_no_cache |].
  unfold ObstacleChanged. now rewrite H.
Qed.

(** C7: [RemoveObstacle] does nothing on a zero handle; on a non-zero
    handle, once the request queue has room, a successful cache-level removal
    clears the handle whether or not the obstacle still has a node (the
    event being sent only to a non-silent caller of an obstacle with a
    node), and a failed one leaves the obstacle and the events as they
    were. *)
Theorem RemoveObstacle_handle fuel o silent (st : Mesh) tc tc1 nm1 status tc2 :
  tileCache_ st = Some tc ->
  wait_for_queue fuel tc (navMesh_ st) = Ret (tc1, nm1) ->
  removeObstacle (obstacleId_ o) tc1 = (status, tc2) ->
  (obstacleId_ o <= 0 -> RemoveObstacle fuel o silent st = Ret (st, o)) /\
  (0 < obstacleId_ o -> dtStatusFailed status = false ->
   exists st',
     RemoveObstacle fuel o silent st = Ret (st', set_obstacleId o 0) /\
     obstacleId_ (set_obstacleId o 0) = 0 /\
     tileCache_ st' = Some tc2 /\
     events st' =
       events st ++
       match silent, obstacle_node o with
       | false, Some n =>
           [E_NAVIGATION_OBSTACLE_REMOVED n (set_obstacleId o 0) (worldPosition n)
              (obstacle_radius o) (obstacle_height o)]
       | _, _ => []
       end) /\
  (0 < obstacleId_ o -> dtStatusFailed status = true ->
   exists st',
     RemoveObstacle fuel o silent st = Ret (st', o) /\
     tileCache_ st' = Some tc2 /\ events st' = events st).
Proof.
  intros Hc Hw Hr.
  split; [apply RemoveObstacle_zero_handle |].
  split; intros Hpos Hs; unfold RemoveObstacle; rewrite Hc;
    (destruct (Z.gtb_spec (obstacleId_ o) 0); [| lia]);
    rewrite Hw; cbn; rewrite Hr, Hs.
  - destruct silent, (obstacle_node o) as [n |]; eexists;
      (split; [reflexivity |]); cbn; rewrite ?app_nil_r; auto.
  - eexists; split; [reflexivity |]; auto.
Qed.

(** C8 (as amended): [ObstacleChanged] is [RemoveObstacle] followed by
    [AddObstacle] on the same obstacle, both silent: it sends no
    notification at all. *)
Theorem ObstacleChanged_silent fuel o (st : Mesh) :
  ObstacleChanged fuel o st =
    ('(st1, o1) <- RemoveObstacle fuel o true st ;; AddObstacle fuel o1 true st1) /\
  match ObstacleChanged fuel o st with
  | Ret (st', _) => events st' = events st
  | _ => True
  end.
Proof.
  assert (E : ObstacleChanged fuel o st =
              ('(st1, o1) <- RemoveObstacle fuel o true st ;;
               AddObstacle fuel o1 true st1)).
  { unfold ObstacleChanged. destruct (tileCache_ st) eqn:Hc; [reflexivity |].
    rewrite (RemoveObstacle_no_cache _ _ _ _ Hc). cbn.
    now rewrite (AddObstacle_no_cache _ _ _ _ Hc). }
  split; [exact E |]. rewrite E.
  pose proof (RemoveObstacle_silent_events fuel o st) as Hr.
  destruct (RemoveObstacle fuel o true st) as [[st1 o1] | |]; cbn; trivial.
  pose proof (AddObstacle_silent_events fuel o1 st1) as Ha.
  destruct (AddObstacle fuel o1 true st1) as [[st2 o2] | |]; trivial.
  congruence.
Qed.

End ObstacleFacts.

Section ObstacleExamples.
Import Examples.

(** In the list-based cache [update] empties the request queue, so the
    waiting loop ends after one round at most. *)
Lemma wait_for_queue_returns fuel (tc : ListDetour.TileCache) nm :
  exists tc1, wait_for_queue (S fuel) tc nm = Ret (tc1, nm).
Proof.
  cbn [wait_for_queue]. destruct (isObstacleQueueFull tc) eqn:E.
  - cbn. destruct fuel; cbn; eexists; reflexivity.
  - eexists; reflexivity.
Qed.

Lemma obstacle_calls_without_tile_cache_witness :
  let st := fresh_mesh (Some mesh_node) 16 in
  let o := barrel (Some obstacle_node_7) in
  AddObstacle 1 o false st = Ret (st, o) /\
  RemoveObstacle 1 o false st = Ret (st, o) /\
  ObstacleChanged 1 o st = Ret (st, o).
Proof.
  cbv zeta. apply obstacle_calls_without_tile_cache. reflexivity.
Defined.

Lemma RemoveObstacle_handle_witness :
  obstacle_node orphan_barrel = None /\
  obstacleId_ orphan_barrel = 1 /\
  exists st',
    RemoveObstacle 1 orphan_barrel false (fst with_barrel)
      = Ret (st', set_obstacleId orphan_barrel 0) /\
    events st' = events (fst with_barrel).
Proof.
  split; [reflexivity |]. split; [reflexivity |].
  edestruct (@RemoveObstacle_handle _ _ ListDetour.detour 1 orphan_barrel
               false (fst with_barrel)) as (_ & Hs & _);
    [vm_compute; reflexivity | vm_compute; reflexivity | vm_compute; reflexivity |].
  destruct Hs as (st' & E & _ & _ & Hev); [vm_compute; reflexivity | reflexivity |].
  exists st'. split; [exact E |].
  rewrite Hev. apply app_nil_r.
Defined.

(** C8 as stated fails: the spec's reading ends with a non-silent addition
    and so with an "obstacle added" event; the code sends none. *)
Lemma ObstacleChanged_sends_nothing :
  let st := fst with_barrel in
  let o := snd with_barrel in
  events_sent (ObstacleChanged 1 o st) = Some (events st) /\
  events_sent (ObstacleChanged_spec 1 o st)
    = Some (events st
            ++ [E_NAVIGATION_OBSTACLE_ADDED obstacle_node_7 (set_obstacleId o 2)
                  (worldPosition obstacle_node_7) (obstacle_radius o)
                  (obstacle_height o)]) /\
  ObstacleChanged 1 o st <> ObstacleChanged_spec 1 o st.
Proof.
  cbv zeta.
  assert (E1 : events_sent (ObstacleChanged 1 (snd with_barrel) (fst with_barrel))
               = Some (events (fst with_barrel))) by (vm_compute; reflexivity).
  assert (E2 : events_sent (ObstacleChanged_spec 1 (snd with_barrel) (fst with_barrel))
               = Some (events (fst with_barrel)
                       ++ [E_NAVIGATION_OBSTACLE_ADDED obstacle_node_7
                             (set_obstacleId (snd with_barrel) 2)
                             (worldPosition obstacle_node_7)
                             (obstacle_radius (snd with_barrel))
                             (obstacle_height (snd with_barrel))]))
    by (vm_compute; reflexivity).
  split; [exact E1 |]. split; [exact E2 |].
  intros H. rewrite H, E2 in E1.
  injection E1 as E1.
  apply (f_equal (@length Event)) in E1. vm_compute in E1. discriminate E1.
Qed.

End ObstacleExamples.

(** ** Allocation and the full build *)

Section BudgetFacts.
Import Machine.

Lemma NextPowerOfTwo_spec maxTiles :
  1 <= maxTiles <= 2 ^ 22 ->
  let k := Z.log2_up maxTiles in
  0 <= k <= 22 /\ NextPowerOfTwo maxTiles = 2 ^ k /\
  maxTiles <= 2 ^ k /\ (forall j, 0 <= j -> maxTiles <= 2 ^ j -> k <= j).
Proof.
  intros H k.
  assert (Hk0 : 0 <= k) by apply Z.log2_up_nonneg.
  assert (Hk : k <= 22) by (apply Z.log2_up_le_pow2; lia).
  assert (Hle : maxTiles <= 2 ^ k).
  { destruct (Z.eq_dec maxTiles 1) as [-> | Hne]; [cbn; lia |].
    apply (Z.log2_up_spec maxTiles). lia. }
  repeat split; try assumption.
  - unfold NextPowerOfTwo. apply to_unsigned_small.
    unfold is_unsigned, UINT_MOD. split; [apply Z.pow_nonneg; lia |].
    apply Z.le_lt_trans with (2 ^ 22); [| reflexivity].
    apply Z.pow_le_mono_r; lia.
  - intros j Hj Hm. apply Z.log2_up_le_pow2; lia.
Qed.

Lemma bit_budget_pow2 k :
  0 <= k <= 22 ->
  LogBaseTwo (2 ^ k) = k /\
  to_unsigned (22 - k) = 22 - k /\
  shl_unsigned 1 (22 - k) = Ret (2 ^ (22 - k)) /\
  to_int (2 ^ k) = 2 ^ k /\ to_int (2 ^ (22 - k)) = 2 ^ (22 - k).
Proof.
  intros Hk.
  assert (Hp : forall j, 0 <= j <= 22 -> 0 < 2 ^ j <= 2 ^ 22).
  { intros j Hj. split; [apply Z.pow_pos_nonneg; lia |].
    apply Z.pow_le_mono_r; lia. }
  assert (H22 : 2 ^ 22 = 4194304) by reflexivity.
  split; [apply Z.log2_pow2; lia |].
  split; [apply to_unsigned_small; unfold is_unsigned, UINT_MOD; lia |].
  split.
  { unfold shl_unsigned. destruct (Z.ltb_spec (22 - k) 32); [| lia].
    rewrite Z.mul_1_l. f_equal. apply to_unsigned_small.
    unfold is_unsigned, UINT_MOD. specialize (Hp (22 - k)). lia. }
  split; apply to_int_small; unfold is_int, INT_MIN, INT_MAX.
  - specialize (Hp k). lia.
  - specialize (Hp (22 - k)). lia.
Qed.

End BudgetFacts.

Section AllocateFacts.
Context {NM TC : Type} {D : Detour NM TC}.
Variable env : Env.

Local Abbreviation Mesh := (DynamicNavigationMesh NM TC).

(** C2 (as amended): when [Allocate] is called on a mesh with an owning
    node and [1 <= maxTiles <= 2^22], the tile count handed to the navmesh
    is the least power of two [2^k >= maxTiles], [tileBits] is [k], the
    shift count [22 - tileBits] is [22 - k], so that both add up to 22, and
    the polygon count per tile is [2^(22 - k)]; these are the parameters the
    navmesh is allocated with. *)
Theorem Allocate_bit_budget fuel node boundingBox maxTiles (st : Mesh) :
  node_ st = Some node ->
  1 <= maxTiles <= 2 ^ 22 ->
  exists k st2 params tileCacheParams,
    0 <= k <= 22 /\ maxTiles <= 2 ^ k /\
    (forall j, 0 <= j -> maxTiles <= 2 ^ j -> k <= j) /\
    NextPowerOfTwo maxTiles = 2 ^ k /\
    tileBits_of (NextPowerOfTwo maxTiles) = k /\
    polyBits_of (NextPowerOfTwo maxTiles) = 22 - k /\
    tileBits_of (NextPowerOfTwo maxTiles) + polyBits_of (NextPowerOfTwo maxTiles) = 22 /\
    Allocate_params env node boundingBox maxTiles (release_navigation_mesh st)
      = Ret (st2, params, tileCacheParams) /\
    NavMeshParams.maxTiles params = 2 ^ k /\
    NavMeshParams.maxPolys params = 2 ^ (22 - k) /\
    Allocate env fuel boundingBox maxTiles st =
      (let '(ok, st3) := allocate_detour env st2 params tileCacheParams in
       if ok then
         st4 <- scan_for_obstacles fuel st3 ;;
         Ret (true, SendEvent st4 (E_NAVIGATION_MESH_REBUILT (node_ st4)))
       else Ret (false, st3)).
Proof.
  intros Hnode H.
  destruct (NextPowerOfTwo_spec H) as (Hk & Hn & Hle & Hmin).
  destruct (bit_budget_pow2 Hk) as (Hlog & Hu & Hshl & Hi1 & Hi2).
  set (k := Z.log2_up maxTiles) in *.
  unfold Allocate.
  replace (node_ (release_navigation_mesh st)) with (Some node) by (now rewrite <- Hnode).
  unfold Allocate_params. rewrite Hn.
  destruct (count_tiles _ _) as [nx nz].
  unfold maxPolys_of, polyBits_of, tileBits_of. rewrite Hlog, Hu, Hshl. cbn [bind].
  exists k. do 3 eexists.
  split; [exact Hk |]. split; [exact Hle |]. split; [exact Hmin |].
  split; [reflexivity |]. split; [reflexivity |]. split; [reflexivity |].
  split; [lia |]. split; [reflexivity |].
  cbn [NavMeshParams.maxTiles NavMeshParams.maxPolys navMesh_params].
  split; [exact Hi1 |]. split; [exact Hi2 |]. reflexivity.
Qed.

Lemma Allocate_no_node fuel boundingBox maxTiles (st : Mesh) :
  node_ st = None ->
  Allocate env fuel boundingBox maxTiles st = Ret (false, release_navigation_mesh st).
Proof. unfold Allocate. cbn. now intros ->. Qed.

End AllocateFacts.

Section AllocateExamples.
Import Examples.

Lemma Allocate_bit_budget_witness :
  exists st2 params tileCacheParams,
    Allocate_params (scene_env true 1 [ground] []) mesh_node (geometry_boundingBox_ ground) 10
      (release_navigation_mesh (fresh_mesh (Some mesh_node) 16))
      = Ret (st2, params, tileCacheParams) /\
    NavMeshParams.maxTiles params = 16 /\
    NavMeshParams.maxPolys params = 2 ^ 18.
Proof.
  assert (H : 1 <= 10 <= 2 ^ 22) by (split; discriminate).
  destruct (@Allocate_bit_budget _ _ ListDetour.detour (scene_env true 1 [ground] []) 1
              mesh_node (geometry_boundingBox_ ground) 10
              (fresh_mesh (Some mesh_node) 16) eq_refl H)
    as (k & st2 & p & tcp & Hk & Hle & Hmin & Hn & _ & _ & _ & E & Hm & Hp & _).
  assert (Hk4 : k = 4).
  { apply (f_equal Z.log2) in Hn. rewrite Z.log2_pow2 in Hn by lia.
    rewrite <- Hn. reflexivity. }
  subst k. exists st2, p, tcp. auto.
Defined.

(** C2 as stated fails for two calls.  Without an owning node [Allocate]
    returns [false] before any tile count or bit budget is computed, and no
    navmesh exists afterwards.  Beyond [2^22] tiles, for [maxTiles = 2^23],
    the tile bits are 23, the unsigned shift count [22 - 23] wraps to
    [2^32 - 1], the two do not add up to 22 and the shift that should give
    [maxPolys] is undefined. *)
Lemma Allocate_bit_budget_overflows :
  let maxTiles := 2 ^ 23 in
  (exists st',
     Allocate (scene_env true 1 [ground] []) 1 (geometry_boundingBox_ ground) 10
       (fresh_mesh None 16) = Ret (false, st') /\
     navMesh_ st' = None /\ tileCache_ st' = None) /\
  Machine.is_unsigned maxTiles /\
  NextPowerOfTwo maxTiles = 2 ^ 23 /\
  tileBits_of (NextPowerOfTwo maxTiles) = 23 /\
  polyBits_of (NextPowerOfTwo maxTiles) = 2 ^ 32 - 1 /\
  tileBits_of (NextPowerOfTwo maxTiles) + polyBits_of (NextPowerOfTwo maxTiles) <> 22 /\
  maxPolys_of (NextPowerOfTwo maxTiles) = Fault /\
  Allocate (scene_env true 1 [ground] []) 1 (geometry_boundingBox_ ground) maxTiles
    (fresh_mesh (Some mesh_node) 16) = Fault.
Proof.
  cbv zeta.
  split.
  { eexists. split; [vm_compute; reflexivity |]. split; reflexivity. }
  split; [split; [discriminate | reflexivity] |].
  repeat split; try (vm_compute; reflexivity).
  vm_compute. discriminate.
Qed.

End AllocateExamples.

Section BuildFacts.
Context {NM TC : Type} {D : Detour NM TC}.
Variable env : Env.

Local Abbreviation Mesh := (DynamicNavigationMesh NM TC).

Lemma node_release (st : Mesh) : node_ (release_navigation_mesh st) = node_ st.
Proof. reflexivity. Qed.

Lemma released_has_no_mesh (st : Mesh) :
  navMesh_ (release_navigation_mesh st) = None /\
  tileCache_ (release_navigation_mesh st) = None /\
  numTilesX_ (release_navigation_mesh st) = 0 /\
  numTilesZ_ (release_navigation_mesh st) = 0 /\
  events (release_navigation_mesh st) = events st.
Proof. repeat split. Qed.

Lemma allocate_detour_false (st : Mesh) params tileCacheParams :
  fst (allocate_detour env st params tileCacheParams) = false <->
  allocation_fails env params tileCacheParams.
Proof.
  unfold allocate_detour, allocation_fails.
  destruct (dtAllocNavMesh_ok env), (navMesh_init_ok env params),
    (dtAllocTileCache_ok env), (tileCache_init_ok env tileCacheParams);
    cbn; intuition discriminate.
Qed.

Lemma allocate_detour_true (st : Mesh) params tileCacheParams :
  fst (allocate_detour env st params tileCacheParams) = true ->
  snd (allocate_detour env st params tileCacheParams)
    = set_tileCache (set_navMesh st (Some (navMesh_init params)))
        (Some (tileCache_init tileCacheParams)).
Proof.
  unfold allocate_detour.
  destruct (dtAllocNavMesh_ok env), (navMesh_init_ok env params),
    (dtAllocTileCache_ok env), (tileCache_init_ok env tileCacheParams);
    cbn; intros; (reflexivity || discriminate).
Qed.

Lemma Build_all_tiles_not_false fuel geometryList (st st' : Mesh) :
  Build_all_tiles env fuel geometryList st <> Ret (false, st').
Proof.
  unfold Build_all_tiles.
  destruct (for_each _ _ st) as [st4 | |]; cbn; try discriminate.
  destruct (tileCache_ st4) as [tc |]; try discriminate.
  destruct (scan_for_obstacles fuel _) as [st7 | |]; cbn; discriminate.
Qed.

(** C1 (as amended): [Build()] returns false exactly when there is no
    owning node, or when geometry was found and the allocation or the
    initialisation of the navmesh or of the tile cache fails; with an owning
    node and no geometry it returns true and builds nothing: no navmesh, no
    tile cache and no event, the data of an earlier build being released. *)
Theorem Build_result fuel (st : Mesh) :
  (forall st',
     Build env fuel st = Ret (false, st') <->
     (node_ st = None /\ st' = release_navigation_mesh st) \/
     (exists st2 params tileCacheParams,
        node_ st <> None /\ collect_geometries env <> [] /\
        Build_params env (collect_geometries env) (release_navigation_mesh st)
          = Ret (st2, params, tileCacheParams) /\
        allocation_fails env params tileCacheParams /\
        st' = snd (allocate_detour env st2 params tileCacheParams))) /\
  (node_ st <> None -> collect_geometries env = [] ->
   Build env fuel st = Ret (true, release_navigation_mesh st) /\
   navMesh_ (release_navigation_mesh st) = None /\
   tileCache_ (release_navigation_mesh st) = None /\
   events (release_navigation_mesh st) = events st).
Proof.
  split.
  - intros st'. unfold Build. rewrite node_release.
    destruct (node_ st) as [node |].
    + destruct (collect_geometries env) as [| g gs] eqn:Hg.
      * split; [discriminate |].
        intros [[H _] | (st2 & p & tcp & _ & H & _)]; [discriminate | now contradiction H].
      * destruct (Build_params env (g :: gs) (release_navigation_mesh st))
          as [[[st2 p] tcp] | |] eqn:Hp; cbn [bind].
        -- pose proof (allocate_detour_false st2 p tcp) as Hf.
           destruct (allocate_detour env st2 p tcp) as [ok st3] eqn:Ha. cbn [fst snd] in Hf.
           destruct ok.
           ++ split.
              ** intros H. now apply Build_all_tiles_not_false in H.
              ** intros [[H _] | (st2' & p' & tcp' & _ & _ & E & Hfail & _)];
                   [discriminate |].
                 injection E as <- <- <-. apply Hf in Hfail. discriminate.
           ++ split.
              ** intros H. injection H as <-. right. exists st2, p, tcp.
                 repeat split; [discriminate | discriminate | now apply Hf | now rewrite Ha].
              ** intros [[H _] | (st2' & p' & tcp' & _ & _ & E & _ & ->)];
                   [discriminate |].
                 injection E as <- <- <-. now rewrite Ha.
        -- split; [discriminate |].
           intros [[H _] | (st2 & p & tcp & _ & _ & E & _)]; discriminate.
        -- split; [discriminate |].
           intros [[H _] | (st2 & p & tcp & _ & _ & E & _)]; discriminate.
    + split.
      * intros H. injection H as <-. now left.
      * intros [[_ ->] | (st2 & p & tcp & H & _)]; [reflexivity | now contradiction H].
  - intros Hn Hg. unfold Build. rewrite node_release.
    destruct (node_ st); [| now contradiction Hn]. rewrite Hg. repeat split.
Qed.

End BuildFacts.

Section BuildExamples.
Import Examples.

Lemma Build_result_witness :
  Build (scene_env true 1 [] []) 1 allocated_mesh
    = Ret (true, release_navigation_mesh allocated_mesh) /\
  Build (scene_env true 1 [ground] []) 1 (fresh_mesh None 16)
    = Ret (false, release_navigation_mesh (fresh_mesh None 16)).
Proof.
  split.
  - apply (proj2 (@Build_result _ _ ListDetour.detour (scene_env true 1 [] []) 1 allocated_mesh));
      [discriminate | reflexivity].
  - apply (proj1 (@Build_result _ _ ListDetour.detour (scene_env true 1 [ground] []) 1
                    (fresh_mesh None 16))).
    left. split; reflexivity.
Defined.

(** C1 as stated fails: with an owning node and geometry in the scene,
    [Build()] returns false when [dtAllocNavMesh] returns a null pointer. *)
Lemma Build_false_with_node :
  let st := fresh_mesh (Some mesh_node) 16 in
  node_ st = Some mesh_node /\
  collect_geometries out_of_memory_env = [ground] /\
  exists st', Build out_of_memory_env 1 st = Ret (false, st').
Proof.
  cbv zeta. split; [reflexivity |]. split; [reflexivity |].
  eexists. vm_compute. reflexivity.
Qed.

End BuildExamples.

(** ** The mesh-process callback *)

Section MeshProcessFacts.
Context {NM TC : Type}.
Variable env : Env.

Local Abbreviation Mesh := (DynamicNavigationMesh NM TC).

Lemma update_polyFlags_length n polyAreas polyFlags :
  length (update_polyFlags n polyAreas polyFlags) = length polyFlags.
Proof.
  revert polyAreas polyFlags.
  induction n as [| n IH]; intros [| a polyAreas] [| f polyFlags]; cbn; auto.
Qed.

Lemma update_polyFlags_nth n polyAreas polyFlags i a f :
  (i < n)%nat -> nth_error polyAreas i = Some a -> nth_error polyFlags i = Some f ->
  nth_error (update_polyFlags n polyAreas polyFlags) i
    = Some (if a =? RC_NULL_AREA then f else RC_WALKABLE_AREA).
Proof.
  revert polyAreas polyFlags i.
  induction n as [| n IH]; intros polyAreas polyFlags i Hi Ha Hf; [lia |].
  destruct polyAreas as [| a' polyAreas]; [destruct i; discriminate |].
  destruct polyFlags as [| f' polyFlags]; [destruct i; discriminate |].
  destruct i as [| i]; cbn in *.
  - now injection Ha as ->; injection Hf as ->.
  - apply IH; [lia | assumption | assumption].
Qed.

(** Pushing connections that all have an end point appends, per
    connection, two vertices and one radius, flag, area and direction. *)
Lemma push_connections_all inverse connections mp :
  forallb connection_kept connections = true ->
  push_connections env inverse connections mp =
    Ret {| offMeshVertices_ :=
             offMeshVertices_ mp ++ flat_map (local_endPoints env inverse) connections;
           offMeshRadii_ := offMeshRadii_ mp ++ map connection_radius connections;
           offMeshFlags_ :=
             offMeshFlags_ mp ++ map (fun c => connection_mask c mod 65536) connections;
           offMeshAreas_ :=
             offMeshAreas_ mp ++ map (fun c => connection_areaID c mod 256) connections;
           offMeshDir_ :=
             offMeshDir_ mp
             ++ map (fun c => if connection_bidirectional c
                              then DT_OFFMESH_CON_BIDIR else 0) connections |}.
Proof.
  revert mp. induction connections as [| c cs IH]; intros mp H.
  - cbn. rewrite !app_nil_r. now destruct mp.
  - cbn in H. apply andb_true_iff in H. destruct H as [Hc Hcs].
    unfold connection_kept in Hc. apply andb_true_iff in Hc. destruct Hc as [_ He].
    cbn [push_connections flat_map map].
    replace (local_endPoints env inverse c)
      with [transform env inverse (connection_position c);
            transform env inverse
              (match connection_endPoint c with Some e => e | None => connection_position c end)]
      by reflexivity.
    destruct (connection_endPoint c) as [e |] eqn:Ee; [| discriminate].
    rewrite (IH _ Hcs). cbn [offMeshVertices_ offMeshRadii_ offMeshFlags_
                             offMeshAreas_ offMeshDir_].
    rewrite <- !app_assoc. reflexivity.
Qed.

Lemma kept_connections_kept (l : list OffMeshConnection) :
  forallb connection_kept (filter connection_kept l) = true.
Proof.
  apply forallb_forall. intros c Hc. now apply filter_In in Hc.
Qed.

(** C5 (as amended): the callback gives every polygon whose area is not
    null the walkable flag and asks the owning mesh for its off-mesh
    connections; the mesh answers with every effectively enabled connection
    that has an end point, whatever the bounds.  When there are such
    connections and their number differs from the number the callback holds
    from its previous call, their end points are transformed into the space
    of the mesh and published, with radius, flags, area and direction, in the
    creation parameters; when there are none the parameters are left as they
    were. *)
Theorem process_publishes_kept_connections params polyAreas polyFlags
    (st : Mesh) mp node :
  node_ st = Some node ->
  let kept := filter connection_kept (GetComponents_OffMeshConnection env node) in
  let inverse := Inverse env (worldTransform node) in
  let polyFlags' := update_polyFlags (Z.to_nat (polyCount params)) polyAreas polyFlags in
  (forall bounds, CollectOffMeshConnections env bounds st = Ret kept) /\
  (forall i a f,
     (i < Z.to_nat (polyCount params))%nat ->
     nth_error polyAreas i = Some a -> nth_error polyFlags i = Some f ->
     nth_error polyFlags' i = Some (if a =? RC_NULL_AREA then f else RC_WALKABLE_AREA)) /\
  (kept = [] -> process env params polyAreas polyFlags st mp = Ret (params, polyFlags', mp)) /\
  (kept <> [] -> length kept <> length (offMeshRadii_ mp) ->
   exists params' mp',
     process env params polyAreas polyFlags st mp = Ret (params', polyFlags', mp') /\
     offMeshConCount params' = Z.of_nat (length kept) /\
     offMeshConVerts params' = flat_map (local_endPoints env inverse) kept /\
     offMeshConRad params' = map connection_radius kept /\
     offMeshConFlags params' = map (fun c => connection_mask c mod 65536) kept /\
     offMeshConAreas params' = map (fun c => connection_areaID c mod 256) kept /\
     offMeshConDir params'
       = map (fun c => if connection_bidirectional c then DT_OFFMESH_CON_BIDIR else 0) kept /\
     polyCount params' = polyCount params /\
     params_bmin params' = params_bmin params /\
     params_bmax params' = params_bmax params).
Proof.
  intros Hnode kept inverse polyFlags'.
  assert (Hc : forall bounds, CollectOffMeshConnections env bounds st = Ret kept).
  { intros bounds. unfold CollectOffMeshConnections. now rewrite Hnode. }
  split; [exact Hc |].
  split; [intros i a f; apply update_polyFlags_nth |].
  split.
  - intros Hk. unfold process. rewrite Hc. cbn [bind]. now rewrite Hk.
  - intros Hk Hlen. unfold process. rewrite Hc. cbn [bind].
    destruct kept as [| c cs] eqn:Ek; [now contradiction Hk |].
    destruct (Nat.eqb_spec (length (c :: cs)) (length (offMeshRadii_ mp)));
      [now contradiction Hlen |].
    rewrite Hnode. fold inverse.
    rewrite push_connections_all
      by (rewrite <- Ek; apply kept_connections_kept).
    cbn [bind]. do 2 eexists. split; [reflexivity |].
    cbn [offMeshConCount offMeshConVerts offMeshConRad offMeshConFlags
         offMeshConAreas offMeshConDir polyCount params_bmin params_bmax
         offMeshVertices_ offMeshRadii_ offMeshFlags_ offMeshAreas_ offMeshDir_
         ClearConnectionData app].
    rewrite length_map. repeat split.
Qed.

End MeshProcessFacts.

Section MeshProcessExamples.
Import Examples.

Lemma process_publishes_kept_connections_witness :
  exists params' mp',
    process (scene_env true 1 [ground] [closed_door; ladder]) layer_params
      [63; 0; 63] [0; 0; 0] allocated_mesh new_MeshProcess
      = Ret (params', [63; 0; 63], mp') /\
    offMeshConCount params' = 1 /\
    offMeshConVerts params'
      = [connection_position ladder;
         {| v_x := 1120403456; v_y := 1090519040; v_z := 1120403456 |}].
Proof.
  destruct (@process_publishes_kept_connections ListDetour.NavMesh ListDetour.TileCache
              (scene_env true 1 [ground] [closed_door; ladder]) layer_params
              [63; 0; 63] [0; 0; 0] allocated_mesh new_MeshProcess mesh_node eq_refl)
    as (_ & _ & _ & H).
  destruct H as (params' & mp' & E & Hn & Hv & _); [discriminate | discriminate |].
  exists params', mp'. split; [exact E |]. split; [exact Hn | exact Hv].
Defined.

(** C5 as stated fails: the ladder lies a hundred units away from the layer
    whose polygons are being built, its bounds do not overlap the bounds of
    the layer, and it is collected and published all the same. *)
Lemma process_ignores_bounds :
  let env := scene_env true 1 [ground] [closed_door; ladder] in
  let layer := {| min_ := params_bmin layer_params; max_ := params_bmax layer_params |} in
  boxes_overlap (connection_bounds ladder) layer = false /\
  CollectOffMeshConnections_spec env layer allocated_mesh = Ret [] /\
  CollectOffMeshConnections env layer allocated_mesh = Ret [ladder] /\
  exists params' mp',
    process env layer_params [63; 0; 63] [0; 0; 0] allocated_mesh new_MeshProcess
      = Ret (params', [63; 0; 63], mp') /\
    offMeshConCount params' = 1.
Proof.
  cbv zeta. repeat split; try (vm_compute; reflexivity).
  do 2 eexists. split; vm_compute; reflexivity.
Qed.

End MeshProcessExamples.

(** ** Layer headers *)

Section HeaderFacts.
Import Machine Bytes.

Lemma length_encode_Vector3 v : length (encode_Vector3 v) = 12%nat.
Proof. unfold encode_Vector3. now rewrite !length_app, !length_encode_le. Qed.

Lemma length_header h : length (LayerHeader.encode h) = LayerHeader.size.
Proof.
  unfold LayerHeader.encode, WriteI32.
  now rewrite !length_app, !length_encode_Vector3, !length_encode_le.
Qed.

Lemma length_WriteI32 v : length (WriteI32 v) = 4%nat.
Proof. apply length_encode_le. Qed.

(** The coordinates, the magic and the version survive the encoding of a
    header, whatever follows the header in the blob. *)
Lemma header_decode_encode h rest :
  let h' := LayerHeader.decode (LayerHeader.encode h ++ rest) in
  (is_int (LayerHeader.magic h) -> LayerHeader.magic h' = LayerHeader.magic h) /\
  (is_int (LayerHeader.version h) -> LayerHeader.version h' = LayerHeader.version h) /\
  (is_int (LayerHeader.tx h) -> LayerHeader.tx h' = LayerHeader.tx h) /\
  (is_int (LayerHeader.ty h) -> LayerHeader.ty h' = LayerHeader.ty h) /\
  (is_int (LayerHeader.tlayer h) -> LayerHeader.tlayer h' = LayerHeader.tlayer h).
Proof.
  cbv zeta. unfold LayerHeader.decode, LayerHeader.encode.
  cbn [LayerHeader.magic LayerHeader.version LayerHeader.tx LayerHeader.ty
       LayerHeader.tlayer].
  rewrite <- !app_assoc.
  set (m := WriteI32 (LayerHeader.magic h)).
  set (v := WriteI32 (LayerHeader.version h)).
  set (x := WriteI32 (LayerHeader.tx h)).
  set (y := WriteI32 (LayerHeader.ty h)).
  set (l := WriteI32 (LayerHeader.tlayer h)).
  assert (Hm : length m = 4%nat) by apply length_WriteI32.
  assert (Hv : length v = 4%nat) by apply length_WriteI32.
  assert (Hx : length x = 4%nat) by apply length_WriteI32.
  assert (Hy : length y = 4%nat) by apply length_WriteI32.
  repeat split; intros Hi.
  - now apply int_field_here.
  - change 4%nat with (4 + 0)%nat at 1. rewrite <- Hm at 1.
    rewrite field_at_skip. now apply int_field_here.
  - change 8%nat with (4 + (4 + 0))%nat. rewrite <- Hm at 1. rewrite field_at_skip.
    rewrite <- Hv at 1. rewrite field_at_skip. now apply int_field_here.
  - change 12%nat with (4 + (4 + (4 + 0)))%nat.
    rewrite <- Hm at 1. rewrite field_at_skip.
    rewrite <- Hv at 1. rewrite field_at_skip.
    rewrite <- Hx at 1. rewrite field_at_skip. now apply int_field_here.
  - change 16%nat with (4 + (4 + (4 + (4 + 0))))%nat.
    rewrite <- Hm at 1. rewrite field_at_skip.
    rewrite <- Hv at 1. rewrite field_at_skip.
    rewrite <- Hx at 1. rewrite field_at_skip.
    rewrite <- Hy at 1. rewrite field_at_skip. now apply int_field_here.
Qed.

End HeaderFacts.

(** ** The list-based tile cache *)

Section CacheFacts.
Import Machine.

Local Abbreviation TileCache := ListDetour.TileCache.
Local Abbreviation tc_tiles := ListDetour.tc_tiles.
Local Abbreviation at_xz := ListDetour.at_xz.

Lemma init_references_fresh p : ListDetour.references_fresh (ListDetour.init p).
Proof. split; [constructor | intros t []]. Qed.

(** [addTile] either refuses the blob and leaves the cache alone, or puts
    the blob, under a new reference, in front of the others. *)
Lemma addTile_cases blob size (tc : TileCache) :
  (ListDetour.addTile blob size tc = (DT_FAILURE, NullRef, tc)) \/
  (exists tc',
     ListDetour.addTile blob size tc
       = (DT_SUCCESS, CompressedTileRef (ListDetour.tc_nextTile tc), tc') /\
     tc_tiles tc'
       = {| ListDetour.ct_ref := ListDetour.tc_nextTile tc;
            ListDetour.ct_data := blob; ListDetour.ct_dataSize := size |} :: tc_tiles tc /\
     ListDetour.tc_nextTile tc' = ListDetour.tc_nextTile tc + 1 /\
     ListDetour.tc_params tc' = ListDetour.tc_params tc).
Proof.
  unfold ListDetour.addTile.
  repeat match goal with
         | |- context [if ?c then _ else _] => destruct c; [now left |]
         end.
  right. eexists. split; [reflexivity |]. cbn. auto.
Qed.

Lemma addTile_references_fresh blob size (tc : TileCache) :
  ListDetour.references_fresh tc ->
  ListDetour.references_fresh (snd (ListDetour.addTile blob size tc)).
Proof.
  intros [Hnd Hlt].
  destruct (addTile_cases blob size tc) as [E | (tc' & E & Ht & Hn & _)]; rewrite E; cbn.
  - now split.
  - split; rewrite Ht; cbn.
    + constructor; [| exact Hnd].
      intros Hin. apply in_map_iff in Hin. destruct Hin as (t & Er & Hin).
      specialize (Hlt t Hin). lia.
    + intros t [<- | Hin]; cbn; [lia |]. specialize (Hlt t Hin). lia.
Qed.

(** [removeTile] keeps a sublist of the blobs: the ones that do not carry
    the reference. *)
Lemma distinctb_NoDup l : ListDetour.distinctb l = true -> NoDup l.
Proof.
  induction l as [| a l IH]; cbn; intros H; [constructor |].
  apply andb_true_iff in H. destruct H as [Ha Hl]. constructor; [| now apply IH].
  intros Hin. apply negb_true_iff in Ha.
  assert (E : existsb (Z.eqb a) l = true)
    by (apply existsb_exists; exists a; split; [exact Hin | apply Z.eqb_refl]).
  congruence.
Qed.

Lemma references_freshb_sound (tc : TileCache) :
  ListDetour.references_freshb tc = true -> ListDetour.references_fresh tc.
Proof.
  unfold ListDetour.references_freshb. intros H. apply andb_true_iff in H.
  destruct H as [Hd Hf]. split; [now apply distinctb_NoDup |].
  intros t Hin. rewrite forallb_forall in Hf. apply Z.ltb_lt. now apply Hf.
Qed.

Lemma removeTile_tiles ref (tc : TileCache) :
  let tc' := snd (ListDetour.removeTile ref tc) in
  ListDetour.tc_nextTile tc' = ListDetour.tc_nextTile tc /\
  ListDetour.tc_params tc' = ListDetour.tc_params tc /\
  (tc_tiles tc' = tc_tiles tc \/
   exists r, ref = CompressedTileRef r /\
             tc_tiles tc' = filter (fun t => negb (ListDetour.has_ref r t)) (tc_tiles tc)).
Proof.
  cbv zeta. unfold ListDetour.removeTile.
  destruct ref as [| r | r]; cbn; auto.
  destruct (find _ _); cbn; auto.
  split; [reflexivity |]. split; [reflexivity |]. right. now exists r.
Qed.

Lemma removeTile_not_compressed ref (tc : TileCache) :
  (forall r, ref <> CompressedTileRef r) ->
  ListDetour.removeTile ref tc = (DT_FAILURE, None, tc).
Proof.
  intros H. destruct ref as [| r | r]; try reflexivity. now contradiction (H r).
Qed.

Lemma NoDup_map_filter (A B : Type) (key : A -> B) (keep : A -> bool) :
  forall tiles : list A,
    NoDup (map key tiles) -> NoDup (map key (filter keep tiles)).
Proof.
  intros tiles. induction tiles as [| t tiles IH]; cbn; intros Hnd.
  - constructor.
  - apply NoDup_cons_iff in Hnd. destruct Hnd as [Hfresh Hrest].
    destruct (keep t); cbn; [| now apply IH].
    constructor; [| now apply IH].
    rewrite in_map_iff. intros (t' & Ekey & Hin).
    apply filter_In in Hin. apply Hfresh.
    rewrite in_map_iff. exists t'. tauto.
Qed.

Lemma removeTile_references_fresh ref (tc : TileCache) :
  ListDetour.references_fresh tc ->
  ListDetour.references_fresh (snd (ListDetour.removeTile ref tc)).
Proof.
  intros [Hnd Hlt].
  destruct (removeTile_tiles ref tc) as (Hn & _ & [Ht | (r & _ & Ht)]);
    unfold ListDetour.references_fresh; rewrite Hn, Ht; [now split |].
  split; [now apply NoDup_map_filter |].
  intros t Hin. apply filter_In in Hin. now apply Hlt.
Qed.

(** Removing by a reference that only blobs at [(x', z')] carry leaves the
    blobs of every other coordinate in place. *)
Lemma filter_without_ref (l : list ListDetour.CachedTile) r x z :
  (forall t, In t l -> ListDetour.ct_ref t = r -> at_xz x z t = false) ->
  filter (at_xz x z) (filter (fun t => negb (ListDetour.has_ref r t)) l)
    = filter (at_xz x z) l.
Proof.
  induction l as [| t l IH]; intros H; [reflexivity |].
  assert (IH' := IH (fun t' Hin => H t' (or_intror Hin))).
  cbn [filter]. unfold ListDetour.has_ref at 1.
  destruct (Z.eqb_spec (ListDetour.ct_ref t) r) as [E | E]; cbn [negb].
  - now rewrite (H t (or_introl eq_refl) E).
  - cbn [filter]. destruct (at_xz x z t); [f_equal |]; exact IH'.
Qed.

Lemma removeTile_elsewhere ref (tc : TileCache) x z :
  (forall t r, ref = CompressedTileRef r -> In t (tc_tiles tc) ->
               ListDetour.ct_ref t = r -> at_xz x z t = false) ->
  filter (at_xz x z) (tc_tiles (snd (ListDetour.removeTile ref tc)))
    = filter (at_xz x z) (tc_tiles tc).
Proof.
  intros H.
  destruct (removeTile_tiles ref tc) as (_ & _ & [Ht | (r & Er & Ht)]); rewrite Ht;
    [reflexivity |].
  apply filter_without_ref. intros t Hin E. now apply (H t r).
Qed.

End CacheFacts.

(** ** Building tiles over the list-based cache *)

Section TileFacts.
Import Machine.
Variable env : Env.

Local Abbreviation TileCache := ListDetour.TileCache.
Local Abbreviation Mesh := (DynamicNavigationMesh ListDetour.NavMesh ListDetour.TileCache).
Local Abbreviation tc_tiles := ListDetour.tc_tiles.
Local Abbreviation at_xz := ListDetour.at_xz.

Lemma for_each_invariant {A S : Type} (body : A -> S -> outcome S) (P : S -> Prop) l s :
  P s ->
  (forall a s0, In a l -> P s0 -> exists s1, body a s0 = Ret s1 /\ P s1) ->
  exists s', for_each body l s = Ret s' /\ P s'.
Proof.
  revert s. induction l as [| a l IH]; intros s Hs Hbody; cbn.
  - now exists s.
  - destruct (Hbody a s (or_introl eq_refl) Hs) as (s1 & E & Hs1). rewrite E. cbn.
    apply IH; [exact Hs1 |]. intros a' s0 Hin. apply Hbody. now right.
Qed.

Lemma In_int_range a b i : In i (int_range a b) <-> a <= i <= b.
Proof.
  unfold int_range. rewrite in_map_iff. split.
  - intros (k & <- & Hk). apply in_seq in Hk. lia.
  - intros H. exists (Z.to_nat (i - a)). split; [lia |]. apply in_seq. lia.
Qed.

Lemma In_tile_coordinates from to x z :
  In (x, z) (tile_coordinates from to) <->
  iv_x from <= x <= iv_x to /\ iv_y from <= z <= iv_y to.
Proof.
  unfold tile_coordinates. rewrite in_flat_map. split.
  - intros (z' & Hz & Hin). apply in_map_iff in Hin. destruct Hin as (x' & E & Hx).
    injection E as <- <-. apply In_int_range in Hz, Hx. tauto.
  - intros [Hx Hz]. exists z. split; [now apply In_int_range |].
    apply in_map_iff. exists x. split; [reflexivity | now apply In_int_range].
Qed.

Lemma at_xz_other x z x' z' t :
  (x, z) <> (x', z') -> at_xz x' z' t = true -> at_xz x z t = false.
Proof.
  unfold ListDetour.at_xz. intros Hne H. apply andb_true_iff in H.
  destruct H as [Hx Hz]. apply Z.eqb_eq in Hx, Hz. rewrite Hx, Hz.
  destruct (Z.eqb_spec x' x); [| reflexivity].
  destruct (Z.eqb_spec z' z); [| reflexivity]. subst. now contradiction Hne.
Qed.

Lemma NoDup_map_injective {A B} (f : A -> B) l a b :
  NoDup (map f l) -> In a l -> In b l -> f a = f b -> a = b.
Proof.
  induction l as [| c l IH]; cbn; intros Hnd Ha Hb E; [contradiction |].
  inversion Hnd as [| ? ? Hn Hd]; subst.
  destruct Ha as [-> | Ha], Hb as [-> | Hb]; auto.
  - exfalso. apply Hn. rewrite E. now apply in_map.
  - exfalso. apply Hn. rewrite <- E. now apply in_map.
Qed.

Lemma In_firstn {A} n (l : list A) a : In a (firstn n l) -> In a l.
Proof.
  revert l. induction n as [| n IH]; intros [| b l]; cbn; try contradiction.
  intros [-> | H]; auto.
Qed.

(** The references [getTilesAt] lists belong to blobs of that coordinate
    and to no other blob. *)
Lemma getTilesAt_only_there (tc : TileCache) x' z' maxTiles ref r t x z :
  ListDetour.references_fresh tc -> (x, z) <> (x', z') ->
  In ref (ListDetour.getTilesAt x' z' maxTiles tc) ->
  ref = CompressedTileRef r -> In t (tc_tiles tc) -> ListDetour.ct_ref t = r ->
  at_xz x z t = false.
Proof.
  intros [Hnd _] Hne Hin -> Ht Hr.
  unfold ListDetour.getTilesAt in Hin. apply In_firstn in Hin.
  apply in_map_iff in Hin. destruct Hin as (t0 & E & Hin).
  injection E as E. apply filter_In in Hin. destruct Hin as [Hin0 Hat].
  assert (t = t0) by (apply (NoDup_map_injective _ _ _ _ Hnd Ht Hin0); congruence).
  subst t0. now apply (at_xz_other _ Hne).
Qed.

Lemma removeTile_sublist ref (tc : TileCache) t :
  In t (tc_tiles (snd (ListDetour.removeTile ref tc))) -> In t (tc_tiles tc).
Proof.
  destruct (removeTile_tiles ref tc) as (_ & _ & [Ht | (r & _ & Ht)]); rewrite Ht;
    [auto |]. intros H. now apply filter_In in H.
Qed.

Lemma remove_existing_elsewhere existing (tc : TileCache) x z :
  ListDetour.references_fresh tc ->
  (forall ref r t, In ref existing -> ref = CompressedTileRef r ->
                   In t (tc_tiles tc) -> ListDetour.ct_ref t = r -> at_xz x z t = false) ->
  let tc' := remove_existing existing tc in
  ListDetour.references_fresh tc' /\
  filter (at_xz x z) (tc_tiles tc') = filter (at_xz x z) (tc_tiles tc).
Proof.
  revert tc. induction existing as [| ref rest IH]; intros tc Hf H; cbn.
  - now split.
  - change (@removeTile _ _ ListDetour.detour ref tc) with (ListDetour.removeTile ref tc).
    destruct (ListDetour.removeTile ref tc) as [[status d] tc1] eqn:E.
    assert (E1 : tc1 = snd (ListDetour.removeTile ref tc)) by now rewrite E.
    destruct (IH tc1) as [Hf' Hfilter].
    + subst tc1. now apply removeTile_references_fresh.
    + intros ref' r t Hin Hr Ht. subst tc1. apply removeTile_sublist in Ht.
      apply (H ref' r t); auto. now right.
    + split; [exact Hf' |]. rewrite Hfilter. subst tc1.
      apply removeTile_elsewhere. intros t r Hr Ht. apply (H ref r t); auto. now left.
Qed.

(** Every blob [build_layers] makes for tile [(x, z)] carries [x] and [z]
    in its header. *)
Lemma build_layers_coordinates x z i layers tiles t :
  is_int x -> is_int z ->
  build_layers env x z i layers = Some tiles -> In t tiles ->
  LayerHeader.tx (LayerHeader.decode (data t)) = x /\
  LayerHeader.ty (LayerHeader.decode (data t)) = z.
Proof.
  intros Hx Hz. revert i tiles.
  induction layers as [| layer rest IH]; intros i tiles E Hin; cbn [build_layers] in E.
  - injection E as <-. contradiction.
  - destruct (dtBuildTileCacheLayer env (layer_header x z i layer) (heights layer)
                (areas layer) (cons layer)) as [blob |] eqn:Eb; [| discriminate].
    destruct (build_layers env x z (i + 1) rest) as [tiles' |] eqn:E'; [| discriminate].
    injection E as <-. destruct Hin as [<- | Hin]; [| now apply (IH (i + 1) tiles')].
    cbn [data].
    unfold dtBuildTileCacheLayer in Eb.
    destruct (dtAlloc_ok env _); [| discriminate].
    injection Eb as <-.
    destruct (header_decode_encode (layer_header x z i layer)
                (LZ4_compress_default env (heights layer ++ areas layer ++ cons layer)))
      as (_ & _ & Htx & Hty & _).
    split; [now apply Htx | now apply Hty].
Qed.

Lemma removeTile_navmesh_ref (nm : ListDetour.NavMesh) (tc : TileCache) x z l :
  removeTile (navMesh_getTileRefAt nm x z l) tc = (DT_FAILURE, None, tc).
Proof.
  cbn [removeTile navMesh_getTileRefAt ListDetour.detour].
  apply removeTile_not_compressed. intros r. unfold ListDetour.getTileRefAt.
  destruct (ListDetour.index_of _ _ _); discriminate.
Qed.

Lemma set_tileCache_same (st : Mesh) tc :
  tileCache_ st = Some tc -> set_tileCache st (Some tc) = st.
Proof. destruct st; cbn. now intros ->. Qed.

(** Over the list-based cache [BuildTile] returns, leaves cache and navmesh
    alone, and hands out blobs that carry the tile coordinates; a void tile
    gives no blob and no event. *)
Lemma BuildTile_list geometryList x z (st : Mesh) tc nm :
  layers_fit env -> is_int x -> is_int z ->
  tileCache_ st = Some tc -> navMesh_ st = Some nm ->
  exists tiles st',
    BuildTile env geometryList x z st = Ret (tiles, st') /\
    tileCache_ st' = Some tc /\ navMesh_ st' = Some nm /\
    node_ st' = node_ st /\ scene_ st' = scene_ st /\
    settings st' = settings st /\
    boundingBox_ st' = boundingBox_ st /\
    numTilesX_ st' = numTilesX_ st /\ numTilesZ_ st' = numTilesZ_ st /\
    (forall t, In t tiles ->
       LayerHeader.tx (LayerHeader.decode (data t)) = x /\
       LayerHeader.ty (LayerHeader.decode (data t)) = z) /\
    (tile_is_void env geometryList x z st -> tiles = [] /\ st' = st).
Proof.
  intros Hfit Hx Hz Hc Hn. unfold BuildTile, tile_is_void. rewrite Hc, Hn.
  rewrite removeTile_navmesh_ref. rewrite (set_tileCache_same _ Hc).
  set (box := expandedBox env (settings st)
                (GetTileBoundingBox env (boundingBox_ st) (settings st) x z)).
  set (build := GetTileGeometry env geometryList box).
  assert (Hnone : exists tiles st',
             Ret (@nil TileCacheData, st) = Ret (tiles, st') /\
             tileCache_ st' = Some tc /\ navMesh_ st' = Some nm /\
             node_ st' = node_ st /\ scene_ st' = scene_ st /\
             settings st' = settings st /\
             boundingBox_ st' = boundingBox_ st /\
             numTilesX_ st' = numTilesX_ st /\ numTilesZ_ st' = numTilesZ_ st /\
             (forall t, In t tiles ->
                LayerHeader.tx (LayerHeader.decode (data t)) = x /\
                LayerHeader.ty (LayerHeader.decode (data t)) = z) /\
             (vertices_ build = [] \/ indices_ build = [] -> tiles = [] /\ st' = st)).
  { exists [], st. repeat apply conj; auto; intros t Ht; inversion Ht. }
  destruct (vertices_ build) as [| v vs] eqn:Ev; [exact Hnone |].
  destruct (indices_ build) as [| i ixs] eqn:Ei; [exact Hnone |].
  destruct (rcBuildHeightfieldLayers env (settings st) box build) as [layers |] eqn:El.
  - specialize (Hfit _ _ _ _ El).
    destruct (Z.ltb_spec TILECACHE_MAXLAYERS (Z.of_nat (length layers))); [lia |].
    destruct (build_layers env x z 0 layers) as [tiles |] eqn:Eb.
    + do 2 eexists. split; [reflexivity |]. repeat apply conj; auto.
      * intros t Ht. apply (build_layers_coordinates _ _ _ Hx Hz Eb Ht).
      * intros [H' | H']; discriminate.
    + exists [], st. split; [reflexivity |].
      repeat apply conj; auto; intros t Ht; inversion Ht.
  - exists [], st. split; [reflexivity |].
    repeat apply conj; auto; intros t Ht; inversion Ht.
Qed.

Lemma buildNavMeshTile_list ref (tc : TileCache) (nm : option ListDetour.NavMesh) :
  fst (buildNavMeshTile ref tc nm) = tc /\
  (nm <> None -> snd (buildNavMeshTile ref tc nm) <> None).
Proof.
  cbn [buildNavMeshTile ListDetour.detour]. unfold ListDetour.buildNavMeshTile.
  destruct ref as [| r | r]; cbn; auto.
  destruct (find _ _); cbn; auto.
  split; [reflexivity |]. destruct nm; cbn; [discriminate | auto].
Qed.

Lemma add_rebuilt_tiles_elsewhere tiles (tc : TileCache) nm n x z x' z' :
  (x, z) <> (x', z') ->
  (forall t, In t tiles ->
     LayerHeader.tx (LayerHeader.decode (data t)) = x' /\
     LayerHeader.ty (LayerHeader.decode (data t)) = z') ->
  ListDetour.references_fresh tc -> nm <> None ->
  let p := fst (add_rebuilt_tiles tiles (tc, nm) n) in
  ListDetour.references_fresh (fst p) /\
  filter (at_xz x z) (tc_tiles (fst p)) = filter (at_xz x z) (tc_tiles tc) /\
  snd p <> None.
Proof.
  intros Hne. revert tc nm n.
  induction tiles as [| t rest IH]; intros tc nm n Hxz Hf Hnm; cbn zeta.
  - cbn. auto.
  - cbn [add_rebuilt_tiles fst snd].
    change (@addTile _ _ ListDetour.detour (data t) (dataSize t) tc)
      with (ListDetour.addTile (data t) (dataSize t) tc).
    assert (Hrest : forall t', In t' rest ->
              LayerHeader.tx (LayerHeader.decode (data t')) = x' /\
              LayerHeader.ty (LayerHeader.decode (data t')) = z')
      by (intros t' Hin; apply Hxz; now right).
    destruct (addTile_cases (data t) (dataSize t) tc) as [E | (tc1 & E & Ht & Hn & _)];
      rewrite E; cbn [dtStatusFailed].
    + now apply IH.
    + pose proof (addTile_references_fresh (data t) (dataSize t) Hf) as Hf1.
      rewrite E in Hf1. cbn [snd] in Hf1.
      destruct (buildNavMeshTile_list (CompressedTileRef (ListDetour.tc_nextTile tc)) tc1 nm)
        as [Efst Hsnd].
      destruct (buildNavMeshTile (CompressedTileRef (ListDetour.tc_nextTile tc)) tc1 nm)
        as [tc2 nm2] eqn:Eb.
      cbn [fst snd] in Efst, Hsnd. subst tc2.
      destruct (IH tc1 nm2 (n + 1) Hrest Hf1 (Hsnd Hnm)) as (H1 & H2 & H3).
      split; [exact H1 |]. split; [| exact H3].
      rewrite H2, Ht. cbn [filter].
      assert (Hat : at_xz x z {| ListDetour.ct_ref := ListDetour.tc_nextTile tc;
                                 ListDetour.ct_data := data t;
                                 ListDetour.ct_dataSize := dataSize t |} = false).
      { apply (at_xz_other _ Hne). unfold ListDetour.at_xz, ListDetour.ct_header.
        cbn [ListDetour.ct_data].
        destruct (Hxz t (or_introl eq_refl)) as [-> ->]. now rewrite !Z.eqb_refl. }
      now rewrite Hat.
Qed.

Lemma build_tiles_at_elsewhere geometryList x z kept x' z' s :
  layers_fit env -> is_int x' -> is_int z' -> (x, z) <> (x', z') ->
  ListDetour.rebuild_invariant x z kept s ->
  exists s', build_tiles_at env geometryList (x', z') s = Ret s' /\
             ListDetour.rebuild_invariant x z kept s'.
Proof.
  intros Hfit Hx Hz Hne (tc & nm & Hc & Hn & Hf & Hk).
  destruct s as [st n]. cbn [fst] in Hc, Hn.
  unfold build_tiles_at. rewrite Hc. cbn [fst snd].
  set (existing := getTilesAt x' z' (to_int (maxLayers_ (settings st))) tc).
  destruct (@remove_existing_elsewhere existing tc x z Hf) as [Hf1 Hk1].
  { intros ref r t Hin Hr Ht Er.
    apply (@getTilesAt_only_there tc x' z' (to_int (maxLayers_ (settings st)))
             ref r t x z Hf Hne Hin Hr Ht Er). }
  set (tc1 := remove_existing existing tc) in *.
  destruct (@BuildTile_list geometryList x' z' (set_tileCache st (Some tc1)) tc1 nm
              Hfit Hx Hz eq_refl Hn)
    as (tiles & st2 & E & Hc2 & Hn2 & _ & _ & _ & _ & _ & _ & Hxz & _).
  rewrite E. cbn [bind]. rewrite Hc2, Hn2.
  assert (Hnm : Some nm <> None) by discriminate.
  destruct (@add_rebuilt_tiles_elsewhere tiles tc1 (Some nm) n x z x' z' Hne Hxz Hf1 Hnm)
    as (Hf3 & Hk3 & Hn3).
  destruct (add_rebuilt_tiles tiles (tc1, Some nm) n) as [p n'].
  cbn [fst] in Hf3, Hk3, Hn3.
  eexists. split; [reflexivity |].
  destruct (snd p) as [nm3 |] eqn:En3; [| now contradiction Hn3].
  exists (fst p), nm3. cbn [fst]. rewrite tileCache_set_detour.
  split; [reflexivity |]. split; [cbn; exact En3 |]. split; [exact Hf3 |].
  now rewrite Hk3, Hk1.
Qed.

(** C4: a partial rebuild [Build(from, to)] returns and leaves the blobs
    cached for every tile coordinate outside the rectangle as they were:
    the same blobs, byte for byte, under the same references. *)
Theorem partial_rebuild_locality from to (st : Mesh) tc x z :
  tileCache_ st = Some tc -> ListDetour.references_fresh tc ->
  layers_fit env ->
  is_int (iv_x from) -> is_int (iv_x to) -> is_int (iv_y from) -> is_int (iv_y to) ->
  ~ (iv_x from <= x <= iv_x to /\ iv_y from <= z <= iv_y to) ->
  exists ok st' tc',
    Build_range env from to st = Ret (ok, st') /\
    tileCache_ st' = Some tc' /\
    ListDetour.cached_at x z st' = ListDetour.cached_at x z st /\
    ListDetour.blobs_at x z tc' = ListDetour.blobs_at x z tc.
Proof.
  intros Hc Hf Hfit Hfx Htx Hfy Hty Hout.
  unfold Build_range.
  destruct (node_ st) as [node |]; [| exists false, st, tc; auto].
  destruct (navMesh_ st) as [nm |] eqn:Hn; [| exists false, st, tc; auto].
  unfold build_tiles.
  destruct (@for_each_invariant _ _ (build_tiles_at env (collect_geometries env))
              (ListDetour.rebuild_invariant x z (filter (at_xz x z) (tc_tiles tc)))
              (tile_coordinates from to) (st, 0)) as ([st1 n1] & E & Hinv).
  - exists tc, nm. auto.
  - intros [x' z'] s0 Hin Hs0. apply In_tile_coordinates in Hin.
    unfold is_int in *.
    apply build_tiles_at_elsewhere; auto; unfold is_int; try lia.
    intros Heq. injection Heq as -> ->. now apply Hout.
  - rewrite E. cbn [bind].
    destruct Hinv as (tc' & nm' & Hc' & _ & _ & Hk). cbn [fst] in Hc'.
    exists true, st1, tc'. split; [reflexivity |]. split; [exact Hc' |].
    unfold ListDetour.cached_at, ListDetour.blobs_at. rewrite Hc', Hc, Hk. auto.
Qed.

Lemma update_list dt (tc : TileCache) (nm : option ListDetour.NavMesh) :
  tc_tiles (fst (update dt tc nm)) = tc_tiles tc /\ snd (update dt tc nm) = nm.
Proof. split; reflexivity. Qed.

Lemma wait_for_queue_keeps_tiles fuel (tc : TileCache) (nm : option ListDetour.NavMesh)
    tc1 nm1 :
  wait_for_queue fuel tc nm = Ret (tc1, nm1) -> tc_tiles tc1 = tc_tiles tc /\ nm1 = nm.
Proof.
  revert tc. induction fuel as [| fuel IH]; intros tc; cbn [wait_for_queue].
  - destruct (isObstacleQueueFull tc); [discriminate |].
    intros E. injection E as <- <-. auto.
  - destruct (isObstacleQueueFull tc).
    + destruct (update float_1 tc nm) as [tc' nm'] eqn:Eu.
      destruct (update_list float_1 tc nm) as [Ht Hn]. rewrite Eu in Ht, Hn.
      cbn [fst snd] in Ht, Hn. subst nm'. intros E. apply IH in E. now rewrite <- Ht.
    + intros E. injection E as <- <-. auto.
Qed.

Lemma same_tiles_refl (st : Mesh) : ListDetour.same_tiles st st.
Proof. repeat split. Qed.

Lemma same_tiles_trans (a b c : Mesh) :
  ListDetour.same_tiles a b -> ListDetour.same_tiles b c -> ListDetour.same_tiles a c.
Proof.
  unfold ListDetour.same_tiles. intros (? & ? & ? & ? & ?) (? & ? & ? & ? & ?).
  repeat split; congruence.
Qed.

Lemma addObstacle_keeps_tiles pos radius height (tc : TileCache) :
  tc_tiles (snd (addObstacle pos radius height tc)) = tc_tiles tc.
Proof.
  cbn [addObstacle ListDetour.detour]. unfold ListDetour.addObstacle.
  destruct (ListDetour.isObstacleQueueFull tc); [reflexivity |].
  destruct (_ <=? _); reflexivity.
Qed.

Lemma AddObstacle_keeps_tiles fuel o silent (st st' : Mesh) o' :
  AddObstacle fuel o silent st = Ret (st', o') -> ListDetour.same_tiles st st'.
Proof.
  unfold AddObstacle.
  destruct (tileCache_ st) as [tc |] eqn:Hc;
    [| intros E; injection E as <- <-; apply same_tiles_refl].
  destruct (obstacle_node o) as [n |]; [| discriminate].
  destruct (wait_for_queue fuel tc (navMesh_ st)) as [[tc1 nm1] | |] eqn:Ew;
    cbn [bind]; try discriminate.
  apply wait_for_queue_keeps_tiles in Ew. destruct Ew as [Ht _].
  pose proof (addObstacle_keeps_tiles (worldPosition n) (obstacle_radius o)
                (obstacle_height o) tc1) as Ha.
  destruct (addObstacle _ _ _ tc1) as [[status ref] tc2]. cbn [snd] in Ha.
  assert (Hs : ListDetour.same_tiles st (set_detour st (tc2, nm1))).
  { unfold ListDetour.same_tiles. cbn. rewrite Hc. cbn. repeat split. congruence. }
  destruct (dtStatusFailed status); [| destruct silent];
    intros E; injection E as <- <-; exact Hs.
Qed.

Lemma add_scene_obstacles_keeps_tiles fuel obstacles (st st' : Mesh) obstacles' :
  add_scene_obstacles fuel obstacles st = Ret (st', obstacles') ->
  ListDetour.same_tiles st st'.
Proof.
  revert st st' obstacles'.
  induction obstacles as [| o rest IH]; intros st st' obstacles'; cbn [add_scene_obstacles].
  - intros E. injection E as <- <-. apply same_tiles_refl.
  - destruct (obstacle_enabled o).
    + destruct (AddObstacle fuel o false st) as [[st1 o1] | |] eqn:Ea; cbn [bind];
        try discriminate.
      apply AddObstacle_keeps_tiles in Ea.
      destruct (add_scene_obstacles fuel rest st1) as [[st2 rest2] | |] eqn:Er;
        cbn [bind]; try discriminate.
      intros E. injection E as <- <-. apply IH in Er.
      now apply (same_tiles_trans Ea).
    + cbn [bind].
      destruct (add_scene_obstacles fuel rest st) as [[st2 rest2] | |] eqn:Er;
        cbn [bind]; try discriminate.
      intros E. injection E as <- <-. now apply IH in Er.
Qed.

Lemma scan_for_obstacles_keeps_tiles fuel (st st' : Mesh) :
  scan_for_obstacles fuel st = Ret st' -> ListDetour.same_tiles st st'.
Proof.
  unfold scan_for_obstacles. destruct (scene_ st); [| discriminate].
  destruct (add_scene_obstacles fuel l st) as [[st1 l1] | |] eqn:E; cbn [bind];
    try discriminate.
  intros E'. injection E' as <-. apply add_scene_obstacles_keeps_tiles in E.
  exact E.
Qed.

Lemma tile_is_void_same geometryList x z (st st0 : Mesh) :
  settings st = settings st0 -> boundingBox_ st = boundingBox_ st0 ->
  tile_is_void env geometryList x z st <-> tile_is_void env geometryList x z st0.
Proof. unfold tile_is_void. now intros -> ->. Qed.

Lemma add_built_tiles_origin tiles (tc : TileCache) t' :
  In t' (tc_tiles (add_built_tiles tiles tc)) ->
  In t' (tc_tiles tc) \/ exists t, In t tiles /\ ListDetour.ct_data t' = data t.
Proof.
  revert tc. induction tiles as [| t rest IH]; intros tc; cbn [add_built_tiles]; auto.
  change (@addTile _ _ ListDetour.detour (data t) (dataSize t) tc)
    with (ListDetour.addTile (data t) (dataSize t) tc).
  destruct (addTile_cases (data t) (dataSize t) tc) as [E | (tc1 & E & Ht & _)];
    rewrite E; intros Hin; apply IH in Hin.
  - destruct Hin as [Hin | (t0 & Hin & Ed)]; auto.
    right. exists t0. split; [now right | exact Ed].
  - destruct Hin as [Hin | (t0 & Hin & Ed)].
    + rewrite Ht in Hin. destruct Hin as [<- | Hin]; auto.
      right. exists t. split; [now left | reflexivity].
    + right. exists t0. split; [now right | exact Ed].
Qed.

Lemma buildNavMeshTilesAt_list x z (tc : TileCache) (nm : option ListDetour.NavMesh) :
  fst (buildNavMeshTilesAt x z tc nm) = tc /\
  (nm <> None -> snd (buildNavMeshTilesAt x z tc nm) <> None).
Proof.
  split; [reflexivity |]. cbn [buildNavMeshTilesAt ListDetour.detour].
  unfold ListDetour.buildNavMeshTilesAt. destruct nm; cbn; [discriminate | auto].
Qed.

Lemma Build_tile_at_invariant geometryList (st0 st : Mesh) x z :
  layers_fit env -> is_int x -> is_int z ->
  build_invariant env geometryList st0 st ->
  exists st', Build_tile_at env geometryList (x, z) st = Ret st' /\
              build_invariant env geometryList st0 st'.
Proof.
  intros Hfit Hx Hz (tc & nm & Hc & Hn & Hs & Hb & Hnx & Hnz & Hv).
  unfold Build_tile_at. cbn [fst snd].
  destruct (@BuildTile_list geometryList x z st tc nm Hfit Hx Hz Hc Hn)
    as (tiles & st1 & E & Hc1 & Hn1 & _ & _ & Hs1 & Hb1 & Hnx1 & Hnz1 & Hxz & Hvoid).
  rewrite E. cbn [bind]. rewrite Hc1, Hn1.
  destruct (buildNavMeshTilesAt_list x z (add_built_tiles tiles tc) (Some nm))
    as [Hfst Hsnd].
  destruct (buildNavMeshTilesAt x z (add_built_tiles tiles tc) (Some nm))
    as [tc2 nm2] eqn:Eb.
  cbn [fst snd] in Hfst, Hsnd. subst tc2.
  destruct nm2 as [nm2 |]; [| exfalso; apply Hsnd; [discriminate | reflexivity]].
  eexists. split; [reflexivity |].
  exists (add_built_tiles tiles tc), nm2.
  cbn [fst snd tileCache_ navMesh_ set_detour set_navMesh set_tileCache settings
       boundingBox_ numTilesX_ numTilesZ_].
  split; [reflexivity |]. split; [reflexivity |].
  split; [congruence |]. split; [congruence |].
  split; [congruence |]. split; [congruence |].
  intros t' Hin. apply add_built_tiles_origin in Hin.
  destruct Hin as [Hin | (t & Hin & Ed)]; [now apply Hv |].
  unfold ListDetour.ct_header. rewrite Ed.
  destruct (Hxz t Hin) as [-> ->].
  intros Hvd. apply (tile_is_void_same geometryList x z st st0 Hs Hb) in Hvd.
  destruct (Hvoid Hvd) as [-> _]. contradiction.
Qed.

Lemma for_each_deterministic {A S : Type} (body : A -> S -> outcome S) (P : S -> Prop)
    l s s' :
  for_each body l s = Ret s' -> (exists s1, for_each body l s = Ret s1 /\ P s1) -> P s'.
Proof. intros E (s1 & E1 & H). rewrite E in E1. now injection E1 as <-. Qed.

(** After the second half of [Build()] every cached blob lies at a
    coordinate of the grid that is not void. *)
Lemma Build_all_tiles_invariant fuel geometryList (st0 st' : Mesh) ok tc0 nm0 :
  layers_fit env ->
  tileCache_ st0 = Some tc0 -> tc_tiles tc0 = [] -> navMesh_ st0 = Some nm0 ->
  is_int (numTilesX_ st0) -> is_int (numTilesZ_ st0) ->
  Build_all_tiles env fuel geometryList st0 = Ret (ok, st') ->
  exists tc',
    tileCache_ st' = Some tc' /\
    settings st' = settings st0 /\ boundingBox_ st' = boundingBox_ st0 /\
    numTilesX_ st' = numTilesX_ st0 /\ numTilesZ_ st' = numTilesZ_ st0 /\
    forall t, In t (tc_tiles tc') ->
      ~ tile_is_void env geometryList
          (LayerHeader.tx (ListDetour.ct_header t))
          (LayerHeader.ty (ListDetour.ct_header t)) st0.
Proof.
  intros Hfit Hc Hempty Hn Hnx Hnz. unfold Build_all_tiles.
  destruct (for_each _ _ st0) as [st4 | |] eqn:E; cbn [bind]; try discriminate.
  assert (Hinv : build_invariant env geometryList st0 st4).
  { apply (for_each_deterministic _ _ _ _ E).
    apply for_each_invariant.
    - exists tc0, nm0. repeat apply conj; auto. rewrite Hempty. intros t [].
    - intros [x z] s0 Hin Hs0. apply In_tile_coordinates in Hin. cbn [iv_x iv_y] in Hin.
      unfold is_int, INT_MIN, INT_MAX in *.
      apply Build_tile_at_invariant; auto; unfold is_int, INT_MIN, INT_MAX; lia. }
  destruct Hinv as (tc4 & nm4 & Hc4 & Hn4 & Hs4 & Hb4 & Hnx4 & Hnz4 & Hv4).
  rewrite Hc4.
  destruct (scan_for_obstacles fuel _) as [st7 | |] eqn:Es; cbn [bind]; try discriminate.
  intros E'. injection E' as _ <-.
  apply scan_for_obstacles_keeps_tiles in Es.
  destruct Es as (Ht & Hs7 & Hb7 & Hnx7 & Hnz7).
  cbn in Ht, Hs7, Hb7, Hnx7, Hnz7.
  destruct (tileCache_ st7) as [tc7 |]; [| discriminate].
  cbn in Ht. injection Ht as Ht.
  exists tc7. repeat apply conj; try congruence.
  rewrite Ht. exact Hv4.
Qed.

Lemma Build_true_cases fuel (st st' : Mesh) :
  Build env fuel st = Ret (true, st') ->
  (collect_geometries env = [] /\ st' = release_navigation_mesh st) \/
  (exists st2 params tileCacheParams,
     Build_params env (collect_geometries env) (release_navigation_mesh st)
       = Ret (st2, params, tileCacheParams) /\
     fst (allocate_detour env st2 params tileCacheParams) = true /\
     Build_all_tiles env fuel (collect_geometries env)
       (snd (allocate_detour env st2 params tileCacheParams)) = Ret (true, st')).
Proof.
  unfold Build. destruct (node_ _); [| discriminate].
  destruct (collect_geometries env) as [| g gs] eqn:Hg.
  - intros E. injection E as <-. now left.
  - destruct (Build_params env (g :: gs) _) as [[[st2 p] tcp] | |]; cbn [bind];
      try discriminate.
    destruct (allocate_detour env st2 p tcp) as [[] st3] eqn:Ea; [| discriminate].
    intros E. right. exists st2, p, tcp. rewrite Ea. auto.
Qed.

Lemma filter_nil_iff {A} (p : A -> bool) l :
  filter p l = [] <-> forall a, In a l -> p a = false.
Proof.
  induction l as [| a l IH]; cbn.
  - split; [intros _ a [] | reflexivity].
  - destruct (p a) eqn:E; split.
    + discriminate.
    + intros H. specialize (H a (or_introl eq_refl)). congruence.
    + intros H b [<- | Hb]; [exact E | now apply IH].
    + intros H. apply IH. intros b Hb. apply H. now right.
Qed.

(** A void tile gives no blob, no event and no change of the mesh. *)
Lemma BuildTile_void geometryList x z (st : Mesh) tc nm :
  tileCache_ st = Some tc -> navMesh_ st = Some nm ->
  tile_is_void env geometryList x z st ->
  BuildTile env geometryList x z st = Ret ([], st).
Proof.
  intros Hc Hn Hv. unfold BuildTile. unfold tile_is_void in Hv. rewrite Hc, Hn.
  rewrite removeTile_navmesh_ref, (set_tileCache_same _ Hc).
  destruct Hv as [-> | Hv]; [reflexivity |].
  rewrite Hv. now destruct (vertices_ _).
Qed.

Lemma for_each_preserves {A S : Type} (body : A -> S -> outcome S) (P : S -> Prop)
    l s s' :
  P s -> (forall a s0 s1, body a s0 = Ret s1 -> P s0 -> P s1) ->
  for_each body l s = Ret s' -> P s'.
Proof.
  intros Hs Hbody. revert s Hs. induction l as [| a l IH]; intros s Hs; cbn [for_each].
  - intros E. now injection E as <-.
  - destruct (body a s) as [s1 | |] eqn:E1; cbn [bind]; try discriminate.
    apply IH. now apply (Hbody a s s1).
Qed.

Lemma BuildTile_counts geometryList x z (st st' : Mesh) tiles :
  BuildTile env geometryList x z st = Ret (tiles, st') ->
  numTilesX_ st' = numTilesX_ st /\ numTilesZ_ st' = numTilesZ_ st.
Proof.
  unfold BuildTile.
  destruct (tileCache_ st) as [tc |]; [| discriminate].
  destruct (navMesh_ st) as [nm |]; [| discriminate].
  destruct (removeTile _ tc) as [[? ?] tc1].
  assert (Hnone : Ret (@nil TileCacheData, set_tileCache st (Some tc1)) = Ret (tiles, st') ->
                  numTilesX_ st' = numTilesX_ st /\ numTilesZ_ st' = numTilesZ_ st)
    by (intros E; injection E as _ <-; auto).
  destruct (vertices_ _); [exact Hnone |].
  destruct (indices_ _); [exact Hnone |].
  destruct (rcBuildHeightfieldLayers _ _ _ _); [| exact Hnone].
  destruct (_ <? _); [discriminate |].
  destruct (build_layers _ _ _ _ _); [| exact Hnone].
  intros E. injection E as _ <-. auto.
Qed.

Lemma Build_all_tiles_counts fuel geometryList (st st' : Mesh) ok :
  Build_all_tiles env fuel geometryList st = Ret (ok, st') ->
  numTilesX_ st' = numTilesX_ st /\ numTilesZ_ st' = numTilesZ_ st.
Proof.
  unfold Build_all_tiles.
  destruct (for_each _ _ st) as [st4 | |] eqn:E4; cbn [bind]; try discriminate.
  assert (H4 : numTilesX_ st4 = numTilesX_ st /\ numTilesZ_ st4 = numTilesZ_ st).
  { apply (for_each_preserves _ (fun s : Mesh =>
             numTilesX_ s = numTilesX_ st /\ numTilesZ_ s = numTilesZ_ st) _ _
             (conj eq_refl eq_refl)) in E4; [exact E4 |].
    intros [x z] s0 s1 Eb [Hx Hz]. unfold Build_tile_at in Eb. cbn [fst snd] in Eb.
    destruct (BuildTile env geometryList x z s0) as [[tiles st1] | |] eqn:Et;
      cbn [bind] in Eb; try discriminate.
    apply BuildTile_counts in Et. destruct Et as [Ex Ez].
    destruct (tileCache_ st1); [| discriminate].
    injection Eb as <-. cbn. split; congruence. }
  destruct H4 as [Ex4 Ez4].
  destruct (tileCache_ st4) as [tc4 |]; [| discriminate].
  destruct (scan_for_obstacles fuel _) as [st7 | |] eqn:Es; cbn [bind]; try discriminate.
  intros E'. injection E' as _ <-.
  apply scan_for_obstacles_keeps_tiles in Es.
  destruct Es as (_ & _ & _ & Hnx7 & Hnz7). cbn in Hnx7, Hnz7.
  split; congruence.
Qed.

(** After a full build no blob is cached for a tile coordinate whose
    expanded box holds no geometry. *)
Lemma full_build_leaves_no_void_blob fuel (st st' : Mesh) x z :
  layers_fit env ->
  Build env fuel st = Ret (true, st') ->
  is_int (numTilesX_ st') -> is_int (numTilesZ_ st') ->
  tile_is_void env (collect_geometries env) x z st' ->
  ListDetour.cached_at x z st' = [].
Proof.
  intros Hfit HB Hnx Hnz Hvoid.
  apply Build_true_cases in HB.
  destruct HB as [[_ ->] | (st2 & p & tcp & _ & Hok & Hall)]; [reflexivity |].
  rewrite (allocate_detour_true env st2 p tcp Hok) in Hall.
  set (st3 := set_tileCache (set_navMesh st2 (Some (navMesh_init p)))
                (Some (tileCache_init tcp))) in *.
  destruct (Build_all_tiles_counts _ _ _ Hall) as [Ex Ez].
  destruct (@Build_all_tiles_invariant fuel (collect_geometries env) st3 st' true
              (tileCache_init tcp) (navMesh_init p) Hfit eq_refl eq_refl eq_refl)
    as (tc' & Hc' & Hs' & Hb' & _ & _ & Hv'); try exact Hall.
  - now rewrite <- Ex.
  - now rewrite <- Ez.
  - unfold ListDetour.cached_at. rewrite Hc'. apply filter_nil_iff.
    intros t Hin. destruct (ListDetour.at_xz x z t) eqn:Hat; [| reflexivity].
    exfalso. apply (Hv' t Hin).
    apply (tile_is_void_same _ _ _ st' st3 Hs' Hb').
    unfold ListDetour.at_xz in Hat. apply andb_true_iff in Hat.
    destruct Hat as [Hx Hz]. apply Z.eqb_eq in Hx, Hz. now rewrite Hx, Hz.
Qed.

(** [WriteTiles] writes nothing for a coordinate the cache holds no blob
    for. *)
Lemma unlisted_tile_not_written (st : Mesh) tc x z :
  tileCache_ st = Some tc -> ListDetour.cached_at x z st = [] ->
  write_tiles_at (maxLayers_ (settings st)) tc x z = [] /\
  WriteTiles x z st = Ret [].
Proof.
  intros Hc Hcached. unfold ListDetour.cached_at in Hcached. rewrite Hc in Hcached.
  assert (Hw : write_tiles_at (maxLayers_ (settings st)) tc x z = []).
  { unfold write_tiles_at. cbn [getTilesAt ListDetour.detour].
    unfold ListDetour.getTilesAt. rewrite Hcached. cbn [map].
    now rewrite firstn_nil. }
  split; [exact Hw |]. unfold WriteTiles. now rewrite Hc, Hw.
Qed.

End TileFacts.

Section TileExamples.
Import Examples.

Lemma scene_layers_fit layers geometry connections :
  (Z.of_nat layers <= TILECACHE_MAXLAYERS) ->
  layers_fit (scene_env true layers geometry connections).
Proof.
  intros H s b d l E. cbn in E. injection E as <-. now rewrite repeat_length.
Qed.

Lemma built_mesh_is_built :
  Build (scene_env true 1 [ground] []) 1 (fresh_mesh (Some mesh_node) 16)
    = Ret (true, built_mesh 1 16).
Proof. vm_compute. reflexivity. Qed.

Lemma partial_rebuild_locality_witness :
  exists ok st' tc',
    Build_range (scene_env true 1 [ground] []) {| iv_x := 1; iv_y := 0 |}
      {| iv_x := 1; iv_y := 0 |} (built_mesh 1 16) = Ret (ok, st') /\
    tileCache_ st' = Some tc' /\
    ListDetour.cached_at 0 0 st' = ListDetour.cached_at 0 0 (built_mesh 1 16) /\
    ListDetour.blobs_at 0 0 tc' = ListDetour.blobs_at 0 0 (ListDetour.cache_of (built_mesh 1 16)).
Proof.
  apply (@partial_rebuild_locality (scene_env true 1 [ground] [])
           {| iv_x := 1; iv_y := 0 |} {| iv_x := 1; iv_y := 0 |}
           (built_mesh 1 16) (ListDetour.cache_of (built_mesh 1 16)) 0 0).
  - vm_compute. reflexivity.
  - apply references_freshb_sound. vm_compute. reflexivity.
  - apply scene_layers_fit. vm_compute. discriminate.
  - split; vm_compute; discriminate.
  - split; vm_compute; discriminate.
  - split; vm_compute; discriminate.
  - split; vm_compute; discriminate.
  - cbn. lia.
Defined.

End TileExamples.

(** ** Snapshots of the mesh *)

Section ReadingFacts.
Import Machine Bytes.
Variable env : Env.

Local Abbreviation TileCache := ListDetour.TileCache.
Local Abbreviation Mesh := (DynamicNavigationMesh ListDetour.NavMesh ListDetour.TileCache).
Local Abbreviation tc_tiles := ListDetour.tc_tiles.
Local Abbreviation ct_data := ListDetour.ct_data.

Lemma existsb_at_xzl_false x z l (tiles : list ListDetour.CachedTile) :
  (forall t, In t tiles -> blob_key (ct_data t) <> (x, z, l)) ->
  existsb (ListDetour.at_xzl x z l) tiles = false.
Proof.
  intros H. destruct (existsb _ tiles) eqn:E; [| reflexivity].
  apply existsb_exists in E. destruct E as (t & Hin & Hat).
  exfalso. apply (H t Hin). unfold blob_key.
  unfold ListDetour.at_xzl, ListDetour.at_xz, ListDetour.ct_header in Hat.
  apply andb_true_iff in Hat. destruct Hat as [Hat Hl].
  apply andb_true_iff in Hat. destruct Hat as [Hx Hz].
  apply Z.eqb_eq in Hx, Hz, Hl. now rewrite Hx, Hz, Hl.
Qed.

(** [addTile] accepts a well-formed blob whose key is free while the cache
    has room. *)
Lemma addTile_accepts (t : ListDetour.CachedTile) (tc : TileCache) :
  blob_well_formed t ->
  (forall t', In t' (tc_tiles tc) -> blob_key (ct_data t') <> blob_key (ct_data t)) ->
  Z.of_nat (length (tc_tiles tc)) < TileCacheParams.maxTiles (ListDetour.tc_params tc) ->
  exists tc',
    ListDetour.addTile (ct_data t) (ListDetour.ct_dataSize t) tc
      = (DT_SUCCESS, CompressedTileRef (ListDetour.tc_nextTile tc), tc') /\
    tc_tiles tc'
      = {| ListDetour.ct_ref := ListDetour.tc_nextTile tc;
           ListDetour.ct_data := ct_data t;
           ListDetour.ct_dataSize := ListDetour.ct_dataSize t |} :: tc_tiles tc /\
    ListDetour.tc_params tc' = ListDetour.tc_params tc.
Proof.
  intros (Hlen & _ & _ & Hm & Hv) Hkey Hcap.
  unfold ListDetour.ct_header in Hm, Hv.
  unfold ListDetour.addTile.
  destruct (Nat.ltb_spec (length (ct_data t)) LayerHeader.size); [lia |].
  rewrite Hm, Hv, !Z.eqb_refl. cbn [negb].
  rewrite existsb_at_xzl_false by exact Hkey.
  destruct (Z.leb_spec (TileCacheParams.maxTiles (ListDetour.tc_params tc))
              (Z.of_nat (length (tc_tiles tc)))); [lia |].
  eexists. split; [reflexivity |]. split; reflexivity.
Qed.

Lemma tile_record_not_eof (t : ListDetour.CachedTile) rest :
  blob_well_formed t -> IsEof (tile_record t ++ rest) = false.
Proof.
  intros (Hlen & _). unfold tile_record.
  destruct (ct_data t) as [| b d]; [unfold LayerHeader.size in Hlen; cbn in Hlen; lia |].
  reflexivity.
Qed.

(** Reading the record of a well-formed blob gives back the header bytes,
    the size and the blob. *)
Lemma read_tile_record (t : ListDetour.CachedTile) rest :
  blob_well_formed t ->
  Read LayerHeader.size (tile_record t ++ rest)
    = (firstn LayerHeader.size (ct_data t),
       WriteI32 (ListDetour.ct_dataSize t) ++ ct_data t ++ rest) /\
  ReadI32 (WriteI32 (ListDetour.ct_dataSize t) ++ ct_data t ++ rest)
    = (ListDetour.ct_dataSize t, ct_data t ++ rest) /\
  Read_into (Z.to_nat (to_unsigned (ListDetour.ct_dataSize t))) (ct_data t ++ rest)
    = (ct_data t, rest).
Proof.
  intros (Hlen & Hsize & Hmax & _).
  assert (Hint : is_int (ListDetour.ct_dataSize t))
    by (unfold is_int, INT_MIN, INT_MAX in *; lia).
  assert (Hn : Z.to_nat (to_unsigned (ListDetour.ct_dataSize t)) = length (ct_data t)).
  { rewrite to_unsigned_small; [rewrite Hsize; apply Nat2Z.id |].
    unfold is_unsigned, UINT_MOD, INT_MAX in *. lia. }
  split; [| split].
  - unfold Read, tile_record. rewrite <- !app_assoc.
    assert (Hf : length (firstn LayerHeader.size (ct_data t)) = LayerHeader.size)
      by (apply firstn_length_le; exact Hlen).
    now rewrite firstn_app_exact, skipn_app_exact.
  - now apply ReadI32_WriteI32.
  - unfold Read_into. rewrite Hn.
    rewrite firstn_app_exact, skipn_app_exact by reflexivity.
    rewrite length_app.
    replace (length (ct_data t) - (length (ct_data t) + length rest))%nat with 0%nat by lia.
    cbn [repeat]. now rewrite app_nil_r.
Qed.

Lemma never_fails_dtAlloc n : never_fails env -> dtAlloc_ok env n = true.
Proof. intros (_ & _ & _ & _ & H). apply H. Qed.

(** One round of the loop of [ReadTiles] on the record of a blob. *)
Lemma read_tiles_step fuel (t : ListDetour.CachedTile) rest (tc : TileCache) queue :
  never_fails env -> blob_well_formed t ->
  read_tiles env (S fuel) (tile_record t ++ rest) tc queue =
    (let '(status, _, tc1) := addTile (ct_data t) (ListDetour.ct_dataSize t) tc in
     if dtStatusFailed status then (false, tc1, queue)
     else read_tiles env fuel rest tc1
            (queue_tile queue
               {| iv_x := LayerHeader.tx
                            (LayerHeader.decode (firstn LayerHeader.size (ct_data t)));
                  iv_y := LayerHeader.ty
                            (LayerHeader.decode (firstn LayerHeader.size (ct_data t))) |})).
Proof.
  intros Hok Hwf.
  destruct (read_tile_record rest Hwf) as (E1 & E2 & E3).
  cbn [read_tiles]. rewrite (tile_record_not_eof rest Hwf).
  rewrite E1, E2, (never_fails_dtAlloc _ Hok). cbn [negb]. rewrite E3.
  reflexivity.
Qed.

(** The whole loop on the records of well-formed blobs with free, distinct
    keys: every blob is added, in front of the blobs already cached. *)
Lemma read_tiles_records (ts : list ListDetour.CachedTile) :
  never_fails env ->
  forall fuel (tc : TileCache) queue,
    (forall t, In t ts -> blob_well_formed t) ->
    NoDup (map (fun t => blob_key (ct_data t)) ts) ->
    (forall t t', In t ts -> In t' (tc_tiles tc) ->
                  blob_key (ct_data t') <> blob_key (ct_data t)) ->
    Z.of_nat (length (tc_tiles tc) + length ts)
      <= TileCacheParams.maxTiles (ListDetour.tc_params tc) ->
    (length ts <= fuel)%nat ->
    exists tc' queue',
      read_tiles env fuel (flat_map tile_record ts) tc queue = (true, tc', queue') /\
      map ct_data (tc_tiles tc') = rev (map ct_data ts) ++ map ct_data (tc_tiles tc) /\
      ListDetour.tc_params tc' = ListDetour.tc_params tc.
Proof.
  intros Hok. induction ts as [| t ts IH]; intros fuel tc queue Hwf Hnd Hfree Hcap Hfuel.
  - exists tc, queue. cbn [flat_map]. destruct fuel; cbn; auto.
  - destruct fuel as [| fuel]; [cbn in Hfuel; lia |].
    cbn [flat_map]. rewrite read_tiles_step; auto; [| apply Hwf; now left].
    change (@addTile _ _ ListDetour.detour (ct_data t) (ListDetour.ct_dataSize t) tc)
      with (ListDetour.addTile (ct_data t) (ListDetour.ct_dataSize t) tc).
    destruct (@addTile_accepts t tc) as (tc1 & E & Ht & Hp).
    + apply Hwf. now left.
    + intros t' Hin. apply Hfree; [now left | exact Hin].
    + cbn [length] in Hcap. lia.
    + rewrite E. cbn [dtStatusFailed].
      inversion Hnd as [| ? ? Hnotin Hnd']; subst.
      destruct (IH fuel tc1
                  (queue_tile queue
                     {| iv_x := LayerHeader.tx
                                  (LayerHeader.decode (firstn LayerHeader.size (ct_data t)));
                        iv_y := LayerHeader.ty
                                  (LayerHeader.decode (firstn LayerHeader.size (ct_data t))) |}))
        as (tc' & queue' & E' & Hd & Hp').
      * intros t0 Hin. apply Hwf. now right.
      * exact Hnd'.
      * intros t0 t' Hin0 Hin'. rewrite Ht in Hin'. destruct Hin' as [<- | Hin'].
        -- cbn [ListDetour.ct_data]. intros Heq. apply Hnotin.
           rewrite Heq. apply (in_map (fun t => blob_key (ct_data t))). exact Hin0.
        -- apply Hfree; [now right | exact Hin'].
      * rewrite Hp, Ht. cbn [length] in *. lia.
      * cbn [length] in Hfuel. lia.
      * exists tc', queue'. split; [exact E' |]. split; [| congruence].
        rewrite Hd, Ht. cbn [map rev ListDetour.ct_data]. now rewrite <- app_assoc.
Qed.

End ReadingFacts.

Section WritingFacts.
Import Machine Bytes.

Local Abbreviation TileCache := ListDetour.TileCache.
Local Abbreviation Mesh := (DynamicNavigationMesh ListDetour.NavMesh ListDetour.TileCache).
Local Abbreviation tc_tiles := ListDetour.tc_tiles.
Local Abbreviation ct_data := ListDetour.ct_data.
Local Abbreviation at_xz := ListDetour.at_xz.

Lemma find_has_ref (tiles : list ListDetour.CachedTile) t :
  NoDup (map ListDetour.ct_ref tiles) -> In t tiles ->
  find (ListDetour.has_ref (ListDetour.ct_ref t)) tiles = Some t.
Proof.
  induction tiles as [| t0 tiles IH]; intros Hnd Hin; [contradiction |].
  inversion Hnd as [| ? ? Hnotin Hnd']; subst. cbn [find].
  unfold ListDetour.has_ref at 1.
  destruct (Z.eqb_spec (ListDetour.ct_ref t0) (ListDetour.ct_ref t)) as [E | E].
  - destruct Hin as [-> | Hin]; [reflexivity |].
    exfalso. apply Hnotin. rewrite E. now apply in_map.
  - destruct Hin as [-> | Hin]; [now contradiction E | now apply IH].
Qed.

(** What [WriteTiles] writes for the reference of a cached, well-formed
    blob is the record of the blob. *)
Lemma write_tile_record (tc : TileCache) t :
  ListDetour.references_fresh tc -> In t (tc_tiles tc) -> blob_well_formed t ->
  write_tile tc (CompressedTileRef (ListDetour.ct_ref t)) = tile_record t.
Proof.
  intros [Hnd _] Hin (Hlen & Hsize & Hmax & _).
  unfold write_tile. cbn [getTileByRef ListDetour.detour ListDetour.getTileByRef].
  rewrite (find_has_ref _ _ Hnd Hin).
  cbn [tile_header tile_data tile_dataSize].
  destruct (Z.eqb_spec (ListDetour.ct_dataSize t) 0) as [E | _].
  - unfold LayerHeader.size in Hlen. lia.
  - unfold tile_record. rewrite firstn_firstn, Nat.min_id.
    rewrite to_unsigned_small
      by (unfold is_unsigned, UINT_MOD, INT_MAX in *; lia).
    rewrite Hsize, Nat2Z.id, firstn_all. reflexivity.
Qed.

Lemma flat_map_map {A B C} (f : B -> list C) (g : A -> B) l :
  flat_map f (map g l) = flat_map (fun a => f (g a)) l.
Proof. induction l as [| a l IH]; cbn; [| rewrite IH]; reflexivity. Qed.

Lemma flat_map_ext_in {A B} (f g : A -> list B) l :
  (forall a, In a l -> f a = g a) -> flat_map f l = flat_map g l.
Proof.
  induction l as [| a l IH]; intros H; cbn; [reflexivity |].
  rewrite (H a (or_introl eq_refl)), IH; [reflexivity |].
  intros b Hb. apply H. now right.
Qed.

Lemma flat_map_flat_map {A B C} (f : B -> list C) (g : A -> list B) l :
  flat_map f (flat_map g l) = flat_map (fun a => flat_map f (g a)) l.
Proof.
  induction l as [| a l IH]; cbn; [reflexivity |]. now rewrite flat_map_app, IH.
Qed.

(** When no more than [maxLayers] blobs are cached for a coordinate,
    [WriteTiles] writes the records of all of them. *)
Lemma write_tiles_at_records maxLayers (tc : TileCache) x z :
  ListDetour.references_fresh tc ->
  (forall t, In t (tc_tiles tc) -> blob_well_formed t) ->
  (length (filter (at_xz x z) (tc_tiles tc)) <= Z.to_nat (to_int maxLayers))%nat ->
  write_tiles_at maxLayers tc x z
    = flat_map tile_record (filter (at_xz x z) (tc_tiles tc)).
Proof.
  intros Hf Hwf Hcount. unfold write_tiles_at.
  cbn [getTilesAt ListDetour.detour]. unfold ListDetour.getTilesAt.
  rewrite firstn_all2 by (now rewrite length_map).
  rewrite flat_map_map. apply flat_map_ext_in.
  intros t Hin. apply filter_In in Hin. destruct Hin as [Hin _].
  apply write_tile_record; auto.
Qed.

Lemma NoDup_int_range a b : NoDup (int_range a b).
Proof.
  unfold int_range. apply Finite.Injective_map_NoDup; [| apply seq_NoDup].
  intros i j H. lia.
Qed.

Lemma NoDup_tile_coordinates from to : NoDup (tile_coordinates from to).
Proof.
  unfold tile_coordinates.
  pose proof (NoDup_int_range (iv_y from) (iv_y to)) as Hz.
  induction (int_range (iv_y from) (iv_y to)) as [| z zs IH]; cbn [flat_map];
    [constructor |].
  inversion Hz as [| ? ? Hnotin Hz']; subst.
  apply NoDup_app.
  - apply Finite.Injective_map_NoDup; [| apply NoDup_int_range].
    intros i j H. now injection H.
  - now apply IH.
  - intros [x' z'] Hin Hin'. apply in_map_iff in Hin. destruct Hin as (x0 & E & _).
    injection E as <- <-. apply in_flat_map in Hin'. destruct Hin' as (z0 & Hz0 & Hin').
    apply in_map_iff in Hin'. destruct Hin' as (x1 & E & _). injection E as _ <-.
    contradiction.
Qed.

Lemma at_xz_iff x z t :
  at_xz x z t = true <->
  (LayerHeader.tx (ListDetour.ct_header t), LayerHeader.ty (ListDetour.ct_header t)) = (x, z).
Proof.
  unfold ListDetour.at_xz. rewrite andb_true_iff, !Z.eqb_eq. split.
  - intros [-> ->]. reflexivity.
  - intros E. now injection E.
Qed.

(** Sorting one more blob into the buckets of a duplicate-free list of
    coordinates that has its coordinate puts it into exactly one bucket. *)
Lemma buckets_cons (cs : list (Z * Z)) t (l : list ListDetour.CachedTile) :
  NoDup cs ->
  In (LayerHeader.tx (ListDetour.ct_header t), LayerHeader.ty (ListDetour.ct_header t)) cs ->
  Permutation (flat_map (fun c => filter (at_xz (fst c) (snd c)) (t :: l)) cs)
              (t :: flat_map (fun c => filter (at_xz (fst c) (snd c)) l) cs).
Proof.
  set (c0 := (LayerHeader.tx (ListDetour.ct_header t),
              LayerHeader.ty (ListDetour.ct_header t))).
  assert (Hother : forall c, c <> c0 -> at_xz (fst c) (snd c) t = false).
  { intros [x z] Hne. cbn [fst snd]. destruct (at_xz x z t) eqn:E; [| reflexivity].
    apply at_xz_iff in E. now contradiction Hne. }
  assert (Hhere : at_xz (fst c0) (snd c0) t = true) by (now apply at_xz_iff).
  assert (Hcons : forall p : ListDetour.CachedTile -> bool,
             filter p (t :: l) = if p t then t :: filter p l else filter p l)
    by reflexivity.
  induction cs as [| c cs IH]; intros Hnd Hin; [contradiction |].
  inversion Hnd as [| ? ? Hnotin Hnd']; subst. cbn [flat_map].
  destruct Hin as [-> | Hin].
  - rewrite Hcons, Hhere. cbn [app]. constructor. apply Permutation_app_head.
    rewrite (@flat_map_ext_in _ _
               (fun c => filter (at_xz (fst c) (snd c)) (t :: l))
               (fun c => filter (at_xz (fst c) (snd c)) l)); [reflexivity |].
    intros c Hc. rewrite Hcons, Hother; [reflexivity |].
    intros ->. contradiction.
  - rewrite Hcons, Hother by (intros ->; contradiction).
    apply Permutation_trans with
      (filter (at_xz (fst c) (snd c)) l
       ++ t :: flat_map (fun c1 => filter (at_xz (fst c1) (snd c1)) l) cs).
    + apply Permutation_app_head. now apply IH.
    + apply Permutation_sym, Permutation_middle.
Qed.

Lemma buckets_permutation (cs : list (Z * Z)) (l : list ListDetour.CachedTile) :
  NoDup cs ->
  (forall t, In t l ->
     In (LayerHeader.tx (ListDetour.ct_header t), LayerHeader.ty (ListDetour.ct_header t)) cs) ->
  Permutation (flat_map (fun c => filter (at_xz (fst c) (snd c)) l) cs) l.
Proof.
  intros Hnd. induction l as [| t l IH]; intros Hin.
  - assert (E : flat_map (fun c : Z * Z =>
                            filter (at_xz (fst c) (snd c)) (@nil ListDetour.CachedTile)) cs
                = []) by (clear; induction cs as [| c cs IHc]; cbn; auto).
    rewrite E. constructor.
  - apply Permutation_trans with
      (t :: flat_map (fun c => filter (at_xz (fst c) (snd c)) l) cs).
    + apply buckets_cons; [exact Hnd | apply Hin; now left].
    + constructor. apply IH. intros t' Ht'. apply Hin. now right.
Qed.

Lemma Permutation_filter {A} (p : A -> bool) l l' :
  Permutation l l' -> Permutation (filter p l) (filter p l').
Proof.
  induction 1 as [| a l l' H IH | a b l | l l' l'' H IH H' IH']; cbn.
  - constructor.
  - destruct (p a); [constructor |]; exact IH.
  - destruct (p a), (p b); try reflexivity. constructor.
  - now apply Permutation_trans with (filter p l').
Qed.

End WritingFacts.

Section SnapshotFacts.
Import Machine Bytes.
Variable env : Env.

Local Abbreviation TileCache := ListDetour.TileCache.
Local Abbreviation Mesh := (DynamicNavigationMesh ListDetour.NavMesh ListDetour.TileCache).
Local Abbreviation tc_tiles := ListDetour.tc_tiles.
Local Abbreviation ct_data := ListDetour.ct_data.
Local Abbreviation at_xz := ListDetour.at_xz.

Lemma length_WriteBoundingBox b : length (WriteBoundingBox b) = 24%nat.
Proof. unfold WriteBoundingBox. now rewrite length_app, !length_encode_Vector3. Qed.

Lemma length_NavMeshParams p : length (NavMeshParams.encode p) = NavMeshParams.size.
Proof.
  unfold NavMeshParams.encode, WriteI32.
  now rewrite !length_app, length_encode_Vector3, !length_encode_le.
Qed.

Lemma length_TileCacheParams p : length (TileCacheParams.encode p) = TileCacheParams.size.
Proof.
  unfold TileCacheParams.encode, WriteI32.
  now rewrite !length_app, length_encode_Vector3, !length_encode_le.
Qed.

Lemma field_at_skip4 v off len l :
  field_at (4 + off) len (encode_le 4 v ++ l) = field_at off len l.
Proof.
  rewrite <- (length_encode_le 4 v) at 1. apply field_at_skip.
Qed.

(** The capacity of the cache survives the encoding of its parameters. *)
Lemma TileCacheParams_maxTiles p :
  is_int (TileCacheParams.maxTiles p) ->
  TileCacheParams.maxTiles (TileCacheParams.decode (TileCacheParams.encode p))
    = TileCacheParams.maxTiles p.
Proof.
  intros Hi. unfold TileCacheParams.decode, TileCacheParams.encode, encode_Vector3, WriteI32.
  cbn [TileCacheParams.maxTiles]. rewrite <- !app_assoc.
  change 44%nat with (4 + (4 + (4 + (4 + (4 + (4 + (4 + (4 + (4 + (4 + (4 + 0)))))))))))%nat.
  rewrite !field_at_skip4, field_at_here.
  change (2 ^ (8 * Z.of_nat 4)) with UINT_MOD.
  now rewrite to_int_mod, to_int_small.
Qed.

Lemma build_queued_tiles queue (p : TileCache * option ListDetour.NavMesh) :
  fst (build_queued queue p) = fst p.
Proof.
  revert p. induction queue as [| t queue IH]; intros p; cbn [build_queued]; auto.
  rewrite IH. reflexivity.
Qed.

(** [ReadTiles], called silently on the records of blobs that a new cache
    accepts, returns with these blobs cached and sends no event. *)
Lemma ReadTiles_records (ts : list ListDetour.CachedTile) (st : Mesh) (tc : TileCache) :
  never_fails env ->
  tileCache_ st = Some tc -> tc_tiles tc = [] ->
  (forall t, In t ts -> blob_well_formed t) ->
  NoDup (map (fun t => blob_key (ct_data t)) ts) ->
  Z.of_nat (length ts) <= TileCacheParams.maxTiles (ListDetour.tc_params tc) ->
  exists st' tc',
    ReadTiles env (flat_map tile_record ts) true st = Ret (true, st') /\
    tileCache_ st' = Some tc' /\
    map ct_data (tc_tiles tc') = rev (map ct_data ts) /\
    events st' = events st.
Proof.
  intros Hok Hc Hempty Hwf Hnd Hcap.
  assert (Hfuel : (length ts <= length (flat_map tile_record ts))%nat).
  { clear - Hwf. induction ts as [| t ts IH]; cbn [flat_map length]; [lia |].
    rewrite length_app.
    assert (0 < length (tile_record t))%nat.
    { destruct (Hwf t (or_introl eq_refl)) as (Hlen & _). unfold tile_record.
      rewrite length_app, firstn_length_le by exact Hlen. unfold LayerHeader.size. lia. }
    assert (length ts <= length (flat_map tile_record ts))%nat
      by (apply IH; intros t' Ht'; apply Hwf; now right).
    lia. }
  destruct (@read_tiles_records env ts Hok (length (flat_map tile_record ts)) tc [])
    as (tc' & queue' & E & Hd & _); auto.
  - rewrite Hempty. intros t t' _ [].
  - rewrite Hempty. cbn [length]. lia.
  - unfold ReadTiles. rewrite Hc, E.
    eexists. exists (fst (update float_0
                            (fst (build_queued queue'
                                    (tc', navMesh_ (set_tileQueue
                                                      (set_tileCache st (Some tc')) queue'))))
                            (snd (build_queued queue'
                                    (tc', navMesh_ (set_tileQueue
                                                      (set_tileCache st (Some tc')) queue')))))).
    split; [reflexivity |]. split; [reflexivity |].
    split; [| reflexivity].
    rewrite (proj1 (update_list _ _ _)), build_queued_tiles. cbn [fst].
    rewrite Hd, Hempty. cbn [map]. apply app_nil_r.
Qed.

End SnapshotFacts.

Section SnapshotRoundTrip.
Import Machine Bytes.
Variable env : Env.

Local Abbreviation TileCache := ListDetour.TileCache.
Local Abbreviation Mesh := (DynamicNavigationMesh ListDetour.NavMesh ListDetour.TileCache).
Local Abbreviation tc_tiles := ListDetour.tc_tiles.
Local Abbreviation ct_data := ListDetour.ct_data.
Local Abbreviation at_xz := ListDetour.at_xz.

Lemma ReadBoundingBox_skip box l :
  snd (ReadBoundingBox (WriteBoundingBox box ++ l)) = l /\
  ReadBoundingBox (WriteBoundingBox box ++ l)
    = (fst (ReadBoundingBox (WriteBoundingBox box ++ l)), l).
Proof.
  unfold ReadBoundingBox. cbn [fst snd].
  now rewrite (@skipn_app_exact _ _ _ _ (length_WriteBoundingBox box)).
Qed.

Lemma ReadI32_skip v l : ReadI32 (WriteI32 v ++ l) = (to_int v, l).
Proof.
  unfold ReadI32, WriteI32.
  rewrite (@firstn_app_exact _ _ _ _ (length_encode_le 4 v)).
  rewrite (@skipn_app_exact _ _ _ _ (length_encode_le 4 v)).
  rewrite decode_encode_le. change (2 ^ (8 * Z.of_nat 4)) with UINT_MOD.
  now rewrite to_int_mod.
Qed.

Lemma Read_exact (a l : list byte) n : length a = n -> Read n (a ++ l) = (a, l).
Proof.
  intros H. unfold Read.
  now rewrite (@firstn_app_exact _ _ _ _ H), (@skipn_app_exact _ _ _ _ H).
Qed.

(** [SetNavigationDataAttr] on a snapshot: box, tile counts and the two
    parameter structs are read, navmesh and cache are created from them and
    the tile records are handed to [ReadTiles]. *)
Lemma SetNavigationDataAttr_snapshot box nx nz params tileCacheParams records (st : Mesh) :
  never_fails env ->
  exists st3 : Mesh,
    SetNavigationDataAttr env
      (WriteBoundingBox box ++ WriteI32 nx ++ WriteI32 nz
       ++ NavMeshParams.encode params ++ TileCacheParams.encode tileCacheParams
       ++ records) st
    = ('(_, st4) <- ReadTiles env records true st3 ;; Ret st4) /\
    tileCache_ st3
      = Some (ListDetour.init
                (TileCacheParams.decode (TileCacheParams.encode tileCacheParams))) /\
    events st3 = events st.
Proof.
  intros (Hn & Ht & Hni & Hti & _).
  assert (Hbody : forall st0 : Mesh,
            exists st3 : Mesh,
              read_navigation_data env
                (WriteBoundingBox box ++ WriteI32 nx ++ WriteI32 nz
                 ++ NavMeshParams.encode params ++ TileCacheParams.encode tileCacheParams
                 ++ records) st0
              = ('(_, st4) <- ReadTiles env records true st3 ;; Ret st4) /\
              tileCache_ st3
                = Some (ListDetour.init
                          (TileCacheParams.decode (TileCacheParams.encode tileCacheParams))) /\
              events st3 = events st0).
  { intros st0. unfold read_navigation_data.
    rewrite (proj2 (ReadBoundingBox_skip box _)). cbv beta iota.
    rewrite ReadI32_skip. cbv beta iota.
    rewrite ReadI32_skip. cbv beta iota.
    rewrite (@Read_exact _ _ _ (length_NavMeshParams params)). cbv beta iota.
    rewrite (@Read_exact _ _ _ (length_TileCacheParams tileCacheParams)). cbv beta iota.
    rewrite Hn, Ht, Hni, Hti. cbn [negb].
    eexists. split; [reflexivity |]. split; reflexivity. }
  unfold SetNavigationDataAttr.
  destruct (WriteBoundingBox box ++ WriteI32 nx ++ WriteI32 nz
            ++ NavMeshParams.encode params ++ TileCacheParams.encode tileCacheParams
            ++ records) as [| b0 v] eqn:Ev.
  - apply (f_equal (@length byte)) in Ev.
    rewrite length_app, length_WriteBoundingBox in Ev. discriminate.
  - destruct (Hbody (release_navigation_mesh st)) as (st3 & E & Hc3 & He3).
    exists st3. split; [exact E |]. split; [exact Hc3 | exact He3].
Qed.

(** C3 (as amended): take the snapshot of a mesh whose cache holds
    well-formed blobs inside the grid, at most [maxLayers_] of them per tile
    coordinate, and deserialize it on any instance while no allocation
    fails: the call returns, sends no event, and the new cache holds the same
    blobs, byte for byte, at the same tile coordinates, so that the same tile
    coordinates are non-empty. *)
Theorem snapshot_round_trip (st fresh : Mesh) tc :
  snapshot_ready st tc -> never_fails env ->
  exists st' tc',
    SetNavigationDataAttr env (GetNavigationDataAttr st) fresh = Ret st' /\
    tileCache_ st' = Some tc' /\
    events st' = events fresh /\
    Permutation (map ct_data (tc_tiles tc')) (map ct_data (tc_tiles tc)) /\
    (forall x z, Permutation (ListDetour.blobs_at x z tc') (ListDetour.blobs_at x z tc)) /\
    (forall x z, ListDetour.blobs_at x z tc' = [] <-> ListDetour.blobs_at x z tc = []).
Proof.
  intros (Hc & Hnm & Hfresh & Hwf & Hkeys & Hcap & Hint & Hgrid & Hcount) Hok.
  destruct (navMesh_ st) as [nm |] eqn:En; [| now contradiction Hnm].
  set (coords := tile_coordinates {| iv_x := 0; iv_y := 0 |}
                   {| iv_x := numTilesX_ st - 1; iv_y := numTilesZ_ st - 1 |}).
  set (written := flat_map (fun c => filter (at_xz (fst c) (snd c)) (tc_tiles tc)) coords).
  assert (Hperm : Permutation written (tc_tiles tc)).
  { apply buckets_permutation; [apply NoDup_tile_coordinates |].
    intros t Hin. apply In_tile_coordinates. cbn [iv_x iv_y].
    destruct (Hgrid t Hin). lia. }
  assert (Hin_written : forall t, In t written -> In t (tc_tiles tc))
    by (intros t; apply (Permutation_in _ Hperm)).
  assert (Hsnapshot :
            GetNavigationDataAttr st
            = WriteBoundingBox (boundingBox_ st) ++ WriteI32 (numTilesX_ st)
              ++ WriteI32 (numTilesZ_ st)
              ++ NavMeshParams.encode (navMesh_getParams nm)
              ++ TileCacheParams.encode (ListDetour.tc_params tc)
              ++ flat_map tile_record written).
  { unfold GetNavigationDataAttr. rewrite En, Hc. do 5 f_equal.
    unfold written. rewrite flat_map_flat_map. apply flat_map_ext_in.
    intros [x z] _. cbn [fst snd]. now apply write_tiles_at_records. }
  rewrite Hsnapshot.
  destruct (@SetNavigationDataAttr_snapshot (boundingBox_ st) (numTilesX_ st)
              (numTilesZ_ st) (navMesh_getParams nm) (ListDetour.tc_params tc)
              (flat_map tile_record written) fresh Hok) as (st3 & E & Hc3 & Hev3).
  rewrite E.
  destruct (@ReadTiles_records env written st3 _ Hok Hc3 eq_refl) as (st' & tc' & Er & Hc' & Hd & Hev).
  - intros t Hin. apply Hwf. now apply Hin_written.
  - apply (Permutation_NoDup
             (Permutation_sym (Permutation_map (fun t => blob_key (ct_data t)) Hperm))).
    exact Hkeys.
  - cbn [ListDetour.tc_params ListDetour.init].
    rewrite (TileCacheParams_maxTiles _ Hint), (Permutation_length Hperm). exact Hcap.
  - rewrite Er. cbn [bind].
    assert (Hdata : Permutation (map ct_data (tc_tiles tc')) (map ct_data (tc_tiles tc))).
    { rewrite Hd. apply Permutation_trans with (map ct_data written).
      - apply Permutation_sym, Permutation_rev.
      - now apply Permutation_map. }
    assert (Hblobs : forall (c : TileCache) x z,
               ListDetour.blobs_at x z c
               = filter (fun blob =>
                           (LayerHeader.tx (LayerHeader.decode blob) =? x)
                           && (LayerHeader.ty (LayerHeader.decode blob) =? z))
                        (map ct_data (tc_tiles c))).
    { intros c x z. unfold ListDetour.blobs_at.
      induction (tc_tiles c) as [| t l IH]; [reflexivity |].
      cbn [filter map]. unfold ListDetour.at_xz at 1, ListDetour.ct_header.
      destruct (_ && _); cbn [map]; now rewrite IH. }
    assert (Hat : forall x z,
               Permutation (ListDetour.blobs_at x z tc') (ListDetour.blobs_at x z tc)).
    { intros x z. rewrite !Hblobs. now apply Permutation_filter. }
    exists st', tc'. split; [reflexivity |]. split; [exact Hc' |].
    split; [congruence |]. split; [exact Hdata |]. split; [exact Hat |].
    intros x z. split; intros H.
    + apply Permutation_nil. rewrite <- H. apply Hat.
    + apply Permutation_nil. rewrite <- H. apply Permutation_sym, Hat.
Qed.

End SnapshotRoundTrip.

Section SnapshotExamples.
Import Examples.

Local Abbreviation Mesh := (DynamicNavigationMesh ListDetour.NavMesh ListDetour.TileCache).

Lemma distinct_keysb_NoDup l : distinct_keysb l = true -> NoDup l.
Proof.
  induction l as [| a l IH]; cbn; intros H; [constructor |].
  apply andb_true_iff in H. destruct H as [Ha Hl]. constructor; [| now apply IH].
  intros Hin. apply negb_true_iff in Ha.
  assert (E : existsb (ListDetour.key_eqb a) l = true).
  { apply existsb_exists. exists a. split; [exact Hin |].
    unfold ListDetour.key_eqb. now rewrite !Z.eqb_refl. }
  congruence.
Qed.

Lemma blob_well_formedb_sound t : blob_well_formedb t = true -> blob_well_formed t.
Proof.
  unfold blob_well_formedb, blob_well_formed. intros H.
  do 4 (apply andb_true_iff in H; destruct H as [H ?]).
  repeat split.
  - now apply Nat.leb_le.
  - now apply Z.eqb_eq.
  - now apply Z.leb_le.
  - now apply Z.eqb_eq.
  - now apply Z.eqb_eq.
Qed.

Lemma snapshot_readyb_sound (st : Mesh) :
  snapshot_readyb st = true -> snapshot_ready st (ListDetour.cache_of st).
Proof.
  unfold snapshot_readyb, snapshot_ready, ListDetour.cache_of.
  destruct (tileCache_ st) as [tc |]; [| discriminate].
  destruct (navMesh_ st) as [nm |]; [| discriminate].
  cbv zeta. intros H.
  do 7 (apply andb_true_iff in H; destruct H as [H ?]).
  split; [reflexivity |]. split; [discriminate |].
  split; [now apply references_freshb_sound |].
  split.
  { intros t Hin. apply blob_well_formedb_sound.
    match goal with Hf : forallb blob_well_formedb _ = true |- _ =>
      rewrite forallb_forall in Hf; now apply Hf end. }
  split; [now apply distinct_keysb_NoDup |].
  split; [now apply Z.leb_le |].
  split; [split; now apply Z.leb_le |].
  split.
  { intros t Hin.
    match goal with Hf : forallb (fun t => _ && (_ <? numTilesZ_ st)) _ = true |- _ =>
      rewrite forallb_forall in Hf; specialize (Hf t Hin) end.
    repeat match goal with Hb : _ && _ = true |- _ =>
             apply andb_true_iff in Hb; destruct Hb end.
    repeat match goal with
           | Hb : (_ <=? _) = true |- _ => apply Z.leb_le in Hb
           | Hb : (_ <? _) = true |- _ => apply Z.ltb_lt in Hb
           end.
    lia. }
  intros x z.
  destruct (filter (ListDetour.at_xz x z) (ListDetour.tc_tiles tc)) as [| t l] eqn:Ef;
    [cbn; lia |].
  assert (Hin : In t (filter (ListDetour.at_xz x z) (ListDetour.tc_tiles tc)))
    by (rewrite Ef; now left).
  apply filter_In in Hin. destruct Hin as [Hin Hat].
  apply at_xz_iff in Hat. injection Hat as Hx Hz.
  match goal with Hf : forallb (fun t => (_ <=? _)%nat) _ = true |- _ =>
    rewrite forallb_forall in Hf; specialize (Hf t Hin) end.
  rewrite <- Ef. subst x z. now apply Nat.leb_le.
Qed.

Lemma scene_never_fails layers geometry connections :
  never_fails (scene_env true layers geometry connections).
Proof. repeat split. Qed.

Lemma snapshot_round_trip_witness :
  exists st' tc',
    SetNavigationDataAttr (scene_env true 1 [ground] [])
      (GetNavigationDataAttr (built_mesh 1 16)) (fresh_mesh (Some mesh_node) 16)
      = Ret st' /\
    tileCache_ st' = Some tc' /\
    Permutation (ListDetour.blobs_at 0 0 tc')
                (ListDetour.blobs_at 0 0 (ListDetour.cache_of (built_mesh 1 16))) /\
    length (ListDetour.blobs_at 0 0 (ListDetour.cache_of (built_mesh 1 16))) = 1%nat.
Proof.
  assert (Hready : snapshot_ready (built_mesh 1 16) (ListDetour.cache_of (built_mesh 1 16)))
    by (apply snapshot_readyb_sound; vm_compute; reflexivity).
  destruct (@snapshot_round_trip (scene_env true 1 [ground] []) (built_mesh 1 16)
              (fresh_mesh (Some mesh_node) 16) _ Hready (scene_never_fails 1 [ground] []))
    as (st' & tc' & E & Hc & _ & _ & Hat & _).
  exists st', tc'. split; [exact E |]. split; [exact Hc |].
  split; [apply Hat | vm_compute; reflexivity].
Defined.

(** C3 as stated fails: a full build with [maxLayers_] at 3 caches the four
    layers Recast finds in tile (0, 0); the snapshot holds three of them, and
    so does the mesh that reads it. *)
Lemma snapshot_drops_layers :
  let env := scene_env true 4 [ground] [] in
  let st := built_mesh 4 3 in
  Build env 1 (fresh_mesh (Some mesh_node) 3) = Ret (true, st) /\
  length (ListDetour.blobs_at 0 0 (ListDetour.cache_of st)) = 4%nat /\
  exists st',
    SetNavigationDataAttr env (GetNavigationDataAttr st) (fresh_mesh (Some mesh_node) 3)
      = Ret st' /\
    length (ListDetour.blobs_at 0 0 (ListDetour.cache_of st')) = 3%nat /\
    ~ Permutation (ListDetour.blobs_at 0 0 (ListDetour.cache_of st'))
                  (ListDetour.blobs_at 0 0 (ListDetour.cache_of st)).
Proof.
  cbv zeta.
  assert (H4 : length (ListDetour.blobs_at 0 0 (ListDetour.cache_of (built_mesh 4 3)))
               = 4%nat) by (vm_compute; reflexivity).
  split; [vm_compute; reflexivity |]. split; [exact H4 |].
  destruct (SetNavigationDataAttr (scene_env true 4 [ground] [])
              (GetNavigationDataAttr (built_mesh 4 3)) (fresh_mesh (Some mesh_node) 3))
    as [st' | |] eqn:E.
  - assert (H3 : length (ListDetour.blobs_at 0 0 (ListDetour.cache_of st')) = 3%nat).
    { assert (E' : match SetNavigationDataAttr (scene_env true 4 [ground] [])
                           (GetNavigationDataAttr (built_mesh 4 3))
                           (fresh_mesh (Some mesh_node) 3) with
                   | Ret s => length (ListDetour.blobs_at 0 0 (ListDetour.cache_of s))
                   | _ => 0%nat
                   end = 3%nat) by (vm_compute; reflexivity).
      now rewrite E in E'. }
    exists st'. split; [reflexivity |]. split; [exact H3 |].
    intros Hp. apply Permutation_length in Hp. rewrite H3, H4 in Hp. discriminate.
  - exfalso. vm_compute in E. discriminate.
  - exfalso. vm_compute in E. discriminate.
Qed.

End SnapshotExamples.

(** * Further properties *)

(** ** The linear allocator as a bump allocator *)

Section LinearAllocatorBumps.
Import Machine LinearAllocator.

(** A request that fits is served at [buffer + top] and moves [top] up by
    its size. *)
Lemma alloc_fits size base a :
  well_typed a -> inv a -> buffer a = Some base ->
  0 <= size -> top a + size <= capacity a ->
  alloc size a
    = (Some (base + top a),
       LinearAllocator.mk (Some base) (capacity a) (top a + size) (high a)).
Proof.
  intros Hw Hi Hb Hs Hfit.
  assert (Hc : capacity a <= INT_MAX)
    by (destruct Hw as (Hc & _); unfold is_int in Hc; lia).
  assert (Hn : top a + size < SIZE_MOD) by (unfold SIZE_MOD, INT_MAX in *; lia).
  destruct (alloc_guard_exact Hw Hi Hs Hn) as [E1 E2].
  unfold alloc. rewrite Hb, E1, E2.
  destruct (Z.gtb_spec (top a + size) (capacity a)); [lia |].
  rewrite to_int_small; [reflexivity |].
  unfold inv in Hi. unfold is_int, INT_MIN, INT_MAX in *. lia.
Qed.


(** X2: [reset] gives the whole buffer back: the next request is served
    from the very start of the buffer whenever its size is within the
    capacity, so a block handed out before the reset is handed out again;
    the high-water mark never falls and covers the [top] reached before. *)
Theorem LinearAllocator_reset_reuses size base a :
  well_typed a -> inv a -> buffer a = Some base -> 0 <= size <= capacity a ->
  fst (alloc size (reset a)) = Some base /\
  top (snd (alloc size (reset a))) = size /\
  capacity (snd (alloc size (reset a))) = capacity a /\
  high (snd (alloc size (reset a))) = Z.max (high a) (top a) /\
  high a <= high (reset a) /\ top a <= high (reset a).
Proof.
  intros Hw Hi Hb Hs.
  assert (Hwr : well_typed (reset a)).
  { destruct Hw as (Hc & Ht & Hh). unfold inv in Hi.
    repeat split; cbn; unfold is_int, INT_MIN, INT_MAX in *; lia. }
  assert (Hir : inv (reset a)) by (unfold inv in *; cbn; lia).
  assert (Hfit : top (reset a) + size <= capacity (reset a)) by (cbn; lia).
  rewrite (@alloc_fits size base (reset a) Hwr Hir Hb (proj1 Hs) Hfit).
  cbn. repeat split; try lia. now rewrite Z.add_0_r.
Qed.


Lemma LinearAllocator_reset_reuses_witness :
  fst (alloc 32000 (reset allocator_32k)) = Some 4096 /\
  high (reset allocator_32k) = 100.
Proof.
  assert (Hw : well_typed allocator_32k) by (vm_compute; intuition discriminate).
  assert (Hi : inv allocator_32k) by (vm_compute; intuition discriminate).
  assert (Hs : 0 <= 32000 <= capacity allocator_32k)
    by (vm_compute; intuition discriminate).
  destruct (@LinearAllocator_reset_reuses 32000 4096 allocator_32k Hw Hi eq_refl Hs)
    as (E & _).
  split; [exact E | reflexivity].
Defined.

End LinearAllocatorBumps.

(** ** The layer limit *)

Section LayerLimit.
Context {NM TC : Type}.

Local Abbreviation Mesh := (DynamicNavigationMesh NM TC).

(** X3: whatever number is asked for, [SetMaxLayers] leaves a layer limit
    between 3 and 255; the limit is the number asked for exactly when that
    number lies in this range; setting the limit again to what it is
    changes nothing; and the navmesh and the tile cache that exist already
    are not touched, so a cache keeps the capacity it was created with. *)
Theorem SetMaxLayers_range maxLayers (st : Mesh) :
  let st' := SetMaxLayers maxLayers st in
  3 <= maxLayers_ (settings st') <= TILECACHE_MAXLAYERS /\
  (maxLayers_ (settings st') = maxLayers <-> 3 <= maxLayers <= TILECACHE_MAXLAYERS) /\
  SetMaxLayers (maxLayers_ (settings st')) st' = st' /\
  tileCache_ st' = tileCache_ st /\ navMesh_ st' = navMesh_ st /\
  events st' = events st.
Proof.
  cbv zeta. unfold SetMaxLayers, TILECACHE_MAXLAYERS.
  cbn [settings set_settings set_maxLayers maxLayers_ tileCache_ navMesh_ events].
  split; [lia |]. split; [split; lia |].
  split; [| repeat split].
  unfold set_settings, set_maxLayers. cbn.
  replace (Z.max 3 (Z.min (Z.max 3 (Z.min maxLayers 255)) 255))
    with (Z.max 3 (Z.min maxLayers 255)) by lia.
  reflexivity.
Qed.

End LayerLimit.

(** ** The mesh-process callback between two calls *)

Section MeshProcessReuse.
Context {NM TC : Type}.
Variable env : Env.

Local Abbreviation Mesh := (DynamicNavigationMesh NM TC).

Lemma update_polyFlags_beyond n polyAreas polyFlags i :
  (n <= i)%nat ->
  nth_error (update_polyFlags n polyAreas polyFlags) i = nth_error polyFlags i.
Proof.
  revert polyAreas polyFlags i.
  induction n as [| n IH]; intros polyAreas polyFlags i Hi; [reflexivity |].
  destruct polyAreas as [| a polyAreas]; [reflexivity |].
  destruct polyFlags as [| f polyFlags]; [reflexivity |].
  destruct i as [| i]; [lia |]. cbn. apply IH. lia.
Qed.

Lemma update_polyFlags_null n polyAreas polyFlags i :
  nth_error polyAreas i = Some RC_NULL_AREA ->
  nth_error (update_polyFlags n polyAreas polyFlags) i = nth_error polyFlags i.
Proof.
  revert polyAreas polyFlags i.
  induction n as [| n IH]; intros polyAreas polyFlags i Ha; [reflexivity |].
  destruct polyAreas as [| a polyAreas]; [reflexivity |].
  destruct polyFlags as [| f polyFlags]; [reflexivity |].
  destruct i as [| i]; cbn in *.
  - injection Ha as ->. reflexivity.
  - now apply IH.
Qed.

Lemma process_polyFlags params polyAreas polyFlags (st : Mesh) mp params' polyFlags' mp' :
  process env params polyAreas polyFlags st mp = Ret (params', polyFlags', mp') ->
  polyFlags' = update_polyFlags (Z.to_nat (polyCount params)) polyAreas polyFlags /\
  polyCount params' = polyCount params /\
  params_bmin params' = params_bmin params /\ params_bmax params' = params_bmax params.
Proof.
  unfold process.
  destruct (CollectOffMeshConnections env _ st) as [cs | |]; cbn [bind]; try discriminate.
  destruct cs as [| c cs].
  - intros E. injection E as <- <- <-. auto.
  - match goal with
    | |- context [bind ?m _] => destruct m as [mp1 | |]
    end; cbn [bind]; try discriminate.
    intros E. injection E as <- <- <-. auto.
Qed.

(** X4: when the mesh answers with as many connections as the callback
    published the last time, the callback publishes the arrays it holds and
    does not look at the connections: a connection that was moved, or
    replaced by another one, since the last call is published with its old
    end points, radius, flags, area and direction. *)
Theorem process_keeps_published_arrays params polyAreas polyFlags (st : Mesh) mp node :
  node_ st = Some node ->
  filter connection_kept (GetComponents_OffMeshConnection env node) <> [] ->
  length (filter connection_kept (GetComponents_OffMeshConnection env node))
    = length (offMeshRadii_ mp) ->
  exists params',
    process env params polyAreas polyFlags st mp
      = Ret (params',
             update_polyFlags (Z.to_nat (polyCount params)) polyAreas polyFlags, mp) /\
    offMeshConCount params' = Z.of_nat (length (offMeshRadii_ mp)) /\
    offMeshConVerts params' = offMeshVertices_ mp /\
    offMeshConRad params' = offMeshRadii_ mp /\
    offMeshConFlags params' = offMeshFlags_ mp /\
    offMeshConAreas params' = offMeshAreas_ mp /\
    offMeshConDir params' = offMeshDir_ mp.
Proof.
  intros Hnode Hk Hlen. unfold process, CollectOffMeshConnections.
  rewrite Hnode. cbn [bind].
  destruct (filter connection_kept (GetComponents_OffMeshConnection env node))
    as [| c cs]; [now contradiction Hk |].
  rewrite Hlen, Nat.eqb_refl. cbn [bind].
  eexists. split; [reflexivity |]. repeat split.
Qed.

(** X5: the callback changes no flag of a polygon at or beyond [polyCount]
    and no flag of a polygon whose area is the null area, and it keeps the
    number of flags, the number of polygons and the bounds of the layer. *)
Theorem process_flags_frame params polyAreas polyFlags (st : Mesh) mp
    params' polyFlags' mp' :
  process env params polyAreas polyFlags st mp = Ret (params', polyFlags', mp') ->
  length polyFlags' = length polyFlags /\
  (forall i, (Z.to_nat (polyCount params) <= i)%nat ->
             nth_error polyFlags' i = nth_error polyFlags i) /\
  (forall i, nth_error polyAreas i = Some RC_NULL_AREA ->
             nth_error polyFlags' i = nth_error polyFlags i) /\
  polyCount params' = polyCount params /\
  params_bmin params' = params_bmin params /\ params_bmax params' = params_bmax params.
Proof.
  intros E. apply process_polyFlags in E. destruct E as (-> & Hc & Hmin & Hmax).
  split; [apply update_polyFlags_length |].
  split; [intros i Hi; now apply update_polyFlags_beyond |].
  split; [intros i Hi; now apply update_polyFlags_null |]. auto.
Qed.

End MeshProcessReuse.



Section MeshProcessReuseExamples.
Import Examples Scenarios.

Lemma process_keeps_published_arrays_witness :
  exists params',
    process (scene_env true 1 [ground] [moved_ladder]) layer_params
      [63; 0; 63] [0; 0; 0] allocated_mesh ladder_process
      = Ret (params', [63; 0; 63], ladder_process) /\
    offMeshConVerts params'
      = [connection_position ladder;
         {| v_x := 1120403456; v_y := 1090519040; v_z := 1120403456 |}] /\
    offMeshConRad params' = [connection_radius ladder].
Proof.
  assert (Hn : node_ allocated_mesh = Some mesh_node) by (vm_compute; reflexivity).
  assert (Hk : filter connection_kept
                 (GetComponents_OffMeshConnection
                    (scene_env true 1 [ground] [moved_ladder]) mesh_node) <> [])
    by (vm_compute; discriminate).
  assert (Hl : length (filter connection_kept
                         (GetComponents_OffMeshConnection
                            (scene_env true 1 [ground] [moved_ladder]) mesh_node))
               = length (offMeshRadii_ ladder_process)) by (vm_compute; reflexivity).
  destruct (@process_keeps_published_arrays ListDetour.NavMesh ListDetour.TileCache
              (scene_env true 1 [ground] [moved_ladder]) layer_params
              [63; 0; 63] [0; 0; 0] allocated_mesh ladder_process mesh_node Hn Hk Hl)
    as (params' & E & _ & Hv & Hr & _).
  assert (Hf : update_polyFlags (Z.to_nat (polyCount layer_params)) [63; 0; 63] [0; 0; 0]
               = [63; 0; 63]) by (vm_compute; reflexivity).
  rewrite Hf in E.
  exists params'. split; [exact E |]. split.
  - rewrite Hv. vm_compute. reflexivity.
  - rewrite Hr. vm_compute. reflexivity.
Defined.

Lemma process_flags_frame_witness :
  exists params' polyFlags' mp',
    process (NM := ListDetour.NavMesh) (TC := ListDetour.TileCache)
      (scene_env true 1 [ground] [ladder]) layer_params
      [63; 0; 63; 63] [0; 5; 0; 7] allocated_mesh new_MeshProcess
      = Ret (params', polyFlags', mp') /\
    nth_error polyFlags' 1 = Some 5 /\ nth_error polyFlags' 3 = Some 7.
Proof.
  assert (H : exists r,
             process (NM := ListDetour.NavMesh) (TC := ListDetour.TileCache)
               (scene_env true 1 [ground] [ladder]) layer_params
               [63; 0; 63; 63] [0; 5; 0; 7] allocated_mesh new_MeshProcess = Ret r)
    by (eexists; vm_compute; reflexivity).
  destruct H as [[[params' polyFlags'] mp'] E].
  exists params', polyFlags', mp'. split; [exact E |].
  destruct (@process_flags_frame ListDetour.NavMesh ListDetour.TileCache
              (scene_env true 1 [ground] [ladder]) layer_params
              [63; 0; 63; 63] [0; 5; 0; 7] allocated_mesh new_MeshProcess
              params' polyFlags' mp' E) as (_ & Hb & Hz & _).
  split.
  - rewrite (Hz 1%nat eq_refl). reflexivity.
  - rewrite (Hb 3%nat); [reflexivity |]. vm_compute. apply le_n.
Defined.

End MeshProcessReuseExamples.

(** ** Reading tiles: events, the tile queue and termination *)

Section ReadingTiles.
Context {NM TC : Type} {D : Detour NM TC}.
Variable env : Env.

Local Abbreviation Mesh := (DynamicNavigationMesh NM TC).

(** Sending one "tile added" event per queued tile changes nothing but the
    event sink. *)
Lemma send_tile_added (queue : list IntVector2) (st : Mesh) :
  let st' := fold_left (fun s t => SendEvent s (E_NAVIGATION_TILE_ADDED (node_ s) t))
                       queue st in
  events st' = events st ++ map (E_NAVIGATION_TILE_ADDED (node_ st)) queue /\
  node_ st' = node_ st /\ scene_ st' = scene_ st /\ settings st' = settings st /\
  tileCache_ st' = tileCache_ st /\ navMesh_ st' = navMesh_ st /\
  tileQueue_ st' = tileQueue_ st /\ boundingBox_ st' = boundingBox_ st /\
  numTilesX_ st' = numTilesX_ st /\ numTilesZ_ st' = numTilesZ_ st.
Proof.
  cbv zeta. revert st. induction queue as [| t queue IH]; intros st; cbn [fold_left map].
  - rewrite app_nil_r. repeat split.
  - destruct (IH (SendEvent st (E_NAVIGATION_TILE_ADDED (node_ st) t)))
      as (He & Hn & Hs & Hset & Hc & Hnm & Hq & Hb & Hx & Hz).
    rewrite He, Hn, Hs, Hset, Hc, Hnm, Hq, Hb, Hx, Hz. cbn.
    rewrite <- app_assoc. repeat split.
Qed.

(** What a returning [ReadTiles] leaves alone, and what it sends. *)
Lemma ReadTiles_frame source silent (st st' : Mesh) ok :
  ReadTiles env source silent st = Ret (ok, st') ->
  events st' = events st ++
    (if ok && negb silent
     then map (E_NAVIGATION_TILE_ADDED (node_ st)) (tileQueue_ st') else []) /\
  (ok = false -> navMesh_ st' = navMesh_ st) /\
  tileCache_ st' <> None /\
  node_ st' = node_ st /\ scene_ st' = scene_ st /\ settings st' = settings st /\
  boundingBox_ st' = boundingBox_ st /\
  numTilesX_ st' = numTilesX_ st /\ numTilesZ_ st' = numTilesZ_ st /\
  tileQueue_ st'
    = snd (read_tiles env (length source) source
             (match tileCache_ st with Some tc => tc | None => tileCache_init
                (TileCacheParams.decode []) end) []).
Proof.
  unfold ReadTiles. destruct (tileCache_ st) as [tc |]; [| discriminate].
  destruct (read_tiles env (length source) source tc []) as [[ok' tc1] queue] eqn:Er.
  cbn [snd].
  destruct ok'.
  - set (st1 := set_tileQueue (set_tileCache st (Some tc1)) queue).
    set (st2 := set_detour st1 _).
    destruct silent.
    + intros E. injection E as <- <-. cbn. rewrite app_nil_r.
      repeat apply conj; try reflexivity; try discriminate.
    + intros E. injection E as <- <-.
      destruct (send_tile_added queue st2)
        as (He & Hn & Hs & Hset & Hc & Hnm & Hq & Hb & Hx & Hz).
      rewrite He, Hn, Hs, Hset, Hc, Hq, Hb, Hx, Hz. cbn.
      repeat apply conj; try reflexivity; try discriminate.
  - intros E. injection E as <- <-. cbn. rewrite app_nil_r.
    repeat apply conj; try reflexivity; try discriminate.
Qed.

(** X6: a call of [ReadTiles] (and so of [AddTile], its non-silent form)
    that fails sends no event and builds no navmesh tile, while the tiles
    read before the failure stay in the cache of the mesh; a call that
    succeeds sends, unless it is silent, one "tile added" event per entry of
    the tile queue, in the order of the queue. *)
Theorem ReadTiles_events source silent (st st' : Mesh) ok :
  ReadTiles env source silent st = Ret (ok, st') ->
  events st' = events st ++
    (if ok && negb silent
     then map (E_NAVIGATION_TILE_ADDED (node_ st)) (tileQueue_ st') else []) /\
  (ok = false -> navMesh_ st' = navMesh_ st) /\
  tileCache_ st' <> None /\
  AddTile env source st = ReadTiles env source false st.
Proof.
  intros E. apply ReadTiles_frame in E.
  destruct E as (He & Hn & Hc & _). auto.
Qed.

Lemma no_adjacent_repeat_snoc (l : list IntVector2) b t :
  no_adjacent_repeat (l ++ [b]) -> IntVector2_eqb b t = false ->
  no_adjacent_repeat ((l ++ [b]) ++ [t]).
Proof.
  induction l as [| a l IH]; intros H Hbt.
  - cbn. auto.
  - cbn [app no_adjacent_repeat] in *. destruct H as [Ha Hl].
    split; [| now apply IH].
    destruct l as [| c l]; cbn [app] in *; exact Ha.
Qed.

Lemma queue_tile_no_repeat queue tileIdx :
  no_adjacent_repeat queue -> no_adjacent_repeat (queue_tile queue tileIdx).
Proof.
  intros H. unfold queue_tile.
  destruct (rev queue) as [| back r] eqn:E.
  - assert (queue = []) as -> by (rewrite <- (rev_involutive queue), E; reflexivity).
    cbn. auto.
  - destruct (IntVector2_eqb back tileIdx) eqn:Eb; [exact H |].
    assert (Hq : queue = rev r ++ [back])
      by (rewrite <- (rev_involutive queue), E; reflexivity).
    rewrite Hq in *. now apply no_adjacent_repeat_snoc.
Qed.

Lemma read_tiles_queue_no_repeat fuel source (tc : TC) queue :
  no_adjacent_repeat queue ->
  no_adjacent_repeat (snd (read_tiles env fuel source tc queue)).
Proof.
  revert source tc queue.
  induction fuel as [| fuel IH]; intros source tc queue H; cbn [read_tiles].
  - destruct (Bytes.IsEof source); exact H.
  - destruct (Bytes.IsEof source); [exact H |].
    unfold Bytes.Read, Bytes.ReadI32, Bytes.Read_into. lazy beta iota zeta.
    destruct (negb (dtAlloc_ok env _)); [exact H |].
    destruct (addTile _ _ tc) as [[status ref] tc1].
    destruct (dtStatusFailed status); [exact H |].
    apply IH. now apply queue_tile_no_repeat.
Qed.

(** X7: whatever bytes are read, the tile queue [ReadTiles] leaves behind
    never holds the same tile twice in a row: the records of one tile that
    follow each other are queued once, so that the navmesh tiles of this
    coordinate are built once for the whole run. *)
Theorem ReadTiles_queue_no_repeat source silent (st st' : Mesh) ok :
  ReadTiles env source silent st = Ret (ok, st') ->
  no_adjacent_repeat (tileQueue_ st').
Proof.
  intros E. apply ReadTiles_frame in E.
  destruct E as (_ & _ & _ & _ & _ & _ & _ & _ & _ & ->).
  apply read_tiles_queue_no_repeat. exact I.
Qed.

Lemma length_skipn_le {A} n (l : list A) : (length (skipn n l) <= length l)%nat.
Proof. rewrite length_skipn. lia. Qed.



(** X9: [SetNavigationDataAttr] never sends an event, whatever the bytes
    and whether or not it gets to the tiles; it keeps node, scene and
    attributes; when it ends without a tile cache it ends without a navmesh
    too; and on an empty value it just releases what the mesh held. *)
Theorem SetNavigationDataAttr_sends_no_event value (st st' : Mesh) :
  SetNavigationDataAttr env value st = Ret st' ->
  events st' = events st /\ node_ st' = node_ st /\ scene_ st' = scene_ st /\
  settings st' = settings st /\
  (tileCache_ st' = None -> navMesh_ st' = None) /\
  (value = [] -> st' = release_navigation_mesh st).
Proof.
  unfold SetNavigationDataAttr.
  destruct value as [| b value].
  - intros E. injection E as <-. repeat split.
  - unfold read_navigation_data.
    unfold ReadBoundingBox, Bytes.ReadI32, Bytes.Read. lazy beta iota zeta.
    destruct (negb (dtAllocNavMesh_ok env));
      [intros E; injection E as <-; repeat split; discriminate |].
    destruct (negb (navMesh_init_ok env _));
      [intros E; injection E as <-; repeat split; discriminate |].
    destruct (negb (dtAllocTileCache_ok env));
      [intros E; injection E as <-; repeat split; discriminate |].
    destruct (negb (tileCache_init_ok env _));
      [intros E; injection E as <-; repeat split; discriminate |].
    match goal with
    | |- context [ReadTiles env ?src true ?s] =>
        destruct (ReadTiles env src true s) as [[ok st4] | |] eqn:Er
    end; cbn [bind]; try discriminate.
    intros E. injection E as <-.
    apply ReadTiles_frame in Er.
    destruct Er as (He & _ & Hc & Hn & Hs & Hset & _).
    rewrite andb_false_r, app_nil_r in He.
    repeat apply conj; try assumption.
    + intros Hnone. now contradiction Hc.
    + discriminate.
Qed.

End ReadingTiles.

Section ReadingTilesExamples.
Import Examples Scenarios.

Lemma ReadTiles_events_witness :
  ReadTiles two_layer_env tile_00_data false allocated_mesh = Ret (true, streamed_mesh) /\
  events streamed_mesh
    = events allocated_mesh
      ++ [E_NAVIGATION_TILE_ADDED (Some mesh_node) {| iv_x := 0; iv_y := 0 |}].
Proof.
  assert (E : ReadTiles two_layer_env tile_00_data false allocated_mesh
              = Ret (true, streamed_mesh)) by (vm_compute; reflexivity).
  split; [exact E |].
  destruct (@ReadTiles_events _ _ ListDetour.detour two_layer_env tile_00_data false
              allocated_mesh streamed_mesh true E) as (He & _).
  rewrite He. vm_compute. reflexivity.
Defined.

Lemma ReadTiles_queue_no_repeat_witness :
  no_adjacent_repeat (tileQueue_ streamed_mesh) /\
  tileQueue_ streamed_mesh = [{| iv_x := 0; iv_y := 0 |}] /\
  length (ListDetour.tc_tiles (ListDetour.cache_of streamed_mesh)) = 2%nat.
Proof.
  assert (E : ReadTiles two_layer_env tile_00_data false allocated_mesh
              = Ret (true, streamed_mesh)) by (vm_compute; reflexivity).
  split; [| split; vm_compute; reflexivity].
  exact (@ReadTiles_queue_no_repeat _ _ ListDetour.detour two_layer_env tile_00_data
           false allocated_mesh streamed_mesh true E).
Defined.


Lemma SetNavigationDataAttr_sends_no_event_witness :
  exists st',
    SetNavigationDataAttr two_layer_env (GetNavigationDataAttr (built_mesh 2 16))
      (fresh_mesh (Some mesh_node) 16) = Ret st' /\
    events st' = [] /\ node_ st' = Some mesh_node.
Proof.
  assert (H : exists st',
             SetNavigationDataAttr two_layer_env (GetNavigationDataAttr (built_mesh 2 16))
               (fresh_mesh (Some mesh_node) 16) = Ret st')
    by (eexists; vm_compute; reflexivity).
  destruct H as [st' E]. exists st'. split; [exact E |].
  destruct (@SetNavigationDataAttr_sends_no_event _ _ ListDetour.detour two_layer_env
              (GetNavigationDataAttr (built_mesh 2 16)) (fresh_mesh (Some mesh_node) 16)
              st' E) as (He & Hn & _).
  split; [rewrite He | rewrite Hn]; reflexivity.
Defined.

End ReadingTilesExamples.

(** ** Obstacles: registration and the scan of the scene *)

Section ObstacleRegistration.
Context {NM TC : Type} {D : Detour NM TC}.

Local Abbreviation Mesh := (DynamicNavigationMesh NM TC).

(** X10: once the request queue has room, [AddObstacle] hands position,
    radius and height to the cache, whatever handle the obstacle has; when
    the cache accepts, the handle of the obstacle becomes the reference the
    cache answered (an earlier handle is overwritten, not removed) and, unless
    the call is silent, exactly one "obstacle added" event is sent, carrying
    the obstacle with its new handle; when the cache refuses, the obstacle
    keeps its handle and no event is sent. *)
Theorem AddObstacle_handle fuel o silent (st : Mesh) tc n tc1 nm1 status ref tc2 :
  tileCache_ st = Some tc -> obstacle_node o = Some n ->
  wait_for_queue fuel tc (navMesh_ st) = Ret (tc1, nm1) ->
  addObstacle (worldPosition n) (obstacle_radius o) (obstacle_height o) tc1
    = (status, ref, tc2) ->
  exists st',
    AddObstacle fuel o silent st
      = Ret (st', if dtStatusFailed status then o else set_obstacleId o ref) /\
    tileCache_ st' = Some tc2 /\ navMesh_ st' = nm1 /\
    events st' =
      events st ++
      (if dtStatusFailed status || silent then []
       else [E_NAVIGATION_OBSTACLE_ADDED n (set_obstacleId o ref) (worldPosition n)
               (obstacle_radius o) (obstacle_height o)]).
Proof.
  intros Hc Hn Hw Ha. unfold AddObstacle. rewrite Hc, Hn, Hw. cbn [bind].
  rewrite Ha. destruct (dtStatusFailed status); [| destruct silent];
    eexists; (split; [reflexivity |]); cbn; rewrite ?app_nil_r; auto.
Qed.

Lemma AddObstacle_frame fuel o silent (st st' : Mesh) o' :
  AddObstacle fuel o silent st = Ret (st', o') ->
  same_but_handle o o' /\
  node_ st' = node_ st /\ scene_ st' = scene_ st /\ settings st' = settings st /\
  boundingBox_ st' = boundingBox_ st /\
  numTilesX_ st' = numTilesX_ st /\ numTilesZ_ st' = numTilesZ_ st /\
  (tileCache_ st <> None -> tileCache_ st' <> None) /\
  exists sent, events st' = events st ++ sent /\ forallb is_obstacle_added sent = true.
Proof.
  unfold AddObstacle.
  destruct (tileCache_ st) as [tc |] eqn:Hc.
  - destruct (obstacle_node o) as [n |]; [| discriminate].
    destruct (wait_for_queue fuel tc (navMesh_ st)) as [[tc1 nm1] | |]; cbn [bind];
      try discriminate.
    destruct (addObstacle _ _ _ tc1) as [[status ref] tc2].
    destruct (dtStatusFailed status); [| destruct silent];
      intros E; injection E as <- <-; cbn;
      (repeat apply conj; try reflexivity; try discriminate);
      try (exists []; rewrite app_nil_r; split; reflexivity).
    eexists. split; reflexivity.
  - intros E. injection E as <- <-.
    repeat apply conj; try reflexivity; try (intros H; now contradiction H).
    exists []. rewrite app_nil_r. split; reflexivity.
Qed.

Lemma add_scene_obstacles_frame fuel obstacles :
  forall (st st' : Mesh) obstacles',
    add_scene_obstacles fuel obstacles st = Ret (st', obstacles') ->
    Forall2 (fun o o' => same_but_handle o o' /\ (obstacle_enabled o = false -> o' = o))
            obstacles obstacles' /\
    node_ st' = node_ st /\ scene_ st' = scene_ st /\ settings st' = settings st /\
    boundingBox_ st' = boundingBox_ st /\
    numTilesX_ st' = numTilesX_ st /\ numTilesZ_ st' = numTilesZ_ st /\
    (tileCache_ st <> None -> tileCache_ st' <> None) /\
    exists sent, events st' = events st ++ sent /\ forallb is_obstacle_added sent = true.
Proof.
  induction obstacles as [| o rest IH]; intros st st' obstacles'; cbn [add_scene_obstacles].
  - intros E. injection E as <- <-.
    repeat apply conj; try reflexivity; try constructor; auto.
    exists []. rewrite app_nil_r. split; reflexivity.
  - destruct (obstacle_enabled o) eqn:Een.
    + destruct (AddObstacle fuel o false st) as [[st1 o1] | |] eqn:Ea; cbn [bind];
        try discriminate.
      destruct (add_scene_obstacles fuel rest st1) as [[st2 rest2] | |] eqn:Er;
        cbn [bind]; try discriminate.
      intros E. injection E as <- <-.
      apply AddObstacle_frame in Ea.
      destruct Ea as (Hsame & Hn & Hs & Hset & Hb & Hx & Hz & Hc & sent1 & He1 & Hk1).
      apply IH in Er.
      destruct Er as (Hall & Hn2 & Hs2 & Hset2 & Hb2 & Hx2 & Hz2 & Hc2 & sent2 & He2 & Hk2).
      repeat apply conj; try congruence; auto.
      * constructor; [| exact Hall]. split; [exact Hsame | congruence].
      * exists (sent1 ++ sent2). rewrite He2, He1, <- app_assoc. split; [reflexivity |].
        rewrite forallb_app, Hk1, Hk2. reflexivity.
    + cbn [bind].
      destruct (add_scene_obstacles fuel rest st) as [[st2 rest2] | |] eqn:Er;
        cbn [bind]; try discriminate.
      intros E. injection E as <- <-.
      apply IH in Er.
      destruct Er as (Hall & Hn2 & Hs2 & Hset2 & Hb2 & Hx2 & Hz2 & Hc2 & sent2 & He2 & Hk2).
      repeat apply conj; auto.
      * constructor; [| exact Hall]. split; [repeat split | reflexivity].
      * now exists sent2.
Qed.

(** X11: the scan of the scene that ends [Allocate] and [Build] keeps the
    obstacles of the scene in number and order, changes nothing of an
    obstacle but its handle, leaves an obstacle that is not effectively
    enabled exactly as it was, and sends nothing but "obstacle added"
    events. *)
Theorem scan_for_obstacles_frame fuel (st st' : Mesh) obstacles :
  scene_ st = Some obstacles ->
  scan_for_obstacles fuel st = Ret st' ->
  exists obstacles' sent,
    scene_ st' = Some obstacles' /\
    Forall2 (fun o o' => same_but_handle o o' /\ (obstacle_enabled o = false -> o' = o))
            obstacles obstacles' /\
    events st' = events st ++ sent /\ forallb is_obstacle_added sent = true /\
    node_ st' = node_ st /\ settings st' = settings st.
Proof.
  intros Hs. unfold scan_for_obstacles. rewrite Hs.
  destruct (add_scene_obstacles fuel obstacles st) as [[st1 obstacles1] | |] eqn:E;
    cbn [bind]; try discriminate.
  intros E'. injection E' as <-.
  apply add_scene_obstacles_frame in E.
  destruct E as (Hall & Hn & _ & Hset & _ & _ & _ & _ & sent & He & Hk).
  exists obstacles1, sent.
  cbn [set_scene scene_ events node_ settings]. repeat apply conj; auto.
Qed.

End ObstacleRegistration.

(** ** One tile: what [BuildTile] hands back *)

Section OneTile.
Import Machine.
Context {NM TC : Type} {D : Detour NM TC}.
Variable env : Env.

Local Abbreviation Mesh := (DynamicNavigationMesh NM TC).

(** The ways through [BuildTile]: it bails out with no blob and no event, or
    it goes through with one blob per layer and one event. *)
Lemma BuildTile_cases geometryList x z (st st' : Mesh) tiles :
  BuildTile env geometryList x z st = Ret (tiles, st') ->
  let tileBoundingBox := GetTileBoundingBox env (boundingBox_ st) (settings st) x z in
  let expanded := expandedBox env (settings st) tileBoundingBox in
  let build := GetTileGeometry env geometryList expanded in
  exists tc nm,
    tileCache_ st = Some tc /\ navMesh_ st = Some nm /\
    let st1 :=
      set_tileCache st (Some (snd (removeTile (navMesh_getTileRefAt nm x z 0) tc))) in
    (tiles = [] /\ st' = st1 /\
     (tile_is_void env geometryList x z st \/
      rcBuildHeightfieldLayers env (settings st) expanded build = None \/
      exists layers,
        rcBuildHeightfieldLayers env (settings st) expanded build = Some layers /\
        build_layers env x z 0 layers = None)) \/
    (exists layers,
       ~ tile_is_void env geometryList x z st /\
       rcBuildHeightfieldLayers env (settings st) expanded build = Some layers /\
       Z.of_nat (length layers) <= TILECACHE_MAXLAYERS /\
       build_layers env x z 0 layers = Some tiles /\
       st' = SendEvent st1
               (E_NAVIGATION_AREA_REBUILT (node_ st)
                  (min_ tileBoundingBox) (max_ tileBoundingBox))).
Proof.
  unfold BuildTile, tile_is_void. cbv zeta.
  destruct (tileCache_ st) as [tc |]; [| discriminate].
  destruct (navMesh_ st) as [nm |]; [| discriminate].
  destruct (removeTile (navMesh_getTileRefAt nm x z 0) tc) as [[status d] tc1] eqn:Er.
  set (expanded := expandedBox env (settings st)
                     (GetTileBoundingBox env (boundingBox_ st) (settings st) x z)).
  set (build := GetTileGeometry env geometryList expanded).
  intros E. exists tc, nm. split; [reflexivity |]. split; [reflexivity |].
  rewrite Er. cbn [snd].
  destruct (vertices_ build) as [| v vs] eqn:Ev.
  { injection E as <- <-. left.
    split; [reflexivity |]. split; [reflexivity |]. left. now left. }
  destruct (indices_ build) as [| i ixs] eqn:Ei.
  { injection E as <- <-. left.
    split; [reflexivity |]. split; [reflexivity |]. left. now right. }
  destruct (rcBuildHeightfieldLayers env (settings st) expanded build) as [layers |].
  - destruct (Z.ltb_spec TILECACHE_MAXLAYERS (Z.of_nat (length layers)));
      [discriminate |].
    destruct (build_layers env x z 0 layers) as [tiles0 |] eqn:Eb.
    + injection E as <- <-. right. exists layers.
      split; [intros [Hv | Hi]; discriminate |].
      split; [reflexivity |]. split; [assumption |]. split; [exact Eb | reflexivity].
    + injection E as <- <-. left.
      split; [reflexivity |]. split; [reflexivity |].
      right. right. exists layers. split; [reflexivity | exact Eb].
  - injection E as <- <-. left.
    split; [reflexivity |]. split; [reflexivity |]. right. now left.
Qed.

Lemma build_layers_length x z layers :
  forall i tiles, build_layers env x z i layers = Some tiles -> length tiles = length layers.
Proof.
  induction layers as [| layer rest IH]; intros i tiles E; cbn [build_layers] in E.
  - now injection E as <-.
  - destruct (dtBuildTileCacheLayer env _ _ _ _); [| discriminate].
    destruct (build_layers env x z (i + 1) rest) as [tiles' |] eqn:E'; [| discriminate].
    injection E as <-. cbn [length]. f_equal. now apply (IH (i + 1)).
Qed.

(** X12: [BuildTile] is all or nothing for one tile.  It hands back no blob
    and sends no event when the tile holds no geometry, when a step of the
    Recast pipeline fails or when one layer cannot be serialized; otherwise
    every layer found was serialized, it hands back exactly these blobs, one
    per layer and in the order of the layers, and sends exactly one
    "area rebuilt" event with the bounds of the tile, also when no layer at
    all was found.  It never touches the navmesh pointer. *)
Theorem BuildTile_all_or_nothing geometryList x z (st st' : Mesh) tiles :
  BuildTile env geometryList x z st = Ret (tiles, st') ->
  let tileBoundingBox := GetTileBoundingBox env (boundingBox_ st) (settings st) x z in
  let expanded := expandedBox env (settings st) tileBoundingBox in
  let build := GetTileGeometry env geometryList expanded in
  navMesh_ st' = navMesh_ st /\
  ((tiles = [] /\ events st' = events st /\
    (tile_is_void env geometryList x z st \/
     rcBuildHeightfieldLayers env (settings st) expanded build = None \/
     exists layers,
       rcBuildHeightfieldLayers env (settings st) expanded build = Some layers /\
       build_layers env x z 0 layers = None)) \/
   (exists layers,
      ~ tile_is_void env geometryList x z st /\
      rcBuildHeightfieldLayers env (settings st) expanded build = Some layers /\
      Z.of_nat (length layers) <= TILECACHE_MAXLAYERS /\
      build_layers env x z 0 layers = Some tiles /\
      length tiles = length layers /\
      events st' = events st ++
        [E_NAVIGATION_AREA_REBUILT (node_ st)
           (min_ tileBoundingBox) (max_ tileBoundingBox)])).
Proof.
  intros E. apply BuildTile_cases in E. cbv zeta in *.
  destruct E as (tc & nm & Hc & Hn & [(-> & -> & Hwhy) | (layers & Hv & Hl & Hm & Hb & ->)]).
  - split; [reflexivity |]. left. auto.
  - split; [reflexivity |]. right. exists layers.
    split; [exact Hv |]. split; [exact Hl |]. split; [exact Hm |].
    split; [exact Hb |]. split; [now apply build_layers_length in Hb | reflexivity].
Qed.

Lemma build_layers_headers x z layers :
  is_int x -> is_int z ->
  forall i tiles k t,
    0 <= i -> i + Z.of_nat (length layers) <= INT_MAX ->
    build_layers env x z i layers = Some tiles -> nth_error tiles k = Some t ->
    let h := LayerHeader.decode (data t) in
    LayerHeader.magic h = LayerHeader.DT_TILECACHE_MAGIC /\
    LayerHeader.version h = LayerHeader.DT_TILECACHE_VERSION /\
    LayerHeader.tx h = x /\ LayerHeader.ty h = z /\
    LayerHeader.tlayer h = i + Z.of_nat k /\
    dataSize t = Z.of_nat (length (data t)) /\
    (LayerHeader.size <= length (data t))%nat.
Proof.
  intros Hx Hz.
  induction layers as [| layer rest IH]; intros i tiles k t Hi Hmax E Hk;
    cbn [build_layers] in E.
  - injection E as <-. destruct k; discriminate.
  - destruct (dtBuildTileCacheLayer env (layer_header x z i layer) (heights layer)
                (areas layer) (cons layer)) as [blob |] eqn:Eb; [| discriminate].
    destruct (build_layers env x z (i + 1) rest) as [tiles' |] eqn:E'; [| discriminate].
    injection E as <-. cbn [length] in Hmax.
    destruct k as [| k].
    + cbn in Hk. injection Hk as <-. cbn [data dataSize].
      unfold dtBuildTileCacheLayer in Eb.
      destruct (dtAlloc_ok env _); [| discriminate]. injection Eb as <-.
      destruct (header_decode_encode (layer_header x z i layer)
                  (LZ4_compress_default env (heights layer ++ areas layer ++ cons layer)))
        as (Hm & Hv & Htx & Hty & Htl).
      cbv zeta. rewrite Z.add_0_r.
      assert (Hlen : (LayerHeader.size
                      <= length (LayerHeader.encode (layer_header x z i layer)
                                 ++ LZ4_compress_default env
                                      (heights layer ++ areas layer ++ cons layer)))%nat)
        by (rewrite length_app, length_header; lia).
      split; [apply Hm; cbn [layer_header LayerHeader.magic];
              unfold is_int, INT_MIN, INT_MAX, LayerHeader.DT_TILECACHE_MAGIC; lia |].
      split; [apply Hv; cbn [layer_header LayerHeader.version];
              unfold is_int, INT_MIN, INT_MAX, LayerHeader.DT_TILECACHE_VERSION; lia |].
      split; [now apply Htx |]. split; [now apply Hty |].
      split; [apply Htl; cbn [layer_header LayerHeader.tlayer];
              unfold is_int, INT_MIN, INT_MAX in *; lia |].
      split; [reflexivity | exact Hlen].
    + cbn [nth_error] in Hk.
      replace (i + Z.of_nat (S k)) with ((i + 1) + Z.of_nat k) by lia.
      apply (IH (i + 1) tiles' k t); [lia | lia | exact E' | exact Hk].
Qed.

(** X13: every blob [BuildTile] hands back for tile [(x, z)] starts with a
    header that carries the magic and the version of the tile cache, the
    tile coordinates [x] and [z], and as layer index the position of the blob
    in the array; its [dataSize] is its length, which covers the header; and
    no more than 255 blobs come back. *)
Theorem BuildTile_headers geometryList x z (st st' : Mesh) tiles k t :
  is_int x -> is_int z ->
  BuildTile env geometryList x z st = Ret (tiles, st') ->
  nth_error tiles k = Some t ->
  let h := LayerHeader.decode (data t) in
  LayerHeader.magic h = LayerHeader.DT_TILECACHE_MAGIC /\
  LayerHeader.version h = LayerHeader.DT_TILECACHE_VERSION /\
  LayerHeader.tx h = x /\ LayerHeader.ty h = z /\
  LayerHeader.tlayer h = Z.of_nat k /\
  dataSize t = Z.of_nat (length (data t)) /\
  (LayerHeader.size <= length (data t))%nat /\
  Z.of_nat (length tiles) <= TILECACHE_MAXLAYERS.
Proof.
  intros Hx Hz E Hk. apply BuildTile_cases in E. cbv zeta in E.
  destruct E as (tc & nm & _ & _ & [(-> & _) | (layers & _ & _ & Hmax & Hb & _)]);
    [destruct k; discriminate |].
  pose proof (build_layers_length _ _ _ _ Hb) as Hlen.
  destruct (@build_layers_headers x z layers Hx Hz 0 tiles k t) as (H1 & H2 & H3 & H4 & H5 & H6 & H7);
    auto; try lia.
  { unfold TILECACHE_MAXLAYERS, INT_MAX in *. lia. }
  cbv zeta. repeat apply conj; auto. rewrite Hlen. exact Hmax.
Qed.

End OneTile.

(** ** What [Allocate] and [Build] leave behind *)

Section RebuildOutcome.
Context {NM TC : Type} {D : Detour NM TC}.
Variable env : Env.

Local Abbreviation Mesh := (DynamicNavigationMesh NM TC).

Lemma allocate_detour_frame (st : Mesh) params tileCacheParams :
  navMesh_ st = None -> tileCache_ st = None ->
  let r := allocate_detour env st params tileCacheParams in
  events (snd r) = events st /\ node_ (snd r) = node_ st /\ scene_ (snd r) = scene_ st /\
  (fst r = false -> navMesh_ (snd r) = None /\ tileCache_ (snd r) = None) /\
  (fst r = true -> tileCache_ (snd r) <> None).
Proof.
  intros Hn Hc. cbv zeta. unfold allocate_detour.
  destruct (dtAllocNavMesh_ok env), (navMesh_init_ok env params),
    (dtAllocTileCache_ok env), (tileCache_init_ok env tileCacheParams); cbn;
    repeat apply conj; auto; try discriminate.
Qed.

Lemma Allocate_params_frame node boundingBox maxTiles (st st2 : Mesh) p tcp :
  Allocate_params env node boundingBox maxTiles st = Ret (st2, p, tcp) ->
  navMesh_ st2 = navMesh_ st /\ tileCache_ st2 = tileCache_ st /\
  events st2 = events st /\ node_ st2 = node_ st /\ scene_ st2 = scene_ st.
Proof.
  unfold Allocate_params. destruct (count_tiles env _) as [nx nz].
  destruct (maxPolys_of _); cbn [bind]; try discriminate.
  intros E. injection E as <- _ _. repeat split.
Qed.

Lemma Build_params_frame geometryList (st st2 : Mesh) p tcp :
  Build_params env geometryList st = Ret (st2, p, tcp) ->
  navMesh_ st2 = navMesh_ st /\ tileCache_ st2 = tileCache_ st /\
  events st2 = events st /\ node_ st2 = node_ st /\ scene_ st2 = scene_ st.
Proof.
  unfold Build_params. destruct (count_tiles env _) as [nx nz].
  destruct (maxPolys_of _); cbn [bind]; try discriminate.
  intros E. injection E as <- _ _. repeat split.
Qed.

Lemma int_range_empty a b : b < a -> int_range a b = [].
Proof.
  intros H. unfold int_range. replace (Z.to_nat (b - a + 1)) with 0%nat by lia.
  reflexivity.
Qed.

Lemma tile_coordinates_empty from to :
  iv_x to < iv_x from \/ iv_y to < iv_y from -> tile_coordinates from to = [].
Proof.
  unfold tile_coordinates. intros [H | H].
  - rewrite (int_range_empty H).
    induction (int_range (iv_y from) (iv_y to)) as [| z zs IH]; cbn; auto.
  - now rewrite (int_range_empty H).
Qed.

(** X16: a partial rebuild [Build(from, to)] needs a node and a navmesh:
    without either it returns false and leaves the mesh as it was; with
    both, a rectangle whose second corner lies before the first on one axis
    holds no tile, and the call returns true with the mesh as it was, no
    tile removed or built and no event sent. *)
Theorem Build_range_edges from to (st : Mesh) :
  (node_ st = None \/ navMesh_ st = None ->
   Build_range env from to st = Ret (false, st)) /\
  (node_ st <> None -> navMesh_ st <> None ->
   iv_x to < iv_x from \/ iv_y to < iv_y from ->
   Build_range env from to st = Ret (true, st)).
Proof.
  unfold Build_range. split.
  - intros [-> | H]; [reflexivity |]. rewrite H. now destruct (node_ st).
  - intros Hn Hm Hempty.
    destruct (node_ st); [| now contradiction Hn].
    destruct (navMesh_ st); [| now contradiction Hm].
    unfold build_tiles. now rewrite (tile_coordinates_empty _ _ Hempty).
Qed.

Lemma Clamp_bounds value lo hi : lo <= hi -> lo <= Clamp value lo hi <= hi.
Proof.
  intros H. unfold Clamp.
  destruct (Z.ltb_spec value lo); [lia |].
  destruct (Z.gtb_spec value hi); lia.
Qed.

(** X17: [Build(boundingBox)] is [Build(from, to)] on the rectangle of the
    box in tile units, clamped; when the grid has a tile at all, both
    corners of this rectangle lie inside the grid, wherever the box lies, so
    that no tile outside the grid is ever removed or built. *)
Theorem Build_box_rectangle tile_offset boundingBox (st : Mesh) node :
  node_ st = Some node ->
  1 <= numTilesX_ st -> 1 <= numTilesZ_ st ->
  let localSpaceBox := Transformed_Inverse env boundingBox (worldTransform node) in
  let from := fst (clamped_rectangle env tile_offset localSpaceBox st) in
  let to := snd (clamped_rectangle env tile_offset localSpaceBox st) in
  Build_box env tile_offset boundingBox st = Build_range env from to st /\
  0 <= iv_x from < numTilesX_ st /\ 0 <= iv_x to < numTilesX_ st /\
  0 <= iv_y from < numTilesZ_ st /\ 0 <= iv_y to < numTilesZ_ st.
Proof.
  intros Hn Hx Hz. cbv zeta. split.
  - unfold Build_box, Build_range. rewrite Hn.
    destruct (navMesh_ st); [| reflexivity].
    now destruct (clamped_rectangle _ _ _ _).
  - unfold clamped_rectangle. cbn [fst snd iv_x iv_y].
    repeat match goal with
           | |- context [Clamp ?v 0 ?hi] =>
               let H := fresh "Hc" in
               assert (H : 0 <= Clamp v 0 hi <= hi) by (apply Clamp_bounds; lia);
               generalize dependent (Clamp v 0 hi); intros
           end.
    lia.
Qed.

End RebuildOutcome.

(** ** What [Allocate] and [Build()] send *)

Section RebuildEvents.
Import Machine.
Variable env : Env.

Local Abbreviation TileCache := ListDetour.TileCache.
Local Abbreviation Mesh := (DynamicNavigationMesh ListDetour.NavMesh ListDetour.TileCache).
Local Abbreviation tc_obstacles := ListDetour.tc_obstacles.
Local Abbreviation tc_nextObstacle := ListDetour.tc_nextObstacle.
Local Abbreviation tc_params := ListDetour.tc_params.

(** Once the wait for the request queue is over the queue has room; the
    wait registers no obstacle and hands out no handle. *)
Lemma wait_for_queue_obstacles fuel :
  forall (tc : TileCache) nm tc1 nm1,
    wait_for_queue fuel tc nm = Ret (tc1, nm1) ->
    ListDetour.isObstacleQueueFull tc1 = false /\
    (length (tc_obstacles tc1) <= length (tc_obstacles tc))%nat /\
    tc_params tc1 = tc_params tc /\ tc_nextObstacle tc1 = tc_nextObstacle tc.
Proof.
  induction fuel as [| fuel IH]; intros tc nm tc1 nm1; cbn [wait_for_queue];
    change (@isObstacleQueueFull _ _ ListDetour.detour tc)
      with (ListDetour.isObstacleQueueFull tc);
    destruct (ListDetour.isObstacleQueueFull tc) eqn:Efull.
  - discriminate.
  - intros E. injection E as <- <-. auto.
  - cbn [update ListDetour.detour]. unfold ListDetour.update.
    intros E. apply IH in E. cbn [ListDetour.tc_obstacles ListDetour.tc_params
                                  ListDetour.tc_nextObstacle] in E.
    destruct E as (H1 & H2 & H3 & H4). repeat split; auto.
    eapply Nat.le_trans; [exact H2 | apply filter_length_le].
  - intros E. injection E as <- <-. auto.
Qed.

(** While the cache has a free slot, a non-silent [AddObstacle] registers
    the obstacle under the next handle and sends its event. *)
Lemma AddObstacle_registers fuel o (st st' : Mesh) tc o' :
  tileCache_ st = Some tc ->
  Z.of_nat (length (tc_obstacles tc)) < TileCacheParams.maxObstacles (tc_params tc) ->
  AddObstacle fuel o false st = Ret (st', o') ->
  exists tc' n,
    tileCache_ st' = Some tc' /\ obstacle_node o = Some n /\
    o' = set_obstacleId o (tc_nextObstacle tc) /\
    events st' = events st ++
      [E_NAVIGATION_OBSTACLE_ADDED n o' (worldPosition n)
         (obstacle_radius o) (obstacle_height o)] /\
    (length (tc_obstacles tc') <= S (length (tc_obstacles tc)))%nat /\
    tc_params tc' = tc_params tc /\ tc_nextObstacle tc' = tc_nextObstacle tc + 1.
Proof.
  intros Hc Hroom. unfold AddObstacle. rewrite Hc.
  destruct (obstacle_node o) as [n |]; [| discriminate].
  destruct (wait_for_queue fuel tc (navMesh_ st)) as [[tc1 nm1] | |] eqn:Ew;
    cbn [bind]; try discriminate.
  apply wait_for_queue_obstacles in Ew. destruct Ew as (Hq & Hlen & Hp & Hnext).
  cbn [addObstacle ListDetour.detour]. unfold ListDetour.addObstacle. rewrite Hq.
  destruct (Z.leb_spec (TileCacheParams.maxObstacles (ListDetour.tc_params tc1))
              (Z.of_nat (length (ListDetour.tc_obstacles tc1)))) as [Hfull | Hok].
  - exfalso. rewrite Hp in Hfull. lia.
  - cbn [dtStatusFailed]. intros E. injection E as <- <-.
    eexists. exists n. split; [reflexivity |]. split; [reflexivity |].
    rewrite Hnext. split; [reflexivity |]. split; [reflexivity |].
    cbn [fst snd ListDetour.tc_obstacles ListDetour.tc_params ListDetour.tc_nextObstacle
         length].
    split; [lia |]. split; [exact Hp | reflexivity].
Qed.

(** While the cache has a free slot for each of them, the scan registers
    every effectively enabled obstacle and sends its event, in the order of
    the scene. *)
Lemma add_scene_obstacles_registers fuel obstacles :
  forall (st st' : Mesh) tc obstacles',
    tileCache_ st = Some tc ->
    Z.of_nat (length (tc_obstacles tc) + length (filter obstacle_enabled obstacles))
      <= TileCacheParams.maxObstacles (tc_params tc) ->
    0 < tc_nextObstacle tc ->
    add_scene_obstacles fuel obstacles st = Ret (st', obstacles') ->
    events st' = events st ++ flat_map obstacle_added_event obstacles' /\
    (forall o', In o' obstacles' -> obstacle_enabled o' = true -> 0 < obstacleId_ o').
Proof.
  induction obstacles as [| o rest IH]; intros st st' tc obstacles' Hc Hroom Hnext;
    cbn [add_scene_obstacles].
  - intros E. injection E as <- <-. cbn [flat_map]. rewrite app_nil_r.
    split; [reflexivity | intros o' []].
  - cbn [filter] in Hroom. destruct (obstacle_enabled o) eqn:Een.
    + destruct (AddObstacle fuel o false st) as [[st1 o1] | |] eqn:Ea; cbn [bind];
        try discriminate.
      destruct (add_scene_obstacles fuel rest st1) as [[st2 rest2] | |] eqn:Er;
        cbn [bind]; try discriminate.
      intros E. injection E as <- <-. cbn [length] in Hroom.
      destruct (@AddObstacle_registers fuel o st st1 tc o1 Hc)
        as (tc1 & n & Hc1 & Hn & Ho1 & He1 & Hlen1 & Hp1 & Hnext1); [lia | exact Ea |].
      destruct (IH st1 st2 tc1 rest2 Hc1) as [He2 Hpos];
        [rewrite Hp1; lia | lia | exact Er |].
      split.
      * cbn [flat_map]. rewrite He2, He1, <- app_assoc. f_equal. f_equal.
        unfold obstacle_added_event. subst o1.
        cbn [set_obstacleId obstacle_enabled obstacle_node obstacle_radius obstacle_height].
        now rewrite Een, Hn.
      * intros o' [<- | Hin] Hen; [subst o1; cbn; exact Hnext | now apply Hpos].
    + cbn [bind].
      destruct (add_scene_obstacles fuel rest st) as [[st2 rest2] | |] eqn:Er;
        cbn [bind]; try discriminate.
      intros E. injection E as <- <-.
      destruct (IH st st2 tc rest2 Hc Hroom Hnext Er) as [He2 Hpos].
      split.
      * cbn [flat_map]. unfold obstacle_added_event at 1. rewrite Een. exact He2.
      * intros o' [<- | Hin] Hen; [congruence | now apply Hpos].
Qed.

(** The scan of the scene: what it keeps, and what it sends when the cache
    has a free slot for every effectively enabled obstacle. *)
Lemma scan_for_obstacles_sent fuel (st st' : Mesh) tc :
  tileCache_ st = Some tc ->
  scan_for_obstacles fuel st = Ret st' ->
  exists obstacles obstacles' added,
    scene_ st = Some obstacles /\ scene_ st' = Some obstacles' /\
    Forall2 (fun o o' => same_but_handle o o' /\ (obstacle_enabled o = false -> o' = o))
            obstacles obstacles' /\
    events st' = events st ++ added /\ forallb is_obstacle_added added = true /\
    node_ st' = node_ st /\ settings st' = settings st /\
    boundingBox_ st' = boundingBox_ st /\
    numTilesX_ st' = numTilesX_ st /\ numTilesZ_ st' = numTilesZ_ st /\
    tileCache_ st' <> None /\
    (Z.of_nat (length (tc_obstacles tc) + length (filter obstacle_enabled obstacles))
       <= TileCacheParams.maxObstacles (tc_params tc) ->
     0 < tc_nextObstacle tc ->
     added = flat_map obstacle_added_event obstacles' /\
     (forall o', In o' obstacles' -> obstacle_enabled o' = true -> 0 < obstacleId_ o')).
Proof.
  intros Hc. unfold scan_for_obstacles.
  destruct (scene_ st) as [obstacles |]; [| discriminate].
  destruct (add_scene_obstacles fuel obstacles st) as [[st1 obstacles1] | |] eqn:E;
    cbn [bind]; try discriminate.
  intros E'. injection E' as <-.
  destruct (add_scene_obstacles_frame _ _ _ E)
    as (Hall & Hn & _ & Hset & Hb & Hx & Hz & Hc1 & added & He & Hk).
  exists obstacles, obstacles1, added.
  cbn [set_scene scene_ events node_ settings boundingBox_ numTilesX_ numTilesZ_ tileCache_].
  split; [reflexivity |]. split; [reflexivity |]. split; [exact Hall |].
  split; [exact He |]. split; [exact Hk |]. split; [exact Hn |]. split; [exact Hset |].
  split; [exact Hb |]. split; [exact Hx |]. split; [exact Hz |].
  split; [apply Hc1; rewrite Hc; discriminate |].
  intros Hroom Hnext.
  destruct (@add_scene_obstacles_registers fuel obstacles st st1 tc obstacles1
              Hc Hroom Hnext E) as [He' Hpos].
  split; [| exact Hpos].
  rewrite He in He'. now apply app_inv_head in He'.
Qed.

Lemma Allocate_params_obstacles node boundingBox maxTiles (st st2 : Mesh) p tcp :
  Allocate_params env node boundingBox maxTiles st = Ret (st2, p, tcp) ->
  settings st2 = settings st /\ scene_ st2 = scene_ st /\
  TileCacheParams.maxObstacles tcp = maxObstacles_ (settings st).
Proof.
  unfold Allocate_params. destruct (count_tiles env _) as [nx nz].
  destruct (maxPolys_of _); cbn [bind]; try discriminate.
  intros E. injection E as <- _ <-. repeat split.
Qed.

Lemma Build_params_obstacles geometryList (st st2 : Mesh) p tcp :
  Build_params env geometryList st = Ret (st2, p, tcp) ->
  settings st2 = settings st /\ scene_ st2 = scene_ st /\
  TileCacheParams.maxObstacles tcp = maxObstacles_ (settings st).
Proof.
  unfold Build_params. destruct (count_tiles env _) as [nx nz].
  destruct (maxPolys_of _); cbn [bind]; try discriminate.
  intros E. injection E as <- _ <-. repeat split.
Qed.

(** X14: an [Allocate] that returns false leaves the mesh without navmesh
    and without tile cache and has sent no event.  An [Allocate] that returns
    true leaves a tile cache; the scene holds the same obstacles, in the same
    order, with nothing changed but handles; what it has sent is
    "obstacle added" events and then, as the very last event, "mesh rebuilt"
    for the node of the mesh.  When the scene has no more effectively enabled
    obstacles than [maxObstacles_], every one of them ends with a handle
    above zero, and the events before "mesh rebuilt" are exactly one
    "obstacle added" event per effectively enabled obstacle, in the order of
    the scene, each carrying the obstacle with its new handle. *)
Theorem Allocate_outcome fuel boundingBox maxTiles (st st' : Mesh) ok :
  Allocate env fuel boundingBox maxTiles st = Ret (ok, st') ->
  node_ st' = node_ st /\
  (ok = false ->
   navMesh_ st' = None /\ tileCache_ st' = None /\ events st' = events st) /\
  (ok = true ->
   tileCache_ st' <> None /\
   exists obstacles obstacles' added,
     scene_ st = Some obstacles /\ scene_ st' = Some obstacles' /\
     Forall2 (fun o o' => same_but_handle o o' /\ (obstacle_enabled o = false -> o' = o))
             obstacles obstacles' /\
     events st' = events st ++ added ++ [E_NAVIGATION_MESH_REBUILT (node_ st)] /\
     forallb is_obstacle_added added = true /\
     (Z.of_nat (length (filter obstacle_enabled obstacles)) <= maxObstacles_ (settings st) ->
      added = flat_map obstacle_added_event obstacles' /\
      (forall o', In o' obstacles' -> obstacle_enabled o' = true -> 0 < obstacleId_ o'))).
Proof.
  unfold Allocate.
  destruct (released_has_no_mesh st) as (Hn0 & Hc0 & _ & _ & He0).
  pose proof (node_release st) as Hnode0.
  set (st0 := release_navigation_mesh st) in *.
  assert (Hset0 : settings st0 = settings st /\ scene_ st0 = scene_ st)
    by (split; reflexivity).
  destruct Hset0 as [Hset0 Hscene0].
  destruct (node_ st0) as [node |] eqn:Hnode.
  - destruct (Allocate_params env node boundingBox maxTiles st0)
      as [[[st2 p] tcp] | |] eqn:Ep; cbn [bind]; try discriminate.
    destruct (Allocate_params_obstacles _ _ _ _ Ep) as (Hset2 & Hscene2 & Hmax).
    apply Allocate_params_frame in Ep. destruct Ep as (Hn2 & Hc2 & He2 & Hnode2 & _).
    destruct (@allocate_detour_frame _ _ ListDetour.detour env st2 p tcp)
      as (He3 & Hnode3 & Hscene3 & Hfalse & Htrue); [congruence | congruence |].
    pose proof (allocate_detour_true env st2 p tcp) as Hst3.
    destruct (allocate_detour env st2 p tcp) as [[] st3]; cbn [fst snd] in *.
    + specialize (Hst3 eq_refl).
      assert (Hc3 : tileCache_ st3 = Some (ListDetour.init tcp)) by (now subst st3).
      destruct (scan_for_obstacles fuel st3) as [st4 | |] eqn:Es; cbn [bind];
        try discriminate.
      intros E. injection E as <- <-.
      destruct (@scan_for_obstacles_sent fuel st3 st4 (ListDetour.init tcp) Hc3 Es)
        as (obstacles & obstacles' & added & Hs3 & Hs4 & Hall & He4 & Hk & Hnode4
            & _ & _ & _ & _ & Hc4 & Hpin).
      split; [cbn; congruence |]. split; [discriminate |]. intros _.
      split; [exact Hc4 |].
      exists obstacles, obstacles', added.
      split; [congruence |]. split; [exact Hs4 |]. split; [exact Hall |].
      split; [| split; [exact Hk |]].
      * cbn [SendEvent events]. rewrite He4, He3, He2, He0, <- app_assoc.
        do 3 f_equal. congruence.
      * intros Hroom. apply Hpin; [| cbn; lia].
        cbn [ListDetour.init ListDetour.tc_obstacles ListDetour.tc_params length Nat.add].
        rewrite Hmax. congruence.
    + intros E. injection E as <- <-.
      split; [congruence |]. split; [| discriminate]. intros _.
      destruct (Hfalse eq_refl) as [H1 H2]. repeat split; congruence.
  - intros E. injection E as <- <-.
    split; [congruence |]. split; [auto | discriminate].
Qed.

Lemma addTile_obstacles blob size (tc : TileCache) :
  tc_obstacles (snd (ListDetour.addTile blob size tc)) = tc_obstacles tc /\
  tc_nextObstacle (snd (ListDetour.addTile blob size tc)) = tc_nextObstacle tc /\
  tc_params (snd (ListDetour.addTile blob size tc)) = tc_params tc.
Proof.
  unfold ListDetour.addTile.
  repeat match goal with
         | |- context [if ?c then _ else _] => destruct c
         end; cbn; auto.
Qed.

Lemma add_built_tiles_obstacles tiles :
  forall tc : TileCache,
    tc_obstacles (add_built_tiles tiles tc) = tc_obstacles tc /\
    tc_nextObstacle (add_built_tiles tiles tc) = tc_nextObstacle tc /\
    tc_params (add_built_tiles tiles tc) = tc_params tc.
Proof.
  induction tiles as [| t rest IH]; intros tc; cbn [add_built_tiles]; [auto |].
  change (@addTile _ _ ListDetour.detour (data t) (dataSize t) tc)
    with (ListDetour.addTile (data t) (dataSize t) tc).
  destruct (addTile_obstacles (data t) (dataSize t) tc) as (H1 & H2 & H3).
  destruct (ListDetour.addTile (data t) (dataSize t) tc) as [[status ref] tc1].
  cbn [snd] in H1, H2, H3.
  destruct (IH tc1) as (I1 & I2 & I3). repeat split; congruence.
Qed.

Lemma area_rebuilt_by_same geometryList (st st0 : Mesh) xz sent :
  settings st = settings st0 -> boundingBox_ st = boundingBox_ st0 ->
  node_ st = node_ st0 ->
  area_rebuilt_by env geometryList st xz sent ->
  area_rebuilt_by env geometryList st0 xz sent.
Proof. unfold area_rebuilt_by, tile_is_void. intros -> -> ->. auto. Qed.

(** One round of the tile loop of [Build()]: what it sends, and what it
    leaves alone. *)
Lemma Build_tile_at_sent geometryList xz (st st1 : Mesh) tc :
  tileCache_ st = Some tc ->
  Build_tile_at env geometryList xz st = Ret st1 ->
  exists sent tc1,
    events st1 = events st ++ sent /\ area_rebuilt_by env geometryList st xz sent /\
    node_ st1 = node_ st /\ scene_ st1 = scene_ st /\ settings st1 = settings st /\
    boundingBox_ st1 = boundingBox_ st /\
    numTilesX_ st1 = numTilesX_ st /\ numTilesZ_ st1 = numTilesZ_ st /\
    tileCache_ st1 = Some tc1 /\ tc_obstacles tc1 = tc_obstacles tc /\
    tc_nextObstacle tc1 = tc_nextObstacle tc /\ tc_params tc1 = tc_params tc.
Proof.
  intros Hc. unfold Build_tile_at.
  destruct (BuildTile env geometryList (fst xz) (snd xz) st) as [[tiles st0] | |] eqn:Eb;
    cbn [bind]; try discriminate.
  apply BuildTile_cases in Eb. cbv zeta in Eb.
  destruct Eb as (tc' & nm & Hc' & Hn & Hcase).
  rewrite Hc in Hc'. injection Hc' as <-.
  rewrite removeTile_navmesh_ref in Hcase. cbn [snd] in Hcase.
  rewrite (set_tileCache_same _ Hc) in Hcase.
  destruct (add_built_tiles_obstacles tiles tc) as (A1 & A2 & A3).
  destruct Hcase as [(-> & -> & Hwhy) | (layers & Hv & Hl & Hm & Hb & ->)].
  - rewrite Hc. intros E. injection E as <-.
    exists [], (add_built_tiles [] tc). rewrite app_nil_r.
    split; [reflexivity |]. split; [left; now split |].
    cbn. repeat split.
  - cbn [SendEvent tileCache_]. rewrite Hc. intros E. injection E as <-.
    eexists. exists (add_built_tiles tiles tc).
    split; [reflexivity |].
    split; [right; split; [reflexivity | split; [exact Hv | now exists layers, tiles]] |].
    cbn. repeat split; assumption.
Qed.

(** The tile loop of [Build()]. *)
Lemma Build_tiles_sent geometryList coords :
  forall (st st' : Mesh) tc,
    tileCache_ st = Some tc ->
    for_each (Build_tile_at env geometryList) coords st = Ret st' ->
    exists per_tile tc',
      events st' = events st ++ concat per_tile /\
      Forall2 (area_rebuilt_by env geometryList st) coords per_tile /\
      node_ st' = node_ st /\ scene_ st' = scene_ st /\ settings st' = settings st /\
      boundingBox_ st' = boundingBox_ st /\
      numTilesX_ st' = numTilesX_ st /\ numTilesZ_ st' = numTilesZ_ st /\
      tileCache_ st' = Some tc' /\ tc_obstacles tc' = tc_obstacles tc /\
      tc_nextObstacle tc' = tc_nextObstacle tc /\ tc_params tc' = tc_params tc.
Proof.
  induction coords as [| xz rest IH]; intros st st' tc Hc; cbn [for_each].
  - intros E. injection E as <-. exists [], tc. cbn [concat]. rewrite app_nil_r.
    split; [reflexivity |]. split; [constructor |]. repeat split. exact Hc.
  - destruct (Build_tile_at env geometryList xz st) as [st1 | |] eqn:E1; cbn [bind];
      try discriminate.
    intros E.
    destruct (@Build_tile_at_sent geometryList xz st st1 tc Hc E1)
      as (sent & tc1 & He1 & Ha1 & Hn1 & Hsc1 & Hs1 & Hb1 & Hx1 & Hz1 & Hc1 & O1 & O2 & O3).
    destruct (IH st1 st' tc1 Hc1 E)
      as (per & tc' & He & Hall & Hn & Hsc & Hs & Hb & Hx & Hz & Hc' & P1 & P2 & P3).
    exists (sent :: per), tc'. cbn [concat].
    split; [rewrite He, He1, <- app_assoc; reflexivity |].
    split.
    { constructor; [exact Ha1 |].
      eapply Forall2_impl; [| exact Hall].
      intros a b H. now apply (@area_rebuilt_by_same geometryList st1 st a b). }
    repeat split; congruence.
Qed.

(** X15: a [Build()] that returns false leaves the mesh without navmesh and
    without tile cache and has sent no event.  A [Build()] that returns true
    over geometry leaves a tile cache and the obstacles of the scene with
    nothing changed but handles, and what it has sent is, in this order: for
    every tile of the grid, [z] outside and [x] inside, one "area rebuilt"
    event with the bounds of the tile when all its layers were serialized
    and nothing otherwise; one "mesh rebuilt" event for the node of the mesh;
    and only then "obstacle added" events, so that, unlike after [Allocate],
    "mesh rebuilt" is not the last event.  When the scene has no more
    effectively enabled obstacles than [maxObstacles_], every one of them
    ends with a handle above zero and these last events are exactly one per
    effectively enabled obstacle, in the order of the scene. *)
Theorem Build_outcome fuel (st st' : Mesh) ok :
  Build env fuel st = Ret (ok, st') ->
  node_ st' = node_ st /\
  (ok = false ->
   navMesh_ st' = None /\ tileCache_ st' = None /\ events st' = events st) /\
  (ok = true -> collect_geometries env <> [] ->
   tileCache_ st' <> None /\
   exists obstacles obstacles' per_tile added,
     scene_ st = Some obstacles /\ scene_ st' = Some obstacles' /\
     Forall2 (fun o o' => same_but_handle o o' /\ (obstacle_enabled o = false -> o' = o))
             obstacles obstacles' /\
     Forall2 (area_rebuilt_by env (collect_geometries env) st')
             (tile_coordinates {| iv_x := 0; iv_y := 0 |}
                {| iv_x := numTilesX_ st' - 1; iv_y := numTilesZ_ st' - 1 |})
             per_tile /\
     events st' = events st ++ concat per_tile
                  ++ [E_NAVIGATION_MESH_REBUILT (node_ st)] ++ added /\
     forallb is_obstacle_added added = true /\
     (Z.of_nat (length (filter obstacle_enabled obstacles)) <= maxObstacles_ (settings st) ->
      added = flat_map obstacle_added_event obstacles' /\
      (forall o', In o' obstacles' -> obstacle_enabled o' = true -> 0 < obstacleId_ o'))).
Proof.
  unfold Build.
  destruct (released_has_no_mesh st) as (Hn0 & Hc0 & _ & _ & He0).
  pose proof (node_release st) as Hnode0.
  set (st0 := release_navigation_mesh st) in *.
  assert (Hset0 : settings st0 = settings st /\ scene_ st0 = scene_ st)
    by (split; reflexivity).
  destruct Hset0 as [Hset0 Hscene0].
  destruct (node_ st0) as [node |] eqn:Hnode.
  - destruct (collect_geometries env) as [| g gs] eqn:Hg.
    { intros E. injection E as <- <-.
      split; [congruence |]. split; [discriminate |]. intros _ H. now contradiction H. }
    destruct (Build_params env (g :: gs) st0) as [[[st2 p] tcp] | |] eqn:Ep; cbn [bind];
      try discriminate.
    destruct (Build_params_obstacles _ _ Ep) as (Hset2 & Hscene2 & Hmax).
    apply Build_params_frame in Ep. destruct Ep as (Hn2 & Hc2 & He2 & Hnode2 & _).
    destruct (@allocate_detour_frame _ _ ListDetour.detour env st2 p tcp)
      as (He3 & Hnode3 & Hscene3 & Hfalse & Htrue); [congruence | congruence |].
    pose proof (allocate_detour_true env st2 p tcp) as Hst3.
    destruct (allocate_detour env st2 p tcp) as [[] st3]; cbn [fst snd] in *.
    + specialize (Hst3 eq_refl).
      assert (Hc3 : tileCache_ st3 = Some (ListDetour.init tcp)) by (now subst st3).
      assert (Hset3 : settings st3 = settings st2) by (now subst st3).
      clear Hst3.
      unfold Build_all_tiles.
      destruct (for_each _ _ st3) as [st4 | |] eqn:E4; cbn [bind]; try discriminate.
      destruct (@Build_tiles_sent (g :: gs) _ st3 st4 (ListDetour.init tcp) Hc3 E4)
        as (per & tc4 & He4 & Hall4 & Hnode4 & Hscene4 & Hset4 & Hb4 & Hx4 & Hz4 & Hc4
            & O1 & O2 & O3).
      rewrite Hc4.
      set (st6 := SendEvent (set_detour st4 (update float_0 tc4 (navMesh_ st4))) _).
      assert (Hc6 : tileCache_ st6
                    = Some (fst (ListDetour.update float_0 tc4 (navMesh_ st4))))
        by reflexivity.
      destruct (scan_for_obstacles fuel st6) as [st7 | |] eqn:Es; cbn [bind];
        try discriminate.
      intros E. injection E as <- <-.
      destruct (@scan_for_obstacles_sent fuel st6 st7 _ Hc6 Es)
        as (obstacles & obstacles' & added & Hs6 & Hs7 & Hall & He7 & Hk & Hnode7
            & Hset7 & Hb7 & Hx7 & Hz7 & Hc7 & Hpin).
      subst st6.
      cbn [SendEvent set_detour set_navMesh set_tileCache node_ events tileCache_
           scene_ settings boundingBox_ numTilesX_ numTilesZ_]
        in Hs6, He7, Hnode7, Hset7, Hb7, Hx7, Hz7.
      split; [congruence |]. split; [discriminate |]. intros _ _.
      split; [exact Hc7 |].
      exists obstacles, obstacles', per, added.
      split; [congruence |]. split; [exact Hs7 |]. split; [exact Hall |].
      split.
      { rewrite Hx7, Hz7, Hx4, Hz4.
        eapply Forall2_impl; [| exact Hall4].
        intros a b H.
        apply (@area_rebuilt_by_same (g :: gs) st3 st7 a b); congruence. }
      split.
      { rewrite He7, He4, He3, He2, He0, <- !app_assoc. cbn [app].
        do 3 f_equal. congruence. }
      split; [exact Hk |].
      intros Hroom. apply Hpin.
      * cbn [ListDetour.update fst ListDetour.tc_obstacles ListDetour.tc_params].
        rewrite O1, O3.
        cbn [ListDetour.init ListDetour.tc_obstacles ListDetour.tc_params filter length
             Nat.add].
        rewrite Hmax. congruence.
      * cbn [ListDetour.update fst ListDetour.tc_nextObstacle]. rewrite O2. cbn. lia.
    + intros E. injection E as <- <-.
      split; [congruence |]. split; [| discriminate]. intros _.
      destruct (Hfalse eq_refl) as [H1 H2]. repeat split; congruence.
  - intros E. injection E as <- <-.
    split; [congruence |]. split; [auto | discriminate].
Qed.

End RebuildEvents.

Section RebuildExamples.
Import Examples Scenarios.

Lemma AddObstacle_handle_witness :
  obstacleId_ (snd with_barrel) = 1 /\
  exists st',
    AddObstacle 1 (snd with_barrel) true (fst with_barrel)
      = Ret (st', set_obstacleId (snd with_barrel) 2) /\
    events st' = events (fst with_barrel).
Proof.
  split; [vm_compute; reflexivity |].
  set (tc := ListDetour.cache_of (fst with_barrel)).
  assert (Hc : tileCache_ (fst with_barrel) = Some tc) by (vm_compute; reflexivity).
  assert (Hn : obstacle_node (snd with_barrel) = Some obstacle_node_7)
    by (vm_compute; reflexivity).
  assert (Hw : wait_for_queue 1 tc (navMesh_ (fst with_barrel))
               = Ret (tc, navMesh_ (fst with_barrel))) by (vm_compute; reflexivity).
  assert (Ha : addObstacle (worldPosition obstacle_node_7)
                 (obstacle_radius (snd with_barrel)) (obstacle_height (snd with_barrel)) tc
               = (DT_SUCCESS, 2,
                  snd (addObstacle (worldPosition obstacle_node_7)
                         (obstacle_radius (snd with_barrel))
                         (obstacle_height (snd with_barrel)) tc)))
    by (vm_compute; reflexivity).
  destruct (@AddObstacle_handle _ _ ListDetour.detour 1 (snd with_barrel) true
              (fst with_barrel) tc obstacle_node_7 tc (navMesh_ (fst with_barrel))
              DT_SUCCESS 2 _ Hc Hn Hw Ha) as (st' & E & _ & _ & He).
  exists st'. split; [exact E |]. rewrite He. apply app_nil_r.
Defined.

Lemma scan_for_obstacles_frame_witness :
  exists st' obstacles',
    scan_for_obstacles 1 (set_scene allocated_mesh (scene_ mesh_with_barrels)) = Ret st' /\
    scene_ st' = Some obstacles' /\
    Forall2 (fun o o' => same_but_handle o o' /\ (obstacle_enabled o = false -> o' = o))
            [barrel (Some obstacle_node_7); sleeping_barrel] obstacles'.
Proof.
  assert (H : exists st',
             scan_for_obstacles 1 (set_scene allocated_mesh (scene_ mesh_with_barrels))
               = Ret st') by (eexists; vm_compute; reflexivity).
  destruct H as [st' E].
  destruct (@scan_for_obstacles_frame _ _ ListDetour.detour 1
              (set_scene allocated_mesh (scene_ mesh_with_barrels)) st'
              [barrel (Some obstacle_node_7); sleeping_barrel] eq_refl E)
    as (obstacles' & sent & Hs & Hall & _).
  exists st', obstacles'. split; [exact E |]. split; [exact Hs | exact Hall].
Defined.

Lemma BuildTile_all_or_nothing_witness :
  exists tiles st' layers,
    BuildTile two_layer_env [ground] 0 0 (built_mesh 2 16) = Ret (tiles, st') /\
    navMesh_ st' = navMesh_ (built_mesh 2 16) /\
    build_layers two_layer_env 0 0 0 layers = Some tiles /\ length tiles = 2%nat /\
    events st' = events (built_mesh 2 16) ++
      [E_NAVIGATION_AREA_REBUILT (node_ (built_mesh 2 16))
         (min_ (tile_box 0 0)) (max_ (tile_box 0 0))].
Proof.
  assert (H : exists tiles st',
             BuildTile two_layer_env [ground] 0 0 (built_mesh 2 16) = Ret (tiles, st') /\
             length tiles = 2%nat)
    by (do 2 eexists; split; vm_compute; reflexivity).
  destruct H as (tiles & st' & E & Hlen).
  destruct (@BuildTile_all_or_nothing _ _ ListDetour.detour two_layer_env [ground] 0 0
              (built_mesh 2 16) st' tiles E) as [Hn [(Hnil & _) | (layers & _ & _ & _ & Hb & _ & He)]].
  - rewrite Hnil in Hlen. discriminate Hlen.
  - exists tiles, st', layers. split; [exact E |]. split; [exact Hn |].
    split; [exact Hb |]. split; [exact Hlen | exact He].
Defined.

Lemma BuildTile_headers_witness :
  exists tiles st' t,
    BuildTile two_layer_env [ground] 0 0 (built_mesh 2 16) = Ret (tiles, st') /\
    nth_error tiles 1 = Some t /\
    LayerHeader.tx (LayerHeader.decode (data t)) = 0 /\
    LayerHeader.tlayer (LayerHeader.decode (data t)) = 1.
Proof.
  assert (H : exists tiles st' t,
             BuildTile two_layer_env [ground] 0 0 (built_mesh 2 16) = Ret (tiles, st') /\
             nth_error tiles 1 = Some t)
    by (do 3 eexists; split; vm_compute; reflexivity).
  destruct H as (tiles & st' & t & E & Hk).
  assert (H0 : Machine.is_int 0) by (split; vm_compute; discriminate).
  destruct (@BuildTile_headers _ _ ListDetour.detour two_layer_env [ground] 0 0
              (built_mesh 2 16) st' tiles 1 t H0 H0 E Hk) as (_ & _ & Hx & _ & Hl & _).
  exists tiles, st', t. auto.
Defined.

Lemma Allocate_outcome_witness :
  exists st' obstacles',
    Allocate two_layer_env 1 (geometry_boundingBox_ ground) 16 mesh_with_barrels
      = Ret (true, st') /\
    scene_ st' = Some obstacles' /\ length obstacles' = 2%nat /\
    events st' = flat_map obstacle_added_event obstacles'
                 ++ [E_NAVIGATION_MESH_REBUILT (Some mesh_node)] /\
    (forall o', In o' obstacles' -> obstacle_enabled o' = true -> 0 < obstacleId_ o').
Proof.
  assert (H : exists st',
             Allocate two_layer_env 1 (geometry_boundingBox_ ground) 16 mesh_with_barrels
               = Ret (true, st')) by (eexists; vm_compute; reflexivity).
  destruct H as [st' E].
  destruct (@Allocate_outcome two_layer_env 1 (geometry_boundingBox_ ground) 16
              mesh_with_barrels st' true E) as (_ & _ & Ht).
  destruct (Ht eq_refl) as (_ & obstacles & obstacles' & added & Hs & Hs' & Hall & He & _
                            & Hpin).
  injection Hs as <-.
  destruct Hpin as [-> Hpos]; [vm_compute; discriminate |].
  exists st', obstacles'. split; [exact E |]. split; [exact Hs' |].
  split; [symmetry; exact (Forall2_length Hall) |].
  split; [exact He | exact Hpos].
Defined.

Lemma Build_outcome_witness :
  exists st' obstacles' per_tile,
    Build two_layer_env 1 mesh_with_barrels = Ret (true, st') /\
    scene_ st' = Some obstacles' /\
    Forall2 (area_rebuilt_by two_layer_env (collect_geometries two_layer_env) st')
            (tile_coordinates {| iv_x := 0; iv_y := 0 |}
               {| iv_x := numTilesX_ st' - 1; iv_y := numTilesZ_ st' - 1 |})
            per_tile /\
    events st' = concat per_tile ++ [E_NAVIGATION_MESH_REBUILT (Some mesh_node)]
                 ++ flat_map obstacle_added_event obstacles' /\
    (forall o', In o' obstacles' -> obstacle_enabled o' = true -> 0 < obstacleId_ o').
Proof.
  assert (H : exists st', Build two_layer_env 1 mesh_with_barrels = Ret (true, st'))
    by (eexists; vm_compute; reflexivity).
  destruct H as [st' E].
  destruct (@Build_outcome two_layer_env 1 mesh_with_barrels st' true E) as (_ & _ & Ht).
  destruct (Ht eq_refl) as (_ & obstacles & obstacles' & per_tile & added & Hs & Hs' & _
                            & Hall & He & _ & Hpin); [discriminate |].
  injection Hs as <-.
  destruct Hpin as [-> Hpos]; [vm_compute; discriminate |].
  exists st', obstacles', per_tile. split; [exact E |]. split; [exact Hs' |].
  split; [exact Hall |]. split; [exact He | exact Hpos].
Defined.

Lemma Build_range_edges_witness :
  Build_range two_layer_env {| iv_x := 1; iv_y := 0 |} {| iv_x := 0; iv_y := 0 |}
    (built_mesh 2 16) = Ret (true, built_mesh 2 16).
Proof.
  apply (proj2 (@Build_range_edges _ _ ListDetour.detour two_layer_env
                  {| iv_x := 1; iv_y := 0 |} {| iv_x := 0; iv_y := 0 |} (built_mesh 2 16))).
  - vm_compute. discriminate.
  - vm_compute. discriminate.
  - left. cbn. lia.
Defined.

Lemma Build_box_rectangle_witness :
  let far_away := fun _ _ _ : float => 7 in
  let from := fst (clamped_rectangle two_layer_env far_away
                     (geometry_boundingBox_ ground) (built_mesh 2 16)) in
  let to := snd (clamped_rectangle two_layer_env far_away
                   (geometry_boundingBox_ ground) (built_mesh 2 16)) in
  Build_box two_layer_env far_away (geometry_boundingBox_ ground) (built_mesh 2 16)
    = Build_range two_layer_env from to (built_mesh 2 16) /\
  0 <= iv_x from < numTilesX_ (built_mesh 2 16).
Proof.
  cbv zeta.
  assert (Hn : node_ (built_mesh 2 16) = Some mesh_node) by (vm_compute; reflexivity).
  assert (Hx : 1 <= numTilesX_ (built_mesh 2 16)) by (vm_compute; discriminate).
  assert (Hz : 1 <= numTilesZ_ (built_mesh 2 16)) by (vm_compute; discriminate).
  destruct (@Build_box_rectangle _ _ ListDetour.detour two_layer_env
              (fun _ _ _ : float => 7) (geometry_boundingBox_ ground)
              (built_mesh 2 16) mesh_node Hn Hx Hz) as (E & Hfrom & _).
  split; [exact E | exact Hfrom].
Defined.

End RebuildExamples.

(** ** Taking tiles out of the list-based cache and streaming them in *)

Section TileStreaming.
Import Machine Bytes.
Variable env : Env.

Local Abbreviation TileCache := ListDetour.TileCache.
Local Abbreviation Mesh := (DynamicNavigationMesh ListDetour.NavMesh ListDetour.TileCache).
Local Abbreviation tc_tiles := ListDetour.tc_tiles.
Local Abbreviation ct_data := ListDetour.ct_data.
Local Abbreviation ct_ref := ListDetour.ct_ref.
Local Abbreviation at_xz := ListDetour.at_xz.

Lemma filter_twice {A} (p q : A -> bool) l :
  filter p (filter q l) = filter (fun a => q a && p a) l.
Proof.
  induction l as [| a l IH]; [reflexivity |]. cbn [filter].
  destruct (q a); cbn [filter andb]; [destruct (p a) |]; now rewrite IH.
Qed.

Lemma filter_same {A} (p q : A -> bool) l :
  (forall a, In a l -> p a = q a) -> filter p l = filter q l.
Proof.
  induction l as [| a l IH]; intros H; [reflexivity |]. cbn [filter].
  rewrite (H a (or_introl eq_refl)), IH; [reflexivity |].
  intros b Hb. apply H. now right.
Qed.

Lemma filter_and_length_le {A} (p q : A -> bool) l :
  (length (filter (fun a => q a && p a) l) <= length (filter p l))%nat.
Proof.
  induction l as [| a l IH]; [apply le_n |]. cbn [filter].
  destruct (q a), (p a); cbn [andb length]; lia.
Qed.

Lemma find_none_keeps (p : ListDetour.CachedTile -> bool) l :
  find p l = None -> filter (fun t => negb (p t)) l = l.
Proof.
  induction l as [| a l IH]; [reflexivity |]. cbn [find filter].
  destruct (p a); [discriminate |]. cbn [negb]. intros H. now rewrite IH.
Qed.

(** Removing by a compressed tile reference drops the blobs under this
    reference, whether or not there is one. *)
Lemma removeTile_compressed k (tc : TileCache) :
  let tc' := snd (ListDetour.removeTile (CompressedTileRef k) tc) in
  tc_tiles tc' = filter (fun t => negb (ListDetour.has_ref k t)) (tc_tiles tc) /\
  ListDetour.tc_params tc' = ListDetour.tc_params tc /\
  ListDetour.tc_nextTile tc' = ListDetour.tc_nextTile tc.
Proof.
  cbv zeta. unfold ListDetour.removeTile.
  destruct (find (ListDetour.has_ref k) (tc_tiles tc)) eqn:E; cbn.
  - auto.
  - now rewrite (find_none_keeps _ _ E).
Qed.

(** The loop that removes the blobs [getTilesAt] listed drops exactly the
    blobs that carry one of the listed references. *)
Lemma remove_existing_refs (ts : list ListDetour.CachedTile) :
  forall tc : TileCache,
    let tc' := remove_existing (map (fun t => CompressedTileRef (ct_ref t)) ts) tc in
    tc_tiles tc'
      = filter (fun t => negb (existsb (fun t0 => ct_ref t =? ct_ref t0) ts)) (tc_tiles tc) /\
    ListDetour.tc_params tc' = ListDetour.tc_params tc /\
    ListDetour.tc_nextTile tc' = ListDetour.tc_nextTile tc.
Proof.
  induction ts as [| t0 ts IH]; intros tc; cbv zeta; cbn [map remove_existing].
  - split; [| split; reflexivity]. cbn [existsb negb].
    induction (tc_tiles tc) as [| a l IHl]; [reflexivity |]. cbn. now rewrite <- IHl at 1.
  - change (@removeTile _ _ ListDetour.detour (CompressedTileRef (ct_ref t0)) tc)
      with (ListDetour.removeTile (CompressedTileRef (ct_ref t0)) tc).
    destruct (removeTile_compressed (ct_ref t0) tc) as (Ht & Hp & Hn).
    destruct (ListDetour.removeTile (CompressedTileRef (ct_ref t0)) tc)
      as [[status d] tc1].
    cbn [snd] in Ht, Hp, Hn.
    destruct (IH tc1) as (Ht' & Hp' & Hn'). cbv zeta in Ht', Hp', Hn'.
    rewrite Ht', Hp', Hn', Ht, Hp, Hn. split; [| split; reflexivity].
    rewrite filter_twice. apply filter_same. intros t _.
    cbn [existsb]. unfold ListDetour.has_ref. now rewrite negb_orb.
Qed.

Lemma filter_all_nil {A} (l : list A) : filter (fun _ => true) l = l.
Proof. induction l as [| a l IH]; [reflexivity |]. cbn. now rewrite IH. Qed.

(** Dropping from a list without repeated references the blobs that carry
    the reference of one of its first [n] blobs leaves the blobs after the
    first [n]. *)
Lemma drop_first_refs n :
  forall F : list ListDetour.CachedTile,
    NoDup (map ct_ref F) ->
    filter (fun t => negb (existsb (fun t0 => ct_ref t =? ct_ref t0) (firstn n F))) F
      = skipn n F.
Proof.
  induction n as [| n IH]; intros F Hnd.
  - cbn [firstn skipn existsb negb]. apply filter_all_nil.
  - destruct F as [| a F]; [reflexivity |].
    inversion Hnd as [| ? ? Hnotin Hnd']; subst.
    cbn [firstn skipn filter existsb]. rewrite Z.eqb_refl. cbn [orb negb].
    rewrite <- (IH F Hnd'). apply filter_same. intros t Hin.
    destruct (Z.eqb_spec (ct_ref t) (ct_ref a)) as [E | _]; [| reflexivity].
    exfalso. apply Hnotin. rewrite <- E. now apply in_map.
Qed.

Lemma firstn_filter_In {A} n (p : A -> bool) l a :
  In a (firstn n (filter p l)) -> In a l /\ p a = true.
Proof.
  intros H. apply In_firstn in H. now apply filter_In in H.
Qed.

(** What the removal loop of [RemoveTile] and of [build_tiles] leaves of
    the blobs of the coordinate, and of every other coordinate. *)
Lemma remove_listed_tiles (tc : TileCache) x z n :
  ListDetour.references_fresh tc ->
  let tc' := remove_existing (ListDetour.getTilesAt x z n tc) tc in
  filter (at_xz x z) (tc_tiles tc') = skipn (Z.to_nat n) (filter (at_xz x z) (tc_tiles tc)) /\
  (forall x' z', (x', z') <> (x, z) ->
     filter (at_xz x' z') (tc_tiles tc') = filter (at_xz x' z') (tc_tiles tc)) /\
  ListDetour.references_fresh tc' /\
  ListDetour.tc_params tc' = ListDetour.tc_params tc /\
  (length (tc_tiles tc') <= length (tc_tiles tc))%nat /\
  (forall t, In t (tc_tiles tc') -> In t (tc_tiles tc)) /\
  (length (filter (fun t => negb (at_xz x z t)) (tc_tiles tc'))
   <= length (filter (fun t => negb (at_xz x z t)) (tc_tiles tc)))%nat.
Proof.
  intros Hf. cbv zeta. unfold ListDetour.getTilesAt. rewrite firstn_map.
  set (F := filter (at_xz x z) (tc_tiles tc)).
  destruct (remove_existing_refs (firstn (Z.to_nat n) F) tc) as (Ht & Hp & Hn).
  cbv zeta in Ht, Hp, Hn.
  set (tc' := remove_existing
                (map (fun t => CompressedTileRef (ct_ref t)) (firstn (Z.to_nat n) F)) tc) in *.
  destruct Hf as [Hnd Hlt].
  assert (HndF : NoDup (map ct_ref F)) by (now apply NoDup_map_filter).
  split; [| split; [| split; [| split; [| split; [| split]]]]].
  - rewrite Ht, filter_twice.
    rewrite (filter_same _
               (fun t => at_xz x z t
                         && negb (existsb (fun t0 => ct_ref t =? ct_ref t0)
                                    (firstn (Z.to_nat n) F))))
      by (intros t _; apply andb_comm).
    rewrite <- filter_twice. fold F. now apply drop_first_refs.
  - intros x' z' Hne. rewrite Ht, filter_twice.
    apply filter_same. intros t Hin.
    destruct (at_xz x' z' t) eqn:Hat; [| now rewrite andb_false_r].
    rewrite andb_true_r.
    destruct (existsb _ (firstn (Z.to_nat n) F)) eqn:Ex; [| reflexivity].
    exfalso. apply existsb_exists in Ex. destruct Ex as (t0 & Hin0 & Eref).
    apply Z.eqb_eq in Eref. apply firstn_filter_In in Hin0. destruct Hin0 as [Hin0 Hat0].
    assert (t = t0) by (apply (NoDup_map_injective _ _ _ _ Hnd Hin Hin0); exact Eref).
    subst t0.
    assert (Hfalse : at_xz x z t = false).
    { apply (@at_xz_other x z x' z' t); [| exact Hat].
      intros Heq. apply Hne. now injection Heq as -> ->. }
    congruence.
  - unfold ListDetour.references_fresh. rewrite Ht, Hn.
    split; [now apply NoDup_map_filter |].
    intros t Hin. apply filter_In in Hin. now apply Hlt.
  - exact Hp.
  - rewrite Ht. apply filter_length_le.
  - rewrite Ht. intros t Hin. now apply filter_In in Hin.
  - rewrite Ht, filter_twice. apply filter_and_length_le.
Qed.

(** X18: [RemoveTile] does nothing without a navmesh.  With navmesh and
    cache it takes out of the cache the first [maxLayers_] blobs the cache
    lists for the coordinate, and nothing else: the blobs of every other
    coordinate stay, and so do the blobs of the coordinate beyond the first
    [maxLayers_], if there are any (the layer limit may have been lowered
    since they were built). *)
Theorem RemoveTile_removes base tile (st : Mesh) :
  (navMesh_ st = None -> RemoveTile base tile st = Ret st) /\
  (forall tc nm,
     (forall t s, tileCache_ (base t s : Mesh) = tileCache_ s) ->
     tileCache_ st = Some tc -> navMesh_ st = Some nm -> ListDetour.references_fresh tc ->
     exists st' tc',
       RemoveTile base tile st = Ret st' /\ tileCache_ st' = Some tc' /\
       filter (at_xz (iv_x tile) (iv_y tile)) (tc_tiles tc')
         = skipn (Z.to_nat (to_int (maxLayers_ (settings st))))
                 (filter (at_xz (iv_x tile) (iv_y tile)) (tc_tiles tc)) /\
       (forall x z, (x, z) <> (iv_x tile, iv_y tile) ->
          ListDetour.blobs_at x z tc' = ListDetour.blobs_at x z tc) /\
       ListDetour.references_fresh tc').
Proof.
  split.
  - intros H. unfold RemoveTile. now rewrite H.
  - intros tc nm Hbase Hc Hn Hf. unfold RemoveTile. rewrite Hn, Hc.
    cbn [getTilesAt ListDetour.detour].
    destruct (@remove_listed_tiles tc (iv_x tile) (iv_y tile)
                (to_int (maxLayers_ (settings st))) Hf) as (Hhere & Hother & Hf' & _).
    eexists. eexists. split; [reflexivity |].
    split; [rewrite Hbase; reflexivity |].
    split; [exact Hhere |]. split; [| exact Hf'].
    intros x z Hne. unfold ListDetour.blobs_at. now rewrite Hother.
Qed.

End TileStreaming.

Section TileRoundTrip.
Import Machine Bytes.
Variable env : Env.

Local Abbreviation TileCache := ListDetour.TileCache.
Local Abbreviation Mesh := (DynamicNavigationMesh ListDetour.NavMesh ListDetour.TileCache).
Local Abbreviation tc_tiles := ListDetour.tc_tiles.
Local Abbreviation ct_data := ListDetour.ct_data.
Local Abbreviation at_xz := ListDetour.at_xz.

Lemma key_differs_elsewhere x z (t t' : ListDetour.CachedTile) :
  at_xz x z t = true -> at_xz x z t' = false ->
  blob_key (ct_data t') <> blob_key (ct_data t).
Proof.
  unfold ListDetour.at_xz, ListDetour.ct_header, blob_key. intros Ht Ht' E.
  pose proof (f_equal (fun k : Z * Z * Z => fst (fst k)) E) as Ex.
  pose proof (f_equal (fun k : Z * Z * Z => snd (fst k)) E) as Ez.
  cbv beta zeta in Ex, Ez. cbn [fst snd] in Ex, Ez.
  rewrite Ex, Ez in Ht'. congruence.
Qed.

Lemma blobs_as_filter x z (l : list ListDetour.CachedTile) :
  map ct_data (filter (at_xz x z) l)
    = filter (fun d => (LayerHeader.tx (LayerHeader.decode d) =? x)
                       && (LayerHeader.ty (LayerHeader.decode d) =? z))
             (map ct_data l).
Proof.
  induction l as [| t l IH]; [reflexivity |]. cbn [filter map].
  unfold ListDetour.at_xz at 1, ListDetour.ct_header.
  destruct (_ && _); cbn [map]; now rewrite IH.
Qed.

Lemma filter_rev {A} (p : A -> bool) l : filter p (rev l) = rev (filter p l).
Proof.
  induction l as [| a l IH]; [reflexivity |]. cbn [rev filter].
  rewrite filter_app, IH. cbn [filter]. destruct (p a); cbn [rev]; [reflexivity |].
  apply app_nil_r.
Qed.

Lemma records_outlast_blobs (ts : list ListDetour.CachedTile) :
  (forall t, In t ts -> blob_well_formed t) ->
  (length ts <= length (flat_map tile_record ts))%nat.
Proof.
  induction ts as [| t ts IH]; intros Hwf; cbn [flat_map length]; [lia |].
  rewrite length_app.
  assert (0 < length (tile_record t))%nat.
  { destruct (Hwf t (or_introl eq_refl)) as (Hlen & _). unfold tile_record.
    rewrite length_app, firstn_length_le by exact Hlen. unfold LayerHeader.size. lia. }
  assert (length ts <= length (flat_map tile_record ts))%nat
    by (apply IH; intros t' Ht'; apply Hwf; now right).
  lia.
Qed.

(** [ReadTiles] on the records of well-formed blobs whose keys are free in
    a cache with room returns true with these blobs cached, in front of the
    blobs the cache held. *)
Lemma ReadTiles_accepts (ts : list ListDetour.CachedTile) silent (st : Mesh)
    (tc : TileCache) :
  never_fails env -> tileCache_ st = Some tc ->
  (forall t, In t ts -> blob_well_formed t) ->
  NoDup (map (fun t => blob_key (ct_data t)) ts) ->
  (forall t t', In t ts -> In t' (tc_tiles tc) ->
                blob_key (ct_data t') <> blob_key (ct_data t)) ->
  Z.of_nat (length (tc_tiles tc) + length ts)
    <= TileCacheParams.maxTiles (ListDetour.tc_params tc) ->
  exists st' tc',
    ReadTiles env (flat_map tile_record ts) silent st = Ret (true, st') /\
    tileCache_ st' = Some tc' /\
    map ct_data (tc_tiles tc') = rev (map ct_data ts) ++ map ct_data (tc_tiles tc).
Proof.
  intros Hok Hc Hwf Hnd Hfree Hcap.
  destruct (@read_tiles_records env ts Hok (length (flat_map tile_record ts)) tc []
              Hwf Hnd Hfree Hcap (records_outlast_blobs ts Hwf))
    as (tc' & queue' & E & Hd & _).
  unfold ReadTiles. rewrite Hc, E.
  set (st1 := set_tileQueue (set_tileCache st (Some tc')) queue').
  set (p := build_queued queue' (tc', navMesh_ st1)).
  set (st2 := set_detour st1 (update float_0 (fst p) (snd p))).
  assert (Hc2 : tileCache_ st2 = Some (fst (update float_0 (fst p) (snd p))))
    by reflexivity.
  assert (Ht2 : tc_tiles (fst (update float_0 (fst p) (snd p))) = tc_tiles tc').
  { rewrite (proj1 (update_list _ _ _)). unfold p. now rewrite build_queued_tiles. }
  eexists. exists (fst (update float_0 (fst p) (snd p))).
  split; [reflexivity |]. split; [| now rewrite Ht2].
  destruct silent; [exact Hc2 |].
  destruct (send_tile_added queue' st2) as (_ & _ & _ & _ & Hcq & _).
  now rewrite Hcq.
Qed.

(** What [GetTileData] writes when no more than [maxLayers_] well-formed
    blobs are cached for the coordinate: their records. *)
Lemma GetTileData_records (st : Mesh) (tc : TileCache) x z :
  tileCache_ st = Some tc -> ListDetour.references_fresh tc ->
  (forall t, In t (tc_tiles tc) -> blob_well_formed t) ->
  (length (filter (at_xz x z) (tc_tiles tc))
   <= Z.to_nat (to_int (maxLayers_ (settings st))))%nat ->
  GetTileData {| iv_x := x; iv_y := z |} st
    = Ret (flat_map tile_record (filter (at_xz x z) (tc_tiles tc))).
Proof.
  intros Hc Hf Hwf Hcount. unfold GetTileData, WriteTiles. cbn [iv_x iv_y].
  rewrite Hc. f_equal. now apply write_tiles_at_records.
Qed.

(** The keys of the blobs of a coordinate are free in a cache that holds no
    blob at this coordinate. *)
Lemma keys_free_elsewhere x z (tiles tiles2 : list ListDetour.CachedTile) :
  filter (at_xz x z) tiles2 = [] ->
  forall t t', In t (filter (at_xz x z) tiles) -> In t' tiles2 ->
               blob_key (ct_data t') <> blob_key (ct_data t).
Proof.
  intros Hfree t t' Ht Ht'. apply filter_In in Ht. destruct Ht as [_ Hat].
  apply (@key_differs_elsewhere x z); [exact Hat |].
  destruct (at_xz x z t') eqn:E; [| reflexivity].
  assert (Hin' : In t' (filter (at_xz x z) tiles2)) by (apply filter_In; now split).
  rewrite Hfree in Hin'. contradiction.
Qed.

(** Blobs of one coordinate put in front of a cache that held none there:
    what the cache holds afterwards, coordinate by coordinate. *)
Lemma streamed_blobs x z (tiles tiles2 tiles2' : list ListDetour.CachedTile) :
  filter (at_xz x z) tiles2 = [] ->
  map ct_data tiles2'
    = rev (map ct_data (filter (at_xz x z) tiles)) ++ map ct_data tiles2 ->
  map ct_data (filter (at_xz x z) tiles2')
    = rev (map ct_data (filter (at_xz x z) tiles)) /\
  (forall x' z', (x', z') <> (x, z) ->
     map ct_data (filter (at_xz x' z') tiles2')
       = map ct_data (filter (at_xz x' z') tiles2)).
Proof.
  intros Hfree Hd.
  set (ts := filter (at_xz x z) tiles) in *.
  assert (Hts : forall x' z',
             filter (fun d => (LayerHeader.tx (LayerHeader.decode d) =? x')
                              && (LayerHeader.ty (LayerHeader.decode d) =? z'))
                    (map ct_data ts)
             = if (x' =? x) && (z' =? z) then map ct_data ts else []).
  { intros x' z'. rewrite <- blobs_as_filter.
    destruct ((x' =? x) && (z' =? z)) eqn:Exz.
    - apply andb_true_iff in Exz. destruct Exz as [Ex Ez].
      apply Z.eqb_eq in Ex, Ez. subst x' z'. f_equal.
      unfold ts. rewrite filter_twice. apply filter_same.
      intros t _. now destruct (at_xz x z t).
    - replace (filter (at_xz x' z') ts) with (@nil ListDetour.CachedTile);
        [reflexivity |].
      symmetry. apply filter_nil_iff. intros t Ht. apply filter_In in Ht.
      destruct Ht as [_ Hat].
      apply (@at_xz_other x' z' x z t); [| exact Hat].
      intros Heq. injection Heq as -> ->. now rewrite !Z.eqb_refl in Exz. }
  split.
  - rewrite (blobs_as_filter x z tiles2'), Hd.
    rewrite filter_app, filter_rev, Hts, !Z.eqb_refl. cbn [andb].
    rewrite <- blobs_as_filter, Hfree. cbn [map]. now rewrite app_nil_r.
  - intros x' z' Hne. rewrite (blobs_as_filter x' z' tiles2'), Hd.
    rewrite filter_app, filter_rev, Hts.
    destruct ((x' =? x) && (z' =? z)) eqn:Exz.
    + apply andb_true_iff in Exz. destruct Exz as [Ex Ez].
      apply Z.eqb_eq in Ex, Ez. subst. now contradiction Hne.
    + cbn [rev app]. now rewrite <- blobs_as_filter.
Qed.

(** X19: a tile can be streamed from one mesh into another.  When the
    blobs of a mesh are well formed, with distinct keys and no more than
    [maxLayers_] of them at a coordinate, what [GetTileData] writes for this
    coordinate is accepted by [AddTile] on any mesh whose cache holds no blob
    at the coordinate and has room: [AddTile] returns true, the cache then
    holds the blobs of the coordinate byte for byte (in the order in which
    they were read), and the blobs of every other coordinate are as they
    were. *)
Theorem GetTileData_AddTile (st st2 : Mesh) (tc tc2 : TileCache) x z :
  never_fails env ->
  tileCache_ st = Some tc -> ListDetour.references_fresh tc ->
  (forall t, In t (tc_tiles tc) -> blob_well_formed t) ->
  NoDup (map (fun t => blob_key (ct_data t)) (tc_tiles tc)) ->
  (length (filter (at_xz x z) (tc_tiles tc))
   <= Z.to_nat (to_int (maxLayers_ (settings st))))%nat ->
  tileCache_ st2 = Some tc2 ->
  filter (at_xz x z) (tc_tiles tc2) = [] ->
  Z.of_nat (length (tc_tiles tc2) + length (filter (at_xz x z) (tc_tiles tc)))
    <= TileCacheParams.maxTiles (ListDetour.tc_params tc2) ->
  exists bytes st2' tc2',
    GetTileData {| iv_x := x; iv_y := z |} st = Ret bytes /\
    AddTile env bytes st2 = Ret (true, st2') /\
    tileCache_ st2' = Some tc2' /\
    ListDetour.blobs_at x z tc2' = rev (ListDetour.blobs_at x z tc) /\
    (forall x' z', (x', z') <> (x, z) ->
       ListDetour.blobs_at x' z' tc2' = ListDetour.blobs_at x' z' tc2).
Proof.
  intros Hok Hc Hf Hwf Hnd Hcount Hc2 Hfree Hcap.
  destruct (@ReadTiles_accepts (filter (at_xz x z) (tc_tiles tc)) false st2 tc2 Hok Hc2)
    as (st2' & tc2' & E & Hc2' & Hd).
  - intros t Ht. apply Hwf. now apply filter_In in Ht.
  - now apply NoDup_map_filter.
  - now apply keys_free_elsewhere.
  - exact Hcap.
  - exists (flat_map tile_record (filter (at_xz x z) (tc_tiles tc))), st2', tc2'.
    split; [now apply GetTileData_records |].
    split; [exact E |]. split; [exact Hc2' |].
    unfold ListDetour.blobs_at. now apply streamed_blobs.
Qed.

Lemma addTile_occupied (t : ListDetour.CachedTile) (tc : TileCache) :
  blob_well_formed t -> In t (tc_tiles tc) ->
  ListDetour.addTile (ct_data t) (ListDetour.ct_dataSize t) tc = (DT_FAILURE, NullRef, tc).
Proof.
  intros (Hlen & _ & _ & Hm & Hv) Hin.
  unfold ListDetour.ct_header in Hm, Hv. unfold ListDetour.addTile.
  destruct (Nat.ltb_spec (length (ct_data t)) LayerHeader.size); [lia |].
  rewrite Hm, Hv, !Z.eqb_refl. cbn [negb].
  replace (existsb _ (tc_tiles tc)) with true; [reflexivity |].
  symmetry. apply existsb_exists. exists t. split; [exact Hin |].
  unfold ListDetour.at_xzl, ListDetour.at_xz, ListDetour.ct_header.
  now rewrite !Z.eqb_refl.
Qed.

(** X20: a tile cannot be streamed over itself.  While a coordinate still
    holds a blob, [AddTile] on what [GetTileData] writes for it returns
    false on the first record, because the cache refuses a second blob under
    the same coordinate and layer; the cache and the navmesh stay as they
    were, the tile queue is left empty and no event is sent: the tile has to
    be removed first. *)
Theorem AddTile_occupied (st : Mesh) (tc : TileCache) x z :
  never_fails env ->
  tileCache_ st = Some tc -> ListDetour.references_fresh tc ->
  (forall t, In t (tc_tiles tc) -> blob_well_formed t) ->
  (length (filter (at_xz x z) (tc_tiles tc))
   <= Z.to_nat (to_int (maxLayers_ (settings st))))%nat ->
  filter (at_xz x z) (tc_tiles tc) <> [] ->
  exists bytes st',
    GetTileData {| iv_x := x; iv_y := z |} st = Ret bytes /\ bytes <> [] /\
    AddTile env bytes st = Ret (false, st') /\
    tileCache_ st' = Some tc /\ navMesh_ st' = navMesh_ st /\
    tileQueue_ st' = [] /\ events st' = events st.
Proof.
  intros Hok Hc Hf Hwf Hcount Hne.
  destruct (filter (at_xz x z) (tc_tiles tc)) as [| t ts] eqn:Ets; [now contradiction Hne |].
  assert (Hin : In t (tc_tiles tc)).
  { assert (H : In t (filter (at_xz x z) (tc_tiles tc))) by (rewrite Ets; now left).
    now apply filter_In in H. }
  pose proof (Hwf t Hin) as Hwft.
  exists (flat_map tile_record (t :: ts)).
  assert (Hnil : flat_map tile_record (t :: ts) <> []).
  { cbn [flat_map]. intros E. apply (f_equal Bytes.IsEof) in E.
    rewrite (tile_record_not_eof _ Hwft) in E. discriminate. }
  assert (Er : read_tiles env (length (flat_map tile_record (t :: ts)))
                 (flat_map tile_record (t :: ts)) tc [] = (false, tc, [])).
  { destruct (length (flat_map tile_record (t :: ts))) as [| fuel] eqn:El.
    - apply length_zero_iff_nil in El. now contradiction Hnil.
    - cbn [flat_map]. rewrite (@read_tiles_step env fuel t _ tc [] Hok Hwft).
      change (@addTile _ _ ListDetour.detour (ct_data t) (ListDetour.ct_dataSize t) tc)
        with (ListDetour.addTile (ct_data t) (ListDetour.ct_dataSize t) tc).
      now rewrite (@addTile_occupied t tc Hwft Hin). }
  eexists. split.
  { unfold GetTileData, WriteTiles. cbn [iv_x iv_y]. rewrite Hc. f_equal.
    rewrite write_tiles_at_records by (rewrite ?Ets; assumption).
    now rewrite Ets. }
  split; [exact Hnil |].
  unfold AddTile, ReadTiles. rewrite Hc, Er.
  split; [reflexivity |]. repeat split.
Qed.

(** X21: a tile can be taken out of a mesh and put back.  On a mesh whose
    blobs are well formed, with distinct keys, within the capacity of the
    cache and no more than [maxLayers_] of them at the coordinate, saving the
    tile with [GetTileData], removing it with [RemoveTile] and handing the
    saved bytes to [AddTile] brings back the blobs of the coordinate byte for
    byte, and leaves the blobs of every other coordinate as they were all
    along. *)
Theorem tile_out_and_back base (st : Mesh) (tc : TileCache) nm x z :
  never_fails env ->
  (forall t s, tileCache_ (base t s : Mesh) = tileCache_ s) ->
  tileCache_ st = Some tc -> navMesh_ st = Some nm ->
  ListDetour.references_fresh tc ->
  (forall t, In t (tc_tiles tc) -> blob_well_formed t) ->
  NoDup (map (fun t => blob_key (ct_data t)) (tc_tiles tc)) ->
  (length (filter (at_xz x z) (tc_tiles tc))
   <= Z.to_nat (to_int (maxLayers_ (settings st))))%nat ->
  Z.of_nat (length (tc_tiles tc)) <= TileCacheParams.maxTiles (ListDetour.tc_params tc) ->
  exists bytes st1 tc1 st2 tc2,
    GetTileData {| iv_x := x; iv_y := z |} st = Ret bytes /\
    RemoveTile base {| iv_x := x; iv_y := z |} st = Ret st1 /\
    tileCache_ st1 = Some tc1 /\ ListDetour.blobs_at x z tc1 = [] /\
    AddTile env bytes st1 = Ret (true, st2) /\
    tileCache_ st2 = Some tc2 /\
    ListDetour.blobs_at x z tc2 = rev (ListDetour.blobs_at x z tc) /\
    (forall x' z', (x', z') <> (x, z) ->
       ListDetour.blobs_at x' z' tc2 = ListDetour.blobs_at x' z' tc).
Proof.
  intros Hok Hbase Hc Hn Hf Hwf Hnd Hcount Hcap.
  set (n := to_int (maxLayers_ (settings st))) in *.
  set (F := filter (at_xz x z) (tc_tiles tc)) in *.
  destruct (@remove_listed_tiles tc x z n Hf)
    as (Hhere & Hother & Hf1 & Hp & _ & Hsub & Hlen).
  set (tc1 := remove_existing (ListDetour.getTilesAt x z n tc) tc) in *.
  fold F in Hhere. rewrite skipn_all2 in Hhere by exact Hcount.
  set (st1 := base {| iv_x := x; iv_y := z |} (set_tileCache st (Some tc1))).
  assert (Hc1 : tileCache_ st1 = Some tc1) by (unfold st1; now rewrite Hbase).
  assert (Hroom : Z.of_nat (length (tc_tiles tc1) + length F)
                  <= TileCacheParams.maxTiles (ListDetour.tc_params tc1)).
  { rewrite Hp.
    pose proof (filter_length (at_xz x z) (tc_tiles tc1)) as H1.
    pose proof (filter_length (at_xz x z) (tc_tiles tc)) as H2.
    rewrite Hhere in H1. cbn [length] in H1. fold F in H2. lia. }
  destruct (@ReadTiles_accepts F false st1 tc1 Hok Hc1) as (st2 & tc2 & E & Hc2 & Hd).
  - intros t Ht. apply Hwf. unfold F in Ht. now apply filter_In in Ht.
  - now apply NoDup_map_filter.
  - now apply keys_free_elsewhere.
  - exact Hroom.
  - destruct (@streamed_blobs x z (tc_tiles tc) (tc_tiles tc1) (tc_tiles tc2) Hhere Hd)
      as [Hback Hrest].
    exists (flat_map tile_record F), st1, tc1, st2, tc2.
    split; [now apply GetTileData_records |].
    split; [unfold RemoveTile; now rewrite Hn, Hc |].
    split; [exact Hc1 |].
    split; [unfold ListDetour.blobs_at; now rewrite Hhere |].
    split; [exact E |]. split; [exact Hc2 |].
    split; [exact Hback |].
    intros x' z' Hne. unfold ListDetour.blobs_at.
    now rewrite (Hrest x' z' Hne), (Hother x' z' Hne).
Qed.

End TileRoundTrip.

Section TileStreamingExamples.
Import Examples Scenarios.

Lemma RemoveTile_removes_witness :
  exists st' tc',
    RemoveTile forget_navmesh_tile {| iv_x := 0; iv_y := 0 |} (built_mesh 2 16) = Ret st' /\
    tileCache_ st' = Some tc' /\
    filter (ListDetour.at_xz 0 0) (ListDetour.tc_tiles tc') = [] /\
    length (filter (ListDetour.at_xz 0 0)
              (ListDetour.tc_tiles (ListDetour.cache_of (built_mesh 2 16)))) = 2%nat.
Proof.
  assert (Hc : tileCache_ (built_mesh 2 16) = Some (ListDetour.cache_of (built_mesh 2 16)))
    by (vm_compute; reflexivity).
  assert (Hn : exists nm, navMesh_ (built_mesh 2 16) = Some nm)
    by (eexists; vm_compute; reflexivity).
  destruct Hn as [nm Hn].
  assert (Hf : ListDetour.references_fresh (ListDetour.cache_of (built_mesh 2 16)))
    by (apply references_freshb_sound; vm_compute; reflexivity).
  destruct (proj2 (@RemoveTile_removes forget_navmesh_tile {| iv_x := 0; iv_y := 0 |}
                     (built_mesh 2 16))
              (ListDetour.cache_of (built_mesh 2 16)) nm
              (fun t s => eq_refl) Hc Hn Hf) as (st' & tc' & E & Hc' & Hhere & _).
  exists st', tc'. split; [exact E |]. split; [exact Hc' |].
  split; [| vm_compute; reflexivity].
  refine (eq_trans Hhere _). vm_compute. reflexivity.
Defined.

Lemma GetTileData_AddTile_witness :
  exists bytes st2' tc2',
    GetTileData {| iv_x := 0; iv_y := 0 |} (built_mesh 2 16) = Ret bytes /\
    AddTile two_layer_env bytes allocated_mesh = Ret (true, st2') /\
    tileCache_ st2' = Some tc2' /\
    ListDetour.blobs_at 0 0 tc2'
      = rev (ListDetour.blobs_at 0 0 (ListDetour.cache_of (built_mesh 2 16))).
Proof.
  destruct (snapshot_readyb_sound (built_mesh 2 16)) as
    (Hc & _ & Hf & Hwf & Hnd & _ & _ & _ & Hcount); [vm_compute; reflexivity |].
  assert (Hc2 : tileCache_ allocated_mesh = Some (ListDetour.cache_of allocated_mesh))
    by (vm_compute; reflexivity).
  assert (Hfree : filter (ListDetour.at_xz 0 0)
                    (ListDetour.tc_tiles (ListDetour.cache_of allocated_mesh)) = [])
    by (vm_compute; reflexivity).
  assert (Hcap : Z.of_nat
                   (length (ListDetour.tc_tiles (ListDetour.cache_of allocated_mesh))
                    + length (filter (ListDetour.at_xz 0 0)
                                (ListDetour.tc_tiles
                                   (ListDetour.cache_of (built_mesh 2 16)))))
                 <= TileCacheParams.maxTiles
                      (ListDetour.tc_params (ListDetour.cache_of allocated_mesh)))
    by (vm_compute; discriminate).
  destruct (@GetTileData_AddTile two_layer_env (built_mesh 2 16) allocated_mesh
              (ListDetour.cache_of (built_mesh 2 16)) (ListDetour.cache_of allocated_mesh)
              0 0 (scene_never_fails 2 [ground] []) Hc Hf Hwf Hnd (Hcount 0 0)
              Hc2 Hfree Hcap) as (bytes & st2' & tc2' & Eg & Ea & Hc2' & Hb & _).
  exists bytes, st2', tc2'. auto.
Defined.

Lemma AddTile_occupied_witness :
  exists bytes st',
    GetTileData {| iv_x := 0; iv_y := 0 |} (built_mesh 2 16) = Ret bytes /\
    AddTile two_layer_env bytes (built_mesh 2 16) = Ret (false, st') /\
    tileCache_ st' = tileCache_ (built_mesh 2 16) /\
    events st' = events (built_mesh 2 16).
Proof.
  destruct (snapshot_readyb_sound (built_mesh 2 16)) as
    (Hc & _ & Hf & Hwf & _ & _ & _ & _ & Hcount); [vm_compute; reflexivity |].
  assert (Hne : filter (ListDetour.at_xz 0 0)
                  (ListDetour.tc_tiles (ListDetour.cache_of (built_mesh 2 16))) <> [])
    by (vm_compute; discriminate).
  destruct (@AddTile_occupied two_layer_env (built_mesh 2 16)
              (ListDetour.cache_of (built_mesh 2 16)) 0 0
              (scene_never_fails 2 [ground] []) Hc Hf Hwf (Hcount 0 0) Hne)
    as (bytes & st' & Eg & _ & Ea & Hc' & _ & _ & He).
  exists bytes, st'. split; [exact Eg |]. split; [exact Ea |].
  split; [exact (eq_trans Hc' (eq_sym Hc)) | exact He].
Defined.

Lemma tile_out_and_back_witness :
  exists bytes st1 st2 tc2,
    GetTileData {| iv_x := 0; iv_y := 0 |} (built_mesh 2 16) = Ret bytes /\
    RemoveTile forget_navmesh_tile {| iv_x := 0; iv_y := 0 |} (built_mesh 2 16) = Ret st1 /\
    AddTile two_layer_env bytes st1 = Ret (true, st2) /\
    tileCache_ st2 = Some tc2 /\
    ListDetour.blobs_at 0 0 tc2
      = rev (ListDetour.blobs_at 0 0 (ListDetour.cache_of (built_mesh 2 16))).
Proof.
  destruct (snapshot_readyb_sound (built_mesh 2 16)) as
    (Hc & _ & Hf & Hwf & Hnd & Hcap & _ & _ & Hcount); [vm_compute; reflexivity |].
  assert (Hn : exists nm, navMesh_ (built_mesh 2 16) = Some nm)
    by (eexists; vm_compute; reflexivity).
  destruct Hn as [nm Hn].
  destruct (@tile_out_and_back two_layer_env forget_navmesh_tile (built_mesh 2 16)
              (ListDetour.cache_of (built_mesh 2 16)) nm 0 0
              (scene_never_fails 2 [ground] []) (fun t s => eq_refl)
              Hc Hn Hf Hwf Hnd (Hcount 0 0) Hcap)
    as (bytes & st1 & tc1 & st2 & tc2 & Eg & Er & _ & _ & Ea & Hc2 & Hb & _).
  exists bytes, st1, st2, tc2.
  split; [exact Eg |]. split; [exact Er |]. split; [exact Ea |].
  split; [exact Hc2 | exact Hb].
Defined.

End TileStreamingExamples.

(** ** Rebuilding one tile *)

Section TileRebuild.
Import Machine.
Variable env : Env.

Local Abbreviation TileCache := ListDetour.TileCache.
Local Abbreviation Mesh := (DynamicNavigationMesh ListDetour.NavMesh ListDetour.TileCache).
Local Abbreviation tc_tiles := ListDetour.tc_tiles.
Local Abbreviation ct_data := ListDetour.ct_data.
Local Abbreviation at_xz := ListDetour.at_xz.

(** The blobs [BuildTile] hands back depend on the box and the attributes
    of the mesh only. *)
Lemma BuildTile_same_blobs geometryList x z (st st' : Mesh) blobs blobs' s s' :
  BuildTile env geometryList x z st = Ret (blobs, s) ->
  BuildTile env geometryList x z st' = Ret (blobs', s') ->
  boundingBox_ st' = boundingBox_ st -> settings st' = settings st ->
  blobs' = blobs.
Proof.
  intros E E' Hb Hs.
  apply BuildTile_cases in E. apply BuildTile_cases in E'. cbv zeta in E, E'.
  assert (Hv : tile_is_void env geometryList x z st'
               <-> tile_is_void env geometryList x z st)
    by (now apply tile_is_void_same).
  rewrite Hb, Hs in E'.
  destruct E as (tc & nm & _ & _ & [(-> & _ & Hwhy) | (layers & Hnv & Hl & _ & Hbl & _)]);
    destruct E' as (tc' & nm' & _ & _ &
                    [(-> & _ & Hwhy') | (layers' & Hnv' & Hl' & _ & Hbl' & _)]).
  - reflexivity.
  - exfalso. destruct Hwhy as [H | [H | (l & H & H')]].
    + apply Hnv'. now apply Hv.
    + congruence.
    + rewrite H in Hl'. injection Hl' as <-. congruence.
  - exfalso. destruct Hwhy' as [H | [H | (l & H & H')]].
    + apply Hnv. now apply Hv.
    + congruence.
    + rewrite H in Hl. injection Hl as <-. congruence.
  - rewrite Hl in Hl'. injection Hl' as <-. congruence.
Qed.

(** The headers of the blobs [BuildTile] hands back. *)
Lemma BuildTile_blobs geometryList x z (st s : Mesh) blobs :
  is_int x -> is_int z ->
  BuildTile env geometryList x z st = Ret (blobs, s) ->
  forall k t, nth_error blobs k = Some t ->
    LayerHeader.magic (LayerHeader.decode (data t)) = LayerHeader.DT_TILECACHE_MAGIC /\
    LayerHeader.version (LayerHeader.decode (data t)) = LayerHeader.DT_TILECACHE_VERSION /\
    LayerHeader.tx (LayerHeader.decode (data t)) = x /\
    LayerHeader.ty (LayerHeader.decode (data t)) = z /\
    LayerHeader.tlayer (LayerHeader.decode (data t)) = 0 + Z.of_nat k /\
    dataSize t = Z.of_nat (length (data t)) /\
    (LayerHeader.size <= length (data t))%nat.
Proof.
  intros Hx Hz E k t Hk. apply BuildTile_cases in E. cbv zeta in E.
  destruct E as (tc & nm & _ & _ & [(-> & _) | (layers & _ & _ & Hmax & Hb & _)]);
    [destruct k; discriminate |].
  assert (Hfits : 0 + Z.of_nat (length layers) <= INT_MAX)
    by (unfold TILECACHE_MAXLAYERS, INT_MAX in *; lia).
  eapply build_layers_headers with (i := 0); eauto. lia.
Qed.

(** [addTile] accepts a blob with a proper header whose coordinate and
    layer are free while the cache has room. *)
Lemma addTile_free blob size (tc : TileCache) :
  (LayerHeader.size <= length blob)%nat ->
  LayerHeader.magic (LayerHeader.decode blob) = LayerHeader.DT_TILECACHE_MAGIC ->
  LayerHeader.version (LayerHeader.decode blob) = LayerHeader.DT_TILECACHE_VERSION ->
  (forall t', In t' (tc_tiles tc) ->
     ListDetour.at_xzl (LayerHeader.tx (LayerHeader.decode blob))
       (LayerHeader.ty (LayerHeader.decode blob))
       (LayerHeader.tlayer (LayerHeader.decode blob)) t' = false) ->
  Z.of_nat (length (tc_tiles tc)) < TileCacheParams.maxTiles (ListDetour.tc_params tc) ->
  exists tc',
    ListDetour.addTile blob size tc
      = (DT_SUCCESS, CompressedTileRef (ListDetour.tc_nextTile tc), tc') /\
    tc_tiles tc'
      = {| ListDetour.ct_ref := ListDetour.tc_nextTile tc;
           ListDetour.ct_data := blob; ListDetour.ct_dataSize := size |} :: tc_tiles tc /\
    ListDetour.tc_params tc' = ListDetour.tc_params tc.
Proof.
  intros Hlen Hm Hv Hfree Hroom. unfold ListDetour.addTile.
  destruct (Nat.ltb_spec (length blob) LayerHeader.size); [lia |].
  rewrite Hm, Hv, !Z.eqb_refl. cbn [negb].
  replace (existsb _ (tc_tiles tc)) with false.
  - destruct (Z.leb_spec (TileCacheParams.maxTiles (ListDetour.tc_params tc))
                (Z.of_nat (length (tc_tiles tc)))); [lia |].
    eexists. split; [reflexivity |]. split; reflexivity.
  - symmetry. destruct (existsb _ (tc_tiles tc)) eqn:E; [| reflexivity].
    apply existsb_exists in E. destruct E as (t' & Hin & Hat).
    rewrite (Hfree t' Hin) in Hat. discriminate.
Qed.

(** The loop of [build_tiles] that adds the new blobs of tile [(x, z)]:
    when their layers, counted from [i], are free and the cache has room,
    all of them are added and counted. *)
Lemma add_rebuilt_accepts x z (blobs : list TileCacheData) :
  forall i (tc : TileCache) (nm : option ListDetour.NavMesh) n,
    (forall k t, nth_error blobs k = Some t ->
       LayerHeader.magic (LayerHeader.decode (data t)) = LayerHeader.DT_TILECACHE_MAGIC /\
       LayerHeader.version (LayerHeader.decode (data t)) = LayerHeader.DT_TILECACHE_VERSION /\
       LayerHeader.tx (LayerHeader.decode (data t)) = x /\
       LayerHeader.ty (LayerHeader.decode (data t)) = z /\
       LayerHeader.tlayer (LayerHeader.decode (data t)) = i + Z.of_nat k /\
       dataSize t = Z.of_nat (length (data t)) /\
       (LayerHeader.size <= length (data t))%nat) ->
    (forall t', In t' (tc_tiles tc) -> at_xz x z t' = true ->
                LayerHeader.tlayer (ListDetour.ct_header t') < i) ->
    Z.of_nat (length (tc_tiles tc) + length blobs)
      <= TileCacheParams.maxTiles (ListDetour.tc_params tc) ->
    ListDetour.references_fresh tc -> nm <> None ->
    let r := add_rebuilt_tiles blobs (tc, nm) n in
    snd r = n + Z.of_nat (length blobs) /\
    map ct_data (tc_tiles (fst (fst r))) = rev (map data blobs) ++ map ct_data (tc_tiles tc) /\
    ListDetour.references_fresh (fst (fst r)) /\ snd (fst r) <> None /\
    ListDetour.tc_params (fst (fst r)) = ListDetour.tc_params tc.
Proof.
  induction blobs as [| b blobs IH]; intros i tc nm n Hhdr Hlow Hroom Hf Hnm; cbv zeta.
  - cbn [add_rebuilt_tiles fst snd length map rev app].
    split; [lia |]. split; [reflexivity |]. split; [exact Hf |].
    split; [exact Hnm | reflexivity].
  - cbn [add_rebuilt_tiles fst snd].
    change (@addTile _ _ ListDetour.detour (data b) (dataSize b) tc)
      with (ListDetour.addTile (data b) (dataSize b) tc).
    destruct (Hhdr 0%nat b eq_refl) as (Hm & Hv & Hx & Hz & Hl & _ & Hlen).
    rewrite Z.add_0_r in Hl.
    destruct (@addTile_free (data b) (dataSize b) tc Hlen Hm Hv) as (tc1 & E & Ht & Hp).
    { intros t' Hin. rewrite Hx, Hz, Hl. unfold ListDetour.at_xzl.
      destruct (at_xz x z t') eqn:Hat; [| reflexivity]. cbn [andb].
      specialize (Hlow t' Hin Hat). apply Z.eqb_neq. lia. }
    { cbn [length] in Hroom. lia. }
    rewrite E. cbn [dtStatusFailed].
    pose proof (addTile_references_fresh (data b) (dataSize b) Hf) as Hf1.
    rewrite E in Hf1. cbn [snd] in Hf1.
    destruct (buildNavMeshTile_list (CompressedTileRef (ListDetour.tc_nextTile tc)) tc1 nm)
      as [Efst Hsnd].
    destruct (buildNavMeshTile (CompressedTileRef (ListDetour.tc_nextTile tc)) tc1 nm)
      as [tc2 nm2] eqn:Eb.
    cbn [fst snd] in Efst, Hsnd. subst tc2.
    destruct (IH (i + 1) tc1 nm2 (n + 1)) as (Hn' & Hd & Hf' & Hnm' & Hp').
    + intros k t Hk. destruct (Hhdr (S k) t Hk) as (H1 & H2 & H3 & H4 & H5 & H6 & H7).
      repeat apply conj; auto. rewrite H5. lia.
    + intros t' Hin Hat. rewrite Ht in Hin. destruct Hin as [<- | Hin].
      * unfold ListDetour.ct_header. cbn [ListDetour.ct_data]. lia.
      * specialize (Hlow t' Hin Hat). lia.
    + rewrite Hp, Ht. cbn [length] in *. lia.
    + exact Hf1.
    + now apply Hsnd.
    + cbv zeta in Hn', Hd, Hf', Hnm', Hp'.
      split; [rewrite Hn'; cbn [length]; lia |].
      split; [| split; [exact Hf' | split; [exact Hnm' | congruence]]].
      rewrite Hd, Ht. cbn [map rev ListDetour.ct_data]. now rewrite <- app_assoc.
Qed.

(** One round of [build_tiles]: the blobs the coordinate held are replaced
    by the blobs [BuildTile] makes; every other coordinate keeps its own. *)
Lemma build_tiles_at_replaces geometryList x z (st sb : Mesh) (tc : TileCache) nm blobs n :
  layers_fit env -> is_int x -> is_int z ->
  tileCache_ st = Some tc -> navMesh_ st = Some nm ->
  ListDetour.references_fresh tc ->
  (length (filter (at_xz x z) (tc_tiles tc))
   <= Z.to_nat (to_int (maxLayers_ (settings st))))%nat ->
  BuildTile env geometryList x z st = Ret (blobs, sb) ->
  Z.of_nat (length (filter (fun t => negb (at_xz x z t)) (tc_tiles tc)) + length blobs)
    <= TileCacheParams.maxTiles (ListDetour.tc_params tc) ->
  exists st' tc',
    build_tiles_at env geometryList (x, z) (st, n)
      = Ret (st', n + Z.of_nat (length blobs)) /\
    tileCache_ st' = Some tc' /\ navMesh_ st' <> None /\
    (length (tc_tiles tc')
     <= length (filter (fun t => negb (at_xz x z t)) (tc_tiles tc)) + length blobs)%nat /\
    ListDetour.blobs_at x z tc' = rev (map data blobs) /\
    (forall x' z', (x', z') <> (x, z) ->
       filter (at_xz x' z') (tc_tiles tc') = filter (at_xz x' z') (tc_tiles tc)) /\
    ListDetour.references_fresh tc' /\
    ListDetour.tc_params tc' = ListDetour.tc_params tc /\
    node_ st' = node_ st /\ settings st' = settings st /\
    boundingBox_ st' = boundingBox_ st.
Proof.
  intros Hfit Hx Hz Hc Hn Hf Hcount Eb Hroom.
  unfold build_tiles_at. rewrite Hc. cbn [fst snd getTilesAt ListDetour.detour].
  set (m := to_int (maxLayers_ (settings st))) in *.
  destruct (@remove_listed_tiles tc x z m Hf)
    as (Hhere & Hother & Hf1 & Hp & _ & _ & Hlen).
  set (tc1 := remove_existing (ListDetour.getTilesAt x z m tc) tc) in *.
  rewrite skipn_all2 in Hhere by exact Hcount.
  destruct (@BuildTile_list env geometryList x z (set_tileCache st (Some tc1)) tc1 nm
              Hfit Hx Hz eq_refl Hn)
    as (blobs' & st2 & E & Hc2 & Hn2 & Hnode2 & _ & Hs2 & Hb2 & _).
  assert (blobs' = blobs)
    by (apply (BuildTile_same_blobs _ _ _ _ _ Eb E); reflexivity).
  subst blobs'. rewrite E. cbn [bind]. rewrite Hc2, Hn2.
  assert (Hnm : Some nm <> None) by discriminate.
  destruct (@add_rebuilt_accepts x z blobs 0 tc1 (Some nm) n) as (Hn' & Hd & Hf' & Hnm' & Hp').
  - exact (@BuildTile_blobs geometryList x z st sb blobs Hx Hz Eb).
  - intros t' Hin Hat.
    assert (Hin' : In t' (filter (at_xz x z) (tc_tiles tc1))) by (apply filter_In; now split).
    rewrite Hhere in Hin'. contradiction.
  - rewrite Hp.
    pose proof (filter_length (at_xz x z) (tc_tiles tc1)) as H1.
    rewrite Hhere in H1. cbn [length] in H1. lia.
  - exact Hf1.
  - exact Hnm.
  - cbv zeta in Hn', Hd, Hf', Hnm', Hp'.
    destruct (add_rebuilt_tiles blobs (tc1, Some nm) n) as [p n'] eqn:Ep.
    cbn [fst snd] in Hn', Hd, Hf', Hnm', Hp'. subst n'.
    eexists. exists (fst p). split; [reflexivity |].
    split; [reflexivity |]. split; [exact Hnm' |].
    split.
    { apply (f_equal (@length _)) in Hd.
      rewrite length_app, length_rev, !length_map in Hd.
      pose proof (filter_length (at_xz x z) (tc_tiles tc1)) as H1.
      rewrite Hhere in H1. cbn [length] in H1. lia. }
    assert (Hd' : map ct_data (tc_tiles (fst p))
                  = rev (map ct_data (@nil ListDetour.CachedTile)) ++ rev (map data blobs)
                    ++ map ct_data (tc_tiles tc1)) by (cbn; exact Hd).
    split; [| split; [| split; [| split; [| split; [| split]]]]]; cbn; auto; try congruence.
    + unfold ListDetour.blobs_at. rewrite blobs_as_filter, Hd, filter_app.
      rewrite <- blobs_as_filter, Hhere. cbn [map]. rewrite app_nil_r.
      rewrite filter_rev. f_equal.
      transitivity (filter (fun _ => true) (map data blobs)); [| apply filter_all_nil].
      apply filter_same.
      intros d Hin0. apply in_map_iff in Hin0. destruct Hin0 as (t & <- & Hin).
      apply In_nth_error in Hin. destruct Hin as [k Hk].
      destruct (@BuildTile_blobs geometryList x z st sb blobs Hx Hz Eb k t Hk)
        as (_ & _ & -> & -> & _).
      now rewrite !Z.eqb_refl.
    + intros x' z' Hne. rewrite <- (Hother x' z' Hne).
      assert (Hne' : (x', z') <> (x, z)) by exact Hne.
      destruct (@add_rebuilt_tiles_elsewhere blobs tc1 (Some nm) n x' z' x z Hne')
        as (_ & Hsame & _); auto.
      * intros t Hin. apply In_nth_error in Hin. destruct Hin as [k Hk].
        destruct (@BuildTile_blobs geometryList x z st sb blobs Hx Hz Eb k t Hk)
          as (_ & _ & Htx & Hty & _).
        now split.
      * cbv zeta in Hsame. rewrite Ep in Hsame. exact Hsame.
Qed.

(** [Build(from, to)] on a single tile runs the loop body once. *)
Lemma Build_range_single x z (st : Mesh) :
  node_ st <> None -> navMesh_ st <> None ->
  Build_range env {| iv_x := x; iv_y := z |} {| iv_x := x; iv_y := z |} st
  = ('(st1, _) <- build_tiles_at env (collect_geometries env) (x, z) (st, 0) ;;
     Ret (true, st1)).
Proof.
  intros Hn Hm. unfold Build_range, build_tiles.
  destruct (node_ st); [| contradiction]. destruct (navMesh_ st); [| contradiction].
  unfold tile_coordinates, int_range. cbn [iv_x iv_y]. rewrite !Z.sub_diag.
  change (Z.to_nat (0 + 1)) with 1%nat.
  cbn [seq map flat_map app for_each Z.of_nat].
  rewrite !Z.add_0_r.
  destruct (build_tiles_at env (collect_geometries env) (x, z) (st, 0)) as [[s1 k] | |];
    reflexivity.
Qed.

(** X22: rebuilding a single tile with [Build(from, to)] replaces the blobs
    of its coordinate by the blobs [BuildTile] makes for it, the last layer
    first in the list of the cache, and leaves every other coordinate as it
    was; this needs the coordinate to hold no more than [maxLayers_] blobs
    before, so that all of them are removed, and room in the cache for the
    new ones. *)
Theorem rebuild_replaces_tile x z (st sb : Mesh) (tc : TileCache) blobs :
  layers_fit env -> is_int x -> is_int z ->
  node_ st <> None -> navMesh_ st <> None -> tileCache_ st = Some tc ->
  ListDetour.references_fresh tc ->
  (length (filter (at_xz x z) (tc_tiles tc))
   <= Z.to_nat (to_int (maxLayers_ (settings st))))%nat ->
  BuildTile env (collect_geometries env) x z st = Ret (blobs, sb) ->
  Z.of_nat (length (filter (fun t => negb (at_xz x z t)) (tc_tiles tc)) + length blobs)
    <= TileCacheParams.maxTiles (ListDetour.tc_params tc) ->
  exists st' tc',
    Build_range env {| iv_x := x; iv_y := z |} {| iv_x := x; iv_y := z |} st
      = Ret (true, st') /\
    tileCache_ st' = Some tc' /\
    ListDetour.blobs_at x z tc' = rev (map data blobs) /\
    (forall x' z', (x', z') <> (x, z) ->
       ListDetour.blobs_at x' z' tc' = ListDetour.blobs_at x' z' tc).
Proof.
  intros Hfit Hx Hz Hnode Hnav Hc Hf Hcount Eb Hroom.
  rewrite (@Build_range_single x z st Hnode Hnav).
  destruct (navMesh_ st) as [nm |] eqn:Hn; [| contradiction].
  destruct (@build_tiles_at_replaces (collect_geometries env) x z st sb tc nm blobs 0
              Hfit Hx Hz Hc Hn Hf Hcount Eb Hroom)
    as (st' & tc' & E & Hc' & _ & _ & Hhere & Hother & _).
  rewrite E. cbn [bind]. exists st', tc'.
  split; [reflexivity |]. split; [exact Hc' |]. split; [exact Hhere |].
  intros x' z' Hne. unfold ListDetour.blobs_at. now rewrite (Hother x' z' Hne).
Qed.


End TileRebuild.

Section TileRebuildExamples.
Import Examples Scenarios.

Lemma rebuild_replaces_tile_witness :
  exists blobs sb st' tc',
    BuildTile (scene_env true 1 [ground] [])
      (collect_geometries (scene_env true 1 [ground] [])) 0 0 (built_mesh 2 16)
      = Ret (blobs, sb) /\
    Build_range (scene_env true 1 [ground] []) {| iv_x := 0; iv_y := 0 |}
      {| iv_x := 0; iv_y := 0 |} (built_mesh 2 16) = Ret (true, st') /\
    tileCache_ st' = Some tc' /\
    ListDetour.blobs_at 0 0 tc' = rev (map data blobs) /\
    length blobs = 1%nat /\
    length (ListDetour.blobs_at 0 0 (ListDetour.cache_of (built_mesh 2 16))) = 2%nat.
Proof.
  assert (Hroom : forall (a b : nat) (m : Z), a = 0%nat -> b = 1%nat -> (1 <=? m) = true ->
                    Z.of_nat (a + b) <= m) by (intros a b m -> -> H; lia).
  assert (Hb : exists blobs sb,
             BuildTile (scene_env true 1 [ground] [])
               (collect_geometries (scene_env true 1 [ground] [])) 0 0 (built_mesh 2 16)
             = Ret (blobs, sb) /\ length blobs = 1%nat)
    by (eexists; eexists; split; vm_compute; reflexivity).
  destruct Hb as (blobs & sb & Eb & Hlen).
  assert (Hnode : node_ (built_mesh 2 16) <> None) by (vm_compute; discriminate).
  assert (Hnav : navMesh_ (built_mesh 2 16) <> None) by (vm_compute; discriminate).
  assert (Hc : tileCache_ (built_mesh 2 16) = Some (ListDetour.cache_of (built_mesh 2 16)))
    by (vm_compute; reflexivity).
  assert (Hf : ListDetour.references_fresh (ListDetour.cache_of (built_mesh 2 16)))
    by (apply references_freshb_sound; vm_compute; reflexivity).
  assert (Hcount : (length (filter (ListDetour.at_xz 0 0)
                              (ListDetour.tc_tiles (ListDetour.cache_of (built_mesh 2 16))))
                    <= Z.to_nat (Machine.to_int (maxLayers_ (settings (built_mesh 2 16)))))%nat)
    by (apply Nat.leb_le; vm_compute; reflexivity).
  assert (Hz : length (filter (fun t => negb (ListDetour.at_xz 0 0 t))
                         (ListDetour.tc_tiles (ListDetour.cache_of (built_mesh 2 16))))
               = 0%nat) by (vm_compute; reflexivity).
  assert (Hm : (1 <=? TileCacheParams.maxTiles
                        (ListDetour.tc_params (ListDetour.cache_of (built_mesh 2 16))))
               = true)
    by (vm_compute; reflexivity).
  destruct (@rebuild_replaces_tile (scene_env true 1 [ground] []) 0 0 (built_mesh 2 16) sb
              (ListDetour.cache_of (built_mesh 2 16)) blobs)
    as (st' & tc' & E & Hc' & Hhere & _).
  - apply scene_layers_fit. vm_compute. discriminate.
  - split; vm_compute; discriminate.
  - split; vm_compute; discriminate.
  - exact Hnode.
  - exact Hnav.
  - exact Hc.
  - exact Hf.
  - exact Hcount.
  - exact Eb.
  - exact (Hroom _ _ _ Hz Hlen Hm).
  - exists blobs, sb, st', tc'.
    split; [exact Eb |]. split; [exact E |]. split; [exact Hc' |].
    split; [exact Hhere |]. split; [exact Hlen |]. vm_compute. reflexivity.
Defined.


End TileRebuildExamples.

(** ** Tiles without geometry *)

Section VoidTiles.
Import Machine.
Variable env : Env.

Local Abbreviation TileCache := ListDetour.TileCache.
Local Abbreviation Mesh := (DynamicNavigationMesh ListDetour.NavMesh ListDetour.TileCache).
Local Abbreviation tc_tiles := ListDetour.tc_tiles.
Local Abbreviation at_xz := ListDetour.at_xz.

(** A loop that keeps [P] until it meets [a], turns [P] into [Q] at [a] and
    keeps [Q] from then on ends in [Q] when [a] is among its rounds. *)
Lemma for_each_reaches {A S : Type} (body : A -> S -> outcome S) (P Q : S -> Prop) a l :
  In a l ->
  (forall b s0, In b l -> P s0 -> exists s1, body b s0 = Ret s1 /\ P s1) ->
  (forall s0, P s0 -> exists s1, body a s0 = Ret s1 /\ Q s1) ->
  (forall b s0, In b l -> Q s0 -> exists s1, body b s0 = Ret s1 /\ Q s1) ->
  forall s, P s -> exists s', for_each body l s = Ret s' /\ Q s'.
Proof.
  induction l as [| b l IH]; intros Hin HP HPQ HQ s Hs; [destruct Hin |].
  cbn [for_each]. destruct Hin as [-> | Hin].
  - destruct (HPQ s Hs) as (s1 & E & H1). rewrite E. cbn [bind].
    apply for_each_invariant; [exact H1 |].
    intros b' s0 Hb. apply HQ. now right.
  - destruct (HP b s (or_introl eq_refl) Hs) as (s1 & E & H1). rewrite E. cbn [bind].
    apply IH; [exact Hin | | exact HPQ | | exact H1].
    + intros b' s0 Hb. apply HP. now right.
    + intros b' s0 Hb. apply HQ. now right.
Qed.

(** A round of [build_tiles] changes neither the attributes nor the box of
    the mesh. *)
Lemma build_tiles_at_settings geometryList xz (s s' : Mesh * Z) :
  build_tiles_at env geometryList xz s = Ret s' ->
  settings (fst s') = settings (fst s) /\ boundingBox_ (fst s') = boundingBox_ (fst s).
Proof.
  destruct s as [st n]. unfold build_tiles_at.
  destruct (tileCache_ st) as [tc |]; [| discriminate].
  destruct (BuildTile env geometryList (fst xz) (snd xz) _) as [[tiles st2] | |] eqn:Eb;
    cbn [bind]; try discriminate.
  apply BuildTile_cases in Eb. cbv zeta in Eb.
  destruct Eb as (tc0 & nm0 & _ & _ & Hcase).
  destruct (tileCache_ st2) as [tc2 |]; [| discriminate].
  destruct (add_rebuilt_tiles tiles (tc2, navMesh_ st2) n) as [p n'].
  intros E. injection E as <-. cbn [fst].
  destruct Hcase as [(_ & -> & _) | (layers & _ & _ & _ & _ & ->)]; cbn; auto.
Qed.

(** The round of [build_tiles] at a coordinate without geometry that holds
    no more than [maxLayers_] blobs: all of them are removed, none is built
    and no event is sent. *)
Lemma build_tiles_at_void geometryList x z (st : Mesh) n tc nm :
  tileCache_ st = Some tc -> navMesh_ st = Some nm -> ListDetour.references_fresh tc ->
  tile_is_void env geometryList x z st ->
  (length (filter (at_xz x z) (tc_tiles tc))
   <= Z.to_nat (to_int (maxLayers_ (settings st))))%nat ->
  exists st',
    build_tiles_at env geometryList (x, z) (st, n) = Ret (st', n) /\
    ListDetour.rebuild_invariant x z [] (st', n) /\
    settings st' = settings st /\ boundingBox_ st' = boundingBox_ st /\
    events st' = events st.
Proof.
  intros Hc Hn Hf Hv Hcount.
  unfold build_tiles_at. rewrite Hc. cbn [fst snd getTilesAt ListDetour.detour].
  set (m := to_int (maxLayers_ (settings st))) in *.
  destruct (@remove_listed_tiles tc x z m Hf) as (Hhere & _ & Hf1 & _).
  set (tc1 := remove_existing (ListDetour.getTilesAt x z m tc) tc) in *.
  rewrite skipn_all2 in Hhere by exact Hcount.
  assert (Hv1 : tile_is_void env geometryList x z (set_tileCache st (Some tc1)))
    by (apply (tile_is_void_same env geometryList x z (set_tileCache st (Some tc1)) st);
        [reflexivity | reflexivity | exact Hv]).
  rewrite (@BuildTile_void env geometryList x z (set_tileCache st (Some tc1)) tc1 nm
             eq_refl Hn Hv1).
  cbn [bind tileCache_ set_tileCache add_rebuilt_tiles].
  eexists. split; [reflexivity |].
  split; [| split; [reflexivity | split; reflexivity]].
  exists tc1, nm. cbn. auto.
Qed.

(** Any round of [build_tiles] leaves the blobs of a coordinate without
    geometry as they were, or removes all of them. *)
Lemma build_tiles_at_void_kept geometryList x z (st0 : Mesh) x' z' kept s :
  layers_fit env -> is_int x' -> is_int z' ->
  tile_is_void env geometryList x z st0 ->
  ListDetour.rebuild_invariant x z kept s ->
  settings (fst s) = settings st0 -> boundingBox_ (fst s) = boundingBox_ st0 ->
  (length kept <= Z.to_nat (to_int (maxLayers_ (settings st0))))%nat ->
  exists s',
    build_tiles_at env geometryList (x', z') s = Ret s' /\
    (ListDetour.rebuild_invariant x z kept s' \/
     (x', z') = (x, z) /\ ListDetour.rebuild_invariant x z [] s') /\
    settings (fst s') = settings st0 /\ boundingBox_ (fst s') = boundingBox_ st0.
Proof.
  intros Hfit Hx Hz Hv Hinv Hs Hb Hlen.
  destruct (Z.eq_dec x' x) as [-> | Hx'];
    [destruct (Z.eq_dec z' z) as [-> | Hz'] |].
  - destruct s as [st n]. cbn [fst] in Hs, Hb.
    destruct Hinv as (tc & nm & Hc & Hn & Hf & Hk). cbn [fst] in Hc, Hn.
    destruct (@build_tiles_at_void geometryList x z st n tc nm Hc Hn Hf)
      as (st' & E & Hinv' & Hs' & Hb' & _).
    + now apply (tile_is_void_same env geometryList x z st st0).
    + rewrite Hk, Hs. exact Hlen.
    + exists (st', n). split; [exact E |]. split; [right; split; [reflexivity | exact Hinv'] |].
      cbn [fst]. split; congruence.
  - destruct (@build_tiles_at_elsewhere env geometryList x z kept x z' s Hfit Hx Hz)
      as (s' & E & Hinv'); [congruence | exact Hinv |].
    exists s'. split; [exact E |]. split; [now left |].
    destruct (build_tiles_at_settings _ _ _ E). split; congruence.
  - destruct (@build_tiles_at_elsewhere env geometryList x z kept x' z' s Hfit Hx Hz)
      as (s' & E & Hinv'); [congruence | exact Hinv |].
    exists s'. split; [exact E |]. split; [now left |].
    destruct (build_tiles_at_settings _ _ _ E). split; congruence.
Qed.

(** A partial rebuild over a rectangle that holds a coordinate without
    geometry leaves no blob there, when the coordinate held no more blobs
    than [maxLayers_] before. *)
Lemma partial_rebuild_clears_void from to (st : Mesh) tc x z :
  layers_fit env ->
  node_ st <> None -> navMesh_ st <> None ->
  tileCache_ st = Some tc -> ListDetour.references_fresh tc ->
  is_int (iv_x from) -> is_int (iv_x to) -> is_int (iv_y from) -> is_int (iv_y to) ->
  iv_x from <= x <= iv_x to -> iv_y from <= z <= iv_y to ->
  tile_is_void env (collect_geometries env) x z st ->
  (length (ListDetour.cached_at x z st)
   <= Z.to_nat (to_int (maxLayers_ (settings st))))%nat ->
  exists st',
    Build_range env from to st = Ret (true, st') /\
    ListDetour.cached_at x z st' = [] /\ tileCache_ st' <> None /\
    tile_is_void env (collect_geometries env) x z st'.
Proof.
  intros Hfit Hnode Hnav Hc Hf Hfx Htx Hfy Hty Hinx Hinz Hv Hcount.
  unfold Build_range.
  destruct (node_ st) as [node |]; [| contradiction].
  destruct (navMesh_ st) as [nm |] eqn:Hn; [| contradiction].
  unfold build_tiles.
  unfold ListDetour.cached_at in Hcount. rewrite Hc in Hcount.
  set (few := fun kept : list ListDetour.CachedTile =>
                (length kept <= Z.to_nat (to_int (maxLayers_ (settings st))))%nat).
  set (same := fun s : Mesh * Z =>
                 settings (fst s) = settings st /\ boundingBox_ (fst s) = boundingBox_ st).
  assert (Hin : forall x' z', In (x', z') (tile_coordinates from to) ->
                              is_int x' /\ is_int z').
  { intros x' z' H. apply In_tile_coordinates in H. unfold is_int in *. lia. }
  destruct (@for_each_reaches _ _ (build_tiles_at env (collect_geometries env))
              (fun s => (exists kept, ListDetour.rebuild_invariant x z kept s /\ few kept)
                        /\ same s)
              (fun s => ListDetour.rebuild_invariant x z [] s /\ same s)
              (x, z) (tile_coordinates from to)) with (s := (st, 0))
    as ([st1 n1] & E & Hinv & Hs1 & Hb1).
  - apply In_tile_coordinates. split; assumption.
  - intros [x' z'] s0 Hxz ((kept & Hk & Hfew) & Hs0 & Hb0).
    destruct (Hin x' z' Hxz) as [Hx' Hz'].
    destruct (@build_tiles_at_void_kept (collect_geometries env) x z st x' z' kept s0
                Hfit Hx' Hz' Hv Hk Hs0 Hb0 Hfew)
      as (s1 & E & [Hk1 | [_ Hk1]] & Hs1 & Hb1); exists s1; (split; [exact E |]).
    + split; [exists kept; now split | now split].
    + split; [exists []; split; [exact Hk1 | unfold few; cbn; lia] | now split].
  - intros s0 ((kept & Hk & Hfew) & Hs0 & Hb0).
    destruct (@build_tiles_at_void_kept (collect_geometries env) x z st x z kept s0
                Hfit) as (s1 & E & Hk1 & Hs1 & Hb1); auto.
    + unfold is_int in *. lia.
    + unfold is_int in *. lia.
    + exists s1. split; [exact E |]. split; [| now split].
      destruct Hk1 as [Hk1 | [_ Hk1]]; [| exact Hk1].
      destruct s0 as [st0 n0]. destruct Hk as (tc0 & nm0 & Hc0 & Hn0 & Hf0 & Hk0).
      cbn [fst] in Hc0, Hn0, Hs0, Hb0.
      destruct (@build_tiles_at_void (collect_geometries env) x z st0 n0 tc0 nm0 Hc0 Hn0 Hf0)
        as (st' & E' & Hinv' & _).
      * now apply (tile_is_void_same env (collect_geometries env) x z st0 st).
      * rewrite Hk0, Hs0. exact Hfew.
      * rewrite E in E'. injection E' as ->. exact Hinv'.
  - intros [x' z'] s0 Hxz (Hk & Hs0 & Hb0).
    destruct (Hin x' z' Hxz) as [Hx' Hz'].
    destruct (@build_tiles_at_void_kept (collect_geometries env) x z st x' z' [] s0
                Hfit Hx' Hz' Hv Hk Hs0 Hb0)
      as (s1 & E & Hk1 & Hs1 & Hb1); [cbn; lia |].
    exists s1. split; [exact E |]. split; [| now split].
    destruct Hk1 as [Hk1 | [_ Hk1]]; exact Hk1.
  - split; [| now split].
    exists (filter (at_xz x z) (tc_tiles tc)). split; [| exact Hcount].
    exists tc, nm. auto.
  - rewrite E. cbn [bind]. exists st1. split; [reflexivity |].
    destruct Hinv as (tc1 & nm1 & Hc1 & _ & _ & Hk1). cbn [fst] in Hc1, Hs1, Hb1.
    unfold ListDetour.cached_at. rewrite Hc1.
    split; [exact Hk1 |]. split; [discriminate |].
    now apply (tile_is_void_same env (collect_geometries env) x z st1 st).
Qed.

(** C6 (as amended): a tile coordinate whose expanded box holds no geometry
    makes [BuildTile] return zero layers, without event or error, whatever
    the mesh holds; [WriteTiles] writes nothing for a coordinate the cache
    holds no blob for; and the cache holds no blob for such a coordinate
    after a full build, and after a partial rebuild over a rectangle that
    holds the coordinate provided the cache held no more than [maxLayers_]
    blobs for it before. *)
Theorem void_tile_is_not_persisted x z :
  layers_fit env ->
  (forall (st : Mesh) tc nm,
     tileCache_ st = Some tc -> navMesh_ st = Some nm ->
     tile_is_void env (collect_geometries env) x z st ->
     BuildTile env (collect_geometries env) x z st = Ret ([], st)) /\
  (forall (st : Mesh) tc,
     tileCache_ st = Some tc -> ListDetour.cached_at x z st = [] ->
     write_tiles_at (maxLayers_ (settings st)) tc x z = [] /\
     WriteTiles x z st = Ret [] /\
     GetTileData {| iv_x := x; iv_y := z |} st = Ret []) /\
  (forall fuel (st st' : Mesh),
     Build env fuel st = Ret (true, st') ->
     is_int (numTilesX_ st') -> is_int (numTilesZ_ st') ->
     tile_is_void env (collect_geometries env) x z st' ->
     ListDetour.cached_at x z st' = []) /\
  (forall from to (st : Mesh) tc,
     node_ st <> None -> navMesh_ st <> None ->
     tileCache_ st = Some tc -> ListDetour.references_fresh tc ->
     is_int (iv_x from) -> is_int (iv_x to) -> is_int (iv_y from) -> is_int (iv_y to) ->
     iv_x from <= x <= iv_x to -> iv_y from <= z <= iv_y to ->
     tile_is_void env (collect_geometries env) x z st ->
     (length (ListDetour.cached_at x z st)
      <= Z.to_nat (to_int (maxLayers_ (settings st))))%nat ->
     exists st',
       Build_range env from to st = Ret (true, st') /\
       tile_is_void env (collect_geometries env) x z st' /\
       ListDetour.cached_at x z st' = [] /\
       GetTileData {| iv_x := x; iv_y := z |} st' = Ret []).
Proof.
  intros Hfit.
  split; [intros st tc nm Hc Hn Hv; now apply BuildTile_void with (tc := tc) (nm := nm) |].
  split.
  { intros st tc Hc Hnone.
    destruct (unlisted_tile_not_written st x z Hc Hnone) as [Hw Hr].
    split; [exact Hw |]. split; exact Hr. }
  split; [intros fuel st st'; now apply full_build_leaves_no_void_blob |].
  intros from to st tc Hnode Hnav Hc Hf Hfx Htx Hfy Hty Hinx Hinz Hv Hcount.
  destruct (@partial_rebuild_clears_void from to st tc x z Hfit Hnode Hnav Hc Hf
              Hfx Htx Hfy Hty Hinx Hinz Hv Hcount) as (st' & E & Hnone & Hc' & Hv').
  exists st'. split; [exact E |]. split; [exact Hv' |]. split; [exact Hnone |].
  destruct (tileCache_ st') as [tc' |] eqn:Hc1; [| now contradiction Hc'].
  exact (proj2 (unlisted_tile_not_written st' x z Hc1 Hnone)).
Qed.

End VoidTiles.


Section VoidTilesExamples.
Import Examples Scenarios.

Lemma emptied_layers_fit : layers_fit emptied_env.
Proof.
  intros s b d l E. cbn in E. injection E as <-. vm_compute. discriminate.
Qed.

Lemma void_tile_is_not_persisted_witness :
  BuildTile (scene_env true 1 [ground] []) [ground] 1 0 (built_mesh 1 16)
    = Ret ([], built_mesh 1 16) /\
  ListDetour.cached_at 1 0 (built_mesh 1 16) = [] /\
  GetTileData {| iv_x := 1; iv_y := 0 |} (built_mesh 1 16) = Ret [] /\
  length (ListDetour.cached_at 0 0 (built_mesh 2 16)) = 2%nat /\
  exists st',
    Build_range emptied_env {| iv_x := 0; iv_y := 0 |} {| iv_x := 1; iv_y := 0 |}
      (built_mesh 2 16) = Ret (true, st') /\
    ListDetour.cached_at 0 0 st' = [] /\
    GetTileData {| iv_x := 0; iv_y := 0 |} st' = Ret [].
Proof.
  assert (Hfit : layers_fit (scene_env true 1 [ground] []))
    by (apply scene_layers_fit; vm_compute; discriminate).
  destruct (@void_tile_is_not_persisted (scene_env true 1 [ground] []) 1 0 Hfit)
    as (Hzero & Hwrite & Hfull & _).
  assert (Hc1 : tileCache_ (built_mesh 1 16) = Some (ListDetour.cache_of (built_mesh 1 16)))
    by (vm_compute; reflexivity).
  assert (Hn1 : exists nm, navMesh_ (built_mesh 1 16) = Some nm)
    by (eexists; vm_compute; reflexivity).
  destruct Hn1 as [nm1 Hn1].
  split; [apply (Hzero _ _ _ Hc1 Hn1); left; vm_compute; reflexivity |].
  assert (Hnone : ListDetour.cached_at 1 0 (built_mesh 1 16) = []).
  { apply (Hfull 1%nat (fresh_mesh (Some mesh_node) 16)).
    - vm_compute. reflexivity.
    - split; vm_compute; discriminate.
    - split; vm_compute; discriminate.
    - left. vm_compute. reflexivity. }
  split; [exact Hnone |].
  split; [exact (proj2 (proj2 (Hwrite _ _ Hc1 Hnone))) |].
  split; [vm_compute; reflexivity |].
  destruct (@void_tile_is_not_persisted emptied_env 0 0 emptied_layers_fit)
    as (_ & _ & _ & Hpart).
  assert (Hc2 : tileCache_ (built_mesh 2 16) = Some (ListDetour.cache_of (built_mesh 2 16)))
    by (vm_compute; reflexivity).
  assert (Hnode : node_ (built_mesh 2 16) <> None) by (vm_compute; discriminate).
  assert (Hnav : navMesh_ (built_mesh 2 16) <> None) by (vm_compute; discriminate).
  assert (Hf : ListDetour.references_fresh (ListDetour.cache_of (built_mesh 2 16)))
    by (apply references_freshb_sound; vm_compute; reflexivity).
  destruct (Hpart {| iv_x := 0; iv_y := 0 |} {| iv_x := 1; iv_y := 0 |}
              (built_mesh 2 16) (ListDetour.cache_of (built_mesh 2 16)) Hnode Hnav Hc2 Hf)
    as (st' & E & _ & Hnone' & Hdata).
  - split; vm_compute; discriminate.
  - split; vm_compute; discriminate.
  - split; vm_compute; discriminate.
  - split; vm_compute; discriminate.
  - cbn. lia.
  - cbn. lia.
  - left. vm_compute. reflexivity.
  - apply Nat.leb_le. vm_compute. reflexivity.
  - exists st'. split; [exact E |]. split; [exact Hnone' | exact Hdata].
Defined.

(** C6 as stated fails on a coordinate that holds more blobs than
    [maxLayers_]: after a full build that found five layers under a limit of
    four, the geometry is taken away and the tile is rebuilt; the rebuild
    removes four blobs, [BuildTile] returns zero layers for the tile, and the
    fifth blob is still written into the snapshot. *)
Lemma void_tile_stays_in_snapshot :
  exists st' b rest,
    Build_range emptied_env {| iv_x := 0; iv_y := 0 |} {| iv_x := 0; iv_y := 0 |}
      (built_mesh 5 4) = Ret (true, st') /\
    tile_is_void emptied_env (collect_geometries emptied_env) 0 0 st' /\
    BuildTile emptied_env (collect_geometries emptied_env) 0 0 st' = Ret ([], st') /\
    length (ListDetour.cached_at 0 0 (built_mesh 5 4)) = 5%nat /\
    length (ListDetour.cached_at 0 0 st') = 1%nat /\
    GetTileData {| iv_x := 0; iv_y := 0 |} st' = Ret (b :: rest) /\
    WriteTiles 0 0 st' <> Ret [].
Proof.
  do 3 eexists.
  split; [vm_compute; reflexivity |].
  split; [left; vm_compute; reflexivity |].
  split; [vm_compute; reflexivity |].
  split; [vm_compute; reflexivity |].
  split; [vm_compute; reflexivity |].
  split; [vm_compute; reflexivity |].
  vm_compute. discriminate.
Qed.

End VoidTilesExamples.

(** ** The snapshot of a mesh that was never built *)

Section EmptySnapshot.
Import Machine Bytes.
Context {NM TC : Type} {D : Detour NM TC}.
Variable env : Env.

(** X24: [GetNavigationDataAttr] writes nothing at all exactly when the
    mesh has no navmesh or no tile cache; with both it writes at least the
    box, the two tile counts and the two parameter blocks, so the snapshot of
    a built mesh is never taken for an empty one.  Loading the snapshot of a
    mesh without navmesh or cache into any mesh just releases what that mesh
    held. *)
Theorem GetNavigationDataAttr_empty (st st2 : DynamicNavigationMesh NM TC) :
  (GetNavigationDataAttr st = [] <-> navMesh_ st = None \/ tileCache_ st = None) /\
  (navMesh_ st <> None -> tileCache_ st <> None ->
   (32 + NavMeshParams.size + TileCacheParams.size
    <= length (GetNavigationDataAttr st))%nat) /\
  (navMesh_ st = None \/ tileCache_ st = None ->
   SetNavigationDataAttr env (GetNavigationDataAttr st) st2
     = Ret (release_navigation_mesh st2)).
Proof.
  assert (Hlen : navMesh_ st <> None -> tileCache_ st <> None ->
                 (32 + NavMeshParams.size + TileCacheParams.size
                  <= length (GetNavigationDataAttr st))%nat).
  { intros Hn Hc. unfold GetNavigationDataAttr.
    destruct (navMesh_ st) as [nm |]; [| contradiction].
    destruct (tileCache_ st) as [tc |]; [| contradiction].
    rewrite !length_app, length_WriteBoundingBox, !length_WriteI32,
      length_NavMeshParams, length_TileCacheParams. lia. }
  assert (Hnone : navMesh_ st = None \/ tileCache_ st = None ->
                  GetNavigationDataAttr st = []).
  { unfold GetNavigationDataAttr. intros [-> | ->]; [reflexivity |].
    now destruct (navMesh_ st). }
  split; [split; [| exact Hnone] | split; [exact Hlen |]].
  - intros E.
    destruct (navMesh_ st) as [nm |] eqn:Hn; [| now left].
    destruct (tileCache_ st) as [tc |] eqn:Hc; [| now right].
    exfalso.
    assert (H : (32 + NavMeshParams.size + TileCacheParams.size
                 <= length (GetNavigationDataAttr st))%nat)
      by (apply Hlen; discriminate).
    rewrite E in H. cbn [length] in H. lia.
  - intros H. rewrite (Hnone H). reflexivity.
Qed.

End EmptySnapshot.

Section EmptySnapshotExamples.
Import Examples.

Lemma GetNavigationDataAttr_empty_witness :
  GetNavigationDataAttr (fresh_mesh (Some mesh_node) 16) = [] /\
  SetNavigationDataAttr (scene_env true 1 [ground] [])
    (GetNavigationDataAttr (fresh_mesh (Some mesh_node) 16)) (built_mesh 1 16)
    = Ret (release_navigation_mesh (built_mesh 1 16)) /\
  GetNavigationDataAttr (built_mesh 1 16) <> [].
Proof.
  destruct (@GetNavigationDataAttr_empty _ _ ListDetour.detour (scene_env true 1 [ground] [])
              (fresh_mesh (Some mesh_node) 16) (built_mesh 1 16)) as ([_ H1] & _ & H2).
  split; [apply H1; now left |]. split; [apply H2; now left |].
  intros E.
  assert (Hb : navMesh_ (built_mesh 1 16) = None \/ tileCache_ (built_mesh 1 16) = None)
    by (apply (@GetNavigationDataAttr_empty _ _ ListDetour.detour
                 (scene_env true 1 [ground] []) (built_mesh 1 16) (built_mesh 1 16));
        exact E).
  assert (Hn : exists nm, navMesh_ (built_mesh 1 16) = Some nm)
    by (eexists; vm_compute; reflexivity).
  assert (Hc : exists tc, tileCache_ (built_mesh 1 16) = Some tc)
    by (eexists; vm_compute; reflexivity).
  destruct Hn as [nm Hn], Hc as [tc Hc], Hb as [Hb | Hb]; congruence.
Defined.

End EmptySnapshotExamples.
